(* ===== verification/_CoqProject ===== *)
-Q . S2P
Prelude.v
FcgiProto.v
FcgiStream.v
CSprintf.v
FcgiWriter.v
FcgiParams.v
FcgiReader.v
FcgiRecords.v
OsAccept.v
OsAsync.v
OsDoIo.v
FcgiRequest.v
OsProcess.v
FcgiPrintf.v
FcgiControl.v
FcgiServe.v
Fcgio.v
FcgiStdio.v
StdioServe.v
CgiFcgi.v
CgiAnswer.v
CgiLoop.v
CgiMain.v
DbLang.v
DbContext.v
DbTag.v
DbExpression.v
DbTemplate.v
DbGrammar.v
DbBuiltin.v
DbStrings.v
DbData.v
DbServices.v
DbFunctions.v
DbExecute.v
DbParser.v
DbControl.v
DbMarkup.v
DbFrame.v
DbScope.v
DbTypes.v
DbProgram.v
DbHttp.v
DbSession.v
DbEnvironment.v
DbServer.v
DbSafety.v
DbStore.v
DbStored.v
DbJwt.v
DbCache.v
DbFastcgi.v
DbDemo.v
DbWitness.v
DbServerWitness.v
DbStoreWitness.v
