(* ===== verification/Prelude.v ===== *)
(** * dbPager Server: its interpreter, the FastCGI library and the CGI bridge

    dbPager Server makes pages from documents in an XML language, for a web server that reaches it
    through FastCGI.  This development models the language's parser and interpreter (C++, under
    [src/dbpager] and [src/libdbpager]) and the FastCGI development kit (C, under
    [src/fcgi-2.4.1-SNAP-0910052249]), proves what they promise, and records where they do not keep a
    promise.

    ** The program's parts

    - [dbpager/parser/dbpx_parser.cpp]: a document becomes a tree of tags.  The namespace of an element
      says whether it is a tag of the language, the call of a user tag, or markup.
    - [libdbpager/context.cpp], [tag_impl.cpp], [tag_tag.cpp], [tag_usr.cpp]: variables in layers and
      chained contexts, the tags and their methods, and the calls of tags that the document declares.
    - [dbpager/tag]: the built-in tags, the functions, and [tag_expression.cpp], which writes a text with
      expressions in braces: a tag's parameters and all text go through it.
    - [dbpager/interpreter]: a document parsed once and executed per request
      ([dbpager_application.cpp]); the variables, the session and the response of a request
      ([environment.cpp], with [dbpager/services/session_int.h]); the configuration and the cache of
      applications ([interpreter.cpp]).
    - [dbpager/application]: the FastCGI server [dbpagerd.cpp], whose worker threads take requests from the
      library and answer them with the interpreter; the Apache module and the command line.
    - [libfcgi/fcgiapp.c], [include/fcgiapp.h], [include/fastcgi.h]: the library of an application.
      [FCGX_Accept_r] takes a connection, reads a request's records and gives the application an
      environment and three buffered streams; [FCGX_Finish_r] ends the request.
    - [libfcgi/fcgi_stdio.c]: the functions of [stdio.h] on these streams, or on the C library's
      files when the program runs as plain CGI.  [libfcgi/fcgio.cpp]: C++ stream buffers on them.
    - [libfcgi/os_unix.c]: sockets and the accept loop, a table of asynchronous reads and writes
      driven by [select], signals and child processes.
    - [cgi-fcgi/cgi-fcgi.c]: the bridge, a CGI program that connects to (or starts) a FastCGI
      application, sends it the request and relays its body and its answer.

    ** The files

    - Prelude.v: faults, the state monad [M] with its notations, record update, C integers, memory
      access, tactics and hints.
    - FcgiProto.v: [fastcgi.h], records as bytes, [MakeHeader] and the other builders.
    - FcgiStream.v: [FCGX_Stream] and the calls on it.  [StreamProcs] is the interface to the two
      procedures of a stream; [Source] and [Sink] are what they promise, and the theorems on
      [FCGX_GetStr], [FCGX_GetLine], [FCGX_PutStr] and so on are proved against these promises.
    - FcgiWriter.v: [EmptyBuffProc], [WriteCloseRecords]; an open writer is a [Sink].
    - FcgiParams.v: [PutParam], [FCGX_GetParam], [ReadParams], with the reference decoder [nv_parse].
    - FcgiReader.v, FcgiRecords.v, FcgiControl.v: [FillBuffProc], [ProcessHeader] and the records
      that it answers itself; a connection that carries the records of a stream is a [Source].
    - OsAccept.v: [OS_CreateLocalIpcFd], [OS_FcgiConnect], the lock, [ClientAddrOK], [OS_Accept].
    - OsAsync.v, OsDoIo.v: the table of asynchronous operations, the signal handlers, [OS_LibInit],
      [OS_AsyncRead], [OS_AsyncWrite], [OS_Close], [OS_DoIo].  [Application] is the interface to the
      callbacks and to the memory that is read and written.
    - FcgiRequest.v: [FCGX_Request], [FCGX_Init], [FCGX_Accept_r], [FCGX_Finish_r], [FCGX_Free],
      [SetReaderType], [FCGX_StartFilterData]; the state of the library is the record [World].
    - OsProcess.v: [OS_SpawnChild], [OS_IsFcgi], [OS_SetFlags].
    - CSprintf.v, FcgiPrintf.v: [sprintf] for one conversion (the C library's, from ISO C), and
      [FCGX_VFPrintF], with the reference semantics [print] of a whole format.
    - FcgiServe.v: the [view] that an application has of a request; serving refines it.
    - Fcgio.v: the stream buffers of C++ over the library, for every [Source] and [Sink].
    - FcgiStdio.v, StdioServe.v: fcgi_stdio.c over the interface [Stdio] to the C library; a program
      on it, under FastCGI and under CGI.
    - CgiFcgi.v, CgiAnswer.v, CgiLoop.v, CgiMain.v: the bridge: what it sends, what
      [AppServerReadHandler] makes of an answer, the event loop as an [Application] of [OS_DoIo], the
      command line and [main].
    - DbLang.v: what the C++ code rests on: strings, doubles, exceptions, the monad [X] of computations
      that write and throw; [refines] (more fuel) and [frame]s (what a computation keeps), with the rules
      by which the theorems on the whole interpreter go through it; [Dcl], the interface to the DCL.
    - DbContext.v: [context]; a chain of contexts means a partial map ([binding]).
    - DbTag.v: the objects in a heap, the methods of [tag_impl], the state [world] of an execution, user
      tags; [Services], the interface to the operating system and to libraries.
    - DbExpression.v, DbTemplate.v, DbGrammar.v: the evaluator; texts with expressions as templates; the
      grammar of expressions with a reference semantics.
    - DbBuiltin.v, DbData.v, DbServices.v, DbFunctions.v: the tags and functions, one definition for each
      method [execute]; DbStrings.v, DbControl.v, DbMarkup.v: what those for texts, for control and for
      markup do.
    - DbExecute.v: the factory, the calls of functions, the dispatch [execute] by class, [execute_fuel].
    - DbParser.v: the parser, on the nodes that libxml's reader gives ([Documents]).
    - DbFrame.v: invariants of an execution.  A [policy] says what a program and a computation must
      satisfy; a policy with [PolicyLaws] is kept by [execute].  DbScope.v and DbTypes.v are two policies:
      layers, and types.
    - DbProgram.v: the parser builds what the policy of types asks for; parser and interpreter composed.
    - DbHttp.v: requests, responses, MIME and cookies ([Http], the interface to DCL, with [HttpLaws]),
      [Sessions], the interface to a session service, and names with several values.
    - DbSession.v, DbEnvironment.v: the built-in session; the constructor of an environment, its
      variables, its response and its path.
    - DbServer.v: [load], [get_app], [process_cgi_request] with the responses to exceptions, and the Apache
      module and the command line; [Config] and [Plugins] are what they take from outside.
    - DbSafety.v: type safety of the server over many requests, for session services with [SessionsLaws].
    - DbStore.v, DbStored.v: sessions in Redis and memcached, two more [Sessions]; the laws of a Redis server
      and a program logic for the proof that sessions are found again.
    - DbJwt.v: sessions in a signed token.
    - DbCache.v: [get_app] with threads, as a step relation.
    - DbFastcgi.v: [get_request], [send_response] and the loop of a worker, on the library of
      FcgiRequest.v.
    - DbDemo.v, DbWitness.v, DbServerWitness.v, DbStoreWitness.v: a concrete environment, a document,
      a request over the wire, a Redis server, and the theorems applied to them.

    ** How state and effects are modelled

    A C function is a function in the monad [M S A]: from a state to [Ok] with a result and the new
    state, to [Crash] with a fault (an access outside an object, a failed [assert], a signed overflow,
    a null dereference), or to [NoFuel].  The state is the C structures the function works on, as
    records with the fields of the source; [zoom] runs a function on a part of a larger state.  A
    pointer into a buffer is an offset, and every access is checked against the size of the object.
    Integers are [Z], reduced to the width of their type where the source converts or may overflow.
    A connection ([Conn]) has scripts of what reads and writes will do, in pieces of any size, with
    errors and interrupts, and collects what was written.  The kernel's answers to [accept], [select]
    and so on are scripts too: a theorem that holds for all scripts holds for every interleaving of
    the peers and the kernel.  A function that ends the process returns the status as an outcome.

    A method of the interpreter is a computation in [X W A]: from a state to an outcome (a value, or an
    exception of the class the code throws), a state and the text that was written to [out].  The tree
    of tags is a heap of records, with addresses for pointers; the class of an object is a value, so that
    a [static_cast] of a tag to another class is a fault ([BadCast]), as is following a pointer to a tag
    that does not exist ([Dangling]), a null pointer ([NullDeref]), or a pointer to a list or a map that
    a variable holds as text and where none is ([WildPointer]).  An exception leaves the state as it was when it was thrown: what a
    [catch] block restores is restored in the model, and what it forgets is not.  The iteration order
    of an [unordered_map] and the order of evaluation of operands are choices of the [Platform].

    ** What the theorems show

    - The server: [server_type_safe] (DbSafety.v): a sequence of requests is answered without a wrong cast
      of a tag or a dangling pointer to one, for documents as [documents_ok] asks; [worker_answers]
      (DbFastcgi.v): from the records of the web server to the records that it receives, for responses of
      less than 2 GB; [get_app_shared], [get_app_progress], [get_app_alone], [get_app_races] (DbCache.v):
      the cache with threads, with arbitrary results for the searches that race with an insertion;
      [query_variables] (DbEnvironment.v), [request_fields] (DbFastcgi.v): the data of a request are where
      the page looks for them.
    - Sessions: [redis_roundtrip] (DbStored.v), for a server that accepts the module's commands, and
      [jwt_roundtrip] (DbJwt.v): a saved session is loaded again; [redis_sessions_laws],
      [memcached_sessions_laws], [jwt_sessions_laws]: [server_type_safe] holds with them.
    - Documents and programs: [parse_well_typed] and [document_type_safe] (DbProgram.v),
      [execute_type_safe] (DbTypes.v): the casts of tags are to their classes and the pointers to tags
      lead to some, for every program the parser builds of a document as [documents_ok] asks; other faults
      ([WildPointer], [NullDeref], [MemFault]) are not excluded.  [execute_layers] (DbScope.v): an
      execution gives the context back with its layers; [execute_fuel] (DbExecute.v): results do not
      depend on fuel.
    - Expressions: [calc_reference] (DbGrammar.v): values, precedence and errors are those that the
      documentation of the language gives, where the evaluator does not depart from it ([calc_computes]
      says what it does there); [eval_renders], [eval_total] (DbTemplate.v): texts with expressions, and
      their end.
    - Tags: [set_value_assigns] (DbContext.v); [try_catches], [switch_first_case], [usr_call]
      (DbControl.v); [static_page] (DbMarkup.v); [tag_split_join], [replace_with_join] (DbStrings.v).
    - Requests: [serve_one_refines], [accepted_environment], [GetStr_delivers], [ReadParams_decodes]
      (FcgiServe.v, FcgiRequest.v): whatever the sizes of records and of the pieces they arrive in,
      the application reads what was sent and the web server gets what was written; the environment
      is the one that was sent.
    - Control records and errors: [FillBuffProc_begins], [get_values_answered],
      [unknown_type_answered], [bad_headers_refused] (FcgiControl.v), [StartFilterData_spec].
    - Formatted output: [VFPrintF_prints]; emulation of stdio: [stdio_serve_refines], [cgi_is_stdio];
      stream buffers: [streambuf_writes], [streambuf_reads] (Fcgio.v).
    - The bridge: [bridge_environment] (round trip with the library), [relay_invariant],
      [loop_goes_on], [body_forwarded], [answer_relayed] (every reachable state of the loop),
      [answer_reaches_web_server], [answer_handler_ends], [main_enters_loop], [ParseArgs_usage],
      [command_file_is_arguments].
    - The OS layer: [OS_Accept_correct], [OS_Async_keeps_invariant], [OS_LibInit_handlers],
      [child_descriptors].
    - Data: [MakeHeader_roundtrip], [MakeEndRequestBody_roundtrip], [AlignInt8_least],
      [PutParam_GetParam].
    - What goes wrong: [padded_begin_loses_environment], [empty_foreign_record_drops_content],
      [repeated_names_overflow_response], [OS_Accept_hangs], [OS_Close_strands_DoIo],
      [long_last_read_overflows], [wide_field_overflows], [negative_precision_is_zero],
      [fwrite_error_is_success], [large_body_dropped], [blank_line_underflows],
      [child_loses_listener], [replace_empty_diverges], [session_forgets], [get_app_races],
      [streambuf_after_end], [memcached_stays_broken], [refused_set_returns], [long_double_overflows],
      [put_string_long]; in the language, a second function in an
      expression, text after a call and comparisons with texts (the examples of DbDemo.v).

    ** Fuel

    A loop that is not structural runs on fuel that the definitions compute from the state and that
    the theorems show to be enough: the bytes and events still to come on a connection ([rd_fuel]) for
    [FillBuffProc] and [ReadParams]; the bytes to be moved for [FCGX_GetStr] and [FCGX_PutStr]; the
    bytes of a block for [AppServerReadHandler]; the characters of a format or of a command file; the
    events of the script for the accept loop.  Where the program itself may go on for ever the fuel is
    an argument: [OS_Accept] ([OS_Accept_hangs] shows that it can), the turns of the bridge's loop,
    and the nesting of command files, which may name themselves.  The fuel of [gets_loop] is the size
    of the caller's array: with more characters the next store is outside it.

    The evaluator's fuel is computed from the length of the text ([eval_total]).  [execute] has its fuel
    as an argument: a program can call itself and [dbp:while] need not end; [execute_fuel] says that a
    result is the result for all larger fuel.  The fuel of [parse] bounds the depth of includes.

    ** What is not modelled

    - [malloc] always has memory, except for [FCGI_FILE]s; the error returns for a lack of it are left
      out, and so are freed blocks (a freed stream is [None]).
    - Error messages on standard error, the [_WIN32] parts of the files and os_win32.c.
    - The mutex of the multi-threaded accept ([FCGX_Accept_r] is modelled for one thread; the
      [fcntl] lock between processes is modelled).
    - Files, the resolver, [socket], [bind], [connect], [exec] and [getpeername] are parameters; the
      text of floating point numbers and pointers is a parameter of [sprintf].
    - The DCL (strings, conversions, dates, processes), libxml, cURL, pcrecpp and jsoncpp are not part of
      the repository: they are the parameters [Dcl], [Services], [Documents], [Http], [Config] and
      [Plugins], with the few laws that are used ([DclLaws], [PlatformLaws], [HttpLaws],
      [TextLaws]).  So are hiredis, libmemcached, jwt-cpp and the pool of connections ([RedisLaws],
      [MemcachedLaws], [JwtLaws]).
    - A data race in the cache may have any result for the thread that races; that it harms the map itself,
      or the other threads, is left out, as the language would allow.
    - The depth of braces ([br_count] of [eval]) is an unbounded integer, where the code has an [int]: a
      text of 2^31 opening braces is out of the model.
    - The threads of [dbp:async] are run one after the other; what they share is the context, to which the
      code lets them write at the same time.
    - Threads share the cache of applications (DbCache.v); what else they share through the operating
      system, and the read-write lock of a session's own buffer, is left out.
    - The start of the server (command line, socket, privileges, threads), the CGI program dbp_cgi.cpp, the
      ISAPI module, the tags of plugins; the optimizer returns the tree it is given.
    - In Fcgio.v, peeking without a buffer: [Source] promises nothing for [FCGX_UnGetChar].
    - The examples and the bindings; the modules over databases and other services; the
      vendored libraries (mimetic, the MongoDB driver). *)
From stdpp Require Export base tactics list numbers option.
From Stdlib Require Export ZArith Lia.

#[global] Open Scope Z_scope.

(** ** Outcomes of a C computation *)

(** The ways a C function can go wrong short of returning: an access outside the object a
    pointer designates, a failed [assert], a signed overflow, a null dereference, a pointer that designates
    no object any more, a [static_cast] to a class that the object does not have, and a pointer that was read
    from a text and designates no live object of its class. *)
Inductive fault :=
  | MemFault
  | AssertFail
  | IntOverflow
  | NullDeref
  | Dangling
  | BadCast
  | WildPointer.

#[export] Instance fault_eq_dec : EqDecision fault.
Proof. solve_decision. Defined.

(** [NoFuel] is not an outcome of the program: it marks a loop whose iteration bound was too
    small, and the termination lemmas rule it out. *)
Inductive res (A : Type) :=
  | Ok (a : A)
  | Crash (f : fault)
  | NoFuel.
Arguments Ok {A} a.
Arguments Crash {A} f.
Arguments NoFuel {A}.

(** State passing with faults: the monad every stateful C function is translated into. *)
Definition M (S A : Type) := S -> res (A * S).

Definition ret {S A} (a : A) : M S A := fun s => Ok (a, s).

Definition bind {S A B} (m : M S A) (k : A -> M S B) : M S B :=
  fun s => match m s with
           | Ok (a, s') => k a s'
           | Crash f => Crash f
           | NoFuel => NoFuel
           end.

Definition crash {S A} (f : fault) : M S A := fun _ => Crash f.
Definition nofuel {S A} : M S A := fun _ => NoFuel.
Definition get {S} : M S S := fun s => Ok (s, s).
Definition modify {S} (f : S -> S) : M S unit := fun s => Ok (tt, f s).

(** [assert(b)] and [ASSERT(b)]. *)
Definition c_assert {S} (b : bool) : M S unit := if b then ret tt else crash AssertFail.

(** A pure computation that may fault. *)
Definition lift {S A} (r : res A) : M S A :=
  fun s => match r with
           | Ok a => Ok (a, s)
           | Crash f => Crash f
           | NoFuel => NoFuel
           end.

(** Runs a computation on the part of a larger state that a pointer leads to. *)
Definition zoom {S T A} (view : S -> T) (upd : T -> S -> S) (m : M T A) : M S A :=
  fun s => match m (view s) with
           | Ok (a, t) => Ok (a, upd t s)
           | Crash f => Crash f
           | NoFuel => NoFuel
           end.

Declare Scope c_scope.
Delimit Scope c_scope with C.
Notation "x <- m ;; k" := (bind m (fun x => k))
  (at level 100, m at next level, right associativity) : c_scope.
Notation "m ;;; k" := (bind m (fun _ => k))
  (at level 100, right associativity) : c_scope.
#[global] Open Scope c_scope.

(** ** Computations that neither fail an assertion nor run out of fuel

    They may still end in a fault of memory or arithmetic. *)

Definition faultless {A} (r : res A) : Prop :=
  match r with Crash AssertFail | NoFuel => False | _ => True end.

Definition calm {S A} (m : M S A) : Prop := forall s, faultless (m s).

Lemma calm_ret {S A} (a : A) : calm (@ret S A a).
Proof. by intros s. Qed.

Lemma calm_get {S} : calm (@get S).
Proof. by intros s. Qed.

Lemma calm_modify {S} (f : S -> S) : calm (modify f).
Proof. by intros s. Qed.

Lemma calm_bind {S A B} (m : M S A) (k : A -> M S B) : calm m -> (forall a, calm (k a)) -> calm (bind m k).
Proof.
  intros Hm Hk s. specialize (Hm s). unfold bind. destruct (m s) as [[a s']|f|]; [apply Hk|by destruct f|done].
Qed.

Lemma calm_lift {S A} (r : res A) : faultless r -> calm (@lift S A r).
Proof. intros H s. unfold lift. by destruct r as [a|[]|]. Qed.

Lemma calm_crash {S A} (f : fault) : f <> AssertFail -> calm (@crash S A f).
Proof. by intros H s; destruct f. Qed.

Lemma calm_zoom {S T A} (view : S -> T) (upd : T -> S -> S) (m : M T A) : calm m -> calm (zoom view upd m).
Proof. intros Hm s. specialize (Hm (view s)). unfold zoom. by destruct (m (view s)) as [[a t]|[]|]. Qed.

Create HintDb calm.
#[export] Hint Resolve calm_ret calm_get calm_modify calm_zoom calm_lift calm_crash : calm.

(** Through binds and case distinctions to the primitive computations. *)
Ltac calm :=
  repeat first
    [ progress intros
    | apply calm_bind
    | solve [auto with calm]
    | match goal with |- calm (match ?x with _ => _ end) => destruct x end ].

Definition rbind {A B} (r : res A) (k : A -> res B) : res B :=
  match r with Ok a => k a | Crash f => Crash f | NoFuel => NoFuel end.

Lemma bind_Ok {S A B} (m : M S A) (k : A -> M S B) s a s' :
  m s = Ok (a, s') -> bind m k s = k a s'.
Proof. intros H. unfold bind. by rewrite H. Qed.

Lemma bind_Crash {S A B} (m : M S A) (k : A -> M S B) s f :
  m s = Crash f -> bind m k s = Crash f.
Proof. intros H. unfold bind. by rewrite H. Qed.

Lemma bind_inv {S A B} (m : M S A) (k : A -> M S B) s r :
  bind m k s = Ok r -> exists a s', m s = Ok (a, s') /\ k a s' = Ok r.
Proof. unfold bind. destruct (m s) as [[a s']| |]; naive_solver. Qed.

Lemma zoom_Ok {S T A} (view : S -> T) upd (m : M T A) s a t :
  m (view s) = Ok (a, t) -> zoom view upd m s = Ok (a, upd t s).
Proof. intros H. unfold zoom. by rewrite H. Qed.

(** ** Record update *)

(** [s <| f := v |>] is the C assignment [s.f = v]; a field is assignable when it has a
    [Setter] instance. *)
Class Setter {R T} (p : R -> T) := setter : (T -> T) -> R -> R.
Arguments setter {R T} p {_} f r /.
Notation "s <| p := v |>" := (setter p (fun _ => v) s)
  (at level 1, left associativity, p at level 9, v at level 200, format "s  <| p  :=  v |>").

(** ** Machine integers *)

Definition INT_MAX : Z := 2147483647.
Definition INT_MIN : Z := -2147483648.
Definition UINT_MAX : Z := 4294967295.
Definition ULONG_MAX : Z := 18446744073709551615.

(** [(unsigned char) z], [(unsigned) z], [(unsigned long) z] and the usual two's complement
    conversion to [int]. *)
Definition uchar (z : Z) : Z := z mod 256.
Definition to_uint (z : Z) : Z := z mod 4294967296.
Definition to_ulong (z : Z) : Z := z mod 18446744073709551616.
Definition to_int (z : Z) : Z := (z + 2147483648) mod 4294967296 - 2147483648.
Definition to_long (z : Z) : Z := (z + 9223372036854775808) mod 18446744073709551616 - 9223372036854775808.
Definition to_ushort (z : Z) : Z := z mod 65536.
Definition to_short (z : Z) : Z := (z + 32768) mod 65536 - 32768.

(** Signed addition: overflow is undefined behaviour, reported as a fault. *)
Definition int_fits (z : Z) : bool := (INT_MIN <=? z) && (z <=? INT_MAX).
Definition int_chk (z : Z) : res Z := if int_fits z then Ok z else Crash IntOverflow.

Definition is_byte (b : Z) : Prop := 0 <= b < 256.

Lemma uchar_range z : is_byte (uchar z).
Proof. unfold is_byte, uchar. apply Z.mod_pos_bound. lia. Qed.

Lemma uchar_small z : is_byte z -> uchar z = z.
Proof. apply Z.mod_small. Qed.

Lemma land_255 z : Z.land z 255 = z mod 256.
Proof. change 255 with (Z.ones 8). by rewrite Z.land_ones by lia. Qed.

Lemma to_int_small z : INT_MIN <= z <= INT_MAX -> to_int z = z.
Proof. unfold to_int, INT_MIN, INT_MAX. intros. rewrite Z.mod_small; lia. Qed.

Lemma to_uint_small z : 0 <= z <= UINT_MAX -> to_uint z = z.
Proof. unfold to_uint, UINT_MAX. intros. rewrite Z.mod_small; lia. Qed.

Lemma shiftr_8 z : Z.shiftr z 8 = z / 256.
Proof. by rewrite Z.shiftr_div_pow2 by lia. Qed.

Lemma shiftr_16 z : Z.shiftr z 16 = z / 65536.
Proof. by rewrite Z.shiftr_div_pow2 by lia. Qed.

Lemma shiftr_24 z : Z.shiftr z 24 = z / 16777216.
Proof. by rewrite Z.shiftr_div_pow2 by lia. Qed.

Lemma shiftl_8 z : Z.shiftl z 8 = z * 256.
Proof. by rewrite Z.shiftl_mul_pow2 by lia. Qed.

Lemma shiftl_16 z : Z.shiftl z 16 = z * 65536.
Proof. by rewrite Z.shiftl_mul_pow2 by lia. Qed.

Lemma shiftl_24 z : Z.shiftl z 24 = z * 16777216.
Proof. by rewrite Z.shiftl_mul_pow2 by lia. Qed.

(** The four bytes of a big-endian 32-bit number. *)
Lemma be32_join n :
  n / 16777216 * 16777216 + n / 65536 mod 256 * 65536 + n / 256 mod 256 * 256 + n mod 256 = n.
Proof.
  replace (n / 16777216) with (n / 256 / 256 / 256) by (rewrite !Z.div_div by lia; done).
  replace (n / 65536) with (n / 256 / 256) by (rewrite !Z.div_div by lia; done).
  pose proof (Z.div_mod n 256 ltac:(lia)). pose proof (Z.div_mod (n / 256) 256 ltac:(lia)).
  pose proof (Z.div_mod (n / 256 / 256) 256 ltac:(lia)). lia.
Qed.

(** ** Byte buffers addressed by integer offsets *)

Definition zlen {A} (l : list A) : Z := Z.of_nat (length l).

(** The [n] elements from offset [off]. *)
Definition sub {A} (off n : Z) (l : list A) : list A :=
  take (Z.to_nat n) (drop (Z.to_nat off) l).

(** [l] with [bs] stored from offset [off]. *)
Definition splice {A} (off : Z) (bs l : list A) : list A :=
  take (Z.to_nat off) l ++ bs ++ drop (Z.to_nat off + length bs) l.

(** The C string that starts a list of characters. *)
Fixpoint c_string (bs : list Z) : list Z :=
  match bs with
  | [] => []
  | b :: bs => if b =? 0 then [] else b :: c_string bs
  end.

Lemma c_string_all bs : Forall (fun c => c <> 0) bs -> c_string bs = bs.
Proof. induction 1 as [|c bs Hc _ IH]; [done|]. cbn. rewrite IH. by destruct (Z.eqb_spec c 0). Qed.

Lemma c_string_chars bs : Forall (fun c => c <> 0) (c_string bs).
Proof. induction bs as [|c bs IH]; [constructor|]. cbn. destruct (Z.eqb_spec c 0); [constructor|by constructor]. Qed.

(** A read or a write of a C object of known size. *)
Definition mem_read (buf : list Z) (off n : Z) : res (list Z) :=
  if (0 <=? off) && (0 <=? n) && (off + n <=? zlen buf)
  then Ok (sub off n buf) else Crash MemFault.

Definition mem_write (buf : list Z) (off : Z) (bs : list Z) : res (list Z) :=
  if (0 <=? off) && (off + zlen bs <=? zlen buf)
  then Ok (splice off bs buf) else Crash MemFault.

Section zlists.
Context {A : Type}.
Implicit Types l k : list A.

Lemma zlen_nonneg l : 0 <= zlen l.
Proof. unfold zlen. lia. Qed.

Lemma zlen_nil : zlen ([] : list A) = 0.
Proof. done. Qed.

Lemma zlen_cons x l : zlen (x :: l) = 1 + zlen l.
Proof. unfold zlen. cbn [length]. lia. Qed.

Lemma zlen_app l k : zlen (l ++ k) = zlen l + zlen k.
Proof. unfold zlen. rewrite length_app. lia. Qed.

Lemma zlen_0 l : zlen l = 0 -> l = [].
Proof. unfold zlen. intros. apply nil_length_inv. lia. Qed.

Lemma zlen_pos l : l <> [] -> 0 < zlen l.
Proof. destruct l; [done|]. rewrite zlen_cons. pose proof (zlen_nonneg l). lia. Qed.

Lemma zlen_replicate n (x : A) : zlen (replicate n x) = Z.of_nat n.
Proof. unfold zlen. by rewrite length_replicate. Qed.

Lemma zlen_sub off n l :
  0 <= off -> 0 <= n -> off + n <= zlen l -> zlen (sub off n l) = n.
Proof. unfold zlen, sub. intros. rewrite length_take, length_drop. lia. Qed.

Lemma zlen_splice off k l :
  0 <= off -> off + zlen k <= zlen l -> zlen (splice off k l) = zlen l.
Proof.
  unfold zlen, splice. intros. rewrite !length_app, length_take, length_drop. lia.
Qed.

Lemma sub_0 off l : sub off 0 l = [].
Proof. done. Qed.

Lemma sub_neg off n l : n <= 0 -> sub off n l = [].
Proof. intros. unfold sub. by replace (Z.to_nat n) with 0%nat by lia. Qed.

Lemma sub_split off n m l :
  0 <= off -> 0 <= n -> 0 <= m -> sub off (n + m) l = sub off n l ++ sub (off + n) m l.
Proof.
  intros. unfold sub. rewrite (Z2Nat.inj_add n m), (Z2Nat.inj_add off n) by lia.
  by rewrite <- drop_drop, take_take_drop.
Qed.

Lemma sub_full l : sub 0 (zlen l) l = l.
Proof. unfold sub, zlen. rewrite Nat2Z.id. cbn [Z.to_nat]. by rewrite drop_0, take_ge. Qed.

Lemma sub_all n l : zlen l <= n -> sub 0 n l = l.
Proof. unfold sub, zlen. intros. rewrite drop_0, take_ge; [done|lia]. Qed.

Lemma sub_app_l off n l k :
  0 <= off -> off + n <= zlen l -> sub off n (l ++ k) = sub off n l.
Proof.
  intros H0 H. destruct (Z.leb_spec n 0); [by rewrite !sub_neg|].
  unfold sub, zlen in *. rewrite drop_app_le by lia.
  rewrite take_app_le; [done|]. rewrite length_drop. lia.
Qed.

Lemma sub_app_r off n l k :
  zlen l <= off -> sub off n (l ++ k) = sub (off - zlen l) n k.
Proof.
  intros H. pose proof (zlen_nonneg l). unfold sub, zlen in *.
  rewrite drop_app_ge by lia. do 2 f_equal. lia.
Qed.

Lemma sub_sub o1 n1 o2 n2 l :
  0 <= o1 -> 0 <= o2 -> o2 + n2 <= n1 -> sub o2 n2 (sub o1 n1 l) = sub (o1 + o2) n2 l.
Proof.
  intros. unfold sub. rewrite skipn_firstn_comm, drop_drop, take_take.
  f_equal; [lia|]. f_equal. lia.
Qed.

Lemma sub_splice_before off n o k l :
  0 <= off -> off + n <= o -> o <= zlen l -> sub off n (splice o k l) = sub off n l.
Proof.
  intros. unfold splice. destruct (Z.leb_spec n 0); [by rewrite !sub_neg|].
  rewrite sub_app_l.
  - unfold sub. rewrite skipn_firstn_comm, take_take. f_equal. lia.
  - done.
  - unfold zlen in *. rewrite length_take. lia.
Qed.

Lemma sub_splice_at o k l :
  0 <= o <= zlen l -> sub o (zlen k) (splice o k l) = k.
Proof.
  intros. unfold splice.
  assert (E : zlen (take (Z.to_nat o) l) = o) by (unfold zlen in *; rewrite length_take; lia).
  rewrite sub_app_r by lia. rewrite E, Z.sub_diag.
  rewrite sub_app_l by lia. apply sub_full.
Qed.

Lemma sub_splice_after off n o k l :
  0 <= o -> o + zlen k <= off -> o + zlen k <= zlen l ->
  sub off n (splice o k l) = sub off n l.
Proof.
  intros. unfold splice. pose proof (zlen_nonneg k).
  assert (E : zlen (take (Z.to_nat o) l) = o)
    by (unfold zlen in *; rewrite length_take; lia).
  rewrite sub_app_r by lia. rewrite E, sub_app_r by lia.
  unfold sub, zlen in *. rewrite drop_drop. do 2 f_equal. lia.
Qed.

Lemma take_sub n l : 0 <= n -> take (Z.to_nat n) l = sub 0 n l.
Proof. intros. done. Qed.

Lemma app_sub n l : 0 <= n -> l = sub 0 n l ++ drop (Z.to_nat n) l.
Proof. intros. unfold sub. cbn [Z.to_nat]. by rewrite drop_0, take_drop. Qed.
End zlists.

Create Rewrite HintDb zlist.
#[export] Hint Rewrite @zlen_nil @zlen_cons @zlen_app @zlen_replicate @sub_0 : zlist.
#[export] Hint Rewrite @zlen_sub @zlen_splice using lia : zlist.

Lemma mem_read_Ok buf off n :
  0 <= off -> 0 <= n -> off + n <= zlen buf -> mem_read buf off n = Ok (sub off n buf).
Proof.
  intros. unfold mem_read.
  by rewrite !(proj2 (Z.leb_le _ _)) by lia.
Qed.

Lemma mem_write_Ok buf off bs :
  0 <= off -> off + zlen bs <= zlen buf -> mem_write buf off bs = Ok (splice off bs buf).
Proof.
  intros. unfold mem_write.
  by rewrite !(proj2 (Z.leb_le _ _)) by lia.
Qed.

Lemma mem_write_Crash buf off bs :
  zlen buf < off + zlen bs -> mem_write buf off bs = Crash MemFault.
Proof.
  intros. unfold mem_write.
  by rewrite (proj2 (Z.leb_gt (off + _) _)), andb_false_r by lia.
Qed.

(** ** Automation *)

(** Turns the boolean comparisons of the translated conditions into facts for [lia]. *)
Ltac bsimp :=
  repeat match goal with
  | H : (_ && _) = true |- _ => apply andb_true_iff in H; destruct H
  | H : (_ || _) = false |- _ => apply orb_false_iff in H; destruct H
  | H : (_ <? _) = true |- _ => apply Z.ltb_lt in H
  | H : (_ <? _) = false |- _ => apply Z.ltb_ge in H
  | H : (_ <=? _) = true |- _ => apply Z.leb_le in H
  | H : (_ <=? _) = false |- _ => apply Z.leb_gt in H
  | H : (_ =? _) = true |- _ => apply Z.eqb_eq in H
  | H : (_ =? _) = false |- _ => apply Z.eqb_neq in H
  | H : negb _ = true |- _ => apply negb_true_iff in H
  | H : negb _ = false |- _ => apply negb_false_iff in H
  end.

(** Decides the conditions of the goal that linear arithmetic settles. *)
Ltac cdecide :=
  repeat match goal with
  | |- context [?a <? ?b] =>
      first [ rewrite (proj2 (Z.ltb_lt a b)) by lia | rewrite (proj2 (Z.ltb_ge a b)) by lia ]
  | |- context [?a <=? ?b] =>
      first [ rewrite (proj2 (Z.leb_le a b)) by lia | rewrite (proj2 (Z.leb_gt a b)) by lia ]
  | |- context [?a =? ?b] =>
      first [ rewrite (proj2 (Z.eqb_eq a b)) by lia | rewrite (proj2 (Z.eqb_neq a b)) by lia ]
  end.

Ltac zlist := autorewrite with zlist in *; try lia.
