(* ===== verification/FcgiProto.v ===== *)
(** * The FastCGI record layer

    The constants and record bodies of [include/fastcgi.h] and the functions of
    [libfcgi/fcgiapp.c] that build them.  A header or a body is a record with the fields of
    the C struct; every field is an [unsigned char], so the struct has no padding and its
    memory is the list of its fields ([header_bytes] and the other [_bytes] functions). *)

From S2P Require Import Prelude.

(** ** Constants of fastcgi.h *)

Definition FCGI_MAX_LENGTH : Z := 65535.
Definition FCGI_HEADER_LEN : Z := 8.
Definition FCGI_VERSION_1 : Z := 1.

Definition FCGI_BEGIN_REQUEST : Z := 1.
Definition FCGI_ABORT_REQUEST : Z := 2.
Definition FCGI_END_REQUEST : Z := 3.
Definition FCGI_PARAMS : Z := 4.
Definition FCGI_STDIN : Z := 5.
Definition FCGI_STDOUT : Z := 6.
Definition FCGI_STDERR : Z := 7.
Definition FCGI_DATA : Z := 8.
Definition FCGI_GET_VALUES : Z := 9.
Definition FCGI_GET_VALUES_RESULT : Z := 10.
Definition FCGI_UNKNOWN_TYPE : Z := 11.

Definition FCGI_NULL_REQUEST_ID : Z := 0.
Definition FCGI_KEEP_CONN : Z := 1.
Definition FCGI_RESPONDER : Z := 1.
Definition FCGI_AUTHORIZER : Z := 2.
Definition FCGI_FILTER : Z := 3.

Definition FCGI_REQUEST_COMPLETE : Z := 0.
Definition FCGI_CANT_MPX_CONN : Z := 1.

(** Error codes of fcgiapp.h. *)
Definition EOF : Z := -1.
Definition FCGX_UNSUPPORTED_VERSION : Z := -2.
Definition FCGX_PROTOCOL_ERROR : Z := -3.
Definition FCGX_PARAMS_ERROR : Z := -4.
Definition FCGX_CALL_SEQ_ERROR : Z := -5.

(** ** Structs *)

Record FCGI_Header := mkFCGI_Header {
  version : Z;
  type : Z;
  requestIdB1 : Z;
  requestIdB0 : Z;
  contentLengthB1 : Z;
  contentLengthB0 : Z;
  paddingLength : Z;
  reserved : Z }.

Record FCGI_BeginRequestBody := mkFCGI_BeginRequestBody {
  roleB1 : Z;
  roleB0 : Z;
  flags_ : Z;
  br_reserved : list Z }.

Record FCGI_EndRequestBody := mkFCGI_EndRequestBody {
  appStatusB3 : Z;
  appStatusB2 : Z;
  appStatusB1 : Z;
  appStatusB0 : Z;
  protocolStatus : Z;
  er_reserved : list Z }.

Record FCGI_UnknownTypeBody := mkFCGI_UnknownTypeBody {
  ut_type : Z;
  ut_reserved : list Z }.

(** The memory of each struct. *)
Definition header_bytes (h : FCGI_Header) : list Z :=
  [version h; type h; requestIdB1 h; requestIdB0 h;
   contentLengthB1 h; contentLengthB0 h; paddingLength h; reserved h].

Definition bytes_header (bs : list Z) : FCGI_Header :=
  match bs with
  | [v; t; r1; r0; c1; c0; p; r] => mkFCGI_Header v t r1 r0 c1 c0 p r
  | _ => mkFCGI_Header 0 0 0 0 0 0 0 0
  end.

Definition begin_body_bytes (b : FCGI_BeginRequestBody) : list Z :=
  [roleB1 b; roleB0 b; flags_ b] ++ br_reserved b.

Definition bytes_begin_body (bs : list Z) : FCGI_BeginRequestBody :=
  match bs with
  | r1 :: r0 :: f :: rest => mkFCGI_BeginRequestBody r1 r0 f rest
  | _ => mkFCGI_BeginRequestBody 0 0 0 []
  end.

Definition end_body_bytes (b : FCGI_EndRequestBody) : list Z :=
  [appStatusB3 b; appStatusB2 b; appStatusB1 b; appStatusB0 b; protocolStatus b]
    ++ er_reserved b.

Definition bytes_end_body (bs : list Z) : FCGI_EndRequestBody :=
  match bs with
  | a3 :: a2 :: a1 :: a0 :: p :: rest => mkFCGI_EndRequestBody a3 a2 a1 a0 p rest
  | _ => mkFCGI_EndRequestBody 0 0 0 0 0 []
  end.

Definition unknown_type_body_bytes (b : FCGI_UnknownTypeBody) : list Z :=
  ut_type b :: ut_reserved b.

(** ** Building records *)

(** The header [MakeHeader] fills in once its assertions have passed. *)
Definition header_of (type requestId contentLength paddingLength : Z) : FCGI_Header :=
  {| version := FCGI_VERSION_1;
     type := uchar type;
     requestIdB1 := uchar (Z.land (Z.shiftr requestId 8) 255);
     requestIdB0 := uchar (Z.land requestId 255);
     contentLengthB1 := uchar (Z.land (Z.shiftr contentLength 8) 255);
     contentLengthB0 := uchar (Z.land contentLength 255);
     paddingLength := uchar paddingLength;
     reserved := 0 |}.

Definition MakeHeader (type requestId contentLength paddingLength : Z) : res FCGI_Header :=
  if negb ((0 <=? contentLength) && (contentLength <=? FCGI_MAX_LENGTH)) then Crash AssertFail
  else if negb ((0 <=? paddingLength) && (paddingLength <=? 255)) then Crash AssertFail
  else Ok (header_of type requestId contentLength paddingLength).

Definition MakeEndRequestBody (appStatus protocolStatus : Z) : FCGI_EndRequestBody :=
  {| appStatusB3 := uchar (Z.land (Z.shiftr appStatus 24) 255);
     appStatusB2 := uchar (Z.land (Z.shiftr appStatus 16) 255);
     appStatusB1 := uchar (Z.land (Z.shiftr appStatus 8) 255);
     appStatusB0 := uchar (Z.land appStatus 255);
     protocolStatus := uchar protocolStatus;
     er_reserved := [0; 0; 0] |}.

Definition MakeUnknownTypeBody (type : Z) : FCGI_UnknownTypeBody :=
  {| ut_type := uchar type; ut_reserved := [0; 0; 0; 0; 0; 0; 0] |}.

(** The argument is converted to [unsigned], the result back to [int]. *)
Definition AlignInt8 (n : Z) : Z :=
  let n := to_uint n in
  to_int (Z.land (to_uint (n + 7)) (UINT_MAX - 7)).

(** [AlignPtr8] on a pointer given by its address. *)
Definition AlignPtr8 (p : Z) : Z :=
  let u := to_ulong p in
  let u := to_ulong (Z.land (to_ulong (u + 7)) (ULONG_MAX - 7) - u) in
  p + u.

(** The fields [ProcessHeader] and the bridge read out of a header. *)
Definition header_requestId (h : FCGI_Header) : Z := Z.shiftl (requestIdB1 h) 8 + requestIdB0 h.
Definition header_contentLength (h : FCGI_Header) : Z :=
  Z.shiftl (contentLengthB1 h) 8 + contentLengthB0 h.

(** ** Lemmas *)

Lemma be16_join z : 0 <= z < 65536 ->
  Z.shiftl (uchar (Z.land (Z.shiftr z 8) 255)) 8 + uchar (Z.land z 255) = z.
Proof.
  intros. unfold uchar. rewrite !land_255, !Z.mod_mod, shiftr_8, shiftl_8 by lia.
  rewrite (Z.mod_small (z / 256)) by (split; [apply Z.div_pos|apply Z.div_lt_upper_bound]; lia).
  pose proof (Z.div_mod z 256 ltac:(lia)). lia.
Qed.

Lemma bytes_header_bytes h : bytes_header (header_bytes h) = h.
Proof. by destruct h. Qed.

Lemma header_bytes_header bs : length bs = 8%nat -> header_bytes (bytes_header bs) = bs.
Proof. intros. do 8 (destruct bs as [|? bs]; [done|]). by destruct bs. Qed.

Lemma zlen_header_bytes h : zlen (header_bytes h) = 8.
Proof. done. Qed.

Lemma MakeHeader_Ok t id n p :
  0 <= n <= FCGI_MAX_LENGTH -> 0 <= p <= 255 -> MakeHeader t id n p = Ok (header_of t id n p).
Proof. intros. unfold MakeHeader. by cdecide. Qed.

Lemma header_of_requestId t id n p : 0 <= id < 65536 ->
  header_requestId (header_of t id n p) = id.
Proof. apply be16_join. Qed.

Lemma header_of_contentLength t id n p : 0 <= n <= FCGI_MAX_LENGTH ->
  header_contentLength (header_of t id n p) = n.
Proof. unfold FCGI_MAX_LENGTH. intros. apply be16_join. lia. Qed.

Lemma header_of_paddingLength t id n p : 0 <= p <= 255 ->
  paddingLength (header_of t id n p) = p.
Proof. intros. apply uchar_small. unfold is_byte. lia. Qed.

Lemma uint_mask_8 n : Z.land n (UINT_MAX - 7) = 8 * ((to_uint n) / 8).
Proof.
  change (UINT_MAX - 7) with (Z.shiftl (Z.ones 29) 3).
  transitivity (Z.shiftl (Z.shiftr (Z.land n (Z.ones 32)) 3) 3).
  - apply Z.bits_inj'. intros i Hi.
    rewrite Z.land_spec, !Z.shiftl_spec by lia.
    destruct (Z.ltb_spec i 3).
    + rewrite !(Z.testbit_neg_r _ (i - 3)) by lia. by rewrite andb_false_r.
    + rewrite Z.shiftr_spec, Z.land_spec, !Z.testbit_ones by lia.
      replace (i - 3 + 3) with i by lia.
      destruct (Z.testbit n i); cbn; [|done]. cdecide. cbn.
      destruct (Z.ltb_spec (i - 3) 29), (Z.ltb_spec i 32); lia || done.
  - rewrite Z.land_ones, Z.shiftr_div_pow2, Z.shiftl_mul_pow2 by lia.
    unfold to_uint. change (2 ^ 32) with 4294967296. change (2 ^ 3) with 8. lia.
Qed.

Lemma AlignInt8_eq n : 0 <= n <= INT_MAX - 7 -> AlignInt8 n = 8 * ((n + 7) / 8).
Proof.
  unfold INT_MAX. intros. unfold AlignInt8. rewrite uint_mask_8.
  assert (0 <= (n + 7) / 8 < 268435456) by
    (split; [apply Z.div_pos; lia | apply Z.div_lt_upper_bound; lia]).
  rewrite (to_uint_small n) by (unfold UINT_MAX; lia).
  rewrite !(to_uint_small (n + 7)) by (unfold UINT_MAX; lia).
  apply to_int_small. unfold INT_MIN, INT_MAX. lia.
Qed.

Lemma AlignInt8_bounds n : 0 <= n <= INT_MAX - 7 ->
  n <= AlignInt8 n < n + 8 /\ AlignInt8 n mod 8 = 0.
Proof.
  intros. rewrite AlignInt8_eq by done. rewrite Z.mul_comm, Z.mod_mul by lia.
  pose proof (Z.div_mod (n + 7) 8 ltac:(lia)). pose proof (Z.mod_pos_bound (n + 7) 8 ltac:(lia)). lia.
Qed.

Lemma AlignInt8_mult n : 0 <= n <= INT_MAX - 7 -> n mod 8 = 0 -> AlignInt8 n = n.
Proof.
  intros. pose proof (AlignInt8_bounds n ltac:(done)) as [? ?].
  apply Z.div_exact in H0; [|lia]. apply Z.div_exact in H2; [|lia]. lia.
Qed.

(** ** Records on the wire *)

(** A FastCGI record: the abstract view of what a writer sends and a reader receives. *)
Record rec := mkRec {
  r_type : Z;
  r_id : Z;
  r_content : list Z;
  r_pad : list Z }.

Definition enc (r : rec) : list Z :=
  header_bytes (header_of (r_type r) (r_id r) (zlen (r_content r)) (zlen (r_pad r)))
    ++ r_content r ++ r_pad r.

Definition wire (rs : list rec) : list Z := concat (map enc rs).

Definition rec_ok (r : rec) : Prop :=
  is_byte (r_type r) /\ 0 <= r_id r < 65536 /\
  zlen (r_content r) <= FCGI_MAX_LENGTH /\ zlen (r_pad r) <= 255.

(** The content of the stream of type [T] that the records carry. *)
Definition stream_of (T : Z) (rs : list rec) : list Z :=
  concat (map r_content (filter (fun r => r_type r = T) rs)).

Lemma wire_app rs ss : wire (rs ++ ss) = wire rs ++ wire ss.
Proof. unfold wire. by rewrite map_app, concat_app. Qed.

Lemma wire_one r : wire [r] = enc r.
Proof. apply app_nil_r. Qed.

Lemma stream_of_app T rs ss : stream_of T (rs ++ ss) = stream_of T rs ++ stream_of T ss.
Proof. unfold stream_of. by rewrite list.filter_app, map_app, concat_app. Qed.

Lemma stream_of_one T r : r_type r = T -> stream_of T [r] = r_content r.
Proof. intros. unfold stream_of. rewrite filter_cons_True by done. apply app_nil_r. Qed.

Lemma stream_of_other T rs : Forall (fun r => r_type r <> T) rs -> stream_of T rs = [].
Proof.
  unfold stream_of. induction 1; [done|]. by rewrite filter_cons_False.
Qed.

(** ** The theorems *)

(** The exit status that the bridge reads out of an end body. *)
Definition end_body_status (b : FCGI_EndRequestBody) : Z :=
  Z.shiftl (appStatusB3 b) 24 + Z.shiftl (appStatusB2 b) 16 + Z.shiftl (appStatusB1 b) 8 + appStatusB0 b.

(** [MakeHeader] accepts exactly the lengths that fit their fields, and what its header holds
    is read back from the eight bytes on the wire; other lengths fail its assertions. *)
Theorem MakeHeader_roundtrip t id n p : is_byte t -> 0 <= id < 65536 ->
  if bool_decide (0 <= n <= FCGI_MAX_LENGTH /\ 0 <= p <= 255)
  then exists h, MakeHeader t id n p = Ok h /\ zlen (header_bytes h) = FCGI_HEADER_LEN /\
         let h' := bytes_header (header_bytes h) in
         version h' = FCGI_VERSION_1 /\ type h' = t /\ header_requestId h' = id /\
         header_contentLength h' = n /\ paddingLength h' = p
  else MakeHeader t id n p = Crash AssertFail.
Proof.
  intros Ht Hid. case_bool_decide as H.
  - exists (header_of t id n p). rewrite MakeHeader_Ok, bytes_header_bytes by apply H.
    do 2 (split; [done|]). cbv zeta. split; [done|]. split; [by apply uchar_small|].
    rewrite header_of_requestId, header_of_contentLength, header_of_paddingLength; done || lia.
  - unfold MakeHeader. destruct (Z.leb_spec 0 n), (Z.leb_spec n FCGI_MAX_LENGTH); cbn; try done.
    destruct (Z.leb_spec 0 p), (Z.leb_spec p 255); cbn; try done. tauto.
Qed.

Lemma MakeHeader_roundtrip_witness : exists h, MakeHeader FCGI_STDOUT 513 65535 7 = Ok h /\
  zlen (header_bytes h) = 8 /\ header_requestId (bytes_header (header_bytes h)) = 513.
Proof.
  destruct (MakeHeader_roundtrip FCGI_STDOUT 513 65535 7 ltac:(unfold is_byte, FCGI_STDOUT; lia) ltac:(lia)) as (h & E & Hl & H).
  exists h. split; [exact E|]. split; [exact Hl|]. apply H.
Defined.

(** [AlignInt8] gives the least multiple of eight that is not smaller than its argument, as
    long as that is an [int]; for the last seven values of the type it wraps to [INT_MIN]. *)
Theorem AlignInt8_least n : 0 <= n <= INT_MAX ->
  if n <=? INT_MAX - 7
  then n <= AlignInt8 n /\ AlignInt8 n mod 8 = 0 /\ forall m, n <= m -> m mod 8 = 0 -> AlignInt8 n <= m
  else AlignInt8 n = INT_MIN.
Proof.
  intros Hn. destruct (Z.leb_spec n (INT_MAX - 7)) as [H|H].
  - destruct (AlignInt8_bounds n ltac:(lia)) as [[Ha Hb] Hm]. split; [done|]. split; [done|].
    intros m Hm1 Hm2. apply Z.mod_divide in Hm as [k Hk]; [|lia]. apply Z.mod_divide in Hm2 as [j Hj]; [|lia]. lia.
  - assert (Hc : exists k, n = INT_MAX - k /\ 0 <= k < 7) by (exists (INT_MAX - n); lia).
    destruct Hc as (k & -> & Hk).
    assert (k = 0 \/ k = 1 \/ k = 2 \/ k = 3 \/ k = 4 \/ k = 5 \/ k = 6) as Hd by lia.
    by repeat (destruct Hd as [->|Hd]; [vm_compute; reflexivity|]); subst k; vm_compute.
Qed.

Lemma AlignInt8_least_witness : AlignInt8 8185 <= 8192 /\ AlignInt8 INT_MAX = INT_MIN.
Proof.
  split.
  - apply (proj2 (proj2 (AlignInt8_least 8185 ltac:(unfold INT_MAX; lia)))); [lia|reflexivity].
  - apply (AlignInt8_least INT_MAX). unfold INT_MAX. lia.
Defined.

Lemma byte_mod_32 st k : 0 < k -> (256 * k | 4294967296) -> st / k mod 256 = to_uint st / k mod 256.
Proof.
  intros Hk [j Hj]. unfold to_uint. rewrite (Z.div_mod st 4294967296) at 1 by lia.
  replace (4294967296 * (st / 4294967296) + st mod 4294967296)
    with (st mod 4294967296 + (256 * (j * (st / 4294967296))) * k) by (rewrite Hj; ring).
  rewrite Z.div_add by lia. replace (256 * (j * (st / 4294967296))) with (j * (st / 4294967296) * 256) by ring.
  by rewrite Z.mod_add by lia.
Qed.

Lemma end_body_status_eq st pst : end_body_status (MakeEndRequestBody st pst) = to_uint st.
Proof.
  unfold end_body_status. cbn -[Z.land Z.shiftr Z.shiftl]. unfold uchar.
  rewrite !land_255, !Z.mod_mod, shiftr_24, shiftr_16, shiftr_8, shiftl_24, shiftl_16, shiftl_8 by lia.
  rewrite (byte_mod_32 st 16777216) by (lia || by exists 1).
  rewrite (byte_mod_32 st 65536) by (lia || by exists 256).
  rewrite (byte_mod_32 st 256) by (lia || by exists 65536).
  replace (st mod 256) with (to_uint st mod 256).
  2:{ unfold to_uint. symmetry. change 4294967296 with (256 * 16777216).
      rewrite <- Znumtheory.Zmod_div_mod; [done|lia|lia|by exists 16777216]. }
  assert (0 <= to_uint st < 4294967296) by (apply Z.mod_pos_bound; lia).
  rewrite (Z.mod_small (to_uint st / 16777216)) by
    (split; [apply Z.div_pos|apply Z.div_lt_upper_bound]; lia).
  apply be32_join.
Qed.

Lemma bytes_end_body_bytes b : bytes_end_body (end_body_bytes b) = b.
Proof. by destruct b. Qed.

(** the exit status of the application is read back from [END_REQUEST] modulo 2^32: every
    [int] is recovered as the [unsigned] of the same bits. *)
Theorem MakeEndRequestBody_roundtrip st pst : is_byte pst ->
  let b := bytes_end_body (end_body_bytes (MakeEndRequestBody st pst)) in
  end_body_status b = to_uint st /\ protocolStatus b = pst.
Proof. intros Hp. cbv zeta. rewrite bytes_end_body_bytes, end_body_status_eq. split; [done|by apply uchar_small]. Qed.

Lemma MakeEndRequestBody_roundtrip_witness :
  end_body_status (bytes_end_body (end_body_bytes (MakeEndRequestBody (-1) 0))) = UINT_MAX.
Proof. apply (MakeEndRequestBody_roundtrip (-1) 0). unfold is_byte. lia. Defined.
