(* ===== verification/FcgiStream.v ===== *)
(** * FCGX streams: the buffered reader and writer of fcgiapp.c

    The state of a stream and the functions of [libfcgi/fcgiapp.c] that applications call on
    it: [FCGX_GetChar], [FCGX_GetStr], [FCGX_GetLine], [FCGX_UnGetChar], [FCGX_PutChar],
    [FCGX_PutStr], [FCGX_FFlush], [FCGX_FClose] and the error functions.  A pointer into the
    buffer is its offset from [data->buff]; every access to the buffer is checked against its
    length.  The two procedures a stream points to ([fillBuffProc], [emptyBuffProc]) are the
    interface [StreamProcs]; what they promise is [Source] (a reader) and [Sink] (a writer),
    and the theorems here are proved against those promises. *)

From S2P Require Import Prelude FcgiProto.

(** ** The connection to the web server

    What the kernel answers to [read] and [write] on the connection is a script: [rx] holds the
    pieces in which the peer's bytes arrive (a [read] returns at most one piece, the rest of a
    longer one later; when nothing is left it returns 0, end of file) and [wr] how many bytes
    each [write] takes (a [write] beyond the script takes everything).  [tx] is what has been
    written so far. *)

Inductive rd_event :=
  | RdData (bs : list Z)
  | RdErr (errno : Z).

Inductive wr_event :=
  | WrAccept (n : nat)
  | WrErr (errno : Z).

Record Conn := mkConn {
  rx : list rd_event;
  tx : list Z;
  wr : list wr_event;
  os_errno : Z }.

#[export] Instance set_rx : Setter rx := fun g r =>
  mkConn (g (rx r)) (tx r) (wr r) (os_errno r).
#[export] Instance set_tx : Setter tx := fun g r =>
  mkConn (rx r) (g (tx r)) (wr r) (os_errno r).
#[export] Instance set_wr : Setter wr := fun g r =>
  mkConn (rx r) (tx r) (g (wr r)) (os_errno r).
#[export] Instance set_os_errno : Setter os_errno := fun g r =>
  mkConn (rx r) (tx r) (wr r) (g (os_errno r)).

(** ** Streams and requests *)

(** [FCGX_Stream_Data], the private part of a stream; its [reqDataPtr] is the [req] field of
    the state below, because the streams of a request share it. *)
Record FCGX_Stream_Data := mkData {
  buff : list Z;
  bufflen : Z;
  mBuff : Z;
  buffStop : Z;
  stype : Z;
  eorStop : bool;
  skip : bool;
  contentLen : Z;
  paddingLen : Z;
  isAnythingWritten : bool;
  rawWrite : bool }.

#[export] Instance set_buff : Setter buff := fun g r =>
  mkData (g (buff r)) (bufflen r) (mBuff r) (buffStop r) (stype r) (eorStop r) (skip r) (contentLen r) (paddingLen r) (isAnythingWritten r) (rawWrite r).
#[export] Instance set_bufflen : Setter bufflen := fun g r =>
  mkData (buff r) (g (bufflen r)) (mBuff r) (buffStop r) (stype r) (eorStop r) (skip r) (contentLen r) (paddingLen r) (isAnythingWritten r) (rawWrite r).
#[export] Instance set_mBuff : Setter mBuff := fun g r =>
  mkData (buff r) (bufflen r) (g (mBuff r)) (buffStop r) (stype r) (eorStop r) (skip r) (contentLen r) (paddingLen r) (isAnythingWritten r) (rawWrite r).
#[export] Instance set_buffStop : Setter buffStop := fun g r =>
  mkData (buff r) (bufflen r) (mBuff r) (g (buffStop r)) (stype r) (eorStop r) (skip r) (contentLen r) (paddingLen r) (isAnythingWritten r) (rawWrite r).
#[export] Instance set_stype : Setter stype := fun g r =>
  mkData (buff r) (bufflen r) (mBuff r) (buffStop r) (g (stype r)) (eorStop r) (skip r) (contentLen r) (paddingLen r) (isAnythingWritten r) (rawWrite r).
#[export] Instance set_eorStop : Setter eorStop := fun g r =>
  mkData (buff r) (bufflen r) (mBuff r) (buffStop r) (stype r) (g (eorStop r)) (skip r) (contentLen r) (paddingLen r) (isAnythingWritten r) (rawWrite r).
#[export] Instance set_skip : Setter skip := fun g r =>
  mkData (buff r) (bufflen r) (mBuff r) (buffStop r) (stype r) (eorStop r) (g (skip r)) (contentLen r) (paddingLen r) (isAnythingWritten r) (rawWrite r).
#[export] Instance set_contentLen : Setter contentLen := fun g r =>
  mkData (buff r) (bufflen r) (mBuff r) (buffStop r) (stype r) (eorStop r) (skip r) (g (contentLen r)) (paddingLen r) (isAnythingWritten r) (rawWrite r).
#[export] Instance set_paddingLen : Setter paddingLen := fun g r =>
  mkData (buff r) (bufflen r) (mBuff r) (buffStop r) (stype r) (eorStop r) (skip r) (contentLen r) (g (paddingLen r)) (isAnythingWritten r) (rawWrite r).
#[export] Instance set_isAnythingWritten : Setter isAnythingWritten := fun g r =>
  mkData (buff r) (bufflen r) (mBuff r) (buffStop r) (stype r) (eorStop r) (skip r) (contentLen r) (paddingLen r) (g (isAnythingWritten r)) (rawWrite r).
#[export] Instance set_rawWrite : Setter rawWrite := fun g r =>
  mkData (buff r) (bufflen r) (mBuff r) (buffStop r) (stype r) (eorStop r) (skip r) (contentLen r) (paddingLen r) (isAnythingWritten r) (g (rawWrite r)).

Record FCGX_Stream := mkStream {
  rdNext : Z;
  wrNext : Z;
  stop : Z;
  stopUnget : Z;
  isReader : bool;
  isClosed : bool;
  wasFCloseCalled : bool;
  FCGI_errno : Z;
  data : FCGX_Stream_Data }.

#[export] Instance set_rdNext : Setter rdNext := fun g r =>
  mkStream (g (rdNext r)) (wrNext r) (stop r) (stopUnget r) (isReader r) (isClosed r) (wasFCloseCalled r) (FCGI_errno r) (data r).
#[export] Instance set_wrNext : Setter wrNext := fun g r =>
  mkStream (rdNext r) (g (wrNext r)) (stop r) (stopUnget r) (isReader r) (isClosed r) (wasFCloseCalled r) (FCGI_errno r) (data r).
#[export] Instance set_stop : Setter stop := fun g r =>
  mkStream (rdNext r) (wrNext r) (g (stop r)) (stopUnget r) (isReader r) (isClosed r) (wasFCloseCalled r) (FCGI_errno r) (data r).
#[export] Instance set_stopUnget : Setter stopUnget := fun g r =>
  mkStream (rdNext r) (wrNext r) (stop r) (g (stopUnget r)) (isReader r) (isClosed r) (wasFCloseCalled r) (FCGI_errno r) (data r).
#[export] Instance set_isReader : Setter isReader := fun g r =>
  mkStream (rdNext r) (wrNext r) (stop r) (stopUnget r) (g (isReader r)) (isClosed r) (wasFCloseCalled r) (FCGI_errno r) (data r).
#[export] Instance set_isClosed : Setter isClosed := fun g r =>
  mkStream (rdNext r) (wrNext r) (stop r) (stopUnget r) (isReader r) (g (isClosed r)) (wasFCloseCalled r) (FCGI_errno r) (data r).
#[export] Instance set_wasFCloseCalled : Setter wasFCloseCalled := fun g r =>
  mkStream (rdNext r) (wrNext r) (stop r) (stopUnget r) (isReader r) (isClosed r) (g (wasFCloseCalled r)) (FCGI_errno r) (data r).
#[export] Instance set_FCGI_errno : Setter FCGI_errno := fun g r =>
  mkStream (rdNext r) (wrNext r) (stop r) (stopUnget r) (isReader r) (isClosed r) (wasFCloseCalled r) (g (FCGI_errno r)) (data r).
#[export] Instance set_data : Setter data := fun g r =>
  mkStream (rdNext r) (wrNext r) (stop r) (stopUnget r) (isReader r) (isClosed r) (wasFCloseCalled r) (FCGI_errno r) (g (data r)).

(** The fields of [FCGX_Request] that the streams of the request read and write. *)
Record ReqData := mkReqData {
  requestId : Z;
  role : Z;
  ipcFd : Z;
  isBeginProcessed : bool;
  keepConnection : bool;
  appStatus : Z;
  nWriters : Z;
  flags : Z;
  listen_sock : Z;
  detached : bool }.

#[export] Instance set_requestId : Setter requestId := fun g r =>
  mkReqData (g (requestId r)) (role r) (ipcFd r) (isBeginProcessed r) (keepConnection r) (appStatus r) (nWriters r) (flags r) (listen_sock r) (detached r).
#[export] Instance set_role : Setter role := fun g r =>
  mkReqData (requestId r) (g (role r)) (ipcFd r) (isBeginProcessed r) (keepConnection r) (appStatus r) (nWriters r) (flags r) (listen_sock r) (detached r).
#[export] Instance set_ipcFd : Setter ipcFd := fun g r =>
  mkReqData (requestId r) (role r) (g (ipcFd r)) (isBeginProcessed r) (keepConnection r) (appStatus r) (nWriters r) (flags r) (listen_sock r) (detached r).
#[export] Instance set_isBeginProcessed : Setter isBeginProcessed := fun g r =>
  mkReqData (requestId r) (role r) (ipcFd r) (g (isBeginProcessed r)) (keepConnection r) (appStatus r) (nWriters r) (flags r) (listen_sock r) (detached r).
#[export] Instance set_keepConnection : Setter keepConnection := fun g r =>
  mkReqData (requestId r) (role r) (ipcFd r) (isBeginProcessed r) (g (keepConnection r)) (appStatus r) (nWriters r) (flags r) (listen_sock r) (detached r).
#[export] Instance set_appStatus : Setter appStatus := fun g r =>
  mkReqData (requestId r) (role r) (ipcFd r) (isBeginProcessed r) (keepConnection r) (g (appStatus r)) (nWriters r) (flags r) (listen_sock r) (detached r).
#[export] Instance set_nWriters : Setter nWriters := fun g r =>
  mkReqData (requestId r) (role r) (ipcFd r) (isBeginProcessed r) (keepConnection r) (appStatus r) (g (nWriters r)) (flags r) (listen_sock r) (detached r).
#[export] Instance set_flags : Setter flags := fun g r =>
  mkReqData (requestId r) (role r) (ipcFd r) (isBeginProcessed r) (keepConnection r) (appStatus r) (nWriters r) (g (flags r)) (listen_sock r) (detached r).
#[export] Instance set_listen_sock : Setter listen_sock := fun g r =>
  mkReqData (requestId r) (role r) (ipcFd r) (isBeginProcessed r) (keepConnection r) (appStatus r) (nWriters r) (flags r) (g (listen_sock r)) (detached r).
#[export] Instance set_detached : Setter detached := fun g r =>
  mkReqData (requestId r) (role r) (ipcFd r) (isBeginProcessed r) (keepConnection r) (appStatus r) (nWriters r) (flags r) (listen_sock r) (g (detached r)).

(** What an operation on one stream can reach. *)
Record SS := mkSS {
  strm : FCGX_Stream;
  req : ReqData;
  conn : Conn }.

#[export] Instance set_strm : Setter strm := fun g r =>
  mkSS (g (strm r)) (req r) (conn r).
#[export] Instance set_req : Setter req := fun g r =>
  mkSS (strm r) (g (req r)) (conn r).
#[export] Instance set_conn : Setter conn := fun g r =>
  mkSS (strm r) (req r) (g (conn r)).

Definition upd_strm (f : FCGX_Stream -> FCGX_Stream) : M SS unit :=
  modify (fun s => s <| strm := f (strm s) |>).
Definition upd_data (f : FCGX_Stream_Data -> FCGX_Stream_Data) : M SS unit :=
  upd_strm (fun st => st <| data := f (data st) |>).
Definition upd_req (f : ReqData -> ReqData) : M SS unit :=
  modify (fun s => s <| req := f (req s) |>).
Definition upd_conn (f : Conn -> Conn) : M SS unit :=
  modify (fun s => s <| conn := f (conn s) |>).

(** ** The system calls of os_unix.c on the connection

    [shutdownNow] is never set in os_unix.c, so [OS_Read] and [OS_Write] are [read] and
    [write]; on a descriptor that is not open they fail with [EBADF]. *)

Definition EBADF : Z := 9.

(** The bytes read, or [None] for the result -1. *)
Definition OS_Read (len : Z) : M SS (option (list Z)) :=
  s <- get ;;
  if ipcFd (req s) <? 0 then upd_conn (fun c => c <| os_errno := EBADF |>) ;;; ret None else
  match rx (conn s) with
  | [] => ret (Some [])
  | RdErr e :: rest =>
      upd_conn (fun c => c <| rx := rest |> <| os_errno := e |>) ;;; ret None
  | RdData bs :: rest =>
      if zlen bs <=? len then
        upd_conn (fun c => c <| rx := rest |>) ;;; ret (Some bs)
      else
        upd_conn (fun c => c <| rx := RdData (drop (Z.to_nat len) bs) :: rest |>) ;;;
        ret (Some (sub 0 len bs))
  end.

(** [while (len) { wrote = OS_Write(fd, buf, len); ... }]: the script left, what the peer has
    received, and the error of the write that failed.  Every turn uses one event of the script;
    the [write] after its last event takes everything. *)
Fixpoint write_loop (w : list wr_event) (t bs : list Z) : list wr_event * list Z * option Z :=
  match bs with
  | [] => (w, t, None)
  | _ =>
      match w with
      | [] => ([], t ++ bs, None)
      | WrErr e :: w => (w, t, Some e)
      | WrAccept n :: w => write_loop w (t ++ take n bs) (drop n bs)
      end
  end.

Definition write_it_all (bs : list Z) : M SS Z :=
  s <- get ;;
  match bs with
  | [] => ret 0
  | _ =>
      if ipcFd (req s) <? 0 then upd_conn (fun c => c <| os_errno := EBADF |>) ;;; ret (-1) else
      let '(w, t, err) := write_loop (wr (conn s)) (tx (conn s)) bs in
      upd_conn (fun c => c <| wr := w |> <| tx := t |>) ;;;
      match err with
      | None => ret 0
      | Some e => upd_conn (fun c => c <| os_errno := e |>) ;;; ret (-1)
      end
  end.

(** ** The procedures of a stream *)

Class StreamProcs := {
  fillBuffProc : M SS unit;
  emptyBuffProc : bool -> M SS unit }.

Definition SetError (e : Z) : M SS unit :=
  upd_strm (fun st =>
    (if FCGI_errno st =? 0 then st <| FCGI_errno := e |> else st) <| isClosed := true |>).

Definition FCGX_GetError : M SS Z := s <- get ;; ret (FCGI_errno (strm s)).

Definition FCGX_ClearError : M SS unit := upd_strm (fun st => st <| FCGI_errno := 0 |>).

Definition FCGX_HasSeenEOF : M SS Z := s <- get ;; ret (if isClosed (strm s) then EOF else 0).

Section Ops.
Context {procs : StreamProcs}.

(** [*stream->rdNext++] *)
Definition rd_byte : M SS Z :=
  s <- get ;;
  bs <- lift (mem_read (buff (data (strm s))) (rdNext (strm s)) 1) ;;
  upd_strm (fun st => st <| rdNext := rdNext st + 1 |>) ;;;
  ret (nth 0 bs 0).

Definition FCGX_GetChar : M SS Z :=
  s <- get ;;
  if isClosed (strm s) || negb (isReader (strm s)) then ret EOF else
  if negb (rdNext (strm s) =? stop (strm s)) then rd_byte else
  fillBuffProc ;;;
  s <- get ;;
  if isClosed (strm s) then ret EOF else
  upd_strm (fun st => st <| stopUnget := rdNext st |>) ;;;
  s <- get ;;
  if negb (rdNext (strm s) =? stop (strm s)) then rd_byte else
  c_assert (isClosed (strm s)) ;;; ret EOF.

(** The loop of [FCGX_GetStr]; [acc] holds the [bytesMoved] bytes copied so far. *)
Fixpoint GetStr_loop (fuel : nat) (n : Z) (acc : list Z) : M SS (list Z) :=
  match fuel with
  | O => nofuel
  | S fuel =>
    s <- get ;;
    let m := Z.min (n - zlen acc) (stop (strm s) - rdNext (strm s)) in
    moved <- (if negb (rdNext (strm s) =? stop (strm s)) then
                bs <- lift (mem_read (buff (data (strm s))) (rdNext (strm s)) m) ;;
                upd_strm (fun st => st <| rdNext := rdNext st + m |>) ;;;
                ret (Some bs)
              else ret None) ;;
    let acc := acc ++ default [] moved in
    if bool_decide (is_Some moved) && (zlen acc =? n) then ret acc else
    s <- get ;;
    if isClosed (strm s) || negb (isReader (strm s)) then ret acc else
    fillBuffProc ;;;
    s <- get ;;
    if isClosed (strm s) then ret acc else
    upd_strm (fun st => st <| stopUnget := rdNext st |>) ;;;
    GetStr_loop fuel n acc
  end.

(** The bytes stored into [str]; the result of the C function is their number.  Every turn of
    the loop after the first moves at least one byte, so [n + 2] turns are enough. *)
Definition FCGX_GetStr (n : Z) : M SS (list Z) :=
  s <- get ;;
  if isClosed (strm s) || negb (isReader (strm s)) || (n <=? 0) then ret [] else
  if n <=? stop (strm s) - rdNext (strm s) then
    bs <- lift (mem_read (buff (data (strm s))) (rdNext (strm s)) n) ;;
    upd_strm (fun st => st <| rdNext := rdNext st + n |>) ;;;
    ret bs
  else GetStr_loop (Z.to_nat n + 2) n [].

(** The loop of [FCGX_GetLine] with [k] characters of room left; [p] holds what was stored. *)
Fixpoint GetLine_loop (k : nat) (p : list Z) : M SS (option (list Z)) :=
  match k with
  | O => ret (Some p)
  | S k =>
    c <- FCGX_GetChar ;;
    if c =? EOF then ret (if bool_decide (p = []) then None else Some p) else
    if c =? 10 then ret (Some (p ++ [c])) else GetLine_loop k (p ++ [c])
  end.

(** The characters stored before the terminating NUL, or [None] for NULL. *)
Definition FCGX_GetLine (n : Z) : M SS (option (list Z)) := GetLine_loop (Z.to_nat (n - 1)) [].

Definition FCGX_UnGetChar (c : Z) : M SS Z :=
  s <- get ;;
  let st := strm s in
  if (c =? EOF) || isClosed st || negb (isReader st) || (rdNext st =? stopUnget st)
  then ret EOF else
  b <- lift (mem_write (buff (data st)) (rdNext st - 1) [uchar c]) ;;
  upd_strm (fun st => st <| rdNext := rdNext st - 1 |>) ;;;
  upd_data (fun d => d <| buff := b |>) ;;;
  ret c.

(** [memcpy(stream->wrNext, bs, n); stream->wrNext += n] *)
Definition wr_bytes (bs : list Z) : M SS unit :=
  s <- get ;;
  b <- lift (mem_write (buff (data (strm s))) (wrNext (strm s)) bs) ;;
  upd_data (fun d => d <| buff := b |>) ;;;
  upd_strm (fun st => st <| wrNext := wrNext st + zlen bs |>).

Definition FCGX_PutChar (c : Z) : M SS Z :=
  s <- get ;;
  if negb (wrNext (strm s) =? stop (strm s)) then wr_bytes [uchar c] ;;; ret (uchar c) else
  if isClosed (strm s) || isReader (strm s) then ret EOF else
  emptyBuffProc false ;;;
  s <- get ;;
  if negb (wrNext (strm s) =? stop (strm s)) then wr_bytes [uchar c] ;;; ret (uchar c) else
  c_assert (isClosed (strm s)) ;;; ret EOF.

(** The loop of [FCGX_PutStr]: [str] is what is left to write, [moved] is [bytesMoved]. *)
Fixpoint PutStr_loop (fuel : nat) (n moved : Z) (str : list Z) : M SS Z :=
  match fuel with
  | O => nofuel
  | S fuel =>
    s <- get ;;
    let m := Z.min (n - moved) (stop (strm s) - wrNext (strm s)) in
    r <- (if negb (wrNext (strm s) =? stop (strm s)) then
            bs <- lift (mem_read str 0 m) ;;
            wr_bytes bs ;;;
            ret (moved + m, moved + m =? n, drop (Z.to_nat m) str)
          else ret (moved, false, str)) ;;
    let '(moved, finished, str) := r in
    if finished : bool then ret moved else
    s <- get ;;
    if isClosed (strm s) || isReader (strm s) then ret (-1) else
    emptyBuffProc false ;;;
    PutStr_loop fuel n moved str
  end.

(** [FCGX_PutStr(str, n, stream)] for the [n] bytes [str].  Every turn after the first moves at
    least one byte, so [n + 2] turns are enough. *)
Definition FCGX_PutStr (str : list Z) : M SS Z :=
  let n := zlen str in
  s <- get ;;
  if n <=? stop (strm s) - wrNext (strm s) then wr_bytes str ;;; ret n
  else PutStr_loop (length str + 2) n 0 str.

Definition FCGX_FFlush : M SS Z :=
  s <- get ;;
  if isClosed (strm s) || isReader (strm s) then ret 0 else
  emptyBuffProc false ;;;
  s <- get ;;
  ret (if isClosed (strm s) then -1 else 0).

Definition FCGX_FClose : M SS Z :=
  s <- get ;;
  (if wasFCloseCalled (strm s) then ret tt else
     (if isReader (strm s) then ret tt else emptyBuffProc true) ;;;
     upd_strm (fun st => st <| wasFCloseCalled := true |> <| isClosed := true |>) ;;;
     upd_strm (fun st =>
       if isReader st
       then st <| stop := rdNext st |> <| wrNext := rdNext st |>
       else st <| stop := wrNext st |> <| rdNext := wrNext st |>)) ;;;
  s <- get ;;
  ret (if FCGI_errno (strm s) =? 0 then 0 else EOF).

End Ops.

(** ** What a reader promises: its bytes are a given content *)

(** The bytes of the buffer that the client has not taken yet. *)
Definition frag (s : SS) : list Z :=
  sub (rdNext (strm s)) (stop (strm s) - rdNext (strm s)) (buff (data (strm s))).

(** Writes [r] and [u] into the client's two pointers. *)
Definition set_ptrs (r u : Z) (s : SS) : SS :=
  s <| strm := (strm s) <| rdNext := r |> <| stopUnget := u |> |>.

Class Source (procs : StreamProcs) := {
  (** [src_at s X]: [s] is an open reader and [X] is what comes after its current fragment. *)
  src_at : SS -> list Z -> Prop;
  (** The reader has delivered its end of file. *)
  src_end : SS -> Prop;
  src_open s X : src_at s X ->
    isReader (strm s) = true /\ isClosed (strm s) = false /\
    0 <= rdNext (strm s) <= stop (strm s) /\ stop (strm s) <= zlen (buff (data (strm s)));
  src_closed s : src_end s -> isClosed (strm s) = true;
  src_ptrs s X r u : src_at s X -> rdNext (strm s) <= r <= stop (strm s) ->
    src_at (set_ptrs r u s) X;
  src_fill s X : src_at s X -> rdNext (strm s) = stop (strm s) ->
    exists s', fillBuffProc s = Ok (tt, s') /\
      ((X = [] /\ src_end s') \/
       (exists Y, X = frag s' ++ Y /\ frag s' <> [] /\ src_at s' Y)) }.

(** ** What a writer promises: its output is a given content *)

Class Sink (procs : StreamProcs) := {
  (** [snk_at s W]: [s] is an open writer that has been given [W]. *)
  snk_at : SS -> list Z -> Prop;
  snk_open s W : snk_at s W ->
    isReader (strm s) = false /\ isClosed (strm s) = false /\
    0 <= wrNext (strm s) <= stop (strm s) /\ stop (strm s) <= zlen (buff (data (strm s)));
  snk_write s W bs s' : snk_at s W -> zlen bs <= stop (strm s) - wrNext (strm s) ->
    wr_bytes bs s = Ok (tt, s') -> snk_at s' (W ++ bs);
  snk_empty s W : snk_at s W ->
    exists s', emptyBuffProc false s = Ok (tt, s') /\ snk_at s' W /\
      wrNext (strm s') < stop (strm s') }.

Lemma wr_bytes_Ok s bs :
  0 <= wrNext (strm s) -> wrNext (strm s) + zlen bs <= zlen (buff (data (strm s))) ->
  wr_bytes bs s = Ok (tt,
    s <| strm := (strm s) <| data := (data (strm s)) <|
        buff := splice (wrNext (strm s)) bs (buff (data (strm s))) |> |>
      <| wrNext := wrNext (strm s) + zlen bs |> |>).
Proof.
  intros. unfold wr_bytes, bind, get, lift. by rewrite mem_write_Ok by lia.
Qed.

Section SourceSpec.
Context {procs : StreamProcs} {src : Source procs}.

(** The reader still has to deliver [X]. *)
Definition src_content (s : SS) (X : list Z) : Prop :=
  exists Y, src_at s Y /\ X = frag s ++ Y.

Lemma frag_len s X : src_at s X -> zlen (frag s) = stop (strm s) - rdNext (strm s).
Proof. intros H%src_open. unfold frag. rewrite zlen_sub; lia. Qed.

Lemma frag_nil s X : src_at s X -> rdNext (strm s) = stop (strm s) -> frag s = [].
Proof. intros _ H. unfold frag. by rewrite H, Z.sub_diag. Qed.

(** Taking [m] bytes of the current fragment. *)
Lemma frag_take s X m u : src_at s X -> 0 <= m <= stop (strm s) - rdNext (strm s) ->
  mem_read (buff (data (strm s))) (rdNext (strm s)) m = Ok (sub 0 m (frag s)) /\
  frag (set_ptrs (rdNext (strm s) + m) u s) = drop (Z.to_nat m) (frag s).
Proof.
  intros H%src_open Hm. split.
  - rewrite mem_read_Ok by lia. unfold frag. rewrite sub_sub by lia. do 2 f_equal. lia.
  - unfold frag, set_ptrs, sub. cbn.
    rewrite skipn_firstn_comm, drop_drop. f_equal; [lia|f_equal; lia].
Qed.

Lemma src_advance s X m u : src_at s X -> 0 <= m <= stop (strm s) - rdNext (strm s) ->
  src_content (set_ptrs (rdNext (strm s) + m) u s) (drop (Z.to_nat m) (frag s) ++ X).
Proof.
  intros H Hm. exists X. split; [apply src_ptrs; [done|lia]|].
  f_equal. symmetry. by apply (frag_take s X).
Qed.

(** Refilling an exhausted reader: end of file, or a non-empty fragment. *)
Lemma src_refill s X : src_at s X -> rdNext (strm s) = stop (strm s) ->
  (X = [] /\ exists s', fillBuffProc s = Ok (tt, s') /\ src_end s') \/
  (X <> [] /\ exists s', fillBuffProc s = Ok (tt, s') /\ isClosed (strm s') = false /\
     frag s' <> [] /\ frag (set_ptrs (rdNext (strm s')) (rdNext (strm s')) s') = frag s' /\
     src_content (set_ptrs (rdNext (strm s')) (rdNext (strm s')) s') X).
Proof.
  intros H He. destruct (src_fill s X H He) as (s' & E & [[-> ?]|(Y & -> & Hn & HY)]).
  - left. eauto.
  - right. split; [by destruct (frag s')|]. exists s'.
    pose proof (src_open _ _ HY) as (? & ? & ? & ?).
    split_and!; try done. exists Y. split; [apply src_ptrs; [done|lia]|done].
Qed.

Lemma frag_nil_iff s X : src_at s X -> frag s = [] <-> rdNext (strm s) = stop (strm s).
Proof.
  intros H. pose proof (frag_len s X H). split.
  - intros E. rewrite E, zlen_nil in *. lia.
  - by apply (frag_nil s X).
Qed.

(** The part of a turn of [GetStr_loop] that copies out of the buffer. *)
Lemma GetStr_copy s X n (acc : list Z) : src_at s X -> 0 < n - zlen acc ->
  let m := Z.min (n - zlen acc) (stop (strm s) - rdNext (strm s)) in
  exists moved s1,
    (if negb (rdNext (strm s) =? stop (strm s)) then
       bs <- lift (mem_read (buff (data (strm s))) (rdNext (strm s)) m) ;;
       upd_strm (fun st => st <| rdNext := rdNext st + m |>) ;;;
       ret (Some bs)
     else ret None) s = Ok (moved, s1) /\
    default [] moved = sub 0 m (frag s) /\ (frag s <> [] -> is_Some moved) /\
    src_at s1 X /\ frag s1 = drop (Z.to_nat m) (frag s).
Proof.
  intros H Hn m. pose proof (src_open s X H) as (? & ? & ? & ?).
  pose proof (frag_nil_iff s X H) as Hnil.
  destruct (Z.eqb_spec (rdNext (strm s)) (stop (strm s))) as [E|E]; cbn [negb].
  - exists None, s. rewrite (proj2 Hnil E). cbn.
    split_and!; try done. unfold sub. by rewrite drop_nil, take_nil. by rewrite drop_nil.
  - destruct (frag_take s X m (stopUnget (strm s)) H ltac:(lia)) as [Hr Hf].
    exists (Some (sub 0 m (frag s))), (set_ptrs (rdNext (strm s) + m) (stopUnget (strm s)) s).
    unfold bind, lift. rewrite Hr. split_and!; try done.
    apply src_ptrs; [done|lia].
Qed.

(** The state after [n] bytes of the content [X] were asked for. *)
Definition src_after (n : Z) (X : list Z) (s : SS) : Prop :=
  if n <=? zlen X then src_content s (drop (Z.to_nat n) X) else src_end s.

(** Asking for more than the fragment [F] holds is asking for the rest of what follows. *)
Lemma src_after_app n F Y s : zlen F < n -> src_after (n - zlen F) Y s -> src_after n (F ++ Y) s.
Proof.
  unfold src_after. intros Hn. rewrite zlen_app, drop_app_ge by (unfold zlen in *; lia).
  replace (Z.to_nat n - length F)%nat with (Z.to_nat (n - zlen F)) by (unfold zlen in *; lia).
  by destruct (Z.leb_spec (n - zlen F) (zlen Y)), (Z.leb_spec n (zlen F + zlen Y)); try lia.
Qed.

Lemma sub_app_past n (F Y : list Z) : zlen F <= n ->
  sub 0 n (F ++ Y) = F ++ sub 0 (n - zlen F) Y.
Proof.
  intros. pose proof (zlen_nonneg F).
  replace n with (zlen F + (n - zlen F)) at 1 by lia.
  rewrite sub_split by lia. by rewrite sub_app_l, sub_full, sub_app_r, Z.sub_diag by lia.
Qed.

Lemma GetStr_loop_spec fuel : forall n acc s X, src_content s X -> zlen acc < n ->
  (Z.to_nat (n - zlen acc) + (if decide (frag s = []) then 1 else 0) < fuel)%nat ->
  exists s', GetStr_loop fuel n acc s = Ok (acc ++ sub 0 (n - zlen acc) X, s') /\
             src_after (n - zlen acc) X s'.
Proof.
  induction fuel as [|fuel IH]; intros n acc s X (Y & HY & ->) Hn Hf; [lia|].
  cbn [GetStr_loop]. unfold bind at 1, get at 1.
  pose proof (frag_len s Y HY) as Hlen. set (m := Z.min _ _).
  destruct (GetStr_copy s Y n acc HY ltac:(lia)) as (moved & s1 & E & Hd & Hm & HY1 & F1).
  fold m in E, F1, Hd. erewrite bind_Ok by exact E. clear E.
  pose proof (src_open s1 Y HY1) as (Hr1 & Hc1 & _). rewrite Hd.
  destruct (Z.leb_spec (n - zlen acc) (zlen (frag s))) as [Hle|Hgt].
  - rewrite bool_decide_eq_true_2 by (apply Hm; intros Hz; rewrite Hz, zlen_nil in *; lia).
    assert (m = n - zlen acc) as -> by lia.
    rewrite zlen_app, zlen_sub by lia. cdecide. cbn [andb].
    exists s1. rewrite sub_app_l by lia. split; [done|].
    unfold src_after. rewrite zlen_app. pose proof (zlen_nonneg Y). cdecide.
    exists Y. split; [done|]. rewrite F1, drop_app_le; [done|unfold zlen in *; lia].
  - assert (m = zlen (frag s)) as Em by lia.
    rewrite Em, sub_full, zlen_app, (proj2 (Z.eqb_neq _ n)), andb_false_r by lia.
    unfold bind at 1, get at 1. rewrite Hc1, Hr1. cbn [orb negb].
    assert (Hs1 : frag s1 = []) by (rewrite F1, Em; apply drop_ge; unfold zlen; lia).
    apply (frag_nil_iff s1 Y HY1) in Hs1. rewrite sub_app_past, app_assoc by lia.
    replace (n - zlen acc - zlen (frag s)) with (n - zlen (acc ++ frag s))
      by (rewrite zlen_app; lia).
    destruct (src_refill s1 Y HY1 Hs1) as [[-> (s2 & E & Hend)]|[Hne (s2 & E & Hc & Hf2 & Hfp & Hct)]];
      erewrite bind_Ok by exact E; unfold bind at 1, get at 1.
    + rewrite (src_closed s2 Hend). exists s2. rewrite sub_all by (rewrite zlen_app, zlen_nil; lia).
      split; [by rewrite app_nil_r|]. apply src_after_app; [done|].
      unfold src_after. rewrite zlen_nil. by cdecide.
    + rewrite Hc. erewrite bind_Ok by reflexivity.
      change (s2 <| strm := _ |>) with (set_ptrs (rdNext (strm s2)) (rdNext (strm s2)) s2).
      destruct (IH n (acc ++ frag s) _ Y Hct) as (s' & E' & Ha).
      * rewrite zlen_app. lia.
      * rewrite Hfp, decide_False, zlen_app by done.
        destruct (decide (frag s = [])) as [Hz|Hz]; [rewrite Hz, zlen_nil in *; lia|].
        apply zlen_pos in Hz. lia.
      * exists s'. split; [done|]. apply src_after_app; [done|].
        by replace (n - zlen acc - zlen (frag s)) with (n - zlen (acc ++ frag s))
          by (rewrite zlen_app; lia).
Qed.

(** [FCGX_GetStr] returns the next [n] bytes of the content, or all of it when there are
    fewer, and then the stream has reached its end. *)
Lemma FCGX_GetStr_spec n s X : src_content s X -> 0 <= n ->
  exists s', FCGX_GetStr n s = Ok (sub 0 n X, s') /\ src_after n X s'.
Proof.
  intros (Y & HY & ->) Hn. pose proof (src_open s Y HY) as (Hr & Hc & ?).
  pose proof (frag_len s Y HY) as Hlen. pose proof (zlen_nonneg (frag s ++ Y)).
  unfold FCGX_GetStr, bind at 1, get at 1. rewrite Hr, Hc. cbn [orb negb].
  destruct (Z.leb_spec n 0).
  - exists s. assert (n = 0) as -> by lia. split; [done|].
    unfold src_after. cdecide. by exists Y.
  - destruct (Z.leb_spec n (stop (strm s) - rdNext (strm s))).
    + destruct (frag_take s Y n (stopUnget (strm s)) HY ltac:(lia)) as [E _].
      eexists. unfold bind at 1, lift. rewrite E. split.
      { cbn. rewrite sub_app_l by lia. done. }
      unfold src_after. rewrite zlen_app in *. pose proof (zlen_nonneg Y). cdecide.
      rewrite drop_app_le by (unfold zlen in *; lia).
      apply (src_advance s Y n (stopUnget (strm s)) HY). lia.
    + destruct (GetStr_loop_spec (Z.to_nat n + 2) n [] s (frag s ++ Y)) as (s' & E & Ha).
      * by exists Y.
      * rewrite zlen_nil. lia.
      * rewrite zlen_nil. destruct (decide _); lia.
      * rewrite zlen_nil, Z.sub_0_r in *. eauto.
Qed.

Lemma rd_byte_spec s X b F : src_at s X -> frag s = b :: F ->
  exists s', rd_byte s = Ok (b, s') /\ src_content s' (F ++ X).
Proof.
  intros H Hf. pose proof (frag_len s X H) as Hlen. rewrite Hf, zlen_cons in Hlen.
  pose proof (zlen_nonneg F).
  destruct (frag_take s X 1 (stopUnget (strm s)) H ltac:(lia)) as [E _].
  pose proof (src_advance s X 1 (stopUnget (strm s)) H ltac:(lia)) as Hc.
  rewrite Hf in E, Hc. exists (set_ptrs (rdNext (strm s) + 1) (stopUnget (strm s)) s).
  split; [|done]. unfold rd_byte, bind, get, lift. by rewrite E.
Qed.

Definition head_or (d : Z) (X : list Z) : Z := match X with [] => d | b :: _ => b end.

(** [FCGX_GetChar] is the next byte, or [EOF] when there is none. *)
Lemma FCGX_GetChar_spec s X : src_content s X ->
  exists s', FCGX_GetChar s = Ok (head_or EOF X, s') /\
             match X with [] => src_end s' | _ :: X => src_content s' X end.
Proof.
  intros (Y & HY & ->). pose proof (src_open s Y HY) as (Hr & Hc & ?).
  pose proof (frag_nil_iff s Y HY) as Hnil.
  unfold FCGX_GetChar, bind at 1, get at 1. rewrite Hr, Hc. cbn [orb negb].
  destruct (Z.eqb_spec (rdNext (strm s)) (stop (strm s))) as [E|E]; cbn [negb].
  - rewrite (proj2 Hnil E). cbn [app head_or].
    destruct (src_refill s Y HY E) as [[-> (s2 & Ef & Hend)]|[Hne (s2 & Ef & Hc2 & Hf2 & Hfp & (Z' & HZ & ->))]].
    + exists s2. split; [|done]. erewrite bind_Ok by exact Ef. unfold bind, get.
      by rewrite (src_closed s2 Hend).
    + rewrite Hfp in *. destruct (frag s2) as [|b F] eqn:Ff; [done|].
      edestruct (rd_byte_spec _ Z' b F HZ) as (s' & Er & Hs'); [congruence|].
      exists s'. cbn [app head_or]. split; [|done]. erewrite bind_Ok by exact Ef.
      unfold bind at 1, get at 1. rewrite Hc2. erewrite bind_Ok by reflexivity.
      unfold bind at 1, get at 1. cbn -[rd_byte].
      pose proof (frag_nil_iff _ _ HZ) as Hn2. rewrite Hfp in Hn2. cbn in Hn2.
      destruct (Z.eqb_spec (rdNext (strm s2)) (stop (strm s2))) as [Ez|Ez]; [|exact Er].
      by apply Hn2 in Ez.
  - destruct (frag s) as [|b F] eqn:Ff; [tauto|]. cbn [app head_or].
    destruct (rd_byte_spec s Y b F HY Ff) as (s' & Er & Hs'). eauto.
Qed.

(** The first line of [X], or its first [k] characters when the line is longer. *)
Fixpoint take_line (k : nat) (X : list Z) : list Z :=
  match k, X with
  | S k, c :: X => c :: (if c =? 10 then [] else take_line k X)
  | _, _ => []
  end.

(** The call has run into the end of the stream. *)
Definition line_eof (k : nat) (X : list Z) : bool :=
  bool_decide (length X < k)%nat && bool_decide (10 ∉ X).

Lemma line_eof_all k X : line_eof k X = true -> (length X <= length (take_line k X))%nat.
Proof.
  unfold line_eof. intros [Hk%bool_decide_eq_true H%bool_decide_eq_true]%andb_prop.
  revert k Hk. induction X as [|c X IH]; intros [|k] Hk; cbn in *; try lia.
  rewrite elem_of_cons in H. rewrite (proj2 (Z.eqb_neq c 10)) by intuition.
  specialize (IH ltac:(tauto) k ltac:(lia)). lia.
Qed.

Lemma GetLine_loop_spec k : forall p s X, src_content s X -> Forall is_byte X ->
  exists s', GetLine_loop k p s =
    Ok (if bool_decide (p ++ take_line k X = []) && (0 <? Z.of_nat k) then None
        else Some (p ++ take_line k X), s') /\
    if line_eof k X then src_end s' else src_content s' (drop (length (take_line k X)) X).
Proof.
  induction k as [|k IH]; intros p s X H HX; cbn [GetLine_loop take_line].
  - exists s. rewrite andb_false_r, app_nil_r. done.
  - destruct (FCGX_GetChar_spec s X H) as (s1 & E1 & H1). erewrite bind_Ok by exact E1.
    rewrite (proj2 (Z.ltb_lt 0 _)), andb_true_r by lia. destruct X as [|c X]; cbn [head_or].
    + exists s1. rewrite app_nil_r. split; [|done]. by destruct p.
    + inversion_clear HX as [|? ? Hc HX']. rewrite (proj2 (Z.eqb_neq c EOF)) by (unfold is_byte, EOF in *; lia).
      rewrite (bool_decide_eq_false_2 (p ++ _ = [])) by (by destruct p).
      assert (Hle : line_eof (S k) (c :: X) = negb (c =? 10) && line_eof k X).
      { unfold line_eof. cbn [length].
        replace (bool_decide (S (length X) < S k)%nat) with (bool_decide (length X < k)%nat)
          by (apply bool_decide_ext; lia).
        destruct (bool_decide (length X < k)%nat); cbn [andb]; [|by rewrite andb_false_r].
        destruct (Z.eqb_spec c 10) as [->|Hn]; cbn [negb].
        - apply bool_decide_eq_false_2. rewrite elem_of_cons. tauto.
        - apply bool_decide_ext. rewrite elem_of_cons. by intuition. }
      rewrite Hle. destruct (Z.eqb_spec c 10) as [->|Hn]; cbn [negb andb].
      * exists s1. done.
      * destruct (IH (p ++ [c]) s1 X H1 HX') as (s2 & E2 & H2). exists s2.
        rewrite E2, bool_decide_eq_false_2, <- app_assoc by (by destruct p). done.
Qed.

(** [FCGX_GetLine]: the next line, newline included, or as much of it as there is room for;
    [NULL] when the stream is at its end. *)
Lemma FCGX_GetLine_spec n s X : src_content s X -> Forall is_byte X ->
  exists s', FCGX_GetLine n s =
    Ok (if bool_decide (X = []) && (1 <? n) then None else Some (take_line (Z.to_nat (n - 1)) X), s') /\
    if line_eof (Z.to_nat (n - 1)) X then src_end s'
    else src_content s' (drop (length (take_line (Z.to_nat (n - 1)) X)) X).
Proof.
  intros H HX. destruct (GetLine_loop_spec (Z.to_nat (n - 1)) [] s X H HX) as (s' & E & H').
  exists s'. split; [|done]. unfold FCGX_GetLine. rewrite E. cbn [app]. do 2 f_equal.
  destruct (Z.ltb_spec 1 n).
  - rewrite (proj2 (Z.ltb_lt 0 _)), !andb_true_r by lia.
    destruct (Z.to_nat (n - 1)) eqn:Ek; [lia|]. by destruct X.
  - replace (Z.to_nat (n - 1)) with 0%nat by lia. by rewrite !andb_false_r.
Qed.
End SourceSpec.

Section SinkSpec.
Context {procs : StreamProcs} {snk : Sink procs}.

Lemma wr_bytes_snk s W bs : snk_at s W -> zlen bs <= stop (strm s) - wrNext (strm s) ->
  exists s', wr_bytes bs s = Ok (tt, s') /\ snk_at s' (W ++ bs) /\
             wrNext (strm s') = wrNext (strm s) + zlen bs /\ stop (strm s') = stop (strm s).
Proof.
  intros H Hb. pose proof (snk_open s W H) as (_ & _ & ? & ?).
  eexists. split; [apply wr_bytes_Ok; lia|]. split; [|done].
  eapply snk_write; [done|exact Hb|]. apply wr_bytes_Ok; lia.
Qed.

Lemma PutStr_loop_spec fuel : forall n moved str s W, snk_at s W -> str <> [] ->
  n = moved + zlen str ->
  (length str + (if decide (wrNext (strm s) = stop (strm s)) then 1 else 0) < fuel)%nat ->
  exists s', PutStr_loop fuel n moved str s = Ok (n, s') /\ snk_at s' (W ++ str).
Proof.
  induction fuel as [|fuel IH]; intros n moved str s W H Hne -> Hf; [lia|].
  pose proof (snk_open s W H) as (Hr & Hc & ? & ?). pose proof (zlen_pos str Hne).
  cbn [PutStr_loop]. unfold bind at 1, get at 1. set (m := Z.min _ _).
  assert (Hrest : forall s1 k, snk_at s1 (W ++ take k str) -> (k < length str)%nat ->
            (length str - k <= fuel - 1)%nat -> (0 < fuel)%nat ->
            exists s', (emptyBuffProc false ;;;
              PutStr_loop fuel (moved + zlen str) (moved + Z.of_nat k) (drop k str)) s1
              = Ok (moved + zlen str, s') /\ snk_at s' (W ++ str)).
  { intros s1 k Hs1 Hk Hfu Hfu'. destruct (snk_empty s1 _ Hs1) as (s2 & E2 & Hs2 & Hlt).
    erewrite bind_Ok by exact E2.
    destruct (IH (moved + zlen str) (moved + Z.of_nat k) (drop k str) s2 _ Hs2) as (s' & E & Hs').
    - intros Hz. apply (f_equal length) in Hz. rewrite length_drop in Hz. cbn in Hz. lia.
    - unfold zlen. rewrite length_drop. lia.
    - rewrite length_drop, decide_False by lia. lia.
    - exists s'. split; [done|]. by rewrite <- app_assoc, take_drop in Hs'. }
  destruct (Z.eqb_spec (wrNext (strm s)) (stop (strm s))) as [E|E]; cbn [negb].
  - rewrite decide_True in Hf by done. unfold bind at 1, ret at 1. cbn iota beta.
    unfold bind at 1, get at 1. rewrite Hc, Hr. cbn [orb].
    specialize (Hrest s 0%nat). rewrite drop_0, Z.add_0_r, app_nil_r in Hrest.
    apply Hrest; [done|unfold zlen in *; lia..].
  - rewrite decide_False in Hf by done.
    destruct (wr_bytes_snk s W (sub 0 m str) H) as (s1 & E1 & Hs1 & _).
    { rewrite zlen_sub by lia. lia. }
    unfold bind at 1, bind at 1, lift at 1. rewrite mem_read_Ok by lia.
    erewrite bind_Ok by exact E1. unfold ret at 1.
    destruct (Z.eqb_spec (moved + m) (moved + zlen str)) as [Em|Em].
    + exists s1. rewrite sub_all in Hs1 by lia. by rewrite Em.
    + unfold bind at 1, get at 1. pose proof (snk_open s1 _ Hs1) as (Hr1 & Hc1 & _).
      rewrite Hr1, Hc1. cbn [orb].
      specialize (Hrest s1 (Z.to_nat m)). rewrite Z2Nat.id in Hrest by lia.
      apply Hrest; [done|unfold zlen in *; lia..].
Qed.

(** [FCGX_PutStr] on an open writer writes all of its argument. *)
Lemma FCGX_PutStr_spec str s W : snk_at s W ->
  exists s', FCGX_PutStr str s = Ok (zlen str, s') /\ snk_at s' (W ++ str).
Proof.
  intros H. pose proof (snk_open s W H) as (? & ? & ? & ?).
  unfold FCGX_PutStr, bind at 1, get at 1.
  destruct (Z.leb_spec (zlen str) (stop (strm s) - wrNext (strm s))).
  - destruct (wr_bytes_snk s W str H) as (s' & E & H' & _); [lia|].
    exists s'. by erewrite bind_Ok by exact E.
  - apply PutStr_loop_spec; [done| |lia|destruct (decide _); lia].
    intros ->. rewrite zlen_nil in *. lia.
Qed.

(** [FCGX_PutChar] writes the character and returns it. *)
Lemma FCGX_PutChar_spec c s W : snk_at s W ->
  exists s', FCGX_PutChar c s = Ok (uchar c, s') /\ snk_at s' (W ++ [uchar c]).
Proof.
  assert (Hw : forall t, snk_at t W -> wrNext (strm t) <> stop (strm t) ->
    exists s', (wr_bytes [uchar c] ;;; ret (uchar c)) t = Ok (uchar c, s') /\ snk_at s' (W ++ [uchar c])).
  { intros t Ht Hne. pose proof (snk_open t W Ht) as (_ & _ & ? & _).
    destruct (wr_bytes_snk t W [uchar c] Ht) as (s' & E & H' & _); [rewrite zlen_cons, zlen_nil; lia|].
    exists s'. by erewrite bind_Ok by exact E. }
  intros H. pose proof (snk_open s W H) as (Hr & Hc & _).
  unfold FCGX_PutChar, bind at 1, get at 1.
  destruct (Z.eqb_spec (wrNext (strm s)) (stop (strm s))) as [E|E]; cbn [negb]; [|by apply Hw].
  rewrite Hr, Hc. cbn [orb]. destruct (snk_empty s W H) as (s2 & E2 & H2 & Hlt).
  erewrite bind_Ok by exact E2. unfold bind at 1, get at 1.
  rewrite (proj2 (Z.eqb_neq _ _)) by lia. cbn [negb]. apply Hw; [done|lia].
Qed.

Lemma FCGX_FFlush_spec s W : snk_at s W ->
  exists s', FCGX_FFlush s = Ok (0, s') /\ snk_at s' W.
Proof.
  intros H. pose proof (snk_open s W H) as (Hr & Hc & _).
  destruct (snk_empty s W H) as (s' & E & H' & _). pose proof (snk_open s' W H') as (_ & Hc' & _).
  exists s'. split; [|done]. unfold FCGX_FFlush, bind at 1, get at 1. rewrite Hc, Hr. cbn [orb].
  erewrite bind_Ok by exact E. unfold bind, get. by rewrite Hc'.
Qed.
End SinkSpec.
