(* ===== verification/CSprintf.v ===== *)
(** * [sprintf] of the C library, for one conversion

    What [FCGX_VFPrintF] of [libfcgi/fcgiapp.c] uses of the C library: [sprintf] with a format
    that is a single conversion specification.  Integers, characters and strings are formatted as
    ISO C says; the text of pointers and of floating point numbers is left to the implementation
    and is an interface here ([Libc]). *)

From S2P Require Import Prelude.

(** ** Conversion specifications *)

(** A specification after the percent sign: flags, minimum width, precision, size modifier and
    conversion; [32] stands for no modifier. *)
Record spec := mkSpec {
  sp_minus : bool;
  sp_zero : bool;
  sp_plus : bool;
  sp_space : bool;
  sp_hash : bool;
  sp_width : Z;
  sp_prec : option Z;
  sp_mod : Z;
  sp_op : Z }.

(** [strspn]: the longest prefix of accepted characters, and the rest. *)
Fixpoint span (accept : Z -> bool) (s : list Z) : list Z * list Z :=
  match s with
  | [] => ([], [])
  | c :: s' => if accept c then let '(l, r) := span accept s' in (c :: l, r) else ([], s)
  end.

Definition is_digit (c : Z) : bool := (48 <=? c) && (c <=? 57).

(** The characters ["-0+ #"]. *)
Definition is_flag (c : Z) : bool := (c =? 45) || (c =? 48) || (c =? 43) || (c =? 32) || (c =? 35).

(** [l], [L] and [h]. *)
Definition is_mod (c : Z) : bool := (c =? 108) || (c =? 76) || (c =? 104).

(** [strtol] on decimal digits. *)
Definition number (ds : list Z) : Z := fold_left (fun n d => n * 10 + (d - 48)) ds 0.

Definition has (c : Z) (flags : list Z) : bool := bool_decide (c ∈ flags).

(** The parts of a specification as ISO C reads them. *)
Definition parse_width (s : list Z) : Z * list Z :=
  let '(ds, s) := span is_digit s in (number ds, s).

Definition parse_prec (s : list Z) : option Z * list Z :=
  match s with
  | 46 :: s => let '(ds, s) := span is_digit s in (Some (number ds), s)
  | _ => (None, s)
  end.

Definition parse_mod (s : list Z) : Z * list Z :=
  match s with
  | c :: s' => if is_mod c then (c, s') else (32, s)
  | [] => (32, [])
  end.

Definition parse_spec (s : list Z) : option spec :=
  let '(flags, s) := span is_flag s in
  let '(width, s) := parse_width s in
  let '(prec, s) := parse_prec s in
  let '(md, s) := parse_mod s in
  match s with
  | [op] => Some (mkSpec (has 45 flags) (has 48 flags) (has 43 flags) (has 32 flags) (has 35 flags) width prec md op)
  | _ => None
  end.

(** ** Integers *)

Definition digit (upper : bool) (d : Z) : Z := if d <? 10 then 48 + d else (if upper then 55 else 87) + d.

Fixpoint digits_loop (fuel : nat) (base : Z) (upper : bool) (n : Z) (acc : list Z) : list Z :=
  match fuel with
  | O => acc
  | S fuel => if n =? 0 then acc else digits_loop fuel base upper (n / base) (digit upper (n mod base) :: acc)
  end.

(** The digits of [n], which are none for zero; numbers have at most 64 of them. *)
Definition digits (base : Z) (upper : bool) (n : Z) : list Z := digits_loop 64 base upper n [].

Definition rep (n c : Z) : list Z := replicate (Z.to_nat n) c.

(** The precision is the least number of digits, by default one. *)
Definition with_prec (sp : spec) (ds : list Z) : list Z :=
  rep (default 1 (sp_prec sp) - zlen ds) 48 ++ ds.

(** [prefix] and the digits in a field of the minimum width. *)
Definition in_field (sp : spec) (prefix ds : list Z) : list Z :=
  let n := sp_width sp - (zlen prefix + zlen ds) in
  if sp_minus sp then prefix ++ ds ++ rep n 32
  else if sp_zero sp && bool_decide (sp_prec sp = None) then prefix ++ rep n 48 ++ ds
  else rep n 32 ++ prefix ++ ds.

Definition sign_prefix (sp : spec) (n : Z) : list Z :=
  if n <? 0 then [45] else if sp_plus sp then [43] else if sp_space sp then [32] else [].

Definition fmt_signed (sp : spec) (n : Z) : list Z :=
  in_field sp (sign_prefix sp n) (with_prec sp (digits 10 false (Z.abs n))).

(** [u], [o], [x] and [X]. *)
Definition fmt_unsigned (sp : spec) (n : Z) : list Z :=
  let op := sp_op sp in
  let base := if op =? 117 then 10 else if op =? 111 then 8 else 16 in
  let ds := with_prec sp (digits base (op =? 88) n) in
  if sp_hash sp && (op =? 111) && negb (nth 0 ds 0 =? 48) then in_field sp [] (48 :: ds)
  else if sp_hash sp && ((op =? 120) || (op =? 88)) && negb (n =? 0) then in_field sp [48; op] ds
  else in_field sp [] ds.

(** Text in a field: zeros never pad it. *)
Definition fmt_text (sp : spec) (bs : list Z) : list Z :=
  let n := sp_width sp - zlen bs in
  if sp_minus sp then bs ++ rep n 32 else rep n 32 ++ bs.

Definition fmt_string (sp : spec) (bs : list Z) : list Z :=
  fmt_text sp (match sp_prec sp with Some p => take (Z.to_nat p) bs | None => bs end).

(** ** The conversion *)

(** What the implementation chooses, with what its documentation says of the lengths: a pointer
    is at most twenty characters; a fixed conversion has a sign, the digits of the integral part,
    at most [exp / 3 + 1] for a number below [2 ^ exp], the point and the digits of the
    precision; an exponential conversion has a sign, one digit, a point, the precision and an
    exponent of at most six characters.

    [Dbl] has the values of [long double], among them those of [double] ([is_double]).  [to_double] is
    the conversion to [double] and [in_double] says that the value is one that it can represent, rounded
    (outside of that range ISO C leaves the conversion undefined; with IEEE arithmetic it gives an
    infinity, of which [frexp] stores no particular exponent).  [frexp] is given a [double], and its
    exponent bounds the length of the fixed conversion of that [double], and of a [long double] that was
    rounded to it. *)
Class Libc (Dbl : Type) := {
  fmt_pointer : Z -> list Z;
  fmt_double : spec -> Dbl -> list Z;
  is_double : Dbl -> bool;
  in_double : Dbl -> bool;
  to_double : Dbl -> Dbl;
  frexp_exp : Dbl -> Z;
  fmt_pointer_len p : zlen (fmt_pointer p) <= 20;
  fmt_fixed_len sp d : is_double d = true -> sp_op sp = 102 -> 0 <= default 6 (sp_prec sp) ->
    zlen (fmt_double sp d) <= Z.max (sp_width sp) (default 6 (sp_prec sp) + 4 + Z.max 0 (frexp_exp d) / 3);
  fmt_fixed_long sp d : in_double d = true -> sp_op sp = 102 -> 0 <= default 6 (sp_prec sp) ->
    zlen (fmt_double sp d) <= Z.max (sp_width sp) (default 6 (sp_prec sp) + 4 + Z.max 0 (frexp_exp (to_double d)) / 3);
  fmt_exp_len sp d : sp_op sp <> 102 -> 0 <= default 6 (sp_prec sp) ->
    zlen (fmt_double sp d) <= Z.max (sp_width sp) (default 6 (sp_prec sp) + 9);
  fmt_double_nonzero sp d : Forall (fun c => c <> 0) (fmt_double sp d);
  fmt_pointer_nonzero p : Forall (fun c => c <> 0) (fmt_pointer p) }.

(** The argument of the conversion, promoted. *)
Inductive value (Dbl : Type) :=
  | VInt (z : Z)
  | VStr (s : list Z)
  | VPtr (p : Z)
  | VDbl (d : Dbl).
Arguments VInt {Dbl} z.
Arguments VStr {Dbl} s.
Arguments VPtr {Dbl} p.
Arguments VDbl {Dbl} d.

Section Sprintf.
Context {Dbl : Type} {libc : Libc Dbl}.

(** An argument of another type than the conversion's is undefined behaviour. *)
Definition format (sp : spec) (v : value Dbl) : res (list Z) :=
  let op := sp_op sp in
  if (op =? 100) || (op =? 105) then match v with VInt z => Ok (fmt_signed sp z) | _ => Crash MemFault end
  else if (op =? 117) || (op =? 111) || (op =? 120) || (op =? 88)
  then match v with VInt z => Ok (fmt_unsigned sp z) | _ => Crash MemFault end
  else if op =? 99 then match v with VInt z => Ok (fmt_text sp [uchar z]) | _ => Crash MemFault end
  else if op =? 115 then match v with VStr s => Ok (fmt_string sp s) | _ => Crash MemFault end
  else if op =? 112 then match v with VPtr p => Ok (fmt_text sp (fmt_pointer p)) | _ => Crash MemFault end
  else if (op =? 102) || (op =? 101) || (op =? 69) || (op =? 103) || (op =? 71)
  then match v with VDbl d => Ok (fmt_double sp d) | _ => Crash MemFault end
  else Crash MemFault.

(** [sprintf(buf, fmt, v)]: the bytes stored, without the terminating NUL. *)
Definition sprintf (fmt : list Z) (v : value Dbl) : res (list Z) :=
  match fmt with
  | 37 :: s => match parse_spec s with Some sp => format sp v | None => Crash MemFault end
  | _ => Crash MemFault
  end.
End Sprintf.

(** [sprintf(buf, "%d", n)]. *)
Definition decimal (n : Z) : list Z := fmt_signed (mkSpec false false false false false 0 None 32 100) n.

(** ** Lemmas *)

Lemma span_app accept l r : forallb accept l = true -> match r with [] => True | c :: _ => accept c = false end ->
  span accept (l ++ r) = (l, r).
Proof.
  intros Hl Hr. induction l as [|c l IH]; cbn [app span].
  - destruct r as [|c r]; [done|]. cbn. by rewrite Hr.
  - cbn in Hl. apply andb_prop in Hl as [Hc Hl]. by rewrite Hc, (IH Hl).
Qed.

Lemma zlen_rep n c : zlen (rep n c) = Z.max 0 n.
Proof. unfold zlen, rep. rewrite length_replicate. lia. Qed.

Lemma rep_none n c : n <= 0 -> rep n c = [].
Proof. intros. unfold rep. by replace (Z.to_nat n) with 0%nat by lia. Qed.

Lemma Forall_rep (P : Z -> Prop) n c : P c -> Forall P (rep n c).
Proof. intros. by apply Forall_replicate. Qed.

(** The digits of a number: their number, and the number they denote. *)
Lemma digits_loop_app fuel base upper : forall n acc, digits_loop fuel base upper n acc = digits_loop fuel base upper n [] ++ acc.
Proof.
  induction fuel as [|fuel IH]; intros n acc; [done|]. cbn [digits_loop]. destruct (n =? 0); [done|].
  rewrite IH, (IH _ [_]), <- app_assoc. done.
Qed.

Lemma digits_loop_len base upper : 1 < base -> forall k fuel n, 0 <= n < base ^ Z.of_nat k ->
  zlen (digits_loop fuel base upper n []) <= Z.of_nat k.
Proof.
  intros Hb k. induction k as [|k IH]; intros fuel n Hn; (destruct fuel as [|fuel]; cbn [digits_loop]; [change (zlen (@nil Z)) with 0; lia|]).
  - rewrite (proj2 (Z.eqb_eq n 0)) by lia. change (zlen (@nil Z)) with 0. lia.
  - destruct (Z.eqb_spec n 0); [change (zlen (@nil Z)) with 0; lia|]. rewrite digits_loop_app, zlen_app, zlen_cons, zlen_nil.
    specialize (IH fuel (n / base)). rewrite Nat2Z.inj_succ, Z.pow_succ_r in Hn by lia.
    assert (0 <= n / base < base ^ Z.of_nat k) by (split; [apply Z.div_pos; lia|apply Z.div_lt_upper_bound; lia]). lia.
Qed.

Lemma digits_len base upper n : 8 <= base -> 0 <= n <= ULONG_MAX -> zlen (digits base upper n) <= 22.
Proof.
  intros Hb Hn. apply (digits_loop_len base upper ltac:(lia) 22). split; [lia|].
  apply Z.le_lt_trans with ULONG_MAX; [lia|]. apply Z.lt_le_trans with (8 ^ 22); [by vm_compute|].
  apply Z.pow_le_mono_l. lia.
Qed.

Lemma number_snoc ds d : number (ds ++ [d]) = number ds * 10 + (d - 48).
Proof. unfold number. by rewrite fold_left_app. Qed.

Lemma digits_loop_number upper : forall k fuel n, 0 <= n < 10 ^ Z.of_nat k -> (k <= fuel)%nat ->
  number (digits_loop fuel 10 upper n []) = n.
Proof.
  induction k as [|k IH]; intros fuel n Hn Hf.
  - assert (n = 0) as -> by lia. by destruct fuel.
  - destruct fuel as [|fuel]; [lia|]. cbn [digits_loop]. destruct (Z.eqb_spec n 0) as [->|]; [done|].
    rewrite digits_loop_app, number_snoc. rewrite Nat2Z.inj_succ, Z.pow_succ_r in Hn by lia.
    rewrite IH; [|split; [apply Z.div_pos; lia|apply Z.div_lt_upper_bound; lia]|lia].
    unfold digit. rewrite (proj2 (Z.ltb_lt _ _)) by (apply Z.mod_pos_bound; lia).
    pose proof (Z.div_mod n 10 ltac:(lia)). lia.
Qed.

Lemma digit_range upper base d : 0 <= d < base -> base <= 16 -> 48 <= digit upper d < 128.
Proof. intros. unfold digit. destruct (Z.ltb_spec d 10); [lia|]. destruct upper; lia. Qed.

Lemma digits_chars base upper fuel : 1 < base <= 16 -> forall n, Forall (fun c => 48 <= c < 128) (digits_loop fuel base upper n []).
Proof.
  intros Hb. induction fuel as [|fuel IH]; intros n; cbn [digits_loop]; [constructor|]. destruct (n =? 0); [constructor|].
  rewrite digits_loop_app. apply Forall_app. split; [apply IH|]. constructor; [|done].
  apply (digit_range upper base); [apply Z.mod_pos_bound; lia|lia].
Qed.

Lemma digits_decimal fuel : forall n, forallb is_digit (digits_loop fuel 10 false n []) = true.
Proof.
  induction fuel as [|fuel IH]; intros n; cbn [digits_loop]; [done|]. destruct (n =? 0); [done|].
  rewrite digits_loop_app, forallb_app, IH. cbn. unfold digit, is_digit. rewrite (proj2 (Z.ltb_lt _ _)) by (apply Z.mod_pos_bound; lia).
  pose proof (Z.mod_pos_bound n 10 ltac:(lia)). rewrite (proj2 (Z.leb_le _ _)), (proj2 (Z.leb_le _ _)) by lia. done.
Qed.

(** The text of a number that is not negative. *)
Lemma decimal_digits n : 0 <= n <= 999999 -> exists ds, decimal n = ds /\ forallb is_digit ds = true /\ number ds = n /\
  1 <= zlen ds <= 6 /\ (0 < n -> nth 0 ds 0 <> 48).
Proof.
  intros Hn. exists (decimal n). split; [done|]. unfold decimal, fmt_signed, in_field, with_prec, sign_prefix. cbn [sp_minus sp_zero sp_plus sp_space sp_width sp_prec default].
  rewrite (proj2 (Z.ltb_ge n 0)), Z.abs_eq by lia. cbn [andb]. rewrite (rep_none (0 - _)).
  2:{ pose proof (zlen_nonneg (rep (1 - zlen (digits 10 false n)) 48 ++ digits 10 false n)). change (zlen (@nil Z)) with 0. lia. }
  cbn [app]. unfold digits.
  pose proof (digits_loop_len 10 false ltac:(lia) 6 64 n ltac:(lia)) as Hl. pose proof (digits_loop_number false 6 64 n ltac:(lia) ltac:(lia)) as Hnum.
  pose proof (digits_decimal 64 n) as Hd. destruct (Z.eqb_spec n 0) as [->|Hz]; [by vm_compute|].
  set (ds := digits_loop 64 10 false n []) in *. assert (Hne : ds <> []) by (intros E; rewrite E in Hnum; cbn in Hnum; lia).
  pose proof (zlen_pos ds Hne). rewrite rep_none by lia. cbn [app]. split; [done|]. split; [done|]. split; [lia|]. intros _.
  (* the first digit *)
  assert (G : forall k fuel m, 0 < m < 10 ^ Z.of_nat k -> (k <= fuel)%nat -> nth 0 (digits_loop fuel 10 false m []) 0 <> 48).
  { clear. induction k as [|k IH]; intros fuel m Hm Hf; [lia|]. destruct fuel as [|fuel]; [lia|]. cbn [digits_loop].
    rewrite (proj2 (Z.eqb_neq m 0)) by lia. rewrite digits_loop_app. rewrite Nat2Z.inj_succ, Z.pow_succ_r in Hm by lia.
    destruct (Z.eqb_spec (m / 10) 0) as [E|E].
    - rewrite E. replace (digits_loop fuel 10 false 0 []) with (@nil Z) by (by destruct fuel). cbn.
      pose proof (Z.div_mod m 10 ltac:(lia)). unfold digit. destruct (Z.ltb_spec (m mod 10) 10); lia.
    - assert (Hm' : 0 < m / 10 < 10 ^ Z.of_nat k).
      { split; [pose proof (Z.div_pos m 10 ltac:(lia) ltac:(lia)); lia|apply Z.div_lt_upper_bound; lia]. }
      specialize (IH fuel (m / 10) Hm' ltac:(lia)). destruct (digits_loop fuel 10 false (m / 10) []) as [|d ds] eqn:Ed; [|exact IH].
      exfalso. pose proof (digits_loop_number false k fuel (m / 10) ltac:(lia) ltac:(lia)) as Hn. rewrite Ed in Hn. cbn in Hn. lia. }
  apply (G 6%nat); lia.
Qed.

(** *** Lengths and characters of the formatted text *)

Lemma zlen_in_field sp prefix ds : zlen (in_field sp prefix ds) = Z.max (sp_width sp) (zlen prefix + zlen ds).
Proof.
  unfold in_field. set (n := sp_width sp - _). destruct (sp_minus sp); [|destruct (_ && _)]; rewrite !zlen_app, zlen_rep; lia.
Qed.

Lemma zlen_fmt_text sp bs : zlen (fmt_text sp bs) = Z.max (sp_width sp) (zlen bs).
Proof. unfold fmt_text. destruct (sp_minus sp); rewrite zlen_app, zlen_rep; lia. Qed.

Lemma in_field_chars (P : Z -> Prop) sp prefix ds : P 32 -> P 48 -> Forall P prefix -> Forall P ds -> Forall P (in_field sp prefix ds).
Proof.
  intros. unfold in_field. destruct (sp_minus sp); [|destruct (_ && _)]; repeat (apply Forall_app; split); try done; by apply Forall_rep.
Qed.

Lemma fmt_text_chars (P : Z -> Prop) sp bs : P 32 -> Forall P bs -> Forall P (fmt_text sp bs).
Proof. intros. unfold fmt_text. destruct (sp_minus sp); apply Forall_app; split; try done; by apply Forall_rep. Qed.

Lemma with_prec_chars sp base upper n : 1 < base <= 16 -> Forall (fun c => c <> 0) (with_prec sp (digits base upper n)).
Proof.
  intros Hb. unfold with_prec. apply Forall_app. split; [by apply Forall_rep|].
  eapply Forall_impl; [|by apply (digits_chars base upper 64 Hb n)]. intros; cbn in *; lia.
Qed.

Lemma zlen_with_prec sp ds : zlen (with_prec sp ds) = Z.max (default 1 (sp_prec sp)) (zlen ds).
Proof. unfold with_prec. rewrite zlen_app, zlen_rep. lia. Qed.

Lemma fmt_signed_len sp n : Z.abs n <= ULONG_MAX ->
  sp_width sp <= zlen (fmt_signed sp n) <= Z.max (sp_width sp) (Z.max (default 1 (sp_prec sp)) 22 + 1).
Proof.
  intros Hn. unfold fmt_signed. rewrite zlen_in_field, zlen_with_prec. pose proof (digits_len 10 false (Z.abs n) ltac:(lia) ltac:(lia)).
  assert (zlen (sign_prefix sp n) <= 1) by (unfold sign_prefix; destruct (n <? 0), (sp_plus sp), (sp_space sp); unfold zlen; cbn; lia). 
  pose proof (zlen_nonneg (digits 10 false (Z.abs n))). lia.
Qed.

Lemma fmt_signed_chars sp n : Forall (fun c => c <> 0) (fmt_signed sp n).
Proof.
  apply in_field_chars; [done|done| |by apply with_prec_chars].
  unfold sign_prefix. destruct (n <? 0), (sp_plus sp), (sp_space sp); repeat constructor; done.
Qed.

Lemma fmt_unsigned_ok sp n : 0 <= n <= ULONG_MAX -> sp_op sp <> 0 ->
  zlen (fmt_unsigned sp n) <= Z.max (sp_width sp) (Z.max (default 1 (sp_prec sp)) 22 + 2) /\
  Forall (fun c => c <> 0) (fmt_unsigned sp n).
Proof.
  intros Hn Hop. unfold fmt_unsigned. set (base := if sp_op sp =? 117 then _ else _).
  assert (Hb : 8 <= base <= 16) by (unfold base; destruct (sp_op sp =? 117), (sp_op sp =? 111); lia).
  pose proof (digits_len base (sp_op sp =? 88) n ltac:(lia) Hn). pose proof (with_prec_chars sp base (sp_op sp =? 88) n ltac:(lia)).
  pose proof (zlen_with_prec sp (digits base (sp_op sp =? 88) n)).
  destruct (_ && _); [|destruct (_ && _)]; rewrite zlen_in_field, ?zlen_cons, ?zlen_nil; (split; [lia|]);
    apply in_field_chars; try done; repeat (constructor; [done|]); done.
Qed.

(** ** An implementation whose only floating point number is zero

    For the examples: it formats [0.0] and pointers as common implementations do. *)
Module ZeroFloat.
Definition zeros (sp : spec) : list Z :=
  let p := default 6 (sp_prec sp) in
  48 :: if (0 <? p) || sp_hash sp then 46 :: rep p 48 else [].

Definition body (sp : spec) : list Z :=
  if sp_op sp =? 102 then zeros sp
  else if (sp_op sp =? 101) || (sp_op sp =? 69) then zeros sp ++ [sp_op sp; 43; 48; 48]
  else if sp_hash sp then 48 :: 46 :: rep (Z.max 1 (default 6 (sp_prec sp)) - 1) 48 else [48].

(** The flag [0] pads floating point numbers whatever the precision. *)
Definition fmt_zero (sp : spec) (_ : unit) : list Z :=
  in_field (mkSpec (sp_minus sp) (sp_zero sp) (sp_plus sp) (sp_space sp) (sp_hash sp) (sp_width sp) None (sp_mod sp) (sp_op sp))
    (sign_prefix sp 0) (body sp).

Definition fmt_address (p : Z) : list Z := 48 :: 120 :: digits 16 false (to_ulong p).

Lemma zlen_zeros sp : 0 <= default 6 (sp_prec sp) -> zlen (zeros sp) <= default 6 (sp_prec sp) + 2.
Proof. intros. unfold zeros. destruct (_ || _); rewrite !zlen_cons, ?zlen_rep, ?zlen_nil; lia. Qed.

Lemma zlen_zero_sign sp : zlen (sign_prefix sp 0) <= 1.
Proof. unfold sign_prefix. cbn. destruct (sp_plus sp), (sp_space sp); by vm_compute. Qed.

Lemma body_chars sp : Forall (fun c => c <> 0) (body sp).
Proof.
  assert (Hz : Forall (fun c => c <> 0) (zeros sp)).
  { unfold zeros. constructor; [done|]. destruct (_ || _); [|constructor]. constructor; [done|]. by apply Forall_rep. }
  unfold body. destruct (sp_op sp =? 102); [done|]. destruct (_ || _) eqn:E.
  - apply Forall_app. split; [done|]. constructor; [|repeat (constructor; [done|]); constructor].
    intros E0. rewrite E0 in E. done.
  - destruct (sp_hash sp); repeat (constructor; [done|]); [by apply Forall_rep|constructor].
Qed.

Lemma zero_fixed_len sp d : sp_op sp = 102 -> 0 <= default 6 (sp_prec sp) ->
  zlen (fmt_zero sp d) <= Z.max (sp_width sp) (default 6 (sp_prec sp) + 4 + Z.max 0 0 / 3).
Proof.
  intros Hop Hp. unfold fmt_zero. rewrite zlen_in_field. cbn [sp_width]. unfold body. rewrite Hop. cbn [Z.eqb Pos.eqb].
  pose proof (zlen_zeros sp Hp). pose proof (zlen_zero_sign sp). change (Z.max 0 0 / 3) with 0. lia.
Qed.

#[export] Instance libc : Libc unit.
Proof.
  refine {| fmt_pointer := fmt_address; fmt_double := fmt_zero; is_double := fun _ => true; in_double := fun _ => true;
    to_double := fun d => d; frexp_exp := fun _ => 0 |}.
  - intros p. unfold fmt_address. rewrite !zlen_cons.
    pose proof (digits_loop_len 16 false ltac:(lia) 16 64 (to_ulong p) ltac:(unfold to_ulong; apply Z.mod_pos_bound; lia)) as H. unfold digits. lia.
  - intros sp d _ Hop Hp. by apply zero_fixed_len.
  - intros sp d _ Hop Hp. by apply zero_fixed_len.
  - intros sp d Hop Hp. unfold fmt_zero. rewrite zlen_in_field. cbn [sp_width]. unfold body. rewrite (proj2 (Z.eqb_neq _ _) Hop).
    pose proof (zlen_zeros sp Hp). pose proof (zlen_zero_sign sp).
    destruct (_ || _); [rewrite zlen_app; change (zlen [sp_op sp; 43; 48; 48]) with 4; lia|].
    destruct (sp_hash sp); [rewrite !zlen_cons, zlen_rep; lia|change (zlen [48]) with 1; lia].
  - intros sp d. apply in_field_chars; [done|done| |apply body_chars]. unfold sign_prefix. cbn. destruct (sp_plus sp), (sp_space sp); repeat constructor; done.
  - intros p. unfold fmt_address. repeat (constructor; [done|]). eapply Forall_impl; [|apply (digits_chars 16 false 64); lia]. intros c Hc. cbn in *. lia.
Defined.
End ZeroFloat.
