(* ===== verification/FcgiWriter.v ===== *)
(** * The FastCGI writer: [EmptyBuffProc] and [WriteCloseRecords]

    The procedure of an output stream ([libfcgi/fcgiapp.c]): it wraps the buffered content in
    a record, pads it to a multiple of eight bytes, writes it out, and on close adds the end
    of stream record and the end of request.  The theorems: an open writer is a [Sink]
    (whatever sizes the application writes in, the connection carries well-formed records
    whose contents join to what was written), and closing ends the stream. *)

From S2P Require Import Prelude FcgiProto FcgiStream.

(** ** The code *)

Section Body.
(** The procedures that the [FCGX_PutStr] calls of [WriteCloseRecords] find in the stream. *)
Context {procs : StreamProcs}.

(** "Generate EOF for stream content if needed." *)
Definition put_eof_record : M SS Z :=
  s <- get ;;
  let d := data (strm s) in
  if negb ((stype d =? FCGI_STDERR) && (wrNext (strm s) =? 0) && negb (isAnythingWritten d))
  then header <- lift (MakeHeader (stype d) (requestId (req s)) 0 0) ;;
       FCGX_PutStr (header_bytes header)
  else ret 0.

(** "Generate FCGI_END_REQUEST record if needed." *)
Definition put_end_request : M SS Z :=
  s <- get ;;
  if nWriters (req s) =? 1
  then header <- lift (MakeHeader FCGI_END_REQUEST (requestId (req s)) 8 0) ;;
       let body := MakeEndRequestBody (appStatus (req s)) FCGI_REQUEST_COMPLETE in
       FCGX_PutStr (header_bytes header ++ end_body_bytes body)
  else ret 0.

Definition WriteCloseRecords : M SS unit :=
  upd_data (fun d => d <| rawWrite := true |>) ;;;
  put_eof_record ;;;
  put_end_request ;;;
  upd_req (fun r => r <| nWriters := nWriters r - 1 |>).

(** Fills in the header and the padding of the record in the buffer. *)
Definition frame_record : M SS unit :=
  s <- get ;;
  let cLen := to_int (wrNext (strm s) - FCGI_HEADER_LEN) in
  if 0 <? cLen then
    let eLen := AlignInt8 cLen in
    b <- lift (mem_write (buff (data (strm s))) (wrNext (strm s))
                         (replicate (Z.to_nat (eLen - cLen)) 0)) ;;
    upd_data (fun d => d <| buff := b |>) ;;;
    upd_strm (fun st => st <| wrNext := wrNext st + (eLen - cLen) |>) ;;;
    header <- lift (MakeHeader (stype (data (strm s))) (requestId (req s)) cLen (eLen - cLen)) ;;
    s <- get ;;
    b <- lift (mem_write (buff (data (strm s))) 0 (header_bytes header)) ;;
    upd_data (fun d => d <| buff := b |>)
  else upd_strm (fun st => st <| wrNext := 0 |>).

(** Writes the buffer out; the result says whether that failed. *)
Definition write_out : M SS bool :=
  s <- get ;;
  if negb (wrNext (strm s) =? 0) then
    upd_data (fun d => d <| isAnythingWritten := true |>) ;;;
    bs <- lift (mem_read (buff (data (strm s))) 0 (wrNext (strm s))) ;;
    r <- write_it_all bs ;;
    if r <? 0 then s <- get ;; SetError (os_errno (conn s)) ;;; ret true
    else upd_strm (fun st => st <| wrNext := 0 |>) ;;; ret false
  else ret false.

Definition EmptyBuff_body (doClose : bool) : M SS unit :=
  s <- get ;;
  (if negb (rawWrite (data (strm s))) then frame_record else ret tt) ;;;
  (if doClose then WriteCloseRecords else ret tt) ;;;
  failed <- write_out ;;
  if failed : bool then ret tt else
  s <- get ;;
  if negb (rawWrite (data (strm s)))
  then upd_strm (fun st => st <| wrNext := wrNext st + FCGI_HEADER_LEN |>)
  else ret tt.
End Body.

(** [EmptyBuffProc] calls itself through [FCGX_PutStr] when it closes; the inner call does not
    close, so it calls no further: a depth of two is enough ([EmptyBuffProc_at_1]). *)
Fixpoint EmptyBuffProc_at (depth : nat) (doClose : bool) : M SS unit :=
  match depth with
  | O => nofuel
  | S depth =>
      @EmptyBuff_body {| fillBuffProc := crash NullDeref;
                         emptyBuffProc := EmptyBuffProc_at depth |} doClose
  end.

Definition EmptyBuffProc : bool -> M SS unit := EmptyBuffProc_at 2.

(** The two procedures [NewStream] stores in a writer. *)
#[export] Instance writer_procs : StreamProcs :=
  {| fillBuffProc := crash NullDeref; emptyBuffProc := EmptyBuffProc |}.

Definition raw_procs : StreamProcs :=
  {| fillBuffProc := crash NullDeref; emptyBuffProc := EmptyBuffProc_at 1 |}.

Lemma EmptyBuffProc_at_1 d : EmptyBuffProc_at (S d) false = @EmptyBuff_body raw_procs false.
Proof. done. Qed.

(** ** The connection takes everything *)

Definition accepts (w : list wr_event) : Prop :=
  Forall (fun e => match e with WrAccept _ => True | WrErr _ => False end) w.

Lemma write_loop_accepts w : accepts w -> forall t bs,
  exists w', write_loop w t bs = (w', t ++ bs, None) /\ accepts w'.
Proof.
  induction 1 as [|e w He Hw IH]; intros t bs.
  - exists []. split; [|by constructor]. by destruct bs; cbn; rewrite ?app_nil_r.
  - destruct bs as [|b bs]; cbn [write_loop].
    + exists (e :: w). rewrite app_nil_r. split; [done|by constructor].
    + destruct e as [n|]; [|done].
      destruct (IH (t ++ take n (b :: bs)) (drop n (b :: bs))) as (w' & E & ?).
      exists w'. rewrite E, <- app_assoc, take_drop. done.
Qed.

Lemma write_it_all_Ok s bs : 0 <= ipcFd (req s) -> accepts (wr (conn s)) ->
  exists w', accepts w' /\
    write_it_all bs s = Ok (0, s <| conn := (conn s) <| wr := w' |> <| tx := tx (conn s) ++ bs |> |>).
Proof.
  intros Hfd Hw. destruct (write_loop_accepts _ Hw (tx (conn s)) bs) as (w' & E & Hw').
  destruct bs as [|b bs].
  - exists (wr (conn s)). split; [done|]. unfold write_it_all, bind, get, ret.
    rewrite app_nil_r. by destruct s as [? ? []].
  - exists w'. split; [done|]. unfold write_it_all, bind, get. cdecide. by rewrite E.
Qed.

(** ** The states of a writer *)

(** Only the buffer and the write pointer of [s] changed. *)
Definition set_buf (wn : Z) (b : list Z) (s : SS) : SS :=
  s <| strm := (strm s) <| wrNext := wn |> <| data := (data (strm s)) <| buff := b |> |> |>.

(** What [NewStream] sets up for a writer and no operation changes before the close, on a
    connection that is open and accepts every write. *)
Record wr_layout (s : SS) : Prop := {
  wl_reader : isReader (strm s) = false;
  wl_closed : isClosed (strm s) = false;
  wl_errno : FCGI_errno (strm s) = 0;
  wl_stop : stop (strm s) = zlen (buff (data (strm s)));
  wl_align : zlen (buff (data (strm s))) mod 8 = 0;
  wl_size : 16 <= zlen (buff (data (strm s))) <= 65536;
  wl_id : 0 <= requestId (req s) < 65536;
  wl_type : is_byte (stype (data (strm s)));
  wl_fd : 0 <= ipcFd (req s);
  wl_accepts : accepts (wr (conn s)) }.

(** A record this writer put on the connection. *)
Definition from_writer (T id : Z) (r : rec) : Prop :=
  rec_ok r /\ r_type r = T /\ r_id r = id /\ r_content r <> [].

(** The content that waits in the buffer, behind the space kept for its header. *)
Definition pending (s : SS) : list Z :=
  sub FCGI_HEADER_LEN (wrNext (strm s) - FCGI_HEADER_LEN) (buff (data (strm s))).

(** An open writer of type [T]: behind the bytes [tx0] the connection carries complete records
    of this stream; [W] is what the stream carried before them ([base]), the content of these
    records, and what waits in the buffer. *)
Definition framed (T : Z) (rq : ReqData) (rx0 : list rd_event) (tx0 base : list Z) (s : SS) (W : list Z) : Prop :=
  wr_layout s /\ rawWrite (data (strm s)) = false /\ wasFCloseCalled (strm s) = false /\
  stype (data (strm s)) = T /\ req s = rq /\
  FCGI_HEADER_LEN <= wrNext (strm s) <= stop (strm s) /\
  exists rs, Forall (from_writer T (requestId rq)) rs /\
    tx (conn s) = tx0 ++ wire rs /\ rx (conn s) = rx0 /\ W = base ++ stream_of T rs ++ pending s /\
    (isAnythingWritten (data (strm s)) = false <-> base ++ stream_of T rs = []).

(** While [WriteCloseRecords] runs: [W] is everything given to the connection or the buffer. *)
Definition raw (T : Z) (rq : ReqData) (rx0 : list rd_event) (s : SS) (W : list Z) : Prop :=
  wr_layout s /\ rawWrite (data (strm s)) = true /\ wasFCloseCalled (strm s) = false /\
  stype (data (strm s)) = T /\ req s = rq /\ 0 <= wrNext (strm s) <= stop (strm s) /\
  rx (conn s) = rx0 /\ W = tx (conn s) ++ sub 0 (wrNext (strm s)) (buff (data (strm s))).

Lemma wr_layout_set_buf s wn b : wr_layout s -> zlen b = zlen (buff (data (strm s))) ->
  wr_layout (set_buf wn b s).
Proof. intros [] E. split; cbn; rewrite ?E; done. Qed.

Lemma wr_layout_tx s w t : wr_layout s -> accepts w ->
  wr_layout (s <| conn := (conn s) <| wr := w |> <| tx := t |> |>).
Proof. by intros [] ?. Qed.

Lemma mod8_split n k : n mod 8 = 0 -> k = 8 * (n / 8) -> n = k.
Proof. intros. subst. pose proof (Z.div_mod n 8 ltac:(lia)). lia. Qed.

(** Padding never leaves the buffer, because the buffer's length is a multiple of eight. *)
Lemma pad_fits n len : 0 <= n <= len - 8 -> len mod 8 = 0 -> len <= 65536 ->
  n <= AlignInt8 n <= len - 8 /\ AlignInt8 n - n <= 7.
Proof.
  intros. pose proof (AlignInt8_bounds n ltac:(unfold INT_MAX; lia)) as [? Ha].
  apply Z.mod_divide in Ha, H0; [|lia..]. destruct Ha as [a Ha], H0 as [l Hl]. lia.
Qed.

(** The memory of the buffer once header and padding have been stored around [n] bytes. *)
Lemma frame_bytes h pad n (buf : list Z) : 0 <= n -> 8 + n + zlen pad <= zlen buf ->
  sub 0 (8 + n + zlen pad) (splice 0 (header_bytes h) (splice (8 + n) pad buf))
  = header_bytes h ++ sub 8 n buf ++ pad.
Proof.
  intros Hn Hb. pose proof (zlen_nonneg pad). pose proof (zlen_header_bytes h) as Hh.
  assert (zlen (splice (8 + n) pad buf) = zlen buf) by (rewrite zlen_splice; lia).
  rewrite <- Z.add_assoc, sub_split by lia.
  rewrite <- Hh at 1. rewrite sub_splice_at by lia. f_equal. cbn [Z.add].
  rewrite sub_splice_after by lia. rewrite sub_split by lia.
  rewrite sub_splice_before by lia. by rewrite sub_splice_at by lia.
Qed.

(** [frame_record] turns the pending content into one record at the start of the buffer. *)
Lemma frame_record_spec s : wr_layout s ->
  FCGI_HEADER_LEN <= wrNext (strm s) <= stop (strm s) ->
  exists rp wn b, frame_record s = Ok (tt, set_buf wn b s) /\
    zlen b = zlen (buff (data (strm s))) /\ 0 <= wn <= stop (strm s) /\ sub 0 wn b = wire rp /\
    stream_of (stype (data (strm s))) rp = pending s /\
    Forall (from_writer (stype (data (strm s))) (requestId (req s))) rp /\
    (wn = 0 <-> pending s = []).
Proof.
  intros L Hw. pose proof (wl_stop s L). pose proof (wl_size s L). pose proof (wl_align s L).
  unfold frame_record, bind at 1, get at 1. unfold pending, FCGI_HEADER_LEN in *.
  rewrite to_int_small by (unfold INT_MIN, INT_MAX; lia).
  set (n := wrNext (strm s) - 8) in *. set (buf := buff (data (strm s))) in *.
  destruct (Z.ltb_spec 0 n).
  - destruct (pad_fits n (zlen buf)) as [Hal Hpd]; [lia..|].
    set (pad := replicate (Z.to_nat (AlignInt8 n - n)) 0).
    assert (Hpad : zlen pad = AlignInt8 n - n) by (unfold pad; rewrite zlen_replicate; lia).
    assert (Hc : zlen (sub 8 n buf) = n) by (rewrite zlen_sub; lia).
    set (r := mkRec (stype (data (strm s))) (requestId (req s)) (sub 8 n buf) pad).
    set (h := header_of (r_type r) (r_id r) n (AlignInt8 n - n)).
    assert (Hb1 : zlen (splice (wrNext (strm s)) pad buf) = zlen buf) by (rewrite zlen_splice; lia).
    exists [r], (8 + n + zlen pad), (splice 0 (header_bytes h) (splice (wrNext (strm s)) pad buf)).
    rewrite wire_one, stream_of_one by done. split_and!.
    + unfold bind, upd_data, upd_strm, modify, lift, get. fold pad.
      rewrite mem_write_Ok, MakeHeader_Ok by (unfold FCGI_MAX_LENGTH; lia). cbn -[AlignInt8 pad header_bytes].
      rewrite mem_write_Ok by (rewrite ?zlen_header_bytes; lia).
      replace (8 + n + zlen pad) with (wrNext (strm s) + (AlignInt8 n - n)) by lia. done.
    + rewrite zlen_splice; rewrite ?zlen_header_bytes; lia.
    + lia.
    + lia.
    + replace (wrNext (strm s)) with (8 + n) by lia. rewrite frame_bytes by lia.
      unfold enc, h. cbn [r_content r_pad r_type r_id r]. by rewrite Hc, Hpad.
    + done.
    + constructor; [|done]. repeat split; cbn [r_content r_pad r_type r_id r]; try apply L.
      * rewrite Hc. unfold FCGI_MAX_LENGTH. lia.
      * lia.
      * intros Hz. rewrite Hz, zlen_nil in Hc. lia.
    + split; [lia|]. intros Hz. rewrite Hz, zlen_nil in Hc. lia.
  - exists [], 0, buf. rewrite !sub_neg by lia.
    subst buf. split_and!; try done; try lia. by destruct s as [[? ? ? ? ? ? ? ? []] ? []].
Qed.

(** [s] after its buffer went out on the connection. *)
Definition written (w : list wr_event) (s : SS) : SS :=
  s <| strm := (strm s) <| wrNext := 0 |>
      <| data := (data (strm s)) <| isAnythingWritten :=
           isAnythingWritten (data (strm s)) || negb (wrNext (strm s) =? 0) |> |> |>
    <| conn := (conn s) <| wr := w |>
      <| tx := tx (conn s) ++ sub 0 (wrNext (strm s)) (buff (data (strm s))) |> |>.

Lemma write_out_spec s : wr_layout s -> 0 <= wrNext (strm s) <= stop (strm s) ->
  exists w, accepts w /\ write_out s = Ok (false, written w s).
Proof.
  intros L Hw. pose proof (wl_stop s L). unfold write_out, bind at 1, get at 1.
  destruct (Z.eqb_spec (wrNext (strm s)) 0) as [E|E]; cbn [negb].
  - exists (wr (conn s)). split; [apply L|]. unfold written. rewrite E, sub_0, app_nil_r, orb_false_r.
    destruct s as [[? ? ? ? ? ? ? ? []] ? []]. cbn in *. by subst.
  - unfold bind, upd_data, upd_strm, modify, lift. rewrite mem_read_Ok by lia.
    match goal with |- context [write_it_all ?bs ?t] =>
      destruct (write_it_all_Ok t bs (wl_fd s L) (wl_accepts s L)) as (w & Ha & Ew) end.
    exists w. split; [done|]. rewrite Ew. unfold written, ret.
    cbn. by rewrite (proj2 (Z.eqb_neq _ _) E), orb_true_r.
Qed.

Lemma wr_layout_written w s : wr_layout s -> accepts w -> wr_layout (written w s).
Proof. by intros [] ?. Qed.

(** Flushing an open writer keeps what was written and leaves room in the buffer. *)
Lemma flush_spec T rq rx0 tx0 base d s W : framed T rq rx0 tx0 base s W ->
  exists s', EmptyBuffProc_at (S d) false s = Ok (tt, s') /\ framed T rq rx0 tx0 base s' W /\
             wrNext (strm s') = FCGI_HEADER_LEN /\ wrNext (strm s') < stop (strm s').
Proof.
  intros (L & Hraw & Hf & HT & Hrq & Hw & rs & Hrs & Htx & Hrx & -> & Hany).
  destruct (frame_record_spec s L Hw) as (rp & wn & b & E & Hb & Hwn & Hs & Hst & Hrp & Hz).
  pose proof (wr_layout_set_buf s wn b L Hb) as L1.
  destruct (write_out_spec (set_buf wn b s) L1) as (w & Ha & Ew); [done|].
  pose proof (wr_layout_written w _ L1 Ha) as L2.
  rewrite EmptyBuffProc_at_1. unfold EmptyBuff_body, bind at 1, get at 1. rewrite Hraw. cbn [negb].
  erewrite bind_Ok by exact E. unfold bind at 1, ret at 1. erewrite bind_Ok by exact Ew.
  unfold bind, get. change (rawWrite _) with (rawWrite (data (strm s))). rewrite Hraw. cbn [negb].
  eexists. split; [done|]. pose proof (wl_size _ L2). pose proof (wl_stop _ L2).
  split; [|cbn in *; unfold FCGI_HEADER_LEN in *; split; lia].
  split; [by destruct L2|]. split_and!; try done; try (cbn in *; unfold FCGI_HEADER_LEN in *; lia).
  exists (rs ++ rp). split_and!.
  - subst. by apply Forall_app.
  - cbn. rewrite Hs, Htx, wire_app, app_assoc. done.
  - done.
  - rewrite stream_of_app, <- HT, Hst. unfold pending at 2. cbn. by rewrite app_nil_r.
  - rewrite stream_of_app, app_assoc, app_nil, <- Hany, <- HT, Hst, <- Hz. cbn.
    rewrite orb_false_iff, negb_false_iff, Z.eqb_eq. done.
Qed.

(** The open writer keeps the promise of a [Sink]. *)
#[export] Instance framed_sink (T : Z) (rq : ReqData) (rx0 : list rd_event) (tx0 base : list Z) : Sink writer_procs.
Proof.
  refine {| snk_at := framed T rq rx0 tx0 base |}.
  - intros s W (L & _ & _ & _ & _ & Hw & _). pose proof (wl_stop s L).
    unfold FCGI_HEADER_LEN in *. destruct L. split_and!; try done; lia.
  - intros s W bs s' (L & Hraw & Hf & HT & Hrq & Hw & rs & Hrs & Htx & Hrx & -> & Hany) Hb E.
    pose proof (wl_stop s L). pose proof (zlen_nonneg bs). unfold FCGI_HEADER_LEN in *.
    rewrite wr_bytes_Ok in E by lia. injection E as <-.
    assert (Hl : zlen (splice (wrNext (strm s)) bs (buff (data (strm s))))
                 = zlen (buff (data (strm s)))) by (rewrite zlen_splice; lia).
    split; [by apply (wr_layout_set_buf s)|].
    split_and!; try done; try (cbn; unfold FCGI_HEADER_LEN; lia).
    exists rs. do 3 (split; [done|]). split; [|done]. rewrite <- !app_assoc. do 2 f_equal.
    unfold pending, FCGI_HEADER_LEN in *. cbn.
    replace (wrNext (strm s) + zlen bs - 8) with (wrNext (strm s) - 8 + zlen bs) by lia.
    rewrite sub_split by lia. rewrite sub_splice_before by lia. f_equal.
    replace (8 + (wrNext (strm s) - 8)) with (wrNext (strm s)) by lia.
    by rewrite sub_splice_at by lia.
  - intros s W H. destruct (flush_spec T rq rx0 tx0 base 1 s W H) as (s' & E & H' & _ & ?). by exists s'.
Defined.

(** ** Closing *)

(** In raw mode everything [FCGX_PutStr] is given reaches the connection unchanged. *)
Lemma raw_flush T rq rx0 s W : raw T rq rx0 s W ->
  exists w, accepts w /\ EmptyBuffProc_at 1 false s = Ok (tt, written w s) /\
            raw T rq rx0 (written w s) W.
Proof.
  intros (L & Hr & Hf & HT & Hrq & Hw & Hrx & ->).
  destruct (write_out_spec s L Hw) as (w & Ha & Ew). exists w. split; [done|]. split.
  - cbn [EmptyBuffProc_at]. unfold EmptyBuff_body, bind at 1, get at 1. rewrite Hr. cbn [negb].
    unfold bind at 1, ret at 1. unfold bind at 1, ret at 1. erewrite bind_Ok by exact Ew.
    unfold bind, get. change (rawWrite _) with (rawWrite (data (strm s))). by rewrite Hr.
  - pose proof (wl_size s L). pose proof (wl_stop s L).
    split; [by apply wr_layout_written|]. split_and!; try done; [cbn; lia..|].
    cbn. by rewrite app_nil_r.
Qed.

Definition raw_sink (T : Z) (rq : ReqData) (rx0 : list rd_event) : Sink raw_procs.
Proof.
  refine {| snk_at := raw T rq rx0 |}.
  - intros s W (L & _ & _ & _ & _ & Hw & _). pose proof (wl_stop s L).
    destruct L. split_and!; try done; lia.
  - intros s W bs s' (L & Hr & Hf & HT & Hrq & Hw & Hrx & ->) Hb E.
    pose proof (wl_stop s L). pose proof (zlen_nonneg bs).
    rewrite wr_bytes_Ok in E by lia. injection E as <-.
    split; [apply (wr_layout_set_buf s); [done|rewrite zlen_splice; lia]|].
    split_and!; try done; [cbn; lia..|]. cbn. rewrite <- app_assoc. f_equal.
    rewrite sub_split by lia. rewrite sub_splice_before by lia. f_equal. cbn [Z.add].
    by rewrite sub_splice_at by lia.
  - intros s W H. destruct (raw_flush T rq rx0 s W H) as (w & Ha & E & H'). exists (written w s).
    destruct H as (L & _). pose proof (wl_size s L). pose proof (wl_stop s L).
    split; [done|]. split; [done|]. cbn. lia.
Defined.

(** The records that end a stream of type [T] whose content was [W], and the request. *)
Definition eof_recs (T id : Z) (W : list Z) : list rec :=
  if (T =? FCGI_STDERR) && bool_decide (W = []) then [] else [mkRec T id [] []].

Definition end_recs (rq : ReqData) : list rec :=
  if nWriters rq =? 1 then
    [mkRec FCGI_END_REQUEST (requestId rq)
       (end_body_bytes (MakeEndRequestBody (appStatus rq) FCGI_REQUEST_COMPLETE)) []]
  else [].

Lemma raw_PutStr T rq rx0 s W str : raw T rq rx0 s W ->
  exists s' z, @FCGX_PutStr raw_procs str s = Ok (z, s') /\ raw T rq rx0 s' (W ++ str).
Proof.
  intros H. destruct (@FCGX_PutStr_spec raw_procs (raw_sink T rq rx0) str s W H) as (s' & E & H').
  by exists s', (zlen str).
Qed.

Lemma put_eof_record_spec T rq rx0 s W W0 : raw T rq rx0 s W ->
  (wrNext (strm s) = 0 /\ isAnythingWritten (data (strm s)) = false <-> W0 = []) ->
  exists z s', @put_eof_record raw_procs s = Ok (z, s') /\
               raw T rq rx0 s' (W ++ wire (eof_recs T (requestId rq) W0)).
Proof.
  intros H HW. unfold put_eof_record, eof_recs, bind at 1, get at 1.
  pose proof H as (_ & _ & _ & -> & -> & _). rewrite <- andb_assoc, MakeHeader_Ok by (split; done).
  destruct (raw_PutStr T rq rx0 s W (header_bytes (header_of T (requestId rq) 0 0)) H)
    as (s2 & z & E & H2).
  destruct (T =? FCGI_STDERR); cbn [andb negb]; [|by exists z, s2; rewrite wire_one].
  case_bool_decide as Hb.
  - destruct (proj2 HW Hb) as [-> ->]. exists 0, s. cbn. by rewrite app_nil_r.
  - replace (_ && _) with false; [by exists z, s2; rewrite wire_one|].
    symmetry. apply not_true_iff_false. rewrite andb_true_iff, negb_true_iff, Z.eqb_eq. tauto.
Qed.

Lemma put_end_request_spec T rq rx0 s W : raw T rq rx0 s W ->
  exists z s', @put_end_request raw_procs s = Ok (z, s') /\ raw T rq rx0 s' (W ++ wire (end_recs rq)).
Proof.
  intros H. unfold put_end_request, end_recs, bind at 1, get at 1.
  pose proof H as (_ & _ & _ & _ & -> & _). rewrite MakeHeader_Ok by (split; done).
  destruct (nWriters rq =? 1); [|exists 0, s; cbn; by rewrite app_nil_r].
  set (body := MakeEndRequestBody _ _).
  destruct (raw_PutStr T rq rx0 s W (header_bytes (header_of FCGI_END_REQUEST (requestId rq) 8 0)
              ++ end_body_bytes body) H) as (s2 & z & E & H2).
  exists z, s2. split; [exact E|]. rewrite wire_one. unfold enc.
  cbn [r_content r_pad r_type r_id]. by rewrite app_nil_r.
Qed.

Lemma WriteCloseRecords_spec T rq s W : wr_layout s -> wasFCloseCalled (strm s) = false ->
  stype (data (strm s)) = T -> req s = rq -> 0 <= wrNext (strm s) <= stop (strm s) ->
  (wrNext (strm s) = 0 /\ isAnythingWritten (data (strm s)) = false <-> W = []) ->
  exists s', @WriteCloseRecords raw_procs s = Ok (tt, s') /\
    raw T (rq <| nWriters := nWriters rq - 1 |>) (rx (conn s)) s'
      (tx (conn s) ++ sub 0 (wrNext (strm s)) (buff (data (strm s)))
       ++ wire (eof_recs T (requestId rq) W ++ end_recs rq)).
Proof.
  intros L Hf HT Hrq Hw HW. unfold WriteCloseRecords, bind at 1, upd_data, upd_strm, modify.
  set (s1 := s <| strm := _ |>).
  assert (H1 : raw T rq (rx (conn s)) s1 (tx (conn s) ++ sub 0 (wrNext (strm s)) (buff (data (strm s))))).
  { split; [by destruct L|]. done. }
  destruct (put_eof_record_spec T rq _ s1 _ W H1 HW) as (z & s2 & E2 & H2).
  destruct (put_end_request_spec T rq _ s2 _ H2) as (z' & s3 & E3 & H3).
  erewrite bind_Ok by exact E2. erewrite bind_Ok by exact E3. eexists. split; [done|].
  rewrite <- !app_assoc, <- wire_app in H3. destruct H3 as (L3 & ? & ? & ? & Hrq3 & ? & ? & ?).
  split; [by destruct L3|]. split_and!; try done; try (cbn; lia). cbn. by rewrite Hrq3.
Qed.

(** [EmptyBuffProc(stream, TRUE)]: the pending content, the end of the stream and, when this
    was the last writer, the end of the request are on the connection, all as records. *)
Lemma close_spec T rq rx0 tx0 base s W : framed T rq rx0 tx0 base s W ->
  exists s' rs, EmptyBuffProc true s = Ok (tt, s') /\
    Forall (from_writer T (requestId rq)) rs /\ base ++ stream_of T rs = W /\
    tx (conn s') = tx0 ++ wire (rs ++ eof_recs T (requestId rq) W ++ end_recs rq) /\
    req s' = rq <| nWriters := nWriters rq - 1 |> /\ rx (conn s') = rx0 /\ accepts (wr (conn s')) /\
    isReader (strm s') = false /\ wasFCloseCalled (strm s') = false /\
    FCGI_errno (strm s') = 0.
Proof.
  intros (L & Hraw & Hf & HT & Hrq & Hw & rs & Hrs & Htx & Hrx & -> & Hany).
  destruct (frame_record_spec s L Hw) as (rp & wn & b & E & Hb & Hwn & Hs & Hst & Hrp & Hz).
  pose proof (wr_layout_set_buf s wn b L Hb) as L1.
  rewrite HT in Hst, Hrp. rewrite Hrq in Hrp.
  destruct (WriteCloseRecords_spec T rq (set_buf wn b s) (base ++ stream_of T rs ++ pending s)) as (s2 & E2 & H2);
    try done.
  { cbn. rewrite app_assoc, app_nil, <- Hany, Hz. tauto. }
  destruct H2 as (L2 & Hr2 & Hf2 & HT2 & Hrq2 & Hw2 & Hrx2 & Htx2).
  destruct (write_out_spec s2 L2 Hw2) as (w & Ha & Ew).
  exists (written w s2), (rs ++ rp). split_and!; try done.
  - unfold EmptyBuffProc. cbn [EmptyBuffProc_at]. unfold EmptyBuff_body, bind at 1, get at 1.
    rewrite Hraw. cbn [negb]. erewrite bind_Ok by exact E. erewrite bind_Ok by exact E2.
    erewrite bind_Ok by exact Ew. unfold bind, get.
    change (rawWrite _) with (rawWrite (data (strm s2))). by rewrite Hr2.
  - by apply Forall_app.
  - by rewrite stream_of_app, Hst.
  - cbn [conn written setter set_conn set_tx set_wr tx]. rewrite <- Htx2. cbn.
    rewrite Hs, Htx, !wire_app, !app_assoc. done.
  - cbn. by rewrite Hrx2.
  - apply (wl_reader s2 L2).
  - apply (wl_errno s2 L2).
Qed.

(** [FCGX_FClose] on an open writer. *)
Lemma FClose_writer_spec T rq rx0 tx0 base s W : framed T rq rx0 tx0 base s W ->
  exists s' rs, FCGX_FClose s = Ok (0, s') /\
    Forall (from_writer T (requestId rq)) rs /\ base ++ stream_of T rs = W /\
    tx (conn s') = tx0 ++ wire (rs ++ eof_recs T (requestId rq) W ++ end_recs rq) /\
    req s' = rq <| nWriters := nWriters rq - 1 |> /\ rx (conn s') = rx0 /\ accepts (wr (conn s')) /\
    isClosed (strm s') = true.
Proof.
  intros H. destruct (close_spec T rq rx0 tx0 base s W H) as (s1 & rs & E & Hrs & HW & Htx & Hrq & Hrx & Ha & Hr & Hf & He).
  destruct H as (L & _ & Hf0 & _). pose proof (wl_reader s L) as Hr0.
  unfold FCGX_FClose. exists (s1 <| strm := (strm s1) <| wasFCloseCalled := true |>
    <| isClosed := true |> <| stop := wrNext (strm s1) |> <| rdNext := wrNext (strm s1) |> |>), rs.
  split_and!; try done. unfold bind at 1, get at 1. rewrite Hf0, Hr0.
  unfold bind at 1 2. cbn [emptyBuffProc writer_procs]. rewrite E.
  unfold bind, get, upd_strm, modify, ret. cbn. rewrite Hr. cbn. by rewrite He.
Qed.
