(* ===== verification/FcgiParams.v ===== *)
(** * Parameters: the environment of a request

    The [Params] vector of [libfcgi/fcgiapp.c] ([NewParams], [PutParam], [FCGX_GetParam]) and
    [ReadParams], which decodes FastCGI name-value pairs from a stream.  [nv_parse] is the
    reference decoder on a list of bytes; [ReadParams] implements it on any [Source]. *)

From S2P Require Import Prelude FcgiProto FcgiStream.

(** ** The vector *)

(** A slot of the vector: not yet written, [NULL], or a string (its bytes before the NUL that
    ends the allocation; a byte of it may itself be NUL). *)
Inductive slot :=
  | Undef
  | Null
  | Str (s : list Z).

Record Params := mkParams {
  vec : list slot;
  length_ : Z;
  cur : Z }.

Definition slot_write (v : list slot) (i : Z) (x : slot) : res (list slot) :=
  if (0 <=? i) && (i <? zlen v) then Ok (splice i [x] v) else Crash MemFault.

Definition NewParams (length : Z) : res Params :=
  rbind (slot_write (replicate (Z.to_nat length) Undef) 0 Null) (fun v =>
  Ok {| vec := v; length_ := length; cur := 0 |}).

(** [realloc] to [n] slots: the new ones are not initialised. *)
Definition slot_realloc (v : list slot) (n : Z) : list slot :=
  take (Z.to_nat n) (v ++ replicate (Z.to_nat n - length v) Undef).

Definition PutParam (p : Params) (nameValue : list Z) : res Params :=
  rbind (slot_write (vec p) (cur p) (Str nameValue)) (fun v =>
  let size := cur p + 1 in
  rbind (if length_ p <=? size
         then rbind (int_chk (length_ p * 2)) (fun n => Ok (slot_realloc v n, n))
         else Ok (v, length_ p)) (fun vn =>
  rbind (slot_write (fst vn) size Null) (fun v =>
  Ok {| vec := v; length_ := snd vn; cur := size |}))).

(** The first string of the vector of the form [name=...]: the part behind the [=].
    [strncmp(name, *p, len) == 0] for a C string [name] of length [len]. *)
Fixpoint GetParam_loop (name : list Z) (v : list slot) : res (option (list Z)) :=
  match v with
  | Str p :: v =>
      if bool_decide (take (length name) p = name) && (nth (length name) (p ++ [0]) 0 =? 61)
      then Ok (Some (drop (length name + 1) p))
      else GetParam_loop name v
  | Null :: _ => Ok None
  | Undef :: _ | [] => Crash MemFault
  end.

Definition FCGX_GetParam (name : option (list Z)) (envp : option (list slot))
  : res (option (list Z)) :=
  match name, envp with
  | Some name, Some envp => GetParam_loop name envp
  | _, _ => Ok None
  end.

(** The strings a vector holds, up to its [NULL]. *)
Fixpoint slot_strings (v : list slot) : list (list Z) :=
  match v with Str s :: v => s :: slot_strings v | _ => [] end.

Definition strings (p : Params) : list (list Z) := slot_strings (vec p).

(** ** Reading name-value pairs *)

Section Read.
Context {procs : StreamProcs}.

(** A length of one or four bytes, its first byte [b] already read; [None] on a short read. *)
Definition read_len (b : Z) : M SS (option Z) :=
  if negb (Z.land b 128 =? 0) then
    lenBuff <- FCGX_GetStr 3 ;;
    if negb (zlen lenBuff =? 3) then SetError FCGX_PARAMS_ERROR ;;; ret None else
    ret (Some (Z.shiftl (Z.land b 127) 24 + Z.shiftl (nth 0 lenBuff 0) 16
               + Z.shiftl (nth 1 lenBuff 0) 8 + nth 2 lenBuff 0))
  else ret (Some b).

(** The name and the value, once their lengths are known; [None] on a short read. *)
Definition read_strings (nameLen valueLen : Z) : M SS (option (list Z)) :=
  name <- FCGX_GetStr nameLen ;;
  if negb (zlen name =? nameLen) then SetError FCGX_PARAMS_ERROR ;;; ret None else
  value <- FCGX_GetStr valueLen ;;
  if negb (zlen value =? valueLen) then SetError FCGX_PARAMS_ERROR ;;; ret None else
  ret (Some (name ++ [61] ++ value)).

(** The body of the loop of [ReadParams]: the pair whose first byte was [c], as a
    [name=value] string; [None] where the C code sets the error and returns -1. *)
Definition read_pair (c : Z) : M SS (option (list Z)) :=
  n <- read_len c ;;
  match n with
  | None => ret None
  | Some nameLen =>
    c <- FCGX_GetChar ;;
    if c =? EOF then SetError FCGX_PARAMS_ERROR ;;; ret None else
    n <- read_len c ;;
    match n with
    | None => ret None
    | Some valueLen =>
      lift (int_chk (nameLen + valueLen)) ;;;
      lift (int_chk (nameLen + valueLen + 2)) ;;;
      read_strings nameLen valueLen
    end
  end.

(** One turn per pair; every pair takes at least two bytes of the stream. *)
Fixpoint ReadParams (fuel : nat) (p : Params) : M SS (Z * Params) :=
  match fuel with
  | O => nofuel
  | S fuel =>
    c <- FCGX_GetChar ;;
    if c =? EOF then ret (0, p) else
    nameValue <- read_pair c ;;
    match nameValue with
    | None => ret (-1, p)
    | Some nameValue =>
        p <- lift (PutParam p nameValue) ;;
        ReadParams fuel p
    end
  end.
End Read.

(** ** The vector never overflows and keeps its strings in order *)

(** The vector holds the strings [ss], ends in [NULL] inside its allocation, and is not larger
    than twice what it holds, or its initial size. *)
Record params_hold (p : Params) (ss : list (list Z)) : Prop := {
  ph_len : zlen (vec p) = length_ p;
  ph_cur : cur p = zlen ss;
  ph_small : length_ p <= Z.max 30 (2 * zlen ss);
  ph_vec : exists v, vec p = (Str <$> ss) ++ Null :: v }.

Lemma slot_strings_app ss v : slot_strings ((Str <$> ss) ++ Null :: v) = ss.
Proof. induction ss; cbn; [done|by f_equal]. Qed.

Lemma params_hold_strings p ss : params_hold p ss -> strings p = ss.
Proof. intros [_ _ _ (v & E)]. unfold strings. by rewrite E, slot_strings_app. Qed.

Lemma slot_write_at ss x y v :
  slot_write ((Str <$> ss) ++ x :: v) (zlen ss) y = Ok ((Str <$> ss) ++ y :: v).
Proof.
  assert (E : zlen (Str <$> ss) = zlen ss) by (unfold zlen; by rewrite length_fmap).
  unfold slot_write. pose proof (zlen_nonneg ss). pose proof (zlen_nonneg v).
  rewrite zlen_app, zlen_cons, E. cdecide. cbn [andb]. unfold splice, zlen. rewrite Nat2Z.id.
  rewrite take_app_length', drop_app_ge by (rewrite length_fmap; cbn; lia).
  rewrite length_fmap. by replace (_ - _)%nat with 1%nat by (cbn; lia).
Qed.

Lemma NewParams_hold n : 0 < n <= 30 -> exists p, NewParams n = Ok p /\ params_hold p [].
Proof.
  intros Hn. unfold NewParams. destruct (Z.to_nat n) as [|k] eqn:E; [lia|].
  change (replicate (S k) Undef) with ((Str <$> []) ++ Undef :: replicate k Undef).
  change 0 with (zlen ([] : list (list Z))) at 1. rewrite slot_write_at. cbn [rbind].
  eexists. split; [done|]. split; cbn [vec length_ cur]; [|done|cbn; lia|by eexists].
  cbn [app fmap list_fmap]. rewrite zlen_cons, zlen_replicate. lia.
Qed.

(** Adding a string to a vector that holds fewer than 2^29: [cur] stays inside [vec], before
    and after the vector has been doubled. *)
Lemma PutParam_hold p ss s : params_hold p ss -> zlen ss < 536870912 ->
  exists p', PutParam p s = Ok p' /\ params_hold p' (ss ++ [s]).
Proof.
  intros [Hl Hc Hs (v & E)] Hb. unfold PutParam. rewrite Hc, E, slot_write_at.
  cbn [rbind]. rewrite cons_middle, app_assoc.
  replace ((Str <$> ss) ++ [Str s]) with (Str <$> (ss ++ [s])) by (by rewrite fmap_app).
  assert (Hz : zlen ss + 1 = zlen (ss ++ [s])) by (by rewrite zlen_app).
  rewrite Hz. assert (Hv : length_ p = zlen (ss ++ [s]) + zlen v).
  { rewrite <- Hl, E, zlen_app, zlen_cons, <- Hz. unfold zlen. rewrite length_fmap. lia. }
  destruct (Z.leb_spec (length_ p) (zlen (ss ++ [s]))) as [Hg|Hg].
  - assert (v = []) as -> by (apply zlen_0; pose proof (zlen_nonneg v); lia).
    rewrite zlen_nil, Z.add_0_r in Hv. pose proof (zlen_nonneg ss).
    unfold int_chk, int_fits, INT_MIN, INT_MAX. cdecide. cbn [andb rbind fst snd].
    rewrite app_nil_r. unfold slot_realloc. rewrite length_fmap, take_ge.
    2:{ rewrite length_app, length_replicate, length_fmap. unfold zlen in *. lia. }
    destruct (Z.to_nat (length_ p * 2) - length (ss ++ [s]))%nat as [|k] eqn:Ek;
      [unfold zlen in *; lia|].
    cbn [replicate]. rewrite slot_write_at. cbn [rbind]. eexists. split; [done|].
    split; cbn [vec length_ cur]; [|done|lia|by eexists].
    rewrite zlen_app, zlen_cons, zlen_replicate. unfold zlen in *. rewrite length_fmap. lia.
  - destruct v as [|x v]; [rewrite zlen_nil in *; lia|]. rewrite zlen_cons in Hv.
    cbn [rbind fst snd]. rewrite slot_write_at. cbn [rbind]. eexists. split; [done|].
    split; cbn [vec length_ cur]; [|done|lia|by eexists].
    rewrite zlen_app, zlen_cons. unfold zlen in *. rewrite length_fmap. lia.
Qed.

(** ** [FCGX_GetParam] finds the first binding *)

(** A name-value pair as the string the vector stores. *)
Definition nv_string (nv : list Z * list Z) : list Z := fst nv ++ [61] ++ snd nv.

Fixpoint assoc_first (name : list Z) (ps : list (list Z * list Z)) : option (list Z) :=
  match ps with
  | [] => None
  | (n, v) :: ps => if bool_decide (n = name) then Some v else assoc_first name ps
  end.

Lemma take_prefix_eq (n name v : list Z) : 61 ∉ n -> 61 ∉ name ->
  take (length name) (n ++ [61] ++ v) = name ->
  nth (length name) ((n ++ [61] ++ v) ++ [0]) 0 = 61 -> n = name.
Proof.
  intros Hn Hname Ht Hk. revert name Hname Ht Hk.
  induction n as [|a n IH]; intros [|b name] Hname Ht Hk; cbn in Ht, Hk.
  - done.
  - injection Ht as <- _. exfalso. apply Hname. by constructor.
  - subst a. exfalso. apply Hn. by constructor.
  - injection Ht as <- Ht. f_equal. apply IH; [|by intros ?; apply Hname; constructor|done..].
    intros ?. apply Hn. by constructor.
Qed.

Lemma GetParam_loop_spec name ps v :
  61 ∉ name -> Forall (fun nv => 61 ∉ fst nv) ps ->
  GetParam_loop name ((Str <$> (nv_string <$> ps)) ++ Null :: v) = Ok (assoc_first name ps).
Proof.
  intros Hname. induction 1 as [|[n w] ps Hn _ IH]; [done|].
  cbn [fmap list_fmap app GetParam_loop assoc_first]. unfold nv_string at 1 2 3. cbn [fst snd] in *.
  destruct (bool_decide (n = name)) eqn:En.
  - apply bool_decide_eq_true in En as ->.
    rewrite take_app_length, bool_decide_eq_true_2 by done. cbn [andb].
    rewrite <- app_assoc, app_nth2, Nat.sub_diag by lia. cbn [app nth Z.eqb Pos.eqb].
    unfold nv_string. cbn [fst snd]. rewrite drop_app_ge by lia. by replace (length name + 1 - length name)%nat with 1%nat by lia.
  - apply bool_decide_eq_false in En.
    destruct (bool_decide _ && _) eqn:Eb; [|exact IH].
    apply andb_true_iff in Eb as [E1%bool_decide_eq_true E2%Z.eqb_eq].
    by apply take_prefix_eq in E1.
Qed.

(** ** The reference decoder *)

Definition nv_len (bs : list Z) : option (Z * list Z) :=
  match bs with
  | [] => None
  | b :: bs =>
      if negb (Z.land b 128 =? 0) then
        match bs with
        | b2 :: b1 :: b0 :: bs =>
            Some (Z.shiftl (Z.land b 127) 24 + Z.shiftl b2 16 + Z.shiftl b1 8 + b0, bs)
        | _ => None
        end
      else Some (b, bs)
  end.

(** The outcomes of decoding: the bytes end inside a pair, or the two lengths of a pair do not
    fit an [int]. *)
Inductive nv_result (A : Type) :=
  | NvOk (a : A)
  | NvTruncated
  | NvOverflow.
Arguments NvOk {A} a.
Arguments NvTruncated {A}.
Arguments NvOverflow {A}.

Definition nv_pair (bs : list Z) : nv_result (list Z * list Z * list Z) :=
  match nv_len bs with
  | None => NvTruncated
  | Some (n, bs) =>
    match nv_len bs with
    | None => NvTruncated
    | Some (v, bs) =>
        if negb (int_fits (n + v) && int_fits (n + v + 2)) then NvOverflow
        else if zlen bs <? n + v then NvTruncated
        else NvOk (sub 0 n bs, sub n v bs, drop (Z.to_nat (n + v)) bs)
    end
  end.

Fixpoint nv_parse (fuel : nat) (bs : list Z) : nv_result (list (list Z * list Z)) :=
  match fuel, bs with
  | O, _ | _, [] => NvOk []
  | S fuel, _ =>
      match nv_pair bs with
      | NvOk (n, v, bs) =>
          match nv_parse fuel bs with NvOk ps => NvOk ((n, v) :: ps) | r => r end
      | NvTruncated => NvTruncated
      | NvOverflow => NvOverflow
      end
  end.

Section ReadSpec.
Context {procs : StreamProcs} {src : Source procs}.

(** Reading the length whose first byte was [b]; [X] is what follows that byte. *)
Lemma read_len_spec s X b : src_content s X ->
  match nv_len (b :: X) with
  | Some (n, X') => exists s', read_len b s = Ok (Some n, s') /\ src_content s' X'
  | None => exists s', read_len b s = Ok (None, s')
  end.
Proof.
  intros H. unfold nv_len, read_len. destruct (negb (Z.land b 128 =? 0)); [|by exists s].
  destruct (FCGX_GetStr_spec 3 s X H ltac:(lia)) as (s' & E & Ha).
  destruct X as [|b2 [|b1 [|b0 X]]]; (erewrite bind_Ok by exact E); cbn; try by eexists.
  exists s'. split; [done|]. unfold src_after in Ha. rewrite !zlen_cons in Ha.
  pose proof (zlen_nonneg X). rewrite (proj2 (Z.leb_le 3 _)) in Ha by lia. exact Ha.
Qed.

Lemma nv_len_byte b X n X' : Forall is_byte (b :: X) -> nv_len (b :: X) = Some (n, X') ->
  0 <= n /\ Forall is_byte X' /\ zlen X' <= zlen X.
Proof.
  intros HX. unfold nv_len. inversion_clear HX as [|? ? Hb HX'].
  destruct (negb _).
  - destruct X as [|b2 [|b1 [|b0 X]]]; try done. intros [= <- <-].
    inversion_clear HX' as [|? ? ? HX2]; inversion_clear HX2 as [|? ? ? HX3]; inversion_clear HX3. unfold is_byte in *.
    assert (0 <= Z.land b 127) by (apply Z.land_nonneg; lia).
    rewrite shiftl_24, shiftl_16, shiftl_8, !zlen_cons. repeat split; [lia|done|lia].
  - intros [= <- <-]. unfold is_byte in Hb. repeat split; [lia|done|lia].
Qed.

Lemma sub_split_at n v (X : list Z) : 0 <= n -> 0 <= v ->
  sub 0 v (drop (Z.to_nat n) X) = sub n v X.
Proof. intros. unfold sub. cbn [Z.to_nat]. by rewrite drop_0. Qed.

(** The name and the value, once their lengths are known. *)
Lemma read_strings_spec s X n v : src_content s X -> 0 <= n -> 0 <= v ->
  if zlen X <? n + v then exists s', read_strings n v s = Ok (None, s')
  else exists s', read_strings n v s = Ok (Some (nv_string (sub 0 n X, sub n v X)), s') /\
                  src_content s' (drop (Z.to_nat (n + v)) X).
Proof.
  intros H Hn Hv. destruct (FCGX_GetStr_spec n s X H Hn) as (s1 & E1 & H1).
  unfold src_after in H1. destruct (Z.leb_spec n (zlen X)) as [Hle|Hgt].
  - destruct (FCGX_GetStr_spec v s1 _ H1 Hv) as (s2 & E2 & H2). rewrite sub_split_at in E2 by lia.
    unfold src_after in H2. unfold zlen in H2. rewrite length_drop, drop_drop in H2.
    assert (Em : read_strings n v s = (if negb (zlen (sub n v X) =? v)
                        then SetError FCGX_PARAMS_ERROR ;;; ret None
                        else ret (Some (nv_string (sub 0 n X, sub n v X)))) s2).
    { unfold read_strings. erewrite bind_Ok by exact E1. rewrite zlen_sub, Z.eqb_refl by lia. cbn [negb].
      by erewrite bind_Ok by exact E2. }
    rewrite Em. destruct (Z.ltb_spec (zlen X) (n + v)) as [Hs|Hs].
    + rewrite (proj2 (Z.eqb_neq _ v)); [by eexists|].
      unfold sub, zlen in *. rewrite length_take, length_drop. lia.
    + rewrite zlen_sub, Z.eqb_refl by lia. cbn [negb]. exists s2. split; [done|].
      rewrite (proj2 (Z.leb_le v _)) in H2 by (unfold zlen in *; lia).
      by rewrite <- Z2Nat.inj_add in H2 by lia.
  - unfold read_strings. erewrite bind_Ok by exact E1. rewrite sub_all by lia.
    rewrite (proj2 (Z.eqb_neq _ n)) by lia. cbn [negb].
    rewrite (proj2 (Z.ltb_lt _ _)) by lia. by eexists.
Qed.

Lemma read_pair_spec s X b : src_content s X -> Forall is_byte (b :: X) ->
  match nv_pair (b :: X) with
  | NvOk (n, v, X') => exists s', read_pair b s = Ok (Some (nv_string (n, v)), s') /\
      src_content s' X' /\ Forall is_byte X' /\ zlen X' < zlen X
  | NvTruncated => exists s', read_pair b s = Ok (None, s')
  | NvOverflow => read_pair b s = Crash IntOverflow
  end.
Proof.
  intros H HX. unfold nv_pair, read_pair.
  pose proof (read_len_spec s X b H) as Hn. destruct (nv_len (b :: X)) as [[n X1]|] eqn:En.
  2:{ destruct Hn as (s2 & E2). erewrite bind_Ok by exact E2. by exists s2. }
  destruct Hn as (s2 & E2 & H2). destruct (nv_len_byte b X n X1 HX En) as (Hn0 & HX1 & Hl1).
  destruct (FCGX_GetChar_spec s2 X1 H2) as (s3 & E3 & H3).
  erewrite bind_Ok by exact E2. cbv iota beta. erewrite bind_Ok by exact E3.
  destruct X1 as [|c X1]; cbn [head_or] in *; [by eexists|].
  assert (Hcc : c <> EOF) by (inversion HX1; unfold is_byte, EOF in *; lia).
  pose proof (read_len_spec s3 X1 c H3) as Hv. rewrite (proj2 (Z.eqb_neq _ _) Hcc).
  destruct (nv_len (c :: X1)) as [[v X2]|] eqn:Ev.
  2:{ destruct Hv as (s4 & E4). exists s4. by erewrite bind_Ok by exact E4. }
  destruct Hv as (s4 & E4 & H4). destruct (nv_len_byte c X1 v X2 HX1 Ev) as (Hv0 & HX2 & Hl2).
  pose proof (read_strings_spec s4 X2 n v H4 Hn0 Hv0) as Hrd. rewrite zlen_cons in Hl1.
  erewrite bind_Ok by exact E4. cbv iota beta. unfold int_chk, bind, lift.
  destruct (int_fits (n + v)); [|done]. destruct (int_fits (n + v + 2)); [|done].
  cbn [andb negb]. destruct (zlen X2 <? n + v); [exact Hrd|].
  destruct Hrd as (s5 & E5 & H5). exists s5. split_and!; [done..|by apply Forall_drop|].
  unfold zlen in *. rewrite length_drop. lia.
Qed.

(** What [ReadParams] does to parameters that hold [ss] on a stream that holds [X], by the
    result of the reference decoder. *)
Definition ReadParams_post (ss : list (list Z)) (r : nv_result (list (list Z * list Z)))
    (out : res (Z * Params * SS)) : Prop :=
  match r with
  | NvOk ps => exists p s, out = Ok (0, p, s) /\ params_hold p (ss ++ (nv_string <$> ps)) /\
                           src_end s
  | NvTruncated => exists p s, out = Ok (-1, p, s)
  | NvOverflow => out = Crash IntOverflow
  end.

Lemma ReadParams_spec fuel : forall s X p ss, src_content s X -> Forall is_byte X ->
  params_hold p ss -> zlen ss + zlen X < 536870912 -> (length X < fuel)%nat ->
  ReadParams_post ss (nv_parse fuel X) (ReadParams fuel p s).
Proof.
  induction fuel as [|fuel IH]; intros s X p ss H HX Hp Hb Hf; [lia|].
  cbn [ReadParams]. destruct (FCGX_GetChar_spec s X H) as (s1 & E1 & H1).
  erewrite bind_Ok by exact E1. destruct X as [|b X]; cbn [head_or].
  { exists p, s1. cbn. by rewrite app_nil_r. }
  assert (Hbb : b <> EOF) by (inversion HX; unfold is_byte, EOF in *; lia).
  rewrite (proj2 (Z.eqb_neq _ _) Hbb). cbn [nv_parse].
  pose proof (read_pair_spec s1 X b H1 HX) as Hr. rewrite zlen_cons in Hb.
  destruct (nv_pair (b :: X)) as [[[n v] X']| |].
  - destruct Hr as (s2 & E2 & H2 & HX' & Hlt). erewrite bind_Ok by exact E2.
    pose proof (zlen_nonneg X').
    destruct (PutParam_hold p ss (nv_string (n, v)) Hp) as (p' & Ep & Hp'); [lia|].
    unfold bind at 1, lift. rewrite Ep.
    specialize (IH s2 X' p' _ H2 HX' Hp'). rewrite zlen_app, zlen_cons, zlen_nil in IH.
    specialize (IH ltac:(lia) ltac:(unfold zlen in *; cbn in *; lia)).
    destruct (nv_parse fuel X'); [|exact IH..].
    destruct IH as (p2 & s3 & E3 & Hp2 & He). exists p2, s3. rewrite <- app_assoc in Hp2. done.
  - destruct Hr as (s2 & E2). erewrite bind_Ok by exact E2. by exists p, s2.
  - unfold bind. by rewrite Hr.
Qed.
End ReadSpec.

(** ** The reference encoder *)

(** A length in one byte, or in four with the high bit set. *)
Definition nv_enc_len (n : Z) : list Z :=
  if n <? 128 then [n]
  else [128 + n / 16777216; n / 65536 mod 256; n / 256 mod 256; n mod 256].

Definition nv_enc (nv : list Z * list Z) : list Z :=
  nv_enc_len (zlen (fst nv)) ++ nv_enc_len (zlen (snd nv)) ++ fst nv ++ snd nv.

Definition nv_encode (ps : list (list Z * list Z)) : list Z := concat (map nv_enc ps).

(** A pair whose lengths [ReadParams] can add up. *)
Definition nv_fits (nv : list Z * list Z) : Prop := zlen (fst nv) + zlen (snd nv) + 2 <= INT_MAX.

Lemma land_127_high n : 0 <= n < 128 -> Z.land (128 + n) 127 = n.
Proof.
  intros. change 127 with (Z.ones 7). rewrite Z.land_ones by lia.
  change (2 ^ 7) with 128. rewrite Z.add_comm, <- (Z.mul_1_l 128), Z_mod_plus_full.
  by apply Z.mod_small.
Qed.

Lemma land_128_high n : 0 <= n < 128 -> Z.land (128 + n) 128 = 128.
Proof.
  intros. apply Z.bits_inj'. intros i Hi. rewrite Z.land_spec. change 128 with (2 ^ 7).
  rewrite Z.pow2_bits_eqb by lia. destruct (Z.eqb_spec 7 i) as [<-|]; [|by rewrite andb_false_r].
  rewrite andb_true_r, Z.testbit_true by lia. change (2 ^ 7) with 128.
  replace ((128 + n) / 128) with 1; [done|]. apply Z.div_unique with n; lia.
Qed.

Lemma land_128_low n : 0 <= n < 128 -> Z.land n 128 = 0.
Proof.
  intros. apply Z.bits_inj'. intros i Hi. rewrite Z.land_spec, Z.bits_0. change 128 with (2 ^ 7).
  rewrite Z.pow2_bits_eqb by lia. destruct (Z.eqb_spec 7 i) as [<-|]; [|by rewrite andb_false_r].
  rewrite andb_true_r. rewrite Z.testbit_false by lia. change (2 ^ 7) with 128.
  by rewrite Z.div_small by lia.
Qed.

Lemma nv_len_enc n bs : 0 <= n <= INT_MAX -> nv_len (nv_enc_len n ++ bs) = Some (n, bs).
Proof.
  unfold INT_MAX. intros Hn. unfold nv_enc_len. destruct (Z.ltb_spec n 128); cbn [app nv_len].
  - by rewrite land_128_low by lia.
  - assert (0 <= n / 16777216 < 128) by
      (split; [apply Z.div_pos|apply Z.div_lt_upper_bound]; lia).
    rewrite land_128_high, land_127_high by done. cbn [Z.eqb Pos.eqb negb].
    rewrite shiftl_24, shiftl_16, shiftl_8. do 2 f_equal. apply be32_join.
Qed.

Lemma nv_pair_enc n v bs : nv_fits (n, v) -> nv_pair (nv_enc (n, v) ++ bs) = NvOk (n, v, bs).
Proof.
  unfold nv_fits, INT_MAX. cbn [fst snd]. intros Hf. pose proof (zlen_nonneg n). pose proof (zlen_nonneg v).
  unfold nv_pair, nv_enc. cbn [fst snd]. rewrite <- !app_assoc.
  rewrite !nv_len_enc by (unfold INT_MAX; lia). unfold int_fits, INT_MIN, INT_MAX. cdecide. cbn [andb negb].
  rewrite !zlen_app. pose proof (zlen_nonneg bs). cdecide.
  rewrite sub_app_l, sub_full, sub_app_r, Z.sub_diag, sub_app_l, sub_full by lia.
  unfold zlen. rewrite Z2Nat.inj_add, !Nat2Z.id, <- drop_drop by lia.
  by rewrite !drop_app_length.
Qed.

Lemma nv_enc_not_nil nv : nv_enc nv <> [].
Proof. unfold nv_enc, nv_enc_len. by destruct (zlen (fst nv) <? 128). Qed.

(** Decoding undoes encoding. *)
Lemma nv_parse_encode ps : Forall nv_fits ps -> forall fuel, (length (nv_encode ps) <= fuel)%nat ->
  nv_parse fuel (nv_encode ps) = NvOk ps.
Proof.
  induction 1 as [|[n v] ps Hf _ IH]; intros fuel Hl; [by destruct fuel|].
  change (nv_encode ((n, v) :: ps)) with (nv_enc (n, v) ++ nv_encode ps) in *.
  rewrite length_app in Hl. pose proof (nv_enc_not_nil (n, v)) as Hne.
  destruct fuel as [|fuel]; [destruct (nv_enc (n, v)); cbn in *; [done|lia]|].
  cbn [nv_parse]. destruct (nv_enc (n, v) ++ nv_encode ps) eqn:E.
  { apply app_nil in E as [E _]. done. }
  rewrite <- E, nv_pair_enc by done. rewrite IH; [done|].
  destruct (nv_enc (n, v)); [done|]. cbn in Hl. lia.
Qed.

(** Fuel beyond the number of bytes changes nothing. *)
Lemma nv_len_short bs n rest : nv_len bs = Some (n, rest) -> (length rest < length bs)%nat.
Proof.
  unfold nv_len. destruct bs as [|b bs]; [done|]. destruct (negb _).
  - destruct bs as [|? [|? [|? bs]]]; try done. intros [= <- <-]. cbn. lia.
  - intros [= <- <-]. cbn. lia.
Qed.

Lemma nv_pair_short bs n v rest : nv_pair bs = NvOk (n, v, rest) -> (length rest < length bs)%nat.
Proof.
  unfold nv_pair. destruct (nv_len bs) as [[? bs1]|] eqn:E1; [|done].
  destruct (nv_len bs1) as [[? bs2]|] eqn:E2; [|done].
  destruct (negb _); [done|]. destruct (_ <? _); [done|]. intros [= <- <- <-].
  apply nv_len_short in E1, E2. rewrite length_drop. lia.
Qed.

Lemma nv_parse_fuel f1 : forall f2 bs, (length bs <= f1)%nat -> (length bs <= f2)%nat ->
  nv_parse f1 bs = nv_parse f2 bs.
Proof.
  induction f1 as [|f1 IH]; intros f2 bs H1 H2.
  - destruct bs; [by destruct f2|cbn in H1; lia].
  - destruct bs as [|b bs]; [by destruct f2|]. destruct f2 as [|f2]; [cbn in H2; lia|].
    cbn [nv_parse]. destruct (nv_pair (b :: bs)) as [[[n v] rest]| |] eqn:E; [|done..].
    apply nv_pair_short in E. rewrite (IH f2) by lia. done.
Qed.

(** ** The theorems *)

Fixpoint put_all (ss : list (list Z)) (p : Params) : res Params :=
  match ss with
  | [] => Ok p
  | s :: ss => rbind (PutParam p s) (put_all ss)
  end.

Lemma put_all_hold ss : forall p ss0, params_hold p ss0 -> zlen ss0 + zlen ss < 536870912 ->
  exists p', put_all ss p = Ok p' /\ params_hold p' (ss0 ++ ss).
Proof.
  induction ss as [|s ss IH]; intros p ss0 Hp Hb; cbn [put_all].
  - exists p. by rewrite app_nil_r.
  - rewrite zlen_cons in Hb. pose proof (zlen_nonneg ss).
    destruct (PutParam_hold p ss0 s Hp) as (p1 & E1 & H1); [lia|]. rewrite E1. cbn [rbind].
    destruct (IH p1 (ss0 ++ [s]) H1) as (p2 & E2 & H2); [rewrite zlen_app, zlen_cons, zlen_nil; lia|].
    exists p2. by rewrite <- app_assoc in H2.
Qed.

(** C36: any number of [PutParam]s up to 2^29 stays inside the vector, which grows to at most
    twice what it holds; the vector ends in [NULL] after the strings in their order; and
    [FCGX_GetParam] finds the value put first under a name, or nothing. *)
Theorem PutParam_GetParam n ps name : 0 < n <= 30 -> zlen ps < 536870912 ->
  61 ∉ name -> Forall (fun nv => 61 ∉ fst nv) ps ->
  exists p0 p, NewParams n = Ok p0 /\ put_all (nv_string <$> ps) p0 = Ok p /\
    zlen (vec p) = length_ p /\ length_ p <= Z.max 30 (2 * zlen ps) /\
    strings p = (nv_string <$> ps) /\
    FCGX_GetParam (Some name) (Some (vec p)) = Ok (assoc_first name ps).
Proof.
  intros Hn Hb Hname Hps. destruct (NewParams_hold n Hn) as (p0 & E0 & H0).
  destruct (put_all_hold (nv_string <$> ps) p0 [] H0) as (p & E & H).
  { rewrite zlen_nil. unfold zlen in *. rewrite length_fmap. lia. }
  exists p0, p. cbn [app] in H. split; [done|]. split; [done|].
  rewrite (params_hold_strings p _ H). destruct H as [Hl _ Hs (v & Ev)].
  split; [done|]. split; [unfold zlen in Hs |- *; by rewrite length_fmap in Hs|]. split; [done|].
  cbn [FCGX_GetParam]. rewrite Ev. by apply GetParam_loop_spec.
Qed.

Lemma PutParam_GetParam_witness : let ps := [([65], [49]); ([66], []); ([65], [50])] in
  exists p0 p, NewParams 1 = Ok p0 /\ put_all (nv_string <$> ps) p0 = Ok p /\
    FCGX_GetParam (Some [65]) (Some (vec p)) = Ok (Some [49]).
Proof.
  intros ps. destruct (PutParam_GetParam 1 ps [65]) as (p0 & p & E0 & E & _ & _ & _ & Hg).
  - lia.
  - by vm_compute.
  - rewrite elem_of_cons, elem_of_nil. lia.
  - repeat (constructor; [cbn; rewrite elem_of_cons, elem_of_nil; lia|]). constructor.
  - exists p0, p. split; [exact E0|]. split; [exact E|]. exact Hg.
Defined.
