(* ===== verification/FcgiReader.v ===== *)
(** * The FastCGI reader: [FillBuffProc] and the records it interprets

    The procedure of an input stream ([libfcgi/fcgiapp.c]) and the functions it calls on a
    complete header: [ProcessHeader], [ProcessBeginRecord], [ProcessManagementRecord].  The
    theorems: a connection that carries the records of a stream is a [Source] of the joined
    contents of these records, however the bytes arrive in pieces; reading stops at the end of
    stream record; a second [BEGIN_REQUEST] is answered with [CANT_MPX_CONN]. *)

From S2P Require Import Prelude FcgiProto FcgiStream FcgiWriter FcgiParams.

(** ** The code *)

(** Return codes of the [Process] functions. *)
Definition STREAM_RECORD : Z := 0.
Definition SKIP : Z := 1.
Definition BEGIN_RECORD : Z := 2.
Definition MGMT_RECORD : Z := 3.

Definition FCGI_MAX_CONNS : list Z := [70; 67; 71; 73; 95; 77; 65; 88; 95; 67; 79; 78; 78; 83].
Definition FCGI_MAX_REQS : list Z := [70; 67; 71; 73; 95; 77; 65; 88; 95; 82; 69; 81; 83].
Definition FCGI_MPXS_CONNS : list Z := [70; 67; 71; 73; 95; 77; 80; 88; 83; 95; 67; 79; 78; 78; 83].

(** What the array [response] of [ProcessManagementRecord] holds before it is written. *)
Class Uninit := {
  response_init : list Z;
  response_init_len : length response_init = 64%nat }.

(** The bytes of the connection that the library has not interpreted yet. *)
Definition rx_bytes (evs : list rd_event) : list Z :=
  concat (map (fun e => match e with RdData bs => bs | RdErr _ => [] end) evs).

Definition rd_fuel (s : SS) : nat :=
  S (Z.to_nat (buffStop (data (strm s)) - rdNext (strm s)) + length (rx_bytes (rx (conn s)))).

(** How one of the steps of the loop of [FillBuffProc] ends: it falls through to the next
    step, starts the next turn or returns. *)
Inductive flow := Fall | Continue | Return.

(** The part of a C string before its first [=], [None] when it has none. *)
Fixpoint before_eq (bs : list Z) : option (list Z) :=
  match bs with
  | [] => None
  | b :: bs => if b =? 61 then Some [] else (fun n => b :: n) <$> before_eq bs
  end.

(** The value of a variable of [FCGI_GET_VALUES], [None] for an unknown one. *)
Definition mgmt_value (name : list Z) : option Z :=
  if bool_decide (name = FCGI_MAX_CONNS) then Some 49 else
  if bool_decide (name = FCGI_MAX_REQS) then Some 49 else
  if bool_decide (name = FCGI_MPXS_CONNS) then Some 48 else None.

(** The loop over the names asked for: [responseP] is an offset into [response]. *)
Fixpoint answer_values (vec : list (list Z)) (response : list Z) (responseP : Z)
    : res (list Z * Z) :=
  match vec with
  | [] => Ok (response, responseP)
  | nameValue :: vec =>
    match before_eq (c_string nameValue) with
    | None => Crash NullDeref
    | Some name =>
      match mgmt_value name with
      | None => answer_values vec response responseP
      | Some value =>
          let len := zlen name in
          rbind (mem_write response responseP (uchar len :: 1 :: name ++ [value; 0])) (fun response =>
          answer_values vec response (responseP + (len + 3)))
      end
    end
  end.

Section Process.
(** The procedures the reader finds in the stream when it is called back. *)
Context {procs : StreamProcs} {uninit : Uninit}.

Definition ProcessManagementRecord (type : Z) : M SS Z :=
  paramsPtr <- lift (NewParams 3) ;;
  let response := response_init in
  s <- get ;;
  r <- (if type =? FCGI_GET_VALUES then
          rp <- ReadParams (rd_fuel s) paramsPtr ;;
          let paramsPtr := snd rp in
          err <- FCGX_GetError ;;
          s <- get ;;
          if negb (err =? 0) || negb (contentLen (data (strm s)) =? 0) then ret None else
          answer <- lift (answer_values (strings paramsPtr) response FCGI_HEADER_LEN) ;;
          let '(response, responseP) := answer in
          let len := responseP - FCGI_HEADER_LEN in
          let paddedLen := AlignInt8 len in
          header <- lift (MakeHeader FCGI_GET_VALUES_RESULT FCGI_NULL_REQUEST_ID
                                     len (paddedLen - len)) ;;
          response <- lift (mem_write response 0 (header_bytes header)) ;;
          ret (Some (response, paddedLen))
        else
          header <- lift (MakeHeader FCGI_UNKNOWN_TYPE FCGI_NULL_REQUEST_ID 8 0) ;;
          response <- lift (mem_write response 0
            (header_bytes header ++ unknown_type_body_bytes (MakeUnknownTypeBody type))) ;;
          ret (Some (response, 8))) ;;
  match r with
  | None => ret FCGX_PROTOCOL_ERROR
  | Some (response, paddedLen) =>
      bs <- lift (mem_read response 0 (FCGI_HEADER_LEN + paddedLen)) ;;
      r <- write_it_all bs ;;
      if r <? 0 then s <- get ;; SetError (os_errno (conn s)) ;;; ret (-1)
      else ret MGMT_RECORD
  end.

Definition ProcessBeginRecord (requestId : Z) : M SS Z :=
  s <- get ;;
  if (requestId =? 0) || negb (contentLen (data (strm s)) =? 8) then ret FCGX_PROTOCOL_ERROR else
  if isBeginProcessed (req s) then
    header <- lift (MakeHeader FCGI_END_REQUEST requestId 8 0) ;;
    let body := MakeEndRequestBody 0 FCGI_CANT_MPX_CONN in
    r <- write_it_all (header_bytes header ++ end_body_bytes body) ;;
    if r <? 0 then s <- get ;; SetError (os_errno (conn s)) ;;; ret (-1)
    else ret SKIP
  else
    upd_req (fun r => r <| FcgiStream.requestId := requestId |>) ;;;
    bs <- FCGX_GetStr 8 ;;
    if negb (zlen bs =? 8) then ret FCGX_PROTOCOL_ERROR else
    let body := bytes_begin_body bs in
    upd_req (fun r => r <| keepConnection := negb (Z.land (flags_ body) FCGI_KEEP_CONN =? 0) |>) ;;;
    upd_req (fun r => r <| role := Z.shiftl (roleB1 body) 8 + roleB0 body |>) ;;;
    upd_req (fun r => r <| isBeginProcessed := true |>) ;;;
    ret BEGIN_RECORD.

Definition ProcessHeader (header : FCGI_Header) : M SS Z :=
  if negb (version header =? FCGI_VERSION_1) then ret FCGX_UNSUPPORTED_VERSION else
  let requestId := header_requestId header in
  upd_data (fun d => d <| contentLen := header_contentLength header |>) ;;;
  upd_data (fun d => d <| paddingLen := paddingLength header |>) ;;;
  s <- get ;;
  if type header =? FCGI_BEGIN_REQUEST then ProcessBeginRecord requestId else
  if requestId =? FCGI_NULL_REQUEST_ID then ProcessManagementRecord (type header) else
  if negb (requestId =? FcgiStream.requestId (req s)) then ret SKIP else
  if negb (type header =? stype (data (strm s))) then ret FCGX_PROTOCOL_ERROR else
  ret STREAM_RECORD.

(** "If data->buff is empty, do a read." *)
Definition fill_read : M SS flow :=
  s <- get ;;
  if negb (rdNext (strm s) =? buffStop (data (strm s))) then ret Fall else
  bs <- OS_Read (bufflen (data (strm s))) ;;
  match bs with
  | None => s <- get ;; SetError (os_errno (conn s)) ;;; ret Return
  | Some [] => SetError FCGX_PROTOCOL_ERROR ;;; ret Return
  | Some bs =>
      b <- lift (mem_write (buff (data (strm s))) 0 bs) ;;
      upd_data (fun d => d <| buff := b |>) ;;;
      upd_strm (fun st => st <| rdNext := 0 |>) ;;;
      upd_data (fun d => d <| buffStop := zlen bs |>) ;;;
      ret Fall
  end.

(** "If the current record contains more content bytes, deliver all that are present." *)
Definition fill_content : M SS flow :=
  s <- get ;;
  let d := data (strm s) in
  if 0 <? contentLen d then
    let count := Z.min (contentLen d) (buffStop d - rdNext (strm s)) in
    upd_data (fun d => d <| contentLen := contentLen d - count |>) ;;;
    if negb (skip d) then
      upd_strm (fun st => st <| stop := rdNext st + count |> <| wrNext := rdNext st + count |>) ;;;
      ret Return
    else
      upd_strm (fun st => st <| rdNext := rdNext st + count |>) ;;;
      if 0 <? contentLen d - count then ret Continue
      else upd_data (fun d => d <| skip := false |>) ;;; ret Fall
  else ret Fall.

(** "If the current record was padded, skip over the padding bytes." *)
Definition fill_padding : M SS flow :=
  s <- get ;;
  let d := data (strm s) in
  if 0 <? paddingLen d then
    let count := Z.min (paddingLen d) (buffStop d - rdNext (strm s)) in
    upd_data (fun d => d <| paddingLen := paddingLen d - count |>) ;;;
    upd_strm (fun st => st <| rdNext := rdNext st + count |>) ;;;
    ret (if 0 <? paddingLen d - count then Continue else Fall)
  else ret Fall.

(** "If we're in a recursive call from ProcessHeader, deliver EOF." *)
Definition fill_eor : M SS flow :=
  s <- get ;;
  if eorStop (data (strm s)) then
    upd_strm (fun st => st <| stop := rdNext st |> <| isClosed := true |>) ;;; ret Return
  else ret Fall.

(** "Fill header with bytes from the input buffer": the bytes of [header] filled so far. *)
Definition fill_header (header : list Z) : M SS (list Z) :=
  s <- get ;;
  let count := Z.min (FCGI_HEADER_LEN - zlen header)
                     (buffStop (data (strm s)) - rdNext (strm s)) in
  bs <- lift (mem_read (buff (data (strm s))) (rdNext (strm s)) count) ;;
  upd_strm (fun st => st <| rdNext := rdNext st + count |>) ;;;
  ret (header ++ bs).

(** [switch(status)]. *)
Definition fill_switch (status : Z) : M SS flow :=
  s <- get ;;
  if status =? STREAM_RECORD then
    if contentLen (data (strm s)) =? 0 then
      upd_strm (fun st => st <| stop := rdNext st |> <| wrNext := rdNext st |>
                             <| isClosed := true |>) ;;; ret Return
    else ret Continue
  else if status =? SKIP then
    upd_data (fun d => d <| skip := true |>) ;;; ret Continue
  else if status =? BEGIN_RECORD then ret Return
  else if status =? MGMT_RECORD then ret Continue
  else c_assert (status <? 0) ;;; SetError status ;;; ret Return.

(** "Interpret header.  eorStop prevents ProcessHeader from reading past the end-of-record." *)
Definition fill_dispatch (header : FCGI_Header) : M SS flow :=
  upd_data (fun d => d <| eorStop := true |>) ;;;
  upd_strm (fun st => st <| stop := rdNext st |>) ;;;
  status <- ProcessHeader header ;;
  upd_data (fun d => d <| eorStop := false |>) ;;;
  upd_strm (fun st => st <| isClosed := false |>) ;;;
  fill_switch status.

(** Continues by how a step ended: with the rest of the turn, the next turn or not at all. *)
Definition flow_then (m : M SS flow) (turn rest : M SS unit) : M SS unit :=
  f <- m ;;
  match f with Fall => rest | Continue => turn | Return => ret tt end.

Fixpoint FillBuff_loop (fuel : nat) (header : list Z) : M SS unit :=
  match fuel with
  | O => nofuel
  | S fuel => fun s =>
    flow_then fill_read (FillBuff_loop fuel header) (
    flow_then fill_content (FillBuff_loop fuel header) (
    flow_then fill_padding (FillBuff_loop fuel header) (
    flow_then fill_eor (FillBuff_loop fuel header) (
    header <- fill_header header ;;
    if zlen header <? FCGI_HEADER_LEN then FillBuff_loop fuel header else
    flow_then (fill_dispatch (bytes_header header)) (FillBuff_loop fuel []) (ret tt))))) s
  end.

(** Every turn takes at least one of the bytes that [rd_fuel] counts. *)
Definition FillBuff_body : M SS unit := s <- get ;; FillBuff_loop (rd_fuel s) [].
End Process.

(** [FillBuffProc] calls itself through [ProcessHeader], with [eorStop] set; the inner call
    returns before it interprets a header, so a depth of two is enough. *)
Fixpoint FillBuffProc_at {uninit : Uninit} (depth : nat) : M SS unit :=
  match depth with
  | O => nofuel
  | S depth =>
      @FillBuff_body {| fillBuffProc := FillBuffProc_at depth;
                        emptyBuffProc := fun _ => crash NullDeref |} uninit
  end.

Definition FillBuffProc {uninit : Uninit} : M SS unit := FillBuffProc_at 2.

(** The two procedures [NewStream] stores in a reader. *)
#[export] Instance reader_procs {uninit : Uninit} : StreamProcs :=
  {| fillBuffProc := FillBuffProc; emptyBuffProc := fun _ => crash NullDeref |}.

(** The procedures a nested call finds. *)
Definition nested_procs {uninit : Uninit} : StreamProcs :=
  {| fillBuffProc := FillBuffProc_at 1; emptyBuffProc := fun _ => crash NullDeref |}.

(** ** The bytes a reader has not interpreted yet *)

Definition unread (s : SS) : list Z :=
  sub (rdNext (strm s)) (buffStop (data (strm s)) - rdNext (strm s)) (buff (data (strm s)))
    ++ rx_bytes (rx (conn s)).

(** What is behind the fragment that the client is reading. *)
Definition beyond (s : SS) : list Z :=
  sub (stop (strm s)) (buffStop (data (strm s)) - stop (strm s)) (buff (data (strm s)))
    ++ rx_bytes (rx (conn s)).

(** The peer's bytes arrive in non-empty pieces. *)
Definition delivers (evs : list rd_event) : Prop :=
  Forall (fun e => match e with RdData bs => bs <> [] | RdErr _ => False end) evs.

(** What holds of a reader at every step of [FillBuffProc]. *)
Record rd_layout (s : SS) : Prop := {
  rl_reader : isReader (strm s) = true;
  rl_errno : FCGI_errno (strm s) = 0;
  rl_ptr : 0 <= rdNext (strm s) <= buffStop (data (strm s));
  rl_stop : buffStop (data (strm s)) <= zlen (buff (data (strm s)));
  rl_len : 0 < bufflen (data (strm s)) <= zlen (buff (data (strm s)));
  rl_fd : 0 <= ipcFd (req s);
  rl_accepts : accepts (wr (conn s));
  rl_rx : delivers (rx (conn s)) }.

(** [s] after a read into its buffer. *)
Definition set_in (b : list Z) (r e : Z) (evs : list rd_event) (s : SS) : SS :=
  s <| strm := (strm s) <| rdNext := r |>
      <| data := (data (strm s)) <| buff := b |> <| buffStop := e |> |> |>
    <| conn := (conn s) <| rx := evs |> |>.

Lemma set_in_id s :
  s = set_in (buff (data (strm s))) (rdNext (strm s)) (buffStop (data (strm s))) (rx (conn s)) s.
Proof. by destruct s as [[? ? ? ? ? ? ? ? []] ? []]. Qed.

(** A read on a connection with bytes to come delivers some of them. *)
Lemma OS_Read_spec n s : 0 <= ipcFd (req s) -> 0 < n -> delivers (rx (conn s)) ->
  rx_bytes (rx (conn s)) <> [] ->
  exists got evs, OS_Read n s = Ok (Some got, s <| conn := (conn s) <| rx := evs |> |>) /\
    got <> [] /\ zlen got <= n /\ got ++ rx_bytes evs = rx_bytes (rx (conn s)) /\ delivers evs.
Proof.
  intros Hfd Hn Hrx Hne. unfold OS_Read, bind, get. cdecide.
  destruct (rx (conn s)) as [|[bs|] evs]; [done| |by inversion Hrx].
  inversion_clear Hrx as [|? ? Hbs Hrx']. destruct (Z.leb_spec (zlen bs) n).
  - by exists bs, evs.
  - exists (sub 0 n bs), (RdData (drop (Z.to_nat n) bs) :: evs). split_and!; [done|..].
    + intros Hz. apply (f_equal zlen) in Hz. rewrite zlen_sub, zlen_nil in Hz by lia. lia.
    + rewrite zlen_sub; lia.
    + cbn. rewrite app_assoc. f_equal. symmetry. apply app_sub. lia.
    + constructor; [|done]. intros Hz. apply (f_equal length) in Hz.
      rewrite length_drop in Hz. unfold zlen in *. cbn in Hz. lia.
Qed.

(** "If data->buff is empty, do a read": with bytes to come, the buffer is not empty after
    it, and what is unread is unchanged. *)
Lemma fill_read_spec s : rd_layout s -> unread s <> [] ->
  exists b r e evs, fill_read s = Ok (Fall, set_in b r e evs s) /\
    rd_layout (set_in b r e evs s) /\ unread (set_in b r e evs s) = unread s /\ r < e.
Proof.
  intros L Hu. pose proof (rl_ptr s L). unfold fill_read, bind at 1, get at 1.
  destruct (Z.eqb_spec (rdNext (strm s)) (buffStop (data (strm s)))) as [E|E]; cbn [negb].
  2:{ do 4 eexists. unfold ret. rewrite set_in_id at 1. split; [done|].
      rewrite <- set_in_id. split_and!; [done|done|lia]. }
  assert (Hur : unread s = rx_bytes (rx (conn s))) by (unfold unread; by rewrite E, Z.sub_diag).
  rewrite Hur in *. pose proof (rl_len s L).
  destruct (OS_Read_spec (bufflen (data (strm s))) s (rl_fd s L) ltac:(lia) (rl_rx s L) Hu)
    as (got & evs & Er & Hg & Hl & He & Hd).
  erewrite bind_Ok by exact Er. destruct got as [|g got]; [done|]. pose proof (zlen_pos _ Hg).
  exists (splice 0 (g :: got) (buff (data (strm s)))), 0, (zlen (g :: got)), evs.
  unfold bind, upd_data, upd_strm, modify, ret, lift. rewrite mem_write_Ok by lia.
  split; [done|]. split.
  - destruct L. split; cbn -[zlen splice]; rewrite ?zlen_splice by lia; try done; lia.
  - unfold unread. cbn -[zlen splice sub]. rewrite Z.sub_0_r, sub_splice_at by lia.
    rewrite <- He. split; [done|lia].
Qed.

Lemma set_ptrs_id s : rdNext (strm s) = stop (strm s) ->
  set_ptrs (stop (strm s)) (stopUnget (strm s)) s = s.
Proof. intros <-. by destruct s as [[? ? ? ? ? ? ? ? ?] ? ?]. Qed.

(** Moving [rdNext] over [m] bytes of the buffer. *)
Definition skip_bytes (m : Z) (s : SS) : SS :=
  s <| strm := (strm s) <| rdNext := rdNext (strm s) + m |> |>.

Lemma skip_bytes_layout m s : rd_layout s ->
  0 <= m <= buffStop (data (strm s)) - rdNext (strm s) -> rd_layout (skip_bytes m s).
Proof. intros [] ?. split; cbn; try done; lia. Qed.

Lemma unread_len s : rd_layout s ->
  zlen (unread s) = buffStop (data (strm s)) - rdNext (strm s) + zlen (rx_bytes (rx (conn s))).
Proof. intros []. unfold unread. rewrite zlen_app, zlen_sub; lia. Qed.

Lemma drop_sub_app m o e (b t : list Z) : 0 <= o -> 0 <= m <= e - o -> e <= zlen b ->
  drop (Z.to_nat m) (sub o (e - o) b ++ t) = sub (o + m) (e - (o + m)) b ++ t.
Proof.
  intros. rewrite drop_app_le.
  - f_equal. unfold sub. rewrite skipn_firstn_comm, drop_drop. f_equal; [lia|f_equal; lia].
  - unfold sub, zlen in *. rewrite length_take, length_drop. lia.
Qed.

Lemma skip_bytes_unread m s : rd_layout s ->
  0 <= m <= buffStop (data (strm s)) - rdNext (strm s) ->
  unread (skip_bytes m s) = drop (Z.to_nat m) (unread s).
Proof.
  intros L Hm. destruct L. unfold unread at 2. rewrite drop_sub_app by lia. done.
Qed.

(** Reading [m] bytes of the buffer gives the first [m] unread ones. *)
Lemma read_unread m s : rd_layout s ->
  0 <= m <= buffStop (data (strm s)) - rdNext (strm s) ->
  mem_read (buff (data (strm s))) (rdNext (strm s)) m = Ok (sub 0 m (unread s)).
Proof.
  intros [] Hm. rewrite mem_read_Ok by lia. unfold unread.
  rewrite sub_app_l by (try lia; rewrite zlen_sub; lia).
  rewrite sub_sub by lia. by rewrite Z.add_0_r.
Qed.

(** Taking [m] bytes of padding, delivering [m] bytes of content. *)
Definition take_padding (m : Z) (s : SS) : SS :=
  s <| strm := (strm s) <| rdNext := rdNext (strm s) + m |>
         <| data := (data (strm s)) <| paddingLen := paddingLen (data (strm s)) - m |> |> |>.

Definition deliver (m : Z) (s : SS) : SS :=
  s <| strm := (strm s) <| stop := rdNext (strm s) + m |> <| wrNext := rdNext (strm s) + m |>
         <| data := (data (strm s)) <| contentLen := contentLen (data (strm s)) - m |> |> |>.

Lemma fill_padding_take s : 0 < paddingLen (data (strm s)) ->
  let m := Z.min (paddingLen (data (strm s))) (buffStop (data (strm s)) - rdNext (strm s)) in
  fill_padding s =
    Ok (if 0 <? paddingLen (data (strm s)) - m then Continue else Fall, take_padding m s).
Proof. intros Hp m. unfold fill_padding, bind at 1, get at 1. by cdecide. Qed.

Lemma fill_content_deliver s : 0 < contentLen (data (strm s)) -> skip (data (strm s)) = false ->
  fill_content s = Ok (Return, deliver (Z.min (contentLen (data (strm s)))
                                (buffStop (data (strm s)) - rdNext (strm s))) s).
Proof. intros Hc Hs. unfold fill_content, bind at 1, get at 1. cdecide. by rewrite Hs. Qed.

Lemma fill_content_none s : contentLen (data (strm s)) = 0 -> fill_content s = Ok (Fall, s).
Proof. intros E. unfold fill_content, bind, get. by rewrite E. Qed.

Lemma fill_padding_none s : paddingLen (data (strm s)) = 0 -> fill_padding s = Ok (Fall, s).
Proof. intros E. unfold fill_padding, bind, get. by rewrite E. Qed.

Lemma fill_eor_none s : eorStop (data (strm s)) = false -> fill_eor s = Ok (Fall, s).
Proof. intros E. unfold fill_eor, bind, get. by rewrite E. Qed.

(** The fragment a delivery makes available. *)
Lemma deliver_frag s m c t : rd_layout s -> unread s = c ++ t -> 0 <= m <= zlen c ->
  m <= buffStop (data (strm s)) - rdNext (strm s) ->
  frag (deliver m s) = sub 0 m c.
Proof.
  intros L Hu Hm Hb. pose proof (rl_ptr s L). pose proof (rl_stop s L).
  transitivity (sub (rdNext (strm s)) m (buff (data (strm s)))).
  - unfold frag. cbn -[Z.add sub]. f_equal. lia.
  - pose proof (read_unread m s L ltac:(lia)) as Hr. rewrite mem_read_Ok in Hr by lia.
    injection Hr as ->. rewrite Hu. apply sub_app_l; lia.
Qed.

Lemma zlen_drop (p : list Z) m : 0 <= m <= zlen p -> zlen (drop (Z.to_nat m) p) = zlen p - m.
Proof. unfold zlen. intros. rewrite length_drop. lia. Qed.

(** Taking [m] bytes of the [c] that is first among the unread. *)
Lemma skip_bytes_app m s c t : rd_layout s -> unread s = c ++ t -> 0 <= m <= zlen c ->
  m <= buffStop (data (strm s)) - rdNext (strm s) ->
  unread (skip_bytes m s) = drop (Z.to_nat m) c ++ t.
Proof.
  intros L Hu Hm Hb. rewrite skip_bytes_unread, Hu, drop_app_le; [done|unfold zlen in *; lia|done|lia].
Qed.

(** ** The records of a stream *)

(** A record that may arrive while the stream of type [T] of request [id] is being read, before
    the end of stream: content of this stream, a non-empty record of another request, or an
    attempt to begin a second request. *)
Definition deliverable (T id : Z) (r : rec) : Prop :=
  rec_ok r /\ r_content r <> [] /\ r_id r <> 0 /\
  (if r_type r =? FCGI_BEGIN_REQUEST then zlen (r_content r) = 8
   else r_id r = id -> r_type r = T).

Definition is_ours (T id : Z) (r : rec) : bool :=
  negb (r_type r =? FCGI_BEGIN_REQUEST) && (r_id r =? id).

(** What the client is given, and what the web server is answered. *)
Definition rd_content (T id : Z) (rs : list rec) : list Z :=
  concat (map (fun r => if is_ours T id r then r_content r else []) rs).

Definition mpx_reply (r : rec) : list Z :=
  if r_type r =? FCGI_BEGIN_REQUEST
  then enc (mkRec FCGI_END_REQUEST (r_id r)
              (end_body_bytes (MakeEndRequestBody 0 FCGI_CANT_MPX_CONN)) [])
  else [].

Definition replies (rs : list rec) : list Z := concat (map mpx_reply rs).

(** Of the records [rs0], [rs] are still to come and the others have been answered. *)
Definition sent (tx0 : list Z) (rs0 rs : list rec) (t : list Z) : Prop :=
  exists done, rs0 = done ++ rs /\ t = tx0 ++ replies done.

Lemma replies_app rs1 rs2 : replies (rs1 ++ rs2) = replies rs1 ++ replies rs2.
Proof. unfold replies. by rewrite map_app, concat_app. Qed.

Lemma sent_next tx0 rs0 r rs t : sent tx0 rs0 (r :: rs) t -> sent tx0 rs0 rs (t ++ mpx_reply r).
Proof.
  intros (ds & -> & ->). exists (ds ++ [r]). rewrite <- !app_assoc, replies_app. cbn.
  by rewrite app_nil_r.
Qed.

(** [s] after a header was interpreted and did not end the call. *)
Definition in_record (n p : Z) (sk : bool) (w : list wr_event) (t : list Z) (s : SS) : SS :=
  s <| strm := (strm s) <| stop := rdNext (strm s) |> <| isClosed := false |>
      <| data := (data (strm s)) <| contentLen := n |> <| paddingLen := p |>
                 <| eorStop := false |> <| skip := sk |> |> |>
    <| conn := (conn s) <| wr := w |> <| tx := t |> |>.

(** [s] when the end of the stream was reached. *)
Definition at_eof (p : Z) (s : SS) : SS :=
  s <| strm := (strm s) <| stop := rdNext (strm s) |> <| wrNext := rdNext (strm s) |>
      <| isClosed := true |>
      <| data := (data (strm s)) <| contentLen := 0 |> <| paddingLen := p |>
                 <| eorStop := false |> |> |>.

Lemma in_record_layout n p sk w t s : rd_layout s -> accepts w -> rd_layout (in_record n p sk w t s).
Proof. by intros [] ?. Qed.

Lemma wire_cons r rs : wire (r :: rs) = enc r ++ wire rs.
Proof. done. Qed.

Lemma enc_split r w : enc r ++ w =
  header_bytes (header_of (r_type r) (r_id r) (zlen (r_content r)) (zlen (r_pad r)))
    ++ (r_content r ++ r_pad r ++ w).
Proof. unfold enc. by rewrite <- !app_assoc. Qed.

(** The fields that [ProcessHeader] reads from the header of a record. *)
Lemma header_fields r : rec_ok r ->
  let h := header_of (r_type r) (r_id r) (zlen (r_content r)) (zlen (r_pad r)) in
  version h = FCGI_VERSION_1 /\ type h = r_type r /\ header_requestId h = r_id r /\
  header_contentLength h = zlen (r_content r) /\ FcgiProto.paddingLength h = zlen (r_pad r).
Proof.
  intros (? & ? & ? & ?) h. pose proof (zlen_nonneg (r_content r)). pose proof (zlen_nonneg (r_pad r)).
  split_and!; [done|by apply uchar_small|by apply header_of_requestId|by apply header_of_contentLength|
    by apply header_of_paddingLength].
Qed.

(** [s] when [ProcessHeader] is entered, and when it has returned. *)
Definition entering (s : SS) : SS :=
  s <| strm := (strm s) <| stop := rdNext (strm s) |>
                  <| data := (data (strm s)) <| eorStop := true |> |> |>.

Definition leaving (s : SS) : SS :=
  s <| strm := (strm s) <| isClosed := false |>
                  <| data := (data (strm s)) <| eorStop := false |> |> |>.

(** [s] once [ProcessHeader] has stored the lengths of the record. *)
Definition with_lens (n p : Z) (s : SS) : SS :=
  s <| strm := (strm s) <| data := (data (strm s)) <| contentLen := n |> <| paddingLen := p |> |> |>.

Section Dispatch.
Context {procs : StreamProcs} {uninit : Uninit}.

Lemma fill_dispatch_eq h s st s2 : ProcessHeader h (entering s) = Ok (st, s2) ->
  fill_dispatch h s = fill_switch st (leaving s2).
Proof.
  intros E. unfold fill_dispatch. do 2 (erewrite bind_Ok by reflexivity).
  by erewrite bind_Ok by exact E.
Qed.

Context (T : Z) (rq : ReqData).
Hypothesis T_ok : T <> FCGI_BEGIN_REQUEST.
Hypothesis id_ok : requestId rq <> 0.
Hypothesis begun : isBeginProcessed rq = true.

(** A second request on the connection is refused. *)
Lemma ProcessBeginRecord_mpx r s : 0 <= ipcFd (req s) -> accepts (wr (conn s)) ->
  isBeginProcessed (req s) = true -> contentLen (data (strm s)) = 8 -> r_id r <> 0 ->
  r_type r = FCGI_BEGIN_REQUEST ->
  exists w, accepts w /\ ProcessBeginRecord (r_id r) s =
    Ok (SKIP, s <| conn := (conn s) <| wr := w |> <| tx := tx (conn s) ++ mpx_reply r |> |>).
Proof.
  intros Hfd Ha Hb Hcl Hid Ht. unfold ProcessBeginRecord, bind at 1, get at 1. rewrite Hb, Hcl.
  rewrite (proj2 (Z.eqb_neq _ _) Hid). cbn [Z.eqb Pos.eqb negb orb].
  rewrite MakeHeader_Ok by done. unfold bind at 1, lift.
  match goal with |- context [write_it_all ?bs] =>
    destruct (write_it_all_Ok s bs Hfd Ha) as (w & Hw & Ew) end.
  exists w. split; [done|]. erewrite bind_Ok by exact Ew. unfold mpx_reply. rewrite Ht.
  unfold enc. cbn [r_content r_pad r_type r_id]. by rewrite app_nil_r.
Qed.

Lemma ProcessHeader_deliverable r s : rd_layout s -> req s = rq ->
  stype (data (strm s)) = T -> deliverable T (requestId rq) r ->
  exists w, accepts w /\
    ProcessHeader (header_of (r_type r) (r_id r) (zlen (r_content r)) (zlen (r_pad r))) s
    = Ok (if is_ours T (requestId rq) r then STREAM_RECORD else SKIP,
          (with_lens (zlen (r_content r)) (zlen (r_pad r)) s)
            <| conn := (conn s) <| wr := w |> <| tx := tx (conn s) ++ mpx_reply r |> |>).
Proof.
  intros L Hrq HT (Hok & Hne & Hid & Hty).
  pose proof (header_fields r Hok) as (Hv & Ht & Hri & Hcl & Hp).
  unfold ProcessHeader, is_ours. rewrite Hv, Ht, Hri, Hcl, Hp. cbn [Z.eqb Pos.eqb negb FCGI_VERSION_1].
  set (s1 := with_lens (zlen (r_content r)) (zlen (r_pad r)) s).
  do 2 (erewrite (bind_Ok (upd_data _)) by reflexivity). rewrite (bind_Ok get _ _ s1 s1) by done.
  destruct (Z.eqb_spec (r_type r) FCGI_BEGIN_REQUEST) as [Eb|Eb]; cbn [andb negb].
  - apply (ProcessBeginRecord_mpx r s1); try done; try apply L; cbn; by rewrite ?Hrq.
  - exists (wr (conn s)). split; [apply L|].
    unfold mpx_reply. rewrite (proj2 (Z.eqb_neq _ _) Eb), app_nil_r.
    rewrite (proj2 (Z.eqb_neq _ FCGI_NULL_REQUEST_ID)) by done.
    change (req s1) with (req s). change (stype (data (strm s1))) with (stype (data (strm s))).
    rewrite Hrq, HT.
    replace (s1 <| conn := _ |>) with s1 by (by destruct s as [[? ? ? ? ? ? ? ? []] ? []]).
    destruct (Z.eqb_spec (r_id r) (requestId rq)) as [Ei|Ei]; cbn [negb]; [|done].
    by rewrite (Hty Ei), Z.eqb_refl.
Qed.

(** The header of a record that does not end the stream. *)
Lemma dispatch_spec r s : rd_layout s -> isClosed (strm s) = false -> req s = rq ->
  stype (data (strm s)) = T -> skip (data (strm s)) = false -> deliverable T (requestId rq) r ->
  exists w, accepts w /\
    fill_dispatch (header_of (r_type r) (r_id r) (zlen (r_content r)) (zlen (r_pad r))) s
    = Ok (Continue, in_record (zlen (r_content r)) (zlen (r_pad r)) (negb (is_ours T (requestId rq) r))
                              w (tx (conn s) ++ mpx_reply r) s).
Proof.
  intros L Hc Hrq HT Hsk Hd.
  destruct (ProcessHeader_deliverable r (entering s)) as (w & Ha & Ew); [by destruct L|done..|].
  exists w. split; [done|]. rewrite (fill_dispatch_eq _ _ _ _ Ew). destruct Hd as (_ & Hne%zlen_pos & _).
  destruct (is_ours T (requestId rq) r); unfold fill_switch, bind, upd_data, upd_strm, modify, get, ret;
    cbn -[Z.eqb zlen]; cdecide; destruct s as [[? ? ? ? ? ? ? ? []] ? []]; cbn in *; by subst.
Qed.

(** The header of the end of stream record. *)
Lemma dispatch_eof (pad : list Z) s : is_byte T -> 0 <= requestId rq < 65536 -> zlen pad <= 255 ->
  isClosed (strm s) = false -> req s = rq -> stype (data (strm s)) = T ->
  fill_dispatch (header_of T (requestId rq) 0 (zlen pad)) s = Ok (Return, at_eof (zlen pad) s).
Proof.
  intros HTb Hidb Hpad Hc Hrq HT.
  pose proof (header_fields (mkRec T (requestId rq) [] pad) ltac:(done)) as (Hv & Ht & Hri & Hcl & Hp).
  cbn [r_type r_id r_content r_pad] in *. rewrite zlen_nil in *.
  unfold fill_dispatch, fill_switch, ProcessHeader. rewrite Hv, Ht, Hri, Hcl, Hp. cbn [Z.eqb Pos.eqb negb FCGI_VERSION_1].
  rewrite (proj2 (Z.eqb_neq T _)) by done. rewrite (proj2 (Z.eqb_neq _ FCGI_NULL_REQUEST_ID)) by done.
  unfold bind, upd_data, upd_strm, modify, get. cbn -[Z.eqb]. rewrite Hrq, HT, !Z.eqb_refl.
  unfold ret. cbn. destruct s as [[? ? ? ? ? ? ? ? []] ? []]. cbn in *. by subst.
Qed.
End Dispatch.

(** ** [FillBuffProc] on the records of a stream *)

(** [s] in the middle of the stream of type [T]: of the record being read, [c] is the content
    and [p] the padding still to come, and of the header of the next one the bytes [h] have
    been taken; then come the records [rs] and the end of stream record with padding [epad].
    [rs0] are all the records, [tx0] is what the connection carried before the first of them,
    [tail] what the peer sends after the end of the stream. *)
Record in_stream (T : Z) (rq : ReqData) (tx0 : list Z) (rs0 : list rec) (epad tail : list Z)
    (h c p : list Z) (rs : list rec) (s : SS) : Prop := {
  is_layout : rd_layout s;
  is_open : isClosed (strm s) = false;
  is_req : req s = rq;
  is_type : stype (data (strm s)) = T;
  is_eor : eorStop (data (strm s)) = false;
  is_skip : skip (data (strm s)) = true -> c <> [];
  is_content : contentLen (data (strm s)) = zlen c;
  is_padding : paddingLen (data (strm s)) = zlen p;
  is_records : Forall (deliverable T (requestId rq)) rs;
  is_tx : sent tx0 rs0 rs (tx (conn s));
  is_hdr : zlen h < FCGI_HEADER_LEN /\ (h <> [] -> c = [] /\ p = []);
  is_unread : exists w, unread s = c ++ p ++ w /\
                h ++ w = wire rs ++ enc (mkRec T (requestId rq) [] epad) ++ tail }.

Arguments is_layout {_ _ _ _ _ _ _ _ _ _ _} _.
Arguments is_open {_ _ _ _ _ _ _ _ _ _ _} _.
Arguments is_req {_ _ _ _ _ _ _ _ _ _ _} _.
Arguments is_type {_ _ _ _ _ _ _ _ _ _ _} _.
Arguments is_eor {_ _ _ _ _ _ _ _ _ _ _} _.
Arguments is_skip {_ _ _ _ _ _ _ _ _ _ _} _.
Arguments is_content {_ _ _ _ _ _ _ _ _ _ _} _.
Arguments is_padding {_ _ _ _ _ _ _ _ _ _ _} _.
Arguments is_records {_ _ _ _ _ _ _ _ _ _ _} _.
Arguments is_tx {_ _ _ _ _ _ _ _ _ _ _} _.
Arguments is_hdr {_ _ _ _ _ _ _ _ _ _ _} _.
Arguments is_unread {_ _ _ _ _ _ _ _ _ _ _} _.

(** The parameters of a stream. *)
Record stream_ok (T : Z) (rq : ReqData) (epad : list Z) : Prop := {
  so_type : is_byte T;
  so_begin : T <> FCGI_BEGIN_REQUEST;
  so_id : 0 < requestId rq < 65536;
  so_begun : isBeginProcessed rq = true;
  so_pad : zlen epad <= 255 }.

(** An open reader whose client still has to be given the rest of its fragment, and then [X]. *)
Definition rd_at (T : Z) (rq : ReqData) (tx0 : list Z) (rs0 : list rec) (epad tail : list Z) (s : SS) (X : list Z) : Prop :=
  stream_ok T rq epad /\ skip (data (strm s)) = false /\
  0 <= rdNext (strm s) <= stop (strm s) /\ stop (strm s) <= buffStop (data (strm s)) /\
  exists c p rs, in_stream T rq tx0 rs0 epad tail [] c p rs (set_ptrs (stop (strm s)) (stopUnget (strm s)) s) /\
                 X = c ++ rd_content T (requestId rq) rs.

(** A reader that has delivered the end of the stream. *)
Record rd_end (T : Z) (rq : ReqData) (tx0 : list Z) (rs0 : list rec) (epad tail : list Z) (s : SS) : Prop := {
  re_layout : rd_layout s;
  re_closed : isClosed (strm s) = true;
  re_stop : stop (strm s) = rdNext (strm s);
  re_req : req s = rq;
  re_type : stype (data (strm s)) = T;
  re_eor : eorStop (data (strm s)) = false;
  re_skip : skip (data (strm s)) = false;
  re_content : contentLen (data (strm s)) = 0;
  re_padding : paddingLen (data (strm s)) = zlen epad;
  re_tx : tx (conn s) = tx0 ++ replies rs0;
  re_unread : unread s = epad ++ tail }.

Section Fill.
Context {procs : StreamProcs} {uninit : Uninit}.
Context (T : Z) (rq : ReqData) (tx0 : list Z) (rs0 : list rec) (epad tail : list Z) (OK : stream_ok T rq epad).
Local Notation in_stream := (in_stream T rq tx0 rs0 epad tail).
Local Notation rd_at := (rd_at T rq tx0 rs0 epad tail).
Local Notation rd_end := (rd_end T rq tx0 rs0 epad tail).

(** What a call leaves when [X] is still to be delivered. *)
Definition filled (X : list Z) (s : SS) : Prop :=
  (X = [] /\ rd_end s) \/ (exists Y, X = frag s ++ Y /\ frag s <> [] /\ rd_at s Y).

Definition fills (m : M SS unit) (X : list Z) (s : SS) : Prop :=
  exists s', m s = Ok (tt, s') /\ filled X s'.

Lemma flow_fills (m : M SS flow) turn rest X s f s' : m s = Ok (f, s') ->
  match f with
  | Fall => fills rest X s' | Continue => fills turn X s' | Return => filled X s'
  end -> fills (flow_then m turn rest) X s.
Proof.
  intros E H. unfold fills, flow_then. destruct f; erewrite bind_Ok by exact E; [done|done|].
  by exists s'.
Qed.

(** What is delivered of the current record. *)
Definition live (s : SS) (c : list Z) : list Z := if skip (data (strm s)) then [] else c.

(** A state that is [n] bytes or less before the end, or exactly [n] with some buffered. *)
Definition before (n : nat) (s : SS) : Prop :=
  (length (unread s) < n)%nat \/
  ((length (unread s) <= n)%nat /\ rdNext (strm s) < buffStop (data (strm s))).

Section Turn.
Variable n : nat.
Variable turn : list Z -> M SS unit.
Hypothesis turn_fills : forall h c p rs s, in_stream h c p rs s -> (length (unread s) < n)%nat ->
  fills (turn h) (live s c ++ rd_content T (requestId rq) rs) s.

Lemma turn_fills_nil h p rs s : in_stream h [] p rs s -> (length (unread s) < n)%nat ->
  fills (turn h) (rd_content T (requestId rq) rs) s.
Proof.
  intros I Hn. pose proof (turn_fills h [] p rs s I Hn) as H.
  unfold live in H. by destruct (skip _).
Qed.

Lemma after_less m s : rd_layout s -> before n s -> 0 <= m <= buffStop (data (strm s)) - rdNext (strm s) ->
  (0 < m \/ rdNext (strm s) = buffStop (data (strm s))) -> unread s <> [] ->
  (length (unread (skip_bytes m s)) < n)%nat.
Proof.
  intros L Hb Hm Hp Hne. rewrite skip_bytes_unread, length_drop by done.
  destruct Hb as [?|[? ?]]; destruct (unread s); try done; cbn [length] in *; lia.
Qed.

(** The header of the record behind a complete header: one of [rs], or the end of stream. *)
Lemma record_fills h w rs s : zlen h = FCGI_HEADER_LEN -> unread s = w ->
  h ++ w = wire rs ++ enc (mkRec T (requestId rq) [] epad) ++ tail ->
  rd_layout s -> isClosed (strm s) = false -> req s = rq -> stype (data (strm s)) = T ->
  skip (data (strm s)) = false -> Forall (deliverable T (requestId rq)) rs ->
  sent tx0 rs0 rs (tx (conn s)) -> (length w < n)%nat ->
  fills (flow_then (fill_dispatch (bytes_header h)) (turn []) (ret tt))
        (rd_content T (requestId rq) rs) s.
Proof.
  intros Hh Hu Hw L Hc Hrq HT Hsk Hrs Htx Hn. destruct OK as [].
  destruct rs as [|r rs].
  - cbn [wire concat map app] in Hw. rewrite enc_split in Hw.
    apply app_inj_1 in Hw as [-> ->]; [|unfold zlen in Hh; cbn; unfold FCGI_HEADER_LEN in *; lia].
    rewrite bytes_header_bytes. cbn [r_content r_pad r_type r_id] in *. rewrite zlen_nil.
    eapply flow_fills; [apply (dispatch_eof T rq); try done; lia|]. left. split; [done|].
    split; try done. 1: by destruct L. cbn.
    destruct Htx as (ds & -> & ->). by rewrite app_nil_r.
  - inversion_clear Hrs as [|? ? Hr Hrs']. rewrite wire_cons, <- app_assoc, enc_split in Hw.
    apply app_inj_1 in Hw as [-> ->]; [|unfold zlen in Hh; cbn; unfold FCGI_HEADER_LEN in *; lia].
    rewrite bytes_header_bytes.
    destruct (dispatch_spec T rq so_begun0 r s) as (wr & Ha & E); [done..|].
    eapply flow_fills; [exact E|]. cbv iota beta.
    set (s1 := in_record _ _ _ _ _ s). 
    replace (rd_content T (requestId rq) (r :: rs))
      with (live s1 (r_content r) ++ rd_content T (requestId rq) rs).
    2:{ unfold live, rd_content. cbn. by destruct (is_ours _ _ _). }
    apply (turn_fills [] (r_content r) (r_pad r) rs); [|by change (unread s1) with (unread s); rewrite Hu].
    split; try done.
    + by apply in_record_layout.
    + intros _. apply Hr.
    + by apply sent_next.
    + by eexists.
Qed.

Lemma fill_header_spec h s : rd_layout s -> zlen h <= FCGI_HEADER_LEN ->
  let m := Z.min (FCGI_HEADER_LEN - zlen h) (buffStop (data (strm s)) - rdNext (strm s)) in
  fill_header h s = Ok (h ++ sub 0 m (unread s), skip_bytes m s).
Proof.
  intros L Hh m. pose proof (rl_ptr s L). unfold fill_header, bind, get, lift.
  fold m. by rewrite read_unread by (done || lia).
Qed.

Lemma in_stream_unread h c p rs s : in_stream h c p rs s -> unread s <> [].
Proof.
  intros I Hz. destruct (is_unread I) as (w & Hu & Hw). rewrite Hz in Hu.
  symmetry in Hu. apply app_nil in Hu as [-> Hu]. apply app_nil in Hu as [-> ->].
  apply (f_equal zlen) in Hw. rewrite app_nil_r, enc_split, !zlen_app, zlen_header_bytes in Hw.
  pose proof (is_hdr I) as [Hh _]. unfold FCGI_HEADER_LEN in Hh.
  pose proof (zlen_nonneg (wire rs)). pose proof (zlen_nonneg tail). pose proof (zlen_nonneg epad).
  cbn [r_content r_pad] in Hw. rewrite zlen_nil in Hw. lia.
Qed.

Lemma in_stream_live h p rs s : in_stream h [] p rs s -> skip (data (strm s)) = false.
Proof. intros I. apply not_true_iff_false. intros Hs. by apply (is_skip I) in Hs. Qed.

(** The last step of a turn: take bytes of a header, and interpret it when it is complete. *)
Lemma header_fills h rs s : in_stream h [] [] rs s -> before n s ->
  fills (header <- fill_header h ;;
         if zlen header <? FCGI_HEADER_LEN then turn header else
         flow_then (fill_dispatch (bytes_header header)) (turn []) (ret tt))
        (rd_content T (requestId rq) rs) s.
Proof.
  intros I Hn. pose proof (is_layout I) as L. pose proof (rl_ptr s L).
  pose proof (in_stream_live _ _ _ _ I) as Hsk.
  pose proof (in_stream_unread _ _ _ _ _ I) as Hne. destruct (is_hdr I) as [Hh _].
  destruct (is_unread I) as (w & Hu & Hw). cbn [app] in Hu. rewrite Hu in *.
  pose proof (fill_header_spec h s L ltac:(lia)) as E. cbv zeta in E. rewrite Hu in E.
  set (m := Z.min _ _) in E. pose proof (zlen_nonneg h).
  assert (Hm : 0 <= m <= buffStop (data (strm s)) - rdNext (strm s)) by lia.
  pose proof (skip_bytes_unread m s L Hm) as Hu1. rewrite Hu in Hu1.
  pose proof (after_less m s L Hn Hm ltac:(lia) ltac:(by rewrite Hu)) as Hlt. rewrite Hu1 in Hlt.
  pose proof (skip_bytes_layout m s L Hm) as L1.
  assert (Hml : zlen (sub 0 m w) = m).
  { rewrite zlen_sub; [done|lia..|]. rewrite <- Hu, unread_len by done.
    pose proof (zlen_nonneg (rx_bytes (rx (conn s)))). lia. }
  assert (Hw1 : (h ++ sub 0 m w) ++ drop (Z.to_nat m) w
                = wire rs ++ enc (mkRec T (requestId rq) [] epad) ++ tail).
  { rewrite <- app_assoc, <- app_sub by lia. done. }
  unfold fills. erewrite bind_Ok by exact E. rewrite zlen_app, Hml.
  destruct (Z.ltb_spec (zlen h + m) FCGI_HEADER_LEN).
  - apply (turn_fills_nil (h ++ sub 0 m w) [] rs); [|by rewrite Hu1].
    destruct I. split; try done.
    + rewrite zlen_app, Hml. split; [lia|done].
    + exists (drop (Z.to_nat m) w). by rewrite Hu1.
  - destruct I. eapply record_fills; try done. rewrite zlen_app. lia.
Qed.

Local Notation rest_header h :=
  (header <- fill_header h ;;
   if zlen header <? FCGI_HEADER_LEN then turn header else
   flow_then (fill_dispatch (bytes_header header)) (turn []) (ret tt)).

Lemma skip_bytes_before m s : rd_layout s -> before n s ->
  0 <= m <= buffStop (data (strm s)) - rdNext (strm s) -> unread s <> [] ->
  before n (skip_bytes m s).
Proof.
  intros L Hb Hm Hne. destruct (Z.eqb_spec m 0) as [->|Hz].
  - unfold before. rewrite skip_bytes_unread, drop_0 by done. cbn. by rewrite Z.add_0_r.
  - left. apply after_less; [done..|lia|done].
Qed.

(** A turn from the step that skips the padding. *)
Lemma padding_fills h p rs s : in_stream h [] p rs s -> before n s ->
  fills (flow_then fill_padding (turn h) (flow_then fill_eor (turn h) (rest_header h)))
        (rd_content T (requestId rq) rs) s.
Proof.
  intros I Hn. pose proof (is_layout I) as L. pose proof (rl_ptr s L).
  pose proof (in_stream_unread _ _ _ _ _ I) as Hne. pose proof (is_padding I) as Hp.
  destruct (Z.eqb_spec (zlen p) 0) as [Hz|Hz].
  { apply zlen_0 in Hz as ->. eapply flow_fills; [by apply fill_padding_none|].
    eapply flow_fills; [by apply fill_eor_none, (is_eor I)|]. by apply header_fills. }
  pose proof (zlen_nonneg p). pose proof (fill_padding_take s ltac:(lia)) as E. cbv zeta in E.
  set (m := Z.min _ _) in E. rewrite Hp in E.
  assert (Hm : 0 <= m <= buffStop (data (strm s)) - rdNext (strm s)) by lia.
  set (s1 := take_padding m s) in E. destruct (is_unread I) as (w & Hu & Hw).
  assert (I1 : in_stream h [] (drop (Z.to_nat m) p) rs s1).
  { pose proof (skip_bytes_layout m s L Hm) as L1. destruct I. split; try done.
    - by destruct L1.
    - cbn -[Z.sub]. rewrite zlen_drop by lia. by rewrite Hp.
    - split; [apply is_hdr0|]. intros Hh. apply is_hdr0 in Hh as [_ ->]. by rewrite drop_nil.
    - exists w. split; [|done]. apply (skip_bytes_app m s p w); (done || lia). }
  assert (Hb1 : before n s1) by (apply (skip_bytes_before m s); done).
  eapply flow_fills; [exact E|]. destruct (Z.ltb_spec 0 (zlen p - m)).
  - apply (turn_fills_nil h (drop (Z.to_nat m) p)); [done|].
    apply (after_less m s); [done..| |done]. lia.
  - assert (drop (Z.to_nat m) p = []) as Hd by (apply drop_ge; unfold zlen in *; lia).
    rewrite Hd in I1. eapply flow_fills; [by apply fill_eor_none, (is_eor I1)|].
    by apply header_fills.
Qed.

Local Notation rest_padding h :=
  (flow_then fill_padding (turn h) (flow_then fill_eor (turn h) (rest_header h))).

(** Taking content that is not delivered. *)
Lemma skip_fills c p rs s : in_stream [] c p rs s -> before n s -> skip (data (strm s)) = true ->
  rdNext (strm s) < buffStop (data (strm s)) ->
  fills (flow_then fill_content (turn []) (rest_padding []))
        (rd_content T (requestId rq) rs) s.
Proof.
  intros I Hn Hsk Hav. pose proof (is_layout I) as L. pose proof (rl_ptr s L).
  pose proof (in_stream_unread _ _ _ _ _ I) as Hne. pose proof (is_content I) as Hc.
  pose proof (zlen_pos c (is_skip I Hsk)).
  set (m := Z.min (zlen c) (buffStop (data (strm s)) - rdNext (strm s))).
  assert (Hm : 0 <= m <= buffStop (data (strm s)) - rdNext (strm s)) by lia.
  set (s1 := fun sk => s <| strm := (strm s) <| rdNext := rdNext (strm s) + m |> <| data :=
         (data (strm s)) <| contentLen := zlen c - m |> <| skip := sk |> |> |>).
  assert (E : fill_content s = Ok (if 0 <? zlen c - m then (Continue, s1 true) else (Fall, s1 false))).
  { unfold m, s1, fill_content, bind at 1, get at 1. rewrite Hc, Hsk. cdecide. cbn [negb].
    unfold bind, upd_data, upd_strm, modify, ret. cbn -[Z.sub Z.min Z.add Z.ltb].
    destruct (0 <? _); cbn -[Z.sub Z.min Z.add];
      destruct s as [[? ? ? ? ? ? ? ? []] ? []]; cbn in *; by subst. }
  destruct (is_unread I) as (w & Hu & Hw).
  pose proof (skip_bytes_unread m s L Hm) as Hu1.
  rewrite Hu, drop_app_le in Hu1 by (unfold zlen in *; lia).
  assert (I1 : forall sk, (sk = true -> drop (Z.to_nat m) c <> []) ->
            in_stream [] (drop (Z.to_nat m) c) p rs (s1 sk)).
  { intros sk Hs1. pose proof (skip_bytes_layout m s L Hm) as L1. destruct I. split; try done.
    - by destruct L1.
    - cbn -[Z.sub]. by rewrite zlen_drop by lia.
    - exists w. split; [exact Hu1|done]. }
  destruct (Z.ltb_spec 0 (zlen c - m)) as [Hlt|Hge].
  - eapply flow_fills; [exact E|]. apply (turn_fills [] (drop (Z.to_nat m) c) p rs (s1 true)).
    + apply I1. intros _ Hz. apply (f_equal zlen) in Hz. rewrite zlen_drop, zlen_nil in Hz; lia.
    + apply (after_less m s); [done..|lia|done].
  - assert (drop (Z.to_nat m) c = []) as Hd by (apply drop_ge; unfold zlen in *; lia).
    rewrite Hd in I1. eapply flow_fills; [exact E|]. apply (padding_fills [] p); [by apply I1|].
    by apply (skip_bytes_before m s).
Qed.

(** Content that is there is delivered. *)
Lemma deliver_fills c p rs s rest : in_stream [] c p rs s -> c <> [] ->
  skip (data (strm s)) = false -> rdNext (strm s) < buffStop (data (strm s)) ->
  fills (flow_then fill_content (turn []) rest) (c ++ rd_content T (requestId rq) rs) s.
Proof.
  intros I Hne%zlen_pos Hsk Hav. pose proof (is_layout I) as L. pose proof (rl_ptr s L).
  pose proof (is_content I) as Hc. pose proof (rl_stop s L).
  pose proof (fill_content_deliver s ltac:(lia) Hsk) as E. set (m := Z.min _ _) in E.
  assert (Hm : 0 <= m <= buffStop (data (strm s)) - rdNext (strm s)) by lia.
  set (s1 := deliver m s) in E. destruct (is_unread I) as (w & Hu & Hw).
  pose proof (deliver_frag s m c (p ++ w) L Hu ltac:(lia) ltac:(lia)) as Hf. fold s1 in Hf.
  eapply flow_fills; [exact E|]. right.
  exists (drop (Z.to_nat m) c ++ rd_content T (requestId rq) rs). split_and!.
  - rewrite Hf, app_assoc, <- app_sub by lia. done.
  - intros Hz. rewrite Hf in Hz. apply (f_equal zlen) in Hz. rewrite zlen_sub, zlen_nil in Hz; lia.
  - split; [done|]. split; [done|]. split; [cbn -[Z.add]; lia|]. split; [cbn -[Z.add]; lia|].
    exists (drop (Z.to_nat m) c), p, rs. split; [|done].
    pose proof (skip_bytes_layout m s L Hm) as L1. destruct I. split; try done.
    + by destruct L1.
    + cbn. by rewrite Hsk.
    + cbn -[Z.sub Z.add]. rewrite zlen_drop by lia. by rewrite Hc.
    + exists w. split; [|done]. apply (skip_bytes_app m s c); (done || lia).
Qed.

(** A turn from the step that looks at the content. *)
Lemma content_fills h c p rs s : in_stream h c p rs s -> before n s ->
  rdNext (strm s) < buffStop (data (strm s)) ->
  fills (flow_then fill_content (turn h) (rest_padding h))
        (live s c ++ rd_content T (requestId rq) rs) s.
Proof.
  intros I Hn Hav. destruct (decide (c = [])) as [->|Hc].
  - replace (live s [] ++ rd_content T (requestId rq) rs) with (rd_content T (requestId rq) rs)
      by (unfold live; by destruct (skip _)).
    eapply (flow_fills _ _ _ _ _ Fall); [|by apply (padding_fills h p)].
    by apply fill_content_none, (is_content I).
  - assert (h = []) as -> by (destruct (decide (h = [])) as [|Hh]; [done|by apply (is_hdr I) in Hh as []]).
    unfold live. destruct (skip (data (strm s))) eqn:Hsk.
    + by eapply skip_fills.
    + by apply (deliver_fills c p).
Qed.
End Turn.

Lemma FillBuff_loop_spec fuel : forall h c p rs s, in_stream h c p rs s ->
  (length (unread s) < fuel)%nat ->
  fills (FillBuff_loop fuel h) (live s c ++ rd_content T (requestId rq) rs) s.
Proof.
  induction fuel as [|n IH]; intros h c p rs s I Hn; [lia|]. cbn [FillBuff_loop].
  destruct (fill_read_spec s (is_layout I) (in_stream_unread _ _ _ _ _ I))
    as (b & r & e & evs & E & L & Hu & Hav).
  eapply flow_fills; [exact E|].
  assert (I1 : in_stream h c p rs (set_in b r e evs s)) by (destruct I; split; try done; by rewrite Hu).
  apply (content_fills n (FillBuff_loop n) IH h c p rs _ I1); [|exact Hav].
  right. rewrite Hu. split; [lia|exact Hav].
Qed.

Lemma FillBuff_body_spec s X : rd_at s X -> rdNext (strm s) = stop (strm s) ->
  fills FillBuff_body X s.
Proof.
  intros (_ & Hsk & Hr & Hs & c & p & rs & I & ->) He.
  rewrite set_ptrs_id in I by done. pose proof (FillBuff_loop_spec (rd_fuel s) [] c p rs s I) as H.
  unfold live in H. rewrite Hsk in H. unfold fills, FillBuff_body, bind, get.
  apply H. pose proof (unread_len s (is_layout I)). pose proof (rl_ptr s (is_layout I)).
  unfold rd_fuel, zlen in *. lia.
Qed.
End Fill.

(** The pointers of the client move inside the fragment. *)
Lemma rd_at_ptrs T rq tx0 rs0 epad tail s X r u : rd_at T rq tx0 rs0 epad tail s X ->
  rdNext (strm s) <= r <= stop (strm s) -> rd_at T rq tx0 rs0 epad tail (set_ptrs r u s) X.
Proof.
  intros (OK & Hsk & Hr & Hs & c & p & rs & I & ->) Hru.
  split; [done|]. split; [done|]. split; [cbn; lia|]. split; [done|].
  exists c, p, rs. split; [|done]. destruct I. split; try done. by destruct is_layout0.
Qed.

(** A connection that carries the records of a stream is a [Source] of its content. *)
#[export] Instance rd_source {uninit : Uninit} (T : Z) (rq : ReqData) (tx0 : list Z) (rs0 : list rec) (epad tail : list Z) :
  Source reader_procs.
Proof.
  refine {| src_at := rd_at T rq tx0 rs0 epad tail; src_end := rd_end T rq tx0 rs0 epad tail |}.
  - intros s X (_ & _ & Hr & Hs & c & p & rs & I & _).
    pose proof (rl_stop _ (is_layout I)). pose proof (rl_reader _ (is_layout I)).
    pose proof (is_open I). cbn in *. split_and!; [done|done|lia..].
  - apply re_closed.
  - apply rd_at_ptrs.
  - intros s X H He. destruct H as (OK & H).
    destruct (@FillBuff_body_spec {| fillBuffProc := FillBuffProc_at 1;
                emptyBuffProc := fun _ => crash NullDeref |} uninit T rq tx0 rs0 epad tail OK s X)
      as (s' & E & Hf); [by split|done|]. by exists s'.
Defined.

(** ** Reading the body of a record from within [ProcessHeader] *)

(** A reader that [ProcessHeader] uses: [c] and [p] are the content and the padding of the
    record still to come, [rest] the bytes behind it; the rest of the stream does not matter. *)
Record in_body (rq : ReqData) (tx0 rest c p : list Z) (s : SS) : Prop := {
  ib_layout : rd_layout s;
  ib_open : isClosed (strm s) = false;
  ib_req : req s = rq;
  ib_eor : eorStop (data (strm s)) = true;
  ib_skip : skip (data (strm s)) = false;
  ib_content : contentLen (data (strm s)) = zlen c;
  ib_padding : paddingLen (data (strm s)) = zlen p;
  ib_tx : tx (conn s) = tx0;
  ib_rest : rest <> [];
  ib_unread : unread s = c ++ p ++ rest }.
Arguments ib_layout {_ _ _ _ _ _} _.
Arguments ib_content {_ _ _ _ _ _} _.
Arguments ib_padding {_ _ _ _ _ _} _.
Arguments ib_skip {_ _ _ _ _ _} _.
Arguments ib_eor {_ _ _ _ _ _} _.
Arguments ib_unread {_ _ _ _ _ _} _.

Definition body_at (rq : ReqData) (tx0 p rest : list Z) (s : SS) (X : list Z) : Prop :=
  0 <= rdNext (strm s) <= stop (strm s) /\ stop (strm s) <= buffStop (data (strm s)) /\
  in_body rq tx0 rest X p (set_ptrs (stop (strm s)) (stopUnget (strm s)) s).

(** After the record: its bytes have all been taken. *)
Record body_end (rq : ReqData) (tx0 rest : list Z) (s : SS) : Prop := {
  be_layout : rd_layout s;
  be_closed : isClosed (strm s) = true;
  be_req : req s = rq;
  be_skip : skip (data (strm s)) = false;
  be_content : contentLen (data (strm s)) = 0;
  be_padding : paddingLen (data (strm s)) = 0;
  be_tx : tx (conn s) = tx0;
  be_unread : unread s = rest }.

Section Body.
Context {procs : StreamProcs} {uninit : Uninit}.
Context (rq : ReqData) (tx0 rest : list Z).

Definition body_filled (p X : list Z) (s : SS) : Prop :=
  (X = [] /\ body_end rq tx0 rest s) \/
  (exists Y, X = frag s ++ Y /\ frag s <> [] /\ body_at rq tx0 p rest s Y).

Lemma in_body_unread c p s : in_body rq tx0 rest c p s -> unread s <> [].
Proof.
  intros [] Hz. rewrite ib_unread0 in Hz. apply app_nil in Hz as [_ Hz].
  by apply app_nil in Hz as [_ ->].
Qed.

(** Content that is there is delivered. *)
Lemma body_deliver c p s : in_body rq tx0 rest c p s -> c <> [] ->
  rdNext (strm s) < buffStop (data (strm s)) ->
  exists s', fill_content s = Ok (Return, s') /\ body_filled p c s'.
Proof.
  intros I Hne%zlen_pos Hav. pose proof (ib_layout I) as L. pose proof (rl_ptr s L).
  pose proof (ib_content I) as Hc. pose proof (ib_unread I) as Hu.
  pose proof (fill_content_deliver s ltac:(lia) (ib_skip I)) as E. set (m := Z.min _ _) in E.
  assert (Hm : 0 <= m <= buffStop (data (strm s)) - rdNext (strm s)) by lia.
  pose proof (deliver_frag s m c (p ++ rest) L Hu ltac:(lia) ltac:(lia)) as Hf.
  exists (deliver m s). split; [exact E|]. right. exists (drop (Z.to_nat m) c). split_and!.
  - rewrite Hf. apply app_sub. lia.
  - intros Hz. rewrite Hf in Hz. apply (f_equal zlen) in Hz. rewrite zlen_sub, zlen_nil in Hz; lia.
  - split; [cbn -[Z.add]; lia|]. split; [cbn -[Z.add]; lia|].
    pose proof (skip_bytes_layout m s L Hm) as L1. destruct I. split; try done.
    + by destruct L1.
    + cbn -[Z.sub Z.add]. rewrite zlen_drop by lia. by rewrite Hc.
    + apply (skip_bytes_app m s c); (done || lia).
Qed.

(** The loop with [eorStop] set never looks at a header. *)
Lemma body_loop_spec fuel : forall h c p s, in_body rq tx0 rest c p s ->
  (length (unread s) < fuel)%nat ->
  exists s' p', FillBuff_loop fuel h s = Ok (tt, s') /\ body_filled p' c s' /\ (c <> [] -> p' = p).
Proof.
  induction fuel as [|n IH]; intros h c p s I Hn; [lia|]. cbn [FillBuff_loop].
  pose proof (in_body_unread _ _ _ I) as Hne.
  destruct (fill_read_spec s (ib_layout I) Hne) as (b & r & e & evs & E & L & Hu & Hav).
  set (s1 := set_in b r e evs s) in *.
  assert (I1 : in_body rq tx0 rest c p s1) by (destruct I; split; try done; by rewrite Hu).
  unfold flow_then at 1. erewrite bind_Ok by exact E. cbv iota beta.
  destruct (decide (c = [])) as [->|Hc].
  2:{ destruct (body_deliver c p s1 I1 Hc Hav) as (s2 & E2 & Hf). exists s2, p.
      unfold flow_then at 1. by erewrite bind_Ok by exact E2. }
  unfold flow_then at 1. erewrite bind_Ok by (apply fill_content_none; apply (ib_content I1)).
  cbv iota beta. pose proof (ib_padding I1) as Hp. pose proof (ib_unread I1) as Hu1.
  destruct (Z.eqb_spec (zlen p) 0) as [Hz|Hz].
  - apply zlen_0 in Hz as ->. unfold flow_then at 1. erewrite bind_Ok by (by apply fill_padding_none).
    cbv iota beta. exists (s1 <| strm := (strm s1) <| stop := rdNext (strm s1) |> <| isClosed := true |> |>), [].
    split; [|split; [|done]].
    + unfold flow_then, fill_eor, bind, get. by rewrite (ib_eor I1).
    + left. split; [done|]. destruct I1. split; try done. by destruct ib_layout0.
  - pose proof (zlen_nonneg p). pose proof (fill_padding_take s1 ltac:(lia)) as E2. cbv zeta in E2.
    set (m := Z.min _ _) in E2. rewrite Hp in E2.
    assert (Hm : 0 < m <= buffStop (data (strm s1)) - rdNext (strm s1)) by (cbn in *; lia).
    set (s2 := take_padding m s1) in E2.
    assert (Hu2 : unread s2 = drop (Z.to_nat m) p ++ rest) by
      (apply (skip_bytes_app m s1 p rest); (done || lia)).
    assert (I2 : in_body rq tx0 rest [] (drop (Z.to_nat m) p) s2).
    { pose proof (skip_bytes_layout m s1 L ltac:(lia)) as L1. destruct I1. split; try done.
      - by destruct L1.
      - cbn -[Z.sub]. rewrite zlen_drop by lia. cbn in Hp. by rewrite Hp. }
    assert (Hlt : (length (unread s2) < n)%nat).
    { rewrite Hu2, length_app, length_drop. rewrite <- Hu, Hu1 in Hn. cbn [app] in Hn.
      rewrite length_app in Hn. unfold zlen in *. lia. }
    unfold flow_then at 1. erewrite bind_Ok by exact E2.
    destruct (Z.ltb_spec 0 (zlen p - m)); cbv iota beta.
    + destruct (IH h [] _ s2 I2 Hlt) as (s3 & p3 & E3 & Hf & _). by exists s3, p3.
    + assert (drop (Z.to_nat m) p = []) as Hd by (apply drop_ge; unfold zlen in *; lia).
      rewrite Hd in *. exists (s2 <| strm := (strm s2) <| stop := rdNext (strm s2) |> <| isClosed := true |> |>), [].
      split; [|split; [|done]].
      * unfold flow_then, fill_eor, bind, get. by rewrite (ib_eor I2).
      * left. split; [done|]. destruct I2. split; try done. by destruct ib_layout0.
Qed.
End Body.

(** The body of a record is a [Source] for the functions called from [ProcessHeader]. *)
Definition body_source {uninit : Uninit} (rq : ReqData) (tx0 p rest : list Z) :
  Source nested_procs.
Proof.
  refine {| src_at := body_at rq tx0 p rest; src_end := body_end rq tx0 rest |}.
  - intros s X (Hr & Hs & []). destruct ib_layout0. cbn in *. split_and!; [done|done|lia..].
  - intros s []. done.
  - intros s X r u (Hr & Hs & I) Hru. split; [cbn; lia|]. split; [done|].
    destruct I. split; try done. by destruct ib_layout0.
  - intros s X (Hr & Hs & I) He. rewrite set_ptrs_id in I by done.
    destruct (@body_loop_spec {| fillBuffProc := FillBuffProc_at 0;
                emptyBuffProc := fun _ => crash NullDeref |} uninit rq tx0 rest (rd_fuel s) [] X p s I)
      as (s' & p' & E & Hf & Hp).
    { pose proof (unread_len s (ib_layout I)). pose proof (rl_ptr s (ib_layout I)).
      unfold rd_fuel, zlen in *. lia. }
    exists s'. split; [exact E|]. destruct Hf as [?|(Y & HX & Hne & Hb)]; [by left|].
    right. exists Y. rewrite Hp in Hb; [done|]. intros ->. by destruct (frag s').
Defined.
