(* ===== verification/FcgiRecords.v ===== *)
(** * The records that [ProcessHeader] answers itself

    [BEGIN_REQUEST], the management records and the headers that are refused: what
    [FillBuffProc] does when one of them is the next record of the connection. *)

From S2P Require Import Prelude FcgiProto FcgiStream FcgiWriter FcgiParams FcgiReader.

(** ** A header arrives *)

(** Between two records: everything of the last one has been taken. *)
Record between (s : SS) : Prop := {
  bw_layout : rd_layout s;
  bw_open : isClosed (strm s) = false;
  bw_eor : eorStop (data (strm s)) = false;
  bw_skip : skip (data (strm s)) = false;
  bw_content : contentLen (data (strm s)) = 0;
  bw_padding : paddingLen (data (strm s)) = 0 }.

Lemma between_set_in b r e evs s : between s -> rd_layout (set_in b r e evs s) ->
  between (set_in b r e evs s).
Proof. by intros [] ?. Qed.

Lemma between_skip m s : between s -> rd_layout (skip_bytes m s) -> between (skip_bytes m s).
Proof. by intros [] ?. Qed.

Section Gather.
Context {procs : StreamProcs} {uninit : Uninit}.

(** The turn that takes more bytes of a header. *)
Lemma header_turn fuel h s : between s -> unread s <> [] -> zlen h < FCGI_HEADER_LEN ->
  exists b r e evs m, let s1 := skip_bytes m (set_in b r e evs s) in
    between s1 /\ 0 < m <= zlen (unread s) /\ m <= FCGI_HEADER_LEN - zlen h /\
    unread s1 = drop (Z.to_nat m) (unread s) /\
    FillBuff_loop (S fuel) h s =
      (let header := h ++ sub 0 m (unread s) in
       if zlen header <? FCGI_HEADER_LEN then FillBuff_loop fuel header else
       flow_then (fill_dispatch (bytes_header header)) (FillBuff_loop fuel []) (ret tt)) s1.
Proof.
  intros B Hne Hh. destruct (fill_read_spec s (bw_layout s B) Hne) as (b & r & e & evs & E & L & Hu & Hav).
  set (s1 := set_in b r e evs s) in *. assert (B1 : between s1) by (by apply between_set_in).
  pose proof (unread_len s1 L) as Hlen. pose proof (zlen_nonneg (rx_bytes (rx (conn s1)))).
  pose proof (fill_header_spec h s1 L ltac:(lia)) as Eh. cbv zeta in Eh. rewrite Hu in *.
  set (m := Z.min _ _) in Eh. pose proof (rl_ptr s1 L).
  assert (Hm : 0 < m <= buffStop (data (strm s1)) - rdNext (strm s1)) by (cbn in *; lia).
  exists b, r, e, evs, m. fold s1. split; [|split; [lia|split; [lia|split]]].
  - apply between_skip; [done|]. apply skip_bytes_layout; [done|lia].
  - rewrite <- Hu. apply skip_bytes_unread; [done|lia].
  - cbn [FillBuff_loop]. unfold flow_then at 1. erewrite bind_Ok by exact E. cbv iota beta.
    unfold flow_then at 1. erewrite bind_Ok by (apply fill_content_none; apply B1). cbv iota beta.
    unfold flow_then at 1. erewrite bind_Ok by (apply fill_padding_none; apply B1). cbv iota beta.
    unfold flow_then at 1. erewrite bind_Ok by (apply fill_eor_none; apply B1). cbv iota beta.
    by erewrite bind_Ok by exact Eh.
Qed.

(** However the bytes of a header arrive, it is interpreted when it is complete. *)
Lemma gather_header fuel : forall h s, between s -> zlen h < FCGI_HEADER_LEN ->
  FCGI_HEADER_LEN <= zlen h + zlen (unread s) -> (length (unread s) < fuel)%nat ->
  exists b r e evs fuel', let s1 := set_in b r e evs s in
    between s1 /\ unread s1 = drop (Z.to_nat (FCGI_HEADER_LEN - zlen h)) (unread s) /\
    (length (unread s1) < fuel')%nat /\
    FillBuff_loop fuel h s =
      flow_then (fill_dispatch (bytes_header (h ++ sub 0 (FCGI_HEADER_LEN - zlen h) (unread s))))
                (FillBuff_loop fuel' []) (ret tt) s1.
Proof.
  induction fuel as [|n IH]; intros h s B Hh Hl Hn; [lia|].
  assert (Hne : unread s <> []) by (intros Hz; rewrite Hz, zlen_nil in Hl; lia).
  destruct (header_turn n h s B Hne Hh) as (b & r & e & evs & m & B1 & Hm & Hm8 & Hu1 & ->).
  set (s1 := skip_bytes m _) in *.
  assert (Es1 : s1 = set_in b (r + m) e evs s) by done.
  assert (Hml : zlen (sub 0 m (unread s)) = m) by (rewrite zlen_sub; lia).
  assert (Hlt : (length (unread s1) < n)%nat).
  { rewrite Hu1, length_drop. unfold zlen in *. lia. }
  cbv zeta. rewrite zlen_app, Hml. destruct (Z.ltb_spec (zlen h + m) FCGI_HEADER_LEN).
  - destruct (IH (h ++ sub 0 m (unread s)) s1 B1) as (b' & r' & e' & evs' & f' & B2 & Hu2 & Hf & E2);
      rewrite ?zlen_app, ?Hml; [lia| |done|].
    { rewrite Hu1, zlen_drop by lia. lia. }
    exists b', r', e', evs', f'. rewrite zlen_app, Hml, Hu1 in E2, Hu2. rewrite drop_drop in Hu2.
    rewrite E2. split; [exact B2|]. split; [|split; [exact Hf|]].
    + etransitivity; [exact Hu2|]. f_equal. lia.
    + replace (FCGI_HEADER_LEN - zlen h) with (m + (FCGI_HEADER_LEN - (zlen h + m))) by lia.
      rewrite sub_split, app_assoc by lia. do 3 f_equal.
  - assert (m = FCGI_HEADER_LEN - zlen h) as -> by lia.
    exists b, (r + (FCGI_HEADER_LEN - zlen h)), e, evs, n. rewrite Es1 in *. done.
Qed.

(** The next record on the connection is [r]. *)
Lemma next_record r w s : between s -> unread s = enc r ++ w ->
  exists b rd e evs fuel', let s1 := set_in b rd e evs s in
    between s1 /\ unread s1 = r_content r ++ r_pad r ++ w /\ (length (unread s1) < fuel')%nat /\
    FillBuff_body s =
      flow_then (fill_dispatch (header_of (r_type r) (r_id r) (zlen (r_content r)) (zlen (r_pad r))))
                (FillBuff_loop fuel' []) (ret tt) s1.
Proof.
  intros B Hu. pose proof (bw_layout s B) as L. pose proof (unread_len s L). pose proof (rl_ptr s L).
  pose proof (zlen_nonneg (rx_bytes (rx (conn s)))).
  rewrite enc_split in Hu. set (h := header_of _ _ _ _) in *.
  assert (Hh : sub 0 FCGI_HEADER_LEN (unread s) = header_bytes h).
  { rewrite Hu. change FCGI_HEADER_LEN with (zlen (header_bytes h)).
    rewrite sub_app_l by lia. apply sub_full. }
  destruct (gather_header (rd_fuel s) [] s B) as (b & rd & e & evs & f' & B1 & Hu1 & Hf & E).
  - rewrite zlen_nil. unfold FCGI_HEADER_LEN. lia.
  - rewrite Hu, zlen_app, zlen_header_bytes, zlen_nil. pose proof (zlen_nonneg (r_content r ++ r_pad r ++ w)).
    unfold FCGI_HEADER_LEN. lia.
  - unfold rd_fuel, zlen in *. lia.
  - change (FCGI_HEADER_LEN - zlen []) with FCGI_HEADER_LEN in E, Hu1.
    rewrite Hh, app_nil_l, bytes_header_bytes in E.
    exists b, rd, e, evs, f'. split; [done|]. split; [|done].
    rewrite Hu1, Hu, drop_app_ge by (cbn; unfold FCGI_HEADER_LEN; lia). done.
Qed.
End Gather.

(** ** [BEGIN_REQUEST] *)

(** The request after [ProcessBeginRecord] accepted the body [bs]. *)
Definition begun_req (id : Z) (bs : list Z) (rq : ReqData) : ReqData :=
  let body := bytes_begin_body bs in
  rq <| requestId := id |>
     <| keepConnection := negb (Z.land (flags_ body) FCGI_KEEP_CONN =? 0) |>
     <| role := Z.shiftl (roleB1 body) 8 + roleB0 body |>
     <| isBeginProcessed := true |>.

Section Begin.
Context {uninit : Uninit}.

Lemma body_start s c p rest n : between s -> unread s = c ++ p ++ rest -> rest <> [] ->
  zlen c = n ->
  let s1 := with_lens n (zlen p) (entering s) in
  @src_content nested_procs (body_source (req s) (tx (conn s)) p rest) s1 c.
Proof.
  intros [] Hu Hr <-. exists c. split.
  - split; [cbn; destruct bw_layout0; lia|]. split; [cbn; destruct bw_layout0; lia|].
    split; try done. by destruct bw_layout0.
  - unfold frag. cbn. by rewrite Z.sub_diag.
Qed.

Lemma body_at_ids rq tx0 p rest id s X : body_at rq tx0 p rest s X ->
  body_at (rq <| requestId := id |>) tx0 p rest (s <| req := (req s) <| requestId := id |> |>) X.
Proof.
  intros (? & ? & [L ? Hrq]). split; [done|]. split; [done|]. split; try done; [by destruct L|].
  by rewrite <- Hrq.
Qed.

(** The body of a first [BEGIN_REQUEST]. *)
Lemma ProcessBeginRecord_begin rq tx0 p rest id bs s :
  @src_content nested_procs (body_source rq tx0 p rest) s bs -> zlen bs = 8 -> id <> 0 ->
  isBeginProcessed rq = false -> contentLen (data (strm s)) = 8 ->
  exists s', @ProcessBeginRecord nested_procs id s = Ok (BEGIN_RECORD, s') /\
    rd_layout s' /\ rdNext (strm s') = stop (strm s') /\ eorStop (data (strm s')) = true /\
    skip (data (strm s')) = false /\ contentLen (data (strm s')) = 0 /\
    paddingLen (data (strm s')) = zlen p /\ tx (conn s') = tx0 /\ unread s' = p ++ rest /\
    req s' = begun_req id bs rq.
Proof.
  intros (Y & HY & HX) Hl Hid Hb Hc. cbn [src_at body_source] in HY.
  assert (Hrq : req s = rq) by apply HY.
  unfold ProcessBeginRecord, bind at 1, get at 1. rewrite (proj2 (Z.eqb_neq _ _) Hid), Hc, Hrq, Hb.
  cbn [Z.eqb Pos.eqb negb orb]. erewrite bind_Ok by reflexivity.
  set (s0 := s <| req := (req s) <| requestId := id |> |>).
  destruct (@FCGX_GetStr_spec nested_procs (body_source (rq <| requestId := id |>) tx0 p rest) 8 s0 bs)
    as (s1 & E & Ha); [|done|].
  { exists Y. split; [by apply body_at_ids|done]. }
  erewrite bind_Ok by exact E. rewrite sub_all by lia. rewrite Hl. cbn [Z.eqb Pos.eqb negb].
  unfold src_after in Ha. rewrite Hl in Ha. cbn [Z.leb Z.compare Pos.compare Pos.compare_cont] in Ha.
  rewrite drop_ge in Ha by (unfold zlen in Hl; lia).
  destruct Ha as (Y1 & HY1 & Hn). symmetry in Hn. apply app_nil in Hn as [Hf ->].
  pose proof (proj1 (@frag_nil_iff nested_procs (body_source (rq <| requestId := id |>) tx0 p rest) s1 [] HY1) Hf) as Hp.
  destruct HY1 as (Hr1 & Hs1 & I). rewrite set_ptrs_id in I by done. destruct I as [L1 ? Hrq1].
  eexists. split; [unfold bind, upd_req, modify, ret; reflexivity|].
  cbn. split_and!; try done; [by destruct L1|]. by rewrite Hrq1.
Qed.

(** The first record of a connection begins a request. *)
Lemma FillBuffProc_begin r w s : between s -> isBeginProcessed (req s) = false ->
  unread s = enc r ++ w -> w <> [] -> rec_ok r -> r_type r = FCGI_BEGIN_REQUEST -> r_id r <> 0 ->
  zlen (r_content r) = 8 ->
  exists s', FillBuffProc s = Ok (tt, s') /\ rd_layout s' /\ rdNext (strm s') = stop (strm s') /\
    isClosed (strm s') = false /\ eorStop (data (strm s')) = false /\
    skip (data (strm s')) = false /\ contentLen (data (strm s')) = 0 /\
    paddingLen (data (strm s')) = zlen (r_pad r) /\ tx (conn s') = tx (conn s) /\
    unread s' = r_pad r ++ w /\ req s' = begun_req (r_id r) (r_content r) (req s).
Proof.
  intros B Hb Hu Hw Hok Ht Hid Hl. pose proof (header_fields r Hok) as (Hv & Hty & Hri & Hcl & Hp).
  destruct (@next_record nested_procs uninit r w s B Hu) as (b & rd & e & evs & f' & B1 & Hu1 & _ & E).
  set (s1 := set_in b rd e evs s) in *. change (FillBuffProc s) with (@FillBuff_body nested_procs uninit s).
  rewrite E. pose proof (body_start s1 _ _ _ 8 B1 Hu1 Hw Hl) as Hc. cbv zeta in Hc.
  destruct (ProcessBeginRecord_begin _ _ _ _ (r_id r) _ _ Hc Hl Hid Hb eq_refl)
    as (s2 & E2 & L2 & Hp2 & He2 & Hsk2 & Hc2 & Hpd2 & Htx2 & Hu2 & Hrq2).
  unfold flow_then. erewrite bind_Ok.
  2:{ rewrite (fill_dispatch_eq _ _ BEGIN_RECORD s2); [reflexivity|]. unfold ProcessHeader.
      rewrite Hv, Hty, Hri, Hcl, Hp, Ht, Hl. exact E2. }
  eexists. split; [reflexivity|]. cbn. split_and!; try done. by destruct L2.
Qed.
End Begin.

(** ** Management records *)

(** What [ProcessManagementRecord] says of the variables asked for. *)
Definition value_answer (nv : list Z * list Z) : list Z :=
  match mgmt_value (fst nv) with
  | Some v => nv_enc (fst nv, [v])
  | None => []
  end.

Definition values_answer (ps : list (list Z * list Z)) : list Z := concat (map value_answer ps).

(** A name that [strchr] and [strcmp] see as a whole. *)
Definition plain_name (nv : list Z * list Z) : Prop := 61 ∉ fst nv /\ 0 ∉ fst nv.

Lemma mgmt_value_len name v : mgmt_value name = Some v -> zlen name < 16.
Proof. unfold mgmt_value. by repeat (case_bool_decide; [subst; intros; done|]). Qed.

Lemma before_eq_plain n v : 61 ∉ n -> 0 ∉ n -> before_eq (c_string (nv_string (n, v))) = Some n.
Proof.
  unfold nv_string. cbn [fst snd]. induction n as [|b n IH]; intros H1 H2; [done|].
  apply not_elem_of_cons in H1 as [? ?], H2 as [? ?]. cbn [app c_string].
  rewrite (proj2 (Z.eqb_neq b 0)) by done. cbn [before_eq].
  rewrite (proj2 (Z.eqb_neq b 61)) by done. cbn [app] in IH. by rewrite IH.
Qed.

Lemma values_answer_app ps qs : values_answer (ps ++ qs) = values_answer ps ++ values_answer qs.
Proof. unfold values_answer. by rewrite map_app, concat_app. Qed.

Lemma value_answer_enc n v : mgmt_value n = Some v ->
  value_answer (n, snd (n, [v])) = uchar (zlen n) :: 1 :: n ++ [v].
Proof.
  intros E. unfold value_answer. cbn [fst snd]. rewrite E. unfold nv_enc, nv_enc_len. cbn [fst snd].
  pose proof (mgmt_value_len n v E). pose proof (zlen_nonneg n). cdecide.
  rewrite uchar_small by (unfold is_byte; lia). done.
Qed.

(** The answers are stored one after the other, each followed by a NUL that the next
    overwrites, as long as they fit in [response]. *)
Lemma answer_values_spec ps : Forall plain_name ps -> forall response p,
  0 <= p -> p + zlen (values_answer ps) + 1 <= zlen response ->
  exists response', answer_values (nv_string <$> ps) response p =
      Ok (response', p + zlen (values_answer ps)) /\
    zlen response' = zlen response /\
    sub 0 (p + zlen (values_answer ps)) response' = sub 0 p response ++ values_answer ps.
Proof.
  induction 1 as [|[n v] ps [Hn1 Hn2] _ IH]; intros response p Hp Hl; cbn [fmap list_fmap answer_values].
  { exists response. cbn. by rewrite !Z.add_0_r, app_nil_r. }
  cbn [fst] in *. rewrite before_eq_plain by done.
  change (values_answer ((n, v) :: ps)) with (value_answer (n, v) ++ values_answer ps) in *.
  destruct (mgmt_value n) as [x|] eqn:E.
  2:{ unfold value_answer in *. cbn [fst] in *. rewrite E in *. by apply IH. }
  pose proof (value_answer_enc n x E) as Ha. change (value_answer (n, snd (n, [x]))) with (value_answer (n, v)) in Ha.
  set (w := uchar (zlen n) :: 1 :: n ++ [x; 0]).
  assert (Hw : w = value_answer (n, v) ++ [0]) by (rewrite Ha; cbn; by rewrite <- app_assoc).
  assert (Hz : zlen (value_answer (n, v)) = zlen n + 3).
  { rewrite Ha, !zlen_cons, zlen_app, zlen_cons, zlen_nil. lia. }
  assert (Hzw : zlen w = zlen n + 4) by (rewrite Hw, zlen_app, Hz, zlen_cons, zlen_nil; lia).
  rewrite zlen_app, Hz in *. pose proof (zlen_nonneg (values_answer ps)). pose proof (zlen_nonneg n).
  fold w. rewrite mem_write_Ok by lia. cbn [rbind].
  destruct (IH (splice p w response) (p + (zlen n + 3))) as (r' & E' & Hr' & Hs'); [lia| |].
  { rewrite zlen_splice by lia. lia. }
  exists r'. rewrite zlen_splice in Hr' by lia. rewrite E', <- !(Z.add_assoc p).
  rewrite <- (Z.add_assoc p) in Hs'. split; [done|]. split; [done|]. rewrite Hs', app_assoc. f_equal.
  rewrite sub_split by lia. f_equal; [by apply sub_splice_before; lia|]. cbn [Z.add].
  replace (zlen n + 3) with (zlen (value_answer (n, v))) by lia.
  transitivity (sub 0 (zlen (value_answer (n, v))) (sub p (zlen w) (splice p w response))).
  - rewrite sub_sub by lia. by rewrite Z.add_0_r.
  - rewrite sub_splice_at by lia. rewrite Hw, sub_app_l by lia. apply sub_full.
Qed.

(** With no name asked for twice the answer always fits. *)
Lemma values_answer_fits ps : NoDup (fst <$> ps) -> zlen (values_answer ps) <= 51.
Proof.
  intros Hnd. set (known := [FCGI_MAX_CONNS; FCGI_MAX_REQS; FCGI_MPXS_CONNS]).
  set (len n := length (value_answer (n, []))).
  assert (Hs : zlen (values_answer ps) = Z.of_nat (sum_list_with len (filter (fun n => n ∈ known) (fst <$> ps)))).
  { clear Hnd. induction ps as [|[n v] ps IH]; [done|].
    change (values_answer ((n, v) :: ps)) with (value_answer (n, v) ++ values_answer ps).
    rewrite zlen_app, IH. cbn [fmap list_fmap fst].
    destruct (decide (n ∈ known)) as [Hk|Hk].
    - rewrite filter_cons_True by done. cbn [sum_list_with].
      unfold len at 2, zlen at 1. change (value_answer (n, v)) with (value_answer (n, [])). lia.
    - rewrite filter_cons_False by done. unfold value_answer. cbn [fst]. unfold mgmt_value.
      rewrite !bool_decide_eq_false_2; [done| | |]; intros ->; apply Hk; unfold known; rewrite !elem_of_cons; tauto. }
  rewrite Hs. transitivity (Z.of_nat (sum_list_with len known)); [|by vm_compute].
  assert (filter (fun n => n ∈ known) (fst <$> ps) ⊆+ known) as [k ->]%submseteq_Permutation.
  { apply NoDup_submseteq; [by apply list.NoDup_filter|]. by intros n [? _]%list_elem_of_filter. }
  rewrite sum_list_with_app. lia.
Qed.

Section Mgmt.
Context {uninit : Uninit}.

(** An unknown management record is answered with [FCGI_UNKNOWN_TYPE]. *)
Lemma ProcessManagementRecord_unknown t s : t <> FCGI_GET_VALUES -> 0 <= ipcFd (req s) ->
  accepts (wr (conn s)) ->
  exists w, accepts w /\ @ProcessManagementRecord nested_procs uninit t s =
    Ok (MGMT_RECORD, s <| conn := (conn s) <| wr := w |> <| tx := tx (conn s) ++
          enc (mkRec FCGI_UNKNOWN_TYPE 0 (unknown_type_body_bytes (MakeUnknownTypeBody t)) []) |> |>).
Proof.
  intros Ht Hfd Ha. unfold ProcessManagementRecord. rewrite (proj2 (Z.eqb_neq _ _) Ht).
  rewrite MakeHeader_Ok by done.
  set (bs := header_bytes (header_of FCGI_UNKNOWN_TYPE FCGI_NULL_REQUEST_ID 8 0)
               ++ unknown_type_body_bytes (MakeUnknownTypeBody t)).
  assert (Hr : zlen response_init = 64) by (unfold zlen; by rewrite response_init_len).
  assert (Hb : zlen bs = 16) by done.
  destruct (write_it_all_Ok s bs Hfd Ha) as (w & Hw & Ew). exists w. split; [done|].
  do 2 (erewrite bind_Ok by reflexivity). erewrite bind_Ok.
  2:{ erewrite bind_Ok by reflexivity. fold bs. rewrite mem_write_Ok by lia. reflexivity. }
  cbv iota beta. rewrite mem_read_Ok by (rewrite ?zlen_splice by lia; unfold FCGI_HEADER_LEN; lia).
  change (FCGI_HEADER_LEN + 8) with (zlen bs). rewrite sub_splice_at by lia.
  erewrite bind_Ok by reflexivity. erewrite bind_Ok by exact Ew. reflexivity.
Qed.

(** [FCGI_GET_VALUES]: the reply carries the values of the known variables asked for. *)
Lemma ProcessManagementRecord_values rq tx0 p rest ps s :
  @src_content nested_procs (body_source rq tx0 p rest) s (nv_encode ps) ->
  Forall nv_fits ps -> Forall plain_name ps -> NoDup (fst <$> ps) ->
  Forall is_byte (nv_encode ps) -> zlen (nv_encode ps) <= FCGI_MAX_LENGTH ->
  exists s' pad, @ProcessManagementRecord nested_procs uninit FCGI_GET_VALUES s = Ok (MGMT_RECORD, s') /\
    zlen pad <= 7 /\
    tx (conn s') = tx0 ++ enc (mkRec FCGI_GET_VALUES_RESULT 0 (values_answer ps) pad) /\
    unread s' = rest /\ req s' = rq.
Proof.
  intros Hc Hf Hpl Hnd Hby Hlen. destruct (NewParams_hold 3 ltac:(lia)) as (p0 & E0 & H0).
  unfold ProcessManagementRecord. rewrite E0. unfold bind at 1, lift at 1.
  rewrite (bind_Ok get _ s s s) by done. rewrite Z.eqb_refl.
  assert (Hfuel : (length (nv_encode ps) < rd_fuel s)%nat).
  { destruct Hc as (Y & (Hr & Hs & I) & Hx). pose proof (ib_unread I) as Hu.
    pose proof (rl_ptr _ (ib_layout I)). pose proof (rl_stop _ (ib_layout I)).
    pose proof (unread_len _ (ib_layout I)) as Hul. cbn in Hul, H, H1.
    rewrite Hx, length_app. unfold rd_fuel. apply (f_equal zlen) in Hu.
    rewrite Hul, !zlen_app in Hu. pose proof (zlen_nonneg p). pose proof (zlen_nonneg rest).
    assert (zlen (frag s) = stop (strm s) - rdNext (strm s)) by
      (unfold frag; rewrite zlen_sub; [done|cbn in *; lia..]).
    unfold zlen in *. lia. }
  pose proof (@ReadParams_spec nested_procs (body_source rq tx0 p rest) (rd_fuel s) s _ p0 [] Hc Hby H0) as Hrd.
  rewrite zlen_nil in Hrd. unfold FCGI_MAX_LENGTH in Hlen. specialize (Hrd ltac:(lia) Hfuel).
  rewrite nv_parse_encode in Hrd by (done || lia). destruct Hrd as (p1 & s1 & E1 & Hp1 & Hend).
  cbn [src_end body_source] in Hend. destruct Hend as [L ? Hrq ? Hcl ? Htx Hu].
  unfold bind at 1. unfold bind at 1. rewrite E1. cbn [snd].
  unfold bind at 1, FCGX_GetError at 1, bind at 1, get at 1, ret at 1. rewrite (rl_errno s1 L).
  unfold bind at 1, get at 1. rewrite Hcl. cbn [Z.eqb negb orb].
  rewrite (params_hold_strings p1 _ Hp1), app_nil_l.
  pose proof (values_answer_fits ps Hnd) as Hfit. pose proof (zlen_nonneg (values_answer ps)).
  assert (Hri : zlen response_init = 64) by (unfold zlen; by rewrite response_init_len).
  destruct (answer_values_spec ps Hpl response_init 8) as (r1 & E2 & Hr1 & Hs1); [lia..|].
  unfold FCGI_HEADER_LEN. unfold bind at 1, lift at 1. rewrite E2.
  replace (8 + zlen (values_answer ps) - 8) with (zlen (values_answer ps)) by lia.
  set (n := zlen (values_answer ps)) in *.
  destruct (AlignInt8_bounds n) as [Ha Hm]; [unfold INT_MAX; lia|].
  assert (Ha2 : AlignInt8 n <= 56) by (apply Z.mod_divide in Hm as [k Hk]; lia).
  rewrite MakeHeader_Ok by (unfold FCGI_MAX_LENGTH; lia). set (h := header_of _ _ _ _).
  unfold bind at 1, lift at 1. rewrite mem_write_Ok by (rewrite ?zlen_header_bytes; lia).
  unfold bind at 1, lift at 1. unfold ret at 1.
  set (r2 := splice 0 (header_bytes h) r1).
  assert (Hr2 : zlen r2 = 64) by (unfold r2; rewrite zlen_splice; rewrite ?zlen_header_bytes; lia).
  unfold bind at 1, lift at 1. rewrite mem_read_Ok by lia.
  set (bs := sub 0 (8 + AlignInt8 n) r2).
  destruct (write_it_all_Ok s1 bs (rl_fd s1 L) (rl_accepts s1 L)) as (w & Hw & Ew).
  unfold bind at 1. rewrite Ew. eexists _, (sub (8 + n) (AlignInt8 n - n) r2).
  split; [reflexivity|]. split; [rewrite zlen_sub; lia|].
  split; [|by cbn; rewrite <- ?Hu].
  cbn -[AlignInt8 sub splice header_bytes enc]. rewrite Htx. f_equal.
  unfold enc. cbn [r_content r_pad r_type r_id]. rewrite zlen_sub by lia. fold n h. unfold bs.
  replace (8 + AlignInt8 n) with (zlen (header_bytes h) + (n + (AlignInt8 n - n)))
    by (rewrite zlen_header_bytes; lia).
  rewrite sub_split by (rewrite ?zlen_header_bytes; lia). unfold r2 at 1.
  rewrite sub_splice_at by lia. f_equal. rewrite sub_split by (rewrite ?zlen_header_bytes; lia).
  rewrite zlen_header_bytes. cbn [Z.add]. f_equal. unfold r2.
  rewrite sub_splice_after by (rewrite ?zlen_header_bytes; lia).
  pose proof (sub_split 0 8 n r1 ltac:(lia) ltac:(lia) ltac:(lia)) as Hsp. rewrite Hs1 in Hsp.
  apply app_inj_1 in Hsp as [_ Hsp]; [done|].
  unfold sub, zlen in *. rewrite !length_take, !length_drop. lia.
Qed.
End Mgmt.

(** ** Headers and connections that are refused *)

(** A stream that was closed by an error. *)
Definition refused (e : Z) (s : SS) : Prop :=
  isClosed (strm s) = true /\ FCGI_errno (strm s) = e.

Section Refuse.
Context {procs : StreamProcs} {uninit : Uninit}.

(** A status that is an error ends the call with that error. *)
Lemma switch_error st s : st < 0 -> FCGI_errno (strm s) = 0 ->
  exists s', fill_switch st s = Ok (Return, s') /\ refused st s' /\ tx (conn s') = tx (conn s).
Proof.
  intros Hst He. unfold fill_switch, STREAM_RECORD, SKIP, BEGIN_RECORD, MGMT_RECORD.
  erewrite bind_Ok by reflexivity. cdecide. cbv iota beta zeta. unfold c_assert.
  eexists. split; [unfold bind, ret, SetError, upd_strm, modify; reflexivity|].
  cbn. rewrite He. done.
Qed.

Lemma dispatch_error h s st s2 : rd_layout s -> ProcessHeader h (entering s) = Ok (st, s2) -> st < 0 ->
  FCGI_errno (strm s2) = 0 -> forall turn,
  exists s', flow_then (fill_dispatch h) turn (ret tt) s = Ok (tt, s') /\ refused st s' /\
             tx (conn s') = tx (conn s2).
Proof.
  intros L E Hst He turn. destruct (switch_error st (leaving s2) Hst He) as (s' & Es & Hr & Ht).
  exists s'. split; [|done]. unfold flow_then. erewrite bind_Ok; [|by rewrite (fill_dispatch_eq _ _ _ _ E)].
  done.
Qed.

(** A header of another version of the protocol. *)
Lemma FillBuff_version bs w s : between s -> unread s = bs ++ w -> zlen bs = FCGI_HEADER_LEN ->
  nth 0 bs 0 <> FCGI_VERSION_1 ->
  exists s', FillBuff_body s = Ok (tt, s') /\ refused FCGX_UNSUPPORTED_VERSION s' /\
             tx (conn s') = tx (conn s).
Proof.
  intros B Hu Hl Hv. pose proof (bw_layout s B) as L.
  pose proof (unread_len s L). pose proof (rl_ptr s L). pose proof (zlen_nonneg w).
  destruct (gather_header (rd_fuel s) [] s B) as (b & rd & e & evs & f' & B1 & Hu1 & Hf & E).
  { done. } { rewrite Hu, zlen_app, zlen_nil. lia. } { unfold rd_fuel, zlen in *. lia. }
  unfold FillBuff_body, bind at 1, get at 1. rewrite E.
  change (FCGI_HEADER_LEN - zlen []) with FCGI_HEADER_LEN.
  rewrite Hu, app_nil_l, <- Hl, sub_app_l, sub_full by lia.
  destruct (dispatch_error (bytes_header bs) (set_in b rd e evs s) FCGX_UNSUPPORTED_VERSION
              (entering (set_in b rd e evs s))) with (turn := FillBuff_loop f' []) as (s' & E' & Hr & Ht);
    [apply B1| |done|apply L|by exists s'].
  unfold ProcessHeader. rewrite <- (header_bytes_header bs) in Hv by (unfold zlen, FCGI_HEADER_LEN in Hl; lia).
  cbn in Hv. by rewrite (proj2 (Z.eqb_neq _ _) Hv).
Qed.

(** A record of this request that is not of the type being read. *)
Lemma FillBuff_wrong_type r w s : between s -> unread s = enc r ++ w -> rec_ok r ->
  r_type r <> FCGI_BEGIN_REQUEST -> r_id r <> 0 -> r_id r = requestId (req s) ->
  r_type r <> stype (data (strm s)) ->
  exists s', FillBuff_body s = Ok (tt, s') /\ refused FCGX_PROTOCOL_ERROR s' /\
             tx (conn s') = tx (conn s).
Proof.
  intros B Hu Hok Hb Hid Hrq Hty. pose proof (header_fields r Hok) as (Hv & Ht & Hri & Hcl & Hp).
  destruct (next_record r w s B Hu) as (b & rd & e & evs & f' & B1 & Hu1 & _ & ->).
  set (s1 := set_in b rd e evs s) in *. set (h := header_of _ _ _ _) in *.
  destruct (dispatch_error h s1 FCGX_PROTOCOL_ERROR
              (with_lens (zlen (r_content r)) (zlen (r_pad r)) (entering s1)))
    with (turn := FillBuff_loop f' []) as (s' & E' & Hr & Htx); [apply B1| |done|by destruct B1 as [[]]|by exists s'].
  unfold ProcessHeader. rewrite Hv, Ht, Hri, Hcl, Hp. cbn [Z.eqb Pos.eqb negb FCGI_VERSION_1].
  do 2 (erewrite (bind_Ok (upd_data _)) by reflexivity).
  set (s2 := with_lens _ _ _). rewrite (bind_Ok get _ _ s2 s2) by done.
  change (req s2) with (req s). change (stype (data (strm s2))) with (stype (data (strm s))).
  rewrite (proj2 (Z.eqb_neq _ _) Hb), (proj2 (Z.eqb_neq (r_id r) FCGI_NULL_REQUEST_ID)) by done.
  by rewrite (proj2 (Z.eqb_eq _ _) Hrq), (proj2 (Z.eqb_neq _ _) Hty).
Qed.

Lemma delivers_nil evs : delivers evs -> rx_bytes evs = [] -> evs = [].
Proof.
  intros Hd Hz. destruct evs as [|[bs|] evs]; [done|..]; inversion_clear Hd; [|done].
  apply app_nil in Hz as [-> _]. done.
Qed.

(** The peer closes the connection between two records, or inside a header. *)
Lemma FillBuff_loop_eof fuel : forall h s, between s -> zlen h + zlen (unread s) < FCGI_HEADER_LEN ->
  (length (unread s) < fuel)%nat ->
  exists s', FillBuff_loop fuel h s = Ok (tt, s') /\ refused FCGX_PROTOCOL_ERROR s' /\
             tx (conn s') = tx (conn s).
Proof.
  induction fuel as [|n IH]; intros h s B Hl Hn; [lia|].
  destruct (decide (unread s = [])) as [Hu|Hne].
  - pose proof (bw_layout s B) as L. pose proof (rl_ptr s L). pose proof (rl_stop s L).
    apply app_nil in Hu as [Hb Hx]. apply (f_equal zlen) in Hb. rewrite zlen_sub, zlen_nil in Hb by lia.
    apply delivers_nil in Hx; [|apply L]. cbn [FillBuff_loop]. unfold flow_then at 1, fill_read.
    unfold bind at 1, bind at 1, get at 1. rewrite (proj2 (Z.eqb_eq _ _)) by lia. cbn [negb].
    unfold OS_Read, bind, get. pose proof (rl_fd s L). cdecide. rewrite Hx.
    eexists. split; [reflexivity|]. cbn. by rewrite (rl_errno s L).
  - pose proof (zlen_nonneg h). pose proof (zlen_pos _ Hne).
    destruct (header_turn n h s B Hne ltac:(lia)) as (b & r & e & evs & m & B1 & Hm & Hm8 & Hu1 & ->).
    assert (Hml : zlen (sub 0 m (unread s)) = m) by (rewrite zlen_sub; lia).
    cbv zeta. rewrite zlen_app, Hml. cdecide. change (tx (conn s)) with (tx (conn (skip_bytes m (set_in b r e evs s)))).
    apply IH; [done|rewrite zlen_app, Hml, Hu1, zlen_drop; lia|].
    rewrite Hu1, length_drop. unfold zlen in *. lia.
Qed.

Lemma FillBuff_eof s : between s -> zlen (unread s) < FCGI_HEADER_LEN ->
  exists s', FillBuff_body s = Ok (tt, s') /\ refused FCGX_PROTOCOL_ERROR s' /\
             tx (conn s') = tx (conn s).
Proof.
  intros B Hl. pose proof (bw_layout s B) as L. pose proof (unread_len s L). pose proof (rl_ptr s L).
  apply FillBuff_loop_eof; [done|rewrite zlen_nil; lia|]. unfold rd_fuel, zlen in *. lia.
Qed.
End Refuse.
