(* ===== verification/OsAccept.v ===== *)
(** * Connections: the listening side of os_unix.c

    Socket addresses, the accept loop with its lock, its shutdown flag and its list of allowed
    clients, and the connect of the bridge ([libfcgi/os_unix.c]).  The resolver, the kernel's
    answers to [socket], [bind], [accept], [fcntl] and [select] are parameters or scripts. *)

From S2P Require Import Prelude FcgiProto FcgiStream.

(** ** Strings *)

(** [strchr] with the character found overwritten by NUL: the part before it and, when it was
    found, the part behind it. *)
Fixpoint cut_at (c : Z) (s : list Z) : list Z * option (list Z) :=
  match s with
  | [] => ([], None)
  | x :: s =>
      if x =? c then ([], Some s)
      else let '(a, b) := cut_at c s in (x :: a, b)
  end.

Definition is_space (c : Z) : bool := (c =? 32) || ((9 <=? c) && (c <=? 13)).
Definition is_digit (c : Z) : bool := (48 <=? c) && (c <=? 57).

Fixpoint atoi_digits (acc : Z) (s : list Z) : Z :=
  match s with
  | c :: s => if is_digit c then atoi_digits (acc * 10 + (c - 48)) s else acc
  | [] => acc
  end.

(** [atoi]: white space, a sign, digits; the value is not reduced to an [int]. *)
Fixpoint atoi (s : list Z) : Z :=
  match s with
  | c :: s' =>
      if is_space c then atoi s'
      else if c =? 45 then - atoi_digits 0 s'
      else if c =? 43 then atoi_digits 0 s'
      else atoi_digits 0 s
  | [] => 0
  end.

(** ** Socket addresses *)

(** [atoi] as an [int]: the [long] of [strtol], which saturates, is truncated. *)
Definition int_atoi (s : list Z) : Z := to_int (Z.max (- 2 ^ 63) (Z.min (2 ^ 63 - 1) (atoi s))).

Definition MAXPATHLEN : Z := 1024.
Definition SUN_PATH_LEN : Z := 108.
Definition AF_UNIX : Z := 1.
Definition AF_INET : Z := 2.
Definition INADDR_NONE : Z := 4294967295.
Definition INADDR_ANY : Z := 0.

(** [host] and [port] as both [OS_CreateLocalIpcFd] and [OS_FcgiConnect] find them in the
    name: a port of zero means that the whole name is a path. *)
Definition parse_addr (bindPath : list Z) : list Z * Z :=
  match cut_at 58 bindPath with
  | (h, Some p) =>
      let port := to_short (int_atoi p) in
      if port =? 0 then (bindPath, 0) else (h, port)
  | (_, None) => (bindPath, 0)
  end.

Inductive sockaddr :=
  | SaUnix (path : list Z)
  | SaInet (ip port : Z).

(** A call that returns a value or ends the process. *)
Inductive outcome (A : Type) :=
  | Ret (a : A)
  | Exit (code : Z).
Arguments Ret {A} a.
Arguments Exit {A} code.

Definition OS_BuildSockAddrUn (bindPath : list Z) : option sockaddr :=
  if SUN_PATH_LEN <? zlen bindPath then None else Some (SaUnix bindPath).

Section Sockets.
(** The resolver and the kernel. *)
Variable inet_addr : list Z -> Z.
(** The address family of a host and its addresses. *)
Variable gethostbyname : list Z -> option (Z * list Z).
Variable sys_socket : Z -> Z.
Variable sys_setsockopt : Z -> Z.
Variable sys_bind_listen : Z -> sockaddr -> Z -> bool.
Variable sys_connect : Z -> sockaddr -> bool.
Variable sys_errno : Z.

Definition OS_CreateLocalIpcFd (bindPath : list Z) (backlog : Z) : outcome Z :=
  if MAXPATHLEN <=? zlen bindPath then Exit 1 else
  let '(host, port) := parse_addr bindPath in
  let ip :=
    if port =? 0 then Ret 0 else
    if bool_decide (host = []) || bool_decide (host = [42]) then Ret INADDR_ANY else
    let a := inet_addr host in
    if a =? INADDR_NONE then
      match gethostbyname host with
      | Some (family, a :: more) =>
          if negb (family =? AF_INET) then Exit 1
          else match more with [] => Ret a | _ => Exit 1 end
      | _ => Exit 1
      end
    else Ret a in
  match ip with
  | Exit c => Exit c
  | Ret tcp_ia =>
    let listenSock := sys_socket (if port =? 0 then AF_UNIX else AF_INET) in
    if negb (port =? 0) && (0 <=? listenSock) && (sys_setsockopt listenSock <? 0) then Exit 1001 else
    if listenSock <? 0 then Ret (-1) else
    let sa := if port =? 0 then OS_BuildSockAddrUn bindPath
              else Some (SaInet tcp_ia (port mod 65536)) in
    match sa with
    | None => Exit 1000
    | Some sa => if sys_bind_listen listenSock sa backlog then Ret listenSock else Exit sys_errno
    end
  end.

Definition OS_FcgiConnect (bindPath : list Z) : res (outcome Z) :=
  if MAXPATHLEN <=? zlen bindPath then Ok (Exit 1) else
  let '(host, port) := parse_addr bindPath in
  let target :=
    if port =? 0 then
      match OS_BuildSockAddrUn bindPath with
      | None => Exit 1000
      | Some sa => Ret (sa, sys_socket AF_UNIX)
      end
    else
      match gethostbyname (if bool_decide (host = []) then
                             [108; 111; 99; 97; 108; 104; 111; 115; 116] else host) with
      | Some (_, a :: _) => Ret (SaInet a (port mod 65536), sys_socket AF_INET)
      | _ => Exit 1000
      end in
  match target with
  | Exit c => Ok (Exit c)
  | Ret (sa, resultSock) =>
      if resultSock <? 0 then Crash AssertFail else
      if sys_connect resultSock sa then Ok (Ret resultSock) else Ok (Ret (-1))
  end.
End Sockets.

(** ** The accept loop *)

(** A connection that [accept] returned: its descriptor, the address of the peer, whether it
    is readable within [READABLE_UNIX_FD_DROP_DEAD_TIMEVAL], and what will happen on it. *)
Record peer := mkPeer {
  p_fd : Z;
  p_family : Z;
  p_addr : Z;
  p_readable : bool;
  p_conn : Conn }.

Inductive acc_result :=
  | AccConn (p : peer)
  | AccErr (errno : Z).

(** The answer to one call of [accept], or of [fcntl] on the lock ([None] for success), and
    whether SIGUSR1 arrived during it. *)
Record acc_event := mkAcc {
  ev_result : acc_result;
  ev_signal : bool }.

Record lock_event := mkLock {
  lk_error : option Z;
  lk_signal : bool }.

Record Os := mkOs {
  shutdownPending : bool;
  acc_script : list acc_event;
  lock_script : list lock_event;
  lock_held : bool;
  closed : list Z;
  errno_ : Z }.

#[export] Instance set_shutdownPending : Setter shutdownPending := fun g r =>
  mkOs (g (shutdownPending r)) (acc_script r) (lock_script r) (lock_held r) (closed r) (errno_ r).
#[export] Instance set_acc_script : Setter acc_script := fun g r =>
  mkOs (shutdownPending r) (g (acc_script r)) (lock_script r) (lock_held r) (closed r) (errno_ r).
#[export] Instance set_lock_script : Setter lock_script := fun g r =>
  mkOs (shutdownPending r) (acc_script r) (g (lock_script r)) (lock_held r) (closed r) (errno_ r).
#[export] Instance set_lock_held : Setter lock_held := fun g r =>
  mkOs (shutdownPending r) (acc_script r) (lock_script r) (g (lock_held r)) (closed r) (errno_ r).
#[export] Instance set_closed : Setter closed := fun g r =>
  mkOs (shutdownPending r) (acc_script r) (lock_script r) (lock_held r) (g (closed r)) (errno_ r).
#[export] Instance set_errno_ : Setter errno_ := fun g r =>
  mkOs (shutdownPending r) (acc_script r) (lock_script r) (lock_held r) (closed r) (g (errno_ r)).

(** errno values. *)
Definition EINTR : Z := 4.
Definition EPROTO : Z := 71.
Definition ECONNABORTED : Z := 103.
Definition ECONNRESET : Z := 104.
Definition ETIMEDOUT : Z := 110.
Definition EHOSTUNREACH : Z := 113.
Definition ENETUNREACH : Z := 101.

Definition OS_ShutdownPending : M Os unit := modify (fun s => s <| shutdownPending := true |>).

(** SIGUSR1 arrives: [OS_Sigusr1Handler]. *)
Definition OS_Sigusr1Handler (arrives : bool) : M Os unit :=
  if arrives then OS_ShutdownPending else ret tt.

(** [accept]; past its script the listening socket is gone. *)
Definition sys_accept : M Os (option peer) :=
  s <- get ;;
  match acc_script s with
  | [] => modify (fun s => s <| errno_ := EBADF |>) ;;; ret None
  | ev :: rest =>
      modify (fun s => s <| acc_script := rest |>) ;;;
      OS_Sigusr1Handler (ev_signal ev) ;;;
      match ev_result ev with
      | AccConn p => ret (Some p)
      | AccErr e => modify (fun s => s <| errno_ := e |>) ;;; ret None
      end
  end.

(** [fcntl(sock, F_SETLKW / F_SETLK, &lock)]: whether it succeeded. *)
Definition sys_fcntl (hold : bool) : M Os bool :=
  s <- get ;;
  match lock_script s with
  | [] => modify (fun s => s <| lock_held := hold |>) ;;; ret true
  | ev :: rest =>
      modify (fun s => s <| lock_script := rest |>) ;;;
      OS_Sigusr1Handler (lk_signal ev) ;;;
      match lk_error ev with
      | None => modify (fun s => s <| lock_held := hold |>) ;;; ret true
      | Some e => modify (fun s => s <| errno_ := e |>) ;;; ret false
      end
  end.

Definition sys_close (fd : Z) : M Os unit := modify (fun s => s <| closed := closed s ++ [fd] |>).

Definition is_reasonable_accept_errno (error : Z) : bool :=
  (error =? EPROTO) || (error =? ECONNABORTED) || (error =? ECONNRESET) ||
  (error =? ETIMEDOUT) || (error =? EHOSTUNREACH) || (error =? ENETUNREACH).

Definition is_af_unix_keeper (p : peer) : bool := p_readable p.

Section Accept.
Variable inet_addr : list Z -> Z.
(** [USE_LOCKING]. *)
Variable use_locking : bool.

(** One turn per name in the list. *)
Fixpoint ClientAddr_loop (fuel : nat) (addr : Z) (cur : list Z) : res bool :=
  match fuel with
  | O => NoFuel
  | S fuel =>
      let '(name, next) := cut_at 44 cur in
      if inet_addr name =? addr then Ok true
      else match next with
           | None => Ok false
           | Some cur => ClientAddr_loop fuel addr cur
           end
  end.

Definition ClientAddrOK (addr : Z) (clientList : option (list Z)) : res bool :=
  match clientList with
  | None | Some [] => Ok true
  | Some l => ClientAddr_loop (S (length l)) addr l
  end.

(** The result says whether the lock was taken. *)
Fixpoint lock_loop (fuel : nat) (fail_on_intr : bool) : M Os bool :=
  match fuel with
  | O => nofuel
  | S fuel =>
      ok <- sys_fcntl true ;;
      if ok : bool then ret true else
      s <- get ;;
      if (errno_ s =? EINTR) && negb fail_on_intr && negb (shutdownPending s)
      then lock_loop fuel fail_on_intr else ret false
  end.

Definition AcquireLock (fail_on_intr : bool) : M Os bool :=
  if use_locking then s <- get ;; lock_loop (S (length (lock_script s))) fail_on_intr
  else ret true.

Fixpoint unlock_loop (fuel : nat) : M Os bool :=
  match fuel with
  | O => nofuel
  | S fuel =>
      ok <- sys_fcntl false ;;
      if ok : bool then ret true else
      s <- get ;;
      if errno_ s =? EINTR then unlock_loop fuel else ret false
  end.

Definition ReleaseLock : M Os bool :=
  if use_locking then s <- get ;; unlock_loop (S (length (lock_script s))) else ret true.

(** The [do ... while] around [accept].  [cur] is the variable [socket] with the address in
    [sa]: [None] when it is negative. *)
Fixpoint accept_call (fuel : nat) (fail_on_intr : bool) (cur : option peer) : M Os (option peer) :=
  match fuel with
  | O => nofuel
  | S fuel =>
      s <- get ;;
      if shutdownPending s then ret cur else
      cur <- sys_accept ;;
      s <- get ;;
      if negb (bool_decide (is_Some cur)) && (errno_ s =? EINTR) && negb fail_on_intr
           && negb (shutdownPending s)
      then accept_call fuel fail_on_intr cur else ret cur
  end.

(** The inner [for (;;)]: a connection of an allowed client, or [None] for "return -1". *)
Fixpoint accept_approved (fuel : nat) (fail_on_intr : bool) (addrs : option (list Z))
    (cur : option peer) : M Os (option peer) :=
  match fuel with
  | O => nofuel
  | S fuel =>
      s <- get ;;
      cur <- accept_call (S (length (acc_script s))) fail_on_intr cur ;;
      s <- get ;;
      match cur with
      | None =>
          if shutdownPending s || negb (is_reasonable_accept_errno (errno_ s)) then
            ReleaseLock ;;;
            s' <- get ;;
            (if negb (shutdownPending s')
             then modify (fun t => t <| errno_ := errno_ s |>) else ret tt) ;;;
            ret None
          else
            modify (fun t => t <| errno_ := 0 |>) ;;;
            accept_approved fuel fail_on_intr addrs None
      | Some p =>
          if negb (p_family p =? AF_INET) then ret (Some p) else
          ok <- lift (ClientAddrOK (p_addr p) addrs) ;;
          if ok : bool then ret (Some p) else
          sys_close (p_fd p) ;;;
          accept_approved fuel fail_on_intr addrs (Some p)
      end
  end.

(** The outer loop; it can turn for ever ([OS_Accept_hangs]), so it runs on the fuel given. *)
Fixpoint accept_loop (fuel : nat) (fail_on_intr : bool) (addrs : option (list Z))
    (cur : option peer) : M Os (option peer) :=
  match fuel with
  | O => nofuel
  | S fuel' =>
      locked <- AcquireLock fail_on_intr ;;
      if negb locked then ret None else
      cur <- accept_approved fuel fail_on_intr addrs cur ;;
      match cur with
      | None => ret None
      | Some p =>
          released <- ReleaseLock ;;
          if negb released then ret None else
          if negb (p_family p =? AF_UNIX) || is_af_unix_keeper p then ret (Some p) else
          sys_close (p_fd p) ;;;
          accept_loop fuel' fail_on_intr addrs (Some p)
      end
  end.

Definition OS_Accept (fuel : nat) (fail_on_intr : bool) (webServerAddrs : option (list Z))
  : M Os (option peer) := accept_loop fuel fail_on_intr webServerAddrs None.
End Accept.

(** ** The list of allowed clients *)

(** The names of a comma-separated list. *)
Fixpoint split_on (c : Z) (s : list Z) : list (list Z) :=
  match s with
  | [] => [[]]
  | x :: s =>
      if x =? c then [] :: split_on c s
      else match split_on c s with
           | n :: ns => (x :: n) :: ns
           | [] => [[x]]
           end
  end.

Lemma cut_at_split c s : split_on c s = fst (cut_at c s) ::
  match snd (cut_at c s) with Some t => split_on c t | None => [] end.
Proof.
  induction s as [|x s IH]; cbn; [done|]. destruct (x =? c); [done|].
  rewrite IH. by destruct (cut_at c s) as [a [b|]].
Qed.

Lemma cut_at_short c s a t : cut_at c s = (a, Some t) -> (length t < length s)%nat.
Proof.
  revert a t. induction s as [|x s IH]; intros a t; cbn; [done|]. destruct (x =? c).
  - intros [= _ <-]. lia.
  - destruct (cut_at c s) as [a' [t'|]]; [|done]. intros [= _ <-]. specialize (IH a' t' eq_refl). lia.
Qed.

Section AcceptSpec.
Variable inet_addr : list Z -> Z.
Variable use_locking : bool.
Variable fail_on_intr : bool.
Variable addrs : option (list Z).

Lemma ClientAddr_loop_spec fuel : forall addr cur, (length cur < fuel)%nat ->
  ClientAddr_loop inet_addr fuel addr cur =
  Ok (existsb (fun n => inet_addr n =? addr) (split_on 44 cur)).
Proof.
  induction fuel as [|fuel IH]; intros addr cur Hf; [lia|]. cbn [ClientAddr_loop].
  rewrite cut_at_split. destruct (cut_at 44 cur) as [n [t|]] eqn:E; cbn [fst snd existsb].
  - apply cut_at_short in E. destruct (_ =? _); [done|]. apply IH. lia.
  - by destruct (_ =? _).
Qed.

(** Whether the list allows a client: it is absent or empty, or one of its names is the
    client's address. *)
Definition allowed (addr : Z) : bool :=
  match addrs with
  | None | Some [] => true
  | Some l => existsb (fun n => inet_addr n =? addr) (split_on 44 l)
  end.

Lemma ClientAddrOK_allowed addr : ClientAddrOK inet_addr addr addrs = Ok (allowed addr).
Proof.
  unfold ClientAddrOK, allowed. destruct addrs as [[|c l]|]; [done| |done].
  apply ClientAddr_loop_spec. lia.
Qed.

(** What becomes of a connection. *)
Definition approved (p : peer) : bool := negb (p_family p =? AF_INET) || allowed (p_addr p).
Definition kept (p : peer) : bool := negb (p_family p =? AF_UNIX) || p_readable p.

(** The abstract specification, by recursion on the events: the result, the events left, the
    descriptors closed, and [errno]. *)
Fixpoint accept_ref (e : Z) (evs : list acc_event)
    : option peer * list acc_event * list Z * Z :=
  match evs with
  | [] => (None, [], [], EBADF)
  | ev :: evs =>
      match ev_result ev with
      | AccErr x =>
          if (x =? EINTR) && negb fail_on_intr then accept_ref x evs
          else if is_reasonable_accept_errno x then accept_ref 0 evs
          else (None, evs, [], x)
      | AccConn p =>
          if approved p && kept p then (Some p, evs, [], e)
          else let '(r, rest, cl, e) := accept_ref e evs in (r, rest, p_fd p :: cl, e)
      end
  end.

(** The state after a call that consumed events, closed [cl] and holds the lock or not. *)
Definition after (held : bool) (rest : list acc_event) (cl : list Z) (e : Z) (s : Os) : Os :=
  mkOs (shutdownPending s) rest (lock_script s) (if use_locking then held else lock_held s)
       (closed s ++ cl) e.

Definition quiet (evs : list acc_event) : Prop := Forall (fun ev => ev_signal ev = false) evs.

(** The events that the [do ... while] skips. *)
Fixpoint skip_intr (e : Z) (evs : list acc_event) : Z * list acc_event :=
  match evs with
  | ev :: evs' =>
      match ev_result ev with
      | AccErr x => if (x =? EINTR) && negb fail_on_intr then skip_intr x evs' else (e, evs)
      | AccConn _ => (e, evs)
      end
  | [] => (e, [])
  end.

Lemma accept_ref_skip e evs :
  accept_ref e evs = accept_ref (fst (skip_intr e evs)) (snd (skip_intr e evs)).
Proof.
  revert e. induction evs as [|[r sg] evs IH]; intros e; [done|]. cbn -[Z.eqb].
  destruct r as [p|x]; [done|].
  destruct ((x =? EINTR) && negb fail_on_intr) eqn:E; [apply IH|]. cbn -[Z.eqb]. by rewrite E.
Qed.

Lemma skip_intr_len e evs : (length (snd (skip_intr e evs)) <= length evs)%nat.
Proof.
  revert e. induction evs as [|[r sg] evs IH]; intros e; [done|]. cbn -[Z.eqb].
  destruct r as [p|x]; [done|]. destruct (_ && _); [|done]. specialize (IH x). cbn. lia.
Qed.

Lemma skip_intr_quiet e evs : quiet evs -> quiet (snd (skip_intr e evs)).
Proof.
  revert e. induction evs as [|[r sg] evs IH]; intros e Hq; [done|].
  inversion_clear Hq as [|? ? H1 H2]. cbn -[Z.eqb].
  destruct r as [p|x]; [by constructor|]. destruct (_ && _); [by apply IH|by constructor].
Qed.

(** [accept] returns the first event that is not an interruption. *)
Lemma accept_call_spec fuel : forall e evs cur s, quiet evs -> shutdownPending s = false ->
  acc_script s = evs -> errno_ s = e -> (length evs < fuel)%nat ->
  accept_call fuel fail_on_intr cur s =
  match skip_intr e evs with
  | (e, []) => Ok (None, s <| acc_script := [] |> <| errno_ := EBADF |>)
  | (e, ev :: rest) =>
      match ev_result ev with
      | AccConn p => Ok (Some p, s <| acc_script := rest |> <| errno_ := e |>)
      | AccErr x => Ok (None, s <| acc_script := rest |> <| errno_ := x |>)
      end
  end.
Proof.
  induction fuel as [|fuel IH]; intros e evs cur s Hq Hsp He Hee Hf; [lia|].
  destruct evs as [|[r sg] evs]; cbn [accept_call skip_intr].
  - unfold bind at 1, get at 1. rewrite Hsp. unfold bind, sys_accept, bind, get. rewrite He. cbn.
    destruct s; cbn in *; by subst.
  - inversion_clear Hq as [|? ? H1 H2]. cbn in H1. subst sg.
    unfold bind at 1, get at 1. rewrite Hsp. unfold bind at 1, sys_accept, bind at 1, get at 1.
    rewrite He. cbn [ev_result ev_signal OS_Sigusr1Handler]. destruct r as [p|x].
    + destruct s; cbn in *; by subst.
    + unfold bind, modify, ret, get. cbn [negb bool_decide]. cbn -[Z.eqb accept_call]. rewrite Hsp.
      cbn [negb]. rewrite andb_true_r. destruct ((x =? EINTR) && negb fail_on_intr).
      * erewrite IH; [|done..|cbn in *; lia]. destruct s; cbn in *; subst.
        by destruct (skip_intr x evs) as [? [|[[?|?] ?] ?]].
      * destruct s; cbn in *; by subst.
Qed.

(** [s] with events consumed, [cl] closed and another [errno]; the lock is as before. *)
Definition consumed (rest : list acc_event) (cl : list Z) (e : Z) (s : Os) : Os :=
  mkOs (shutdownPending s) rest (lock_script s) (lock_held s) (closed s ++ cl) e.

Definition hold_lock (held : bool) (s : Os) : Os :=
  if use_locking then s <| lock_held := held |> else s.

Lemma AcquireLock_free s : lock_script s = [] ->
  AcquireLock use_locking fail_on_intr s = Ok (true, hold_lock true s).
Proof.
  intros Hl. unfold AcquireLock, hold_lock. destruct use_locking; [|done].
  unfold bind at 1, get at 1. cbn [lock_loop]. unfold bind at 1, sys_fcntl, bind, get. by rewrite Hl.
Qed.

Lemma ReleaseLock_free s : lock_script s = [] ->
  ReleaseLock use_locking s = Ok (true, hold_lock false s).
Proof.
  intros Hl. unfold ReleaseLock, hold_lock. destruct use_locking; [|done].
  unfold bind at 1, get at 1. cbn [unlock_loop]. unfold bind at 1, sys_fcntl, bind, get. by rewrite Hl.
Qed.

(** What the inner loop does, related to the specification of the whole. *)
Definition approved_post (e : Z) (evs : list acc_event) (s : Os) (r : res (option peer * Os)) : Prop :=
  exists o rest cl e' s1, r = Ok (o, s1) /\ quiet rest /\
    match o with
    | None => s1 = hold_lock false (consumed rest cl e' s) /\ accept_ref e evs = (None, rest, cl, e')
    | Some p => approved p = true /\ (length rest < length evs)%nat /\ s1 = consumed rest cl e' s /\
        accept_ref e evs =
          if kept p then (Some p, rest, cl, e')
          else let '(o2, rest2, cl2, e2) := accept_ref e' rest in (o2, rest2, cl ++ p_fd p :: cl2, e2)
    end.

(** "return (-1)" after an error that does not warrant a retry. *)
Lemma approved_fatal (k : M Os (option peer)) s : lock_script s = [] -> shutdownPending s = false ->
  is_reasonable_accept_errno (errno_ s) = false ->
  (if shutdownPending s || negb (is_reasonable_accept_errno (errno_ s)) then
     ReleaseLock use_locking ;;;
     s' <- get ;;
     (if negb (shutdownPending s')
      then modify (fun t => t <| errno_ := errno_ s |>) else ret tt) ;;;
     ret None
   else k) s = Ok (None, hold_lock false s).
Proof.
  intros Hl Hsp Hr. rewrite Hsp, Hr. cbn [orb negb].
  unfold bind at 1. rewrite ReleaseLock_free by done. unfold bind, get, hold_lock, modify, ret.
  destruct s as [? ? ? ? ? ?]. cbn in *. subst. by destruct use_locking.
Qed.

Lemma skip_intr_head e evs e1 x sg rest :
  skip_intr e evs = (e1, mkAcc (AccErr x) sg :: rest) -> (x =? EINTR) && negb fail_on_intr = false.
Proof.
  revert e. induction evs as [|[r sg'] evs IH]; intros e; cbn -[Z.eqb]; [done|].
  destruct r as [p|y]; [done|].
  destruct ((y =? EINTR) && negb fail_on_intr) eqn:E; [apply IH|]. by intros [= _ <- _ _].
Qed.

Lemma accept_approved_spec fuel : forall e evs cur s, quiet evs -> shutdownPending s = false ->
  lock_script s = [] -> acc_script s = evs -> errno_ s = e -> (length evs < fuel)%nat ->
  approved_post e evs s (accept_approved inet_addr use_locking fuel fail_on_intr addrs cur s).
Proof.
  induction fuel as [|fuel IH]; intros e evs cur s Hq Hsp Hl He Hee Hf; [lia|].
  cbn [accept_approved]. unfold bind at 1, get at 1. rewrite He.
  unfold approved_post. rewrite accept_ref_skip.
  pose proof (accept_call_spec (S (length evs)) e evs cur s Hq Hsp He Hee ltac:(lia)) as Ec.
  pose proof (skip_intr_len e evs) as Hlen. pose proof (skip_intr_quiet e evs Hq) as Hq1.
  destruct (skip_intr e evs) as [e1 [|[r sg] rest]] eqn:Esk; cbn [fst snd ev_result] in *.
  - unfold bind at 1. rewrite Ec. unfold bind at 1, get at 1. cbn [accept_ref].
    exists None, [], [], EBADF, (hold_lock false (consumed [] [] EBADF s)).
    split; [|done]. rewrite approved_fatal by done. unfold consumed. by rewrite app_nil_r.
  - inversion_clear Hq1 as [|? ? _ Hqr]. cbn in Hlen. unfold bind at 1. destruct r as [p|x].
    + rewrite Ec. unfold bind at 1, get at 1. cbn [accept_ref ev_result].
      assert (Hap : approved p = negb (p_family p =? AF_INET) || allowed (p_addr p)) by done.
      destruct (p_family p =? AF_INET) eqn:Ef; cbn [negb orb] in *.
      2:{ exists (Some p), rest, [], e1, (consumed rest [] e1 s). unfold consumed. rewrite Hap, app_nil_r.
          split; [by destruct s|]. do 3 (split; [done||lia|]). split; [done|]. cbn [andb].
          destruct (kept p); [done|]. by destruct (accept_ref e1 rest) as [[[? ?] ?] ?]. }
      rewrite ClientAddrOK_allowed. unfold bind at 1, lift. rewrite Hap.
      destruct (allowed (p_addr p)); cbn [andb].
      { exists (Some p), rest, [], e1, (consumed rest [] e1 s). unfold consumed. rewrite app_nil_r.
        split; [by destruct s|]. do 3 (split; [done||lia|]). split; [done|].
        destruct (kept p); [done|]. by destruct (accept_ref e1 rest) as [[[? ?] ?] ?]. }
      unfold bind at 1, sys_close, modify. set (s2 := s <| acc_script := rest |> <| errno_ := e1 |> <| closed := _ |>).
      destruct (IH e1 rest (Some p) s2) as (o & rest2 & cl & e2 & s3 & E3 & Hq3 & H3); [done..|lia|].
      exists o, rest2, (p_fd p :: cl), e2, s3. split; [exact E3|]. split; [done|].
      destruct o as [p2|].
      * destruct H3 as (Ha3 & Hl3 & -> & ->). split; [done|]. split; [lia|]. split.
        { unfold consumed, s2. cbn. by rewrite <- app_assoc. }
        destruct (kept p2); [done|]. by destruct (accept_ref e2 rest2) as [[[? ?] ?] ?].
      * destruct H3 as (-> & ->). split; [|done]. unfold consumed, s2. cbn. by rewrite <- app_assoc.
    + rewrite Ec. unfold bind at 1, get at 1. cbn [accept_ref ev_result].
      rewrite (skip_intr_head e evs e1 x sg rest Esk).
      set (s1 := s <| acc_script := rest |> <| errno_ := x |>).
      destruct (is_reasonable_accept_errno x) eqn:Er.
      * change (errno_ s1) with x. change (shutdownPending s1) with (shutdownPending s).
        rewrite Hsp, Er. cbn [orb negb]. unfold bind at 1, modify at 1.
        destruct (IH 0 rest None (s1 <| errno_ := 0 |>)) as (o & rest2 & cl & e2 & s3 & E3 & Hq3 & H3);
          [done..|lia|].
        exists o, rest2, cl, e2, s3. split; [exact E3|]. split; [done|].
        destruct o as [p2|]; [|exact H3].
        destruct H3 as (Ha3 & Hl3 & -> & ->). split; [done|]. split; [lia|]. done.
      * exists None, rest, [], x, (hold_lock false s1). rewrite approved_fatal by done.
        split; [done|]. split; [done|]. split; [|done]. unfold consumed, s1. rewrite app_nil_r. done.
Qed.

Lemma hold_lock_consumed held rest cl e s :
  hold_lock held (consumed rest cl e s) = consumed rest cl e (hold_lock held s).
Proof. unfold hold_lock. by destruct use_locking. Qed.

Lemma hold_lock_hold_lock h1 h2 s : hold_lock h1 (hold_lock h2 s) = hold_lock h1 s.
Proof. unfold hold_lock. by destruct use_locking. Qed.

Lemma hold_lock_get h s : shutdownPending (hold_lock h s) = shutdownPending s /\
  lock_script (hold_lock h s) = lock_script s /\ acc_script (hold_lock h s) = acc_script s /\
  errno_ (hold_lock h s) = errno_ s.
Proof. unfold hold_lock. by destruct use_locking. Qed.

(** Without signals and with the lock free, the accept loop is its specification. *)
Lemma accept_loop_spec fuel : forall e evs cur s, quiet evs -> shutdownPending s = false ->
  lock_script s = [] -> acc_script s = evs -> errno_ s = e -> (length evs < fuel)%nat ->
  accept_loop inet_addr use_locking fuel fail_on_intr addrs cur s =
  (let '(r, rest, cl, e') := accept_ref e evs in
   Ok (r, hold_lock false (consumed rest cl e' s))).
Proof.
  induction fuel as [|fuel IH]; intros e evs cur s Hq Hsp Hl He Hee Hf; [lia|].
  cbn [accept_loop]. unfold bind at 1. rewrite AcquireLock_free by done. cbn [negb].
  destruct (hold_lock_get true s) as (Hg1 & Hg2 & Hg3 & Hg4).
  destruct (accept_approved_spec (S fuel) e evs cur (hold_lock true s))
    as (o & rest & cl & e' & s1 & E1 & Hq1 & H1); [done|congruence..|done|].
  unfold bind at 1. rewrite E1. destruct o as [p|].
  - destruct H1 as (_ & Hlen & -> & ->). unfold bind at 1.
    rewrite ReleaseLock_free by (cbn; congruence). cbn [negb].
    rewrite <- hold_lock_consumed, hold_lock_hold_lock.
    unfold is_af_unix_keeper. fold (kept p). destruct (kept p); [done|].
    unfold bind at 1, sys_close, modify. set (s2 := _ <| closed := _ |>).
    rewrite (IH e' rest (Some p) s2); [|done| | | | |lia].
    2-5: unfold s2, consumed, hold_lock; by destruct use_locking.
    destruct (accept_ref e' rest) as [[[o2 rest2] cl2] e2]. do 2 f_equal.
    unfold s2, consumed, hold_lock. destruct use_locking; cbn; by rewrite <- !app_assoc.
  - destruct H1 as (-> & ->). by rewrite <- hold_lock_consumed, hold_lock_hold_lock.
Qed.

(** Once a shutdown is pending, a refused client that is still in [socket] is refused again
    and again. *)
Lemma refused_hangs p fuel : approved p = false -> forall s, shutdownPending s = true ->
  accept_approved inet_addr use_locking fuel fail_on_intr addrs (Some p) s = NoFuel.
Proof.
  unfold approved. intros [Ha1 Ha2]%orb_false_iff. apply negb_false_iff in Ha1.
  induction fuel as [|fuel IH]; intros s Hs; [done|]. cbn [accept_approved accept_call].
  unfold bind at 1, get at 1. unfold bind at 1. unfold bind at 1, get at 1. rewrite Hs. unfold ret at 1.
  unfold bind at 1, get at 1. rewrite Ha1. cbn [negb]. rewrite ClientAddrOK_allowed.
  unfold bind at 1, lift. rewrite Ha2. unfold bind at 1, sys_close, modify. by apply IH.
Qed.
End AcceptSpec.

(** C33: without signals and with the lock free, the accept loop of [OS_Accept] implements its
    specification: the first connection of an allowed client that is readable, every connection
    refused before it closed, transient errors and interruptions skipped, the lock released;
    and it returns, with fuel beyond the number of events. *)
Theorem OS_Accept_correct inet_addr use_locking fail_on_intr addrs s fuel :
  quiet (acc_script s) -> shutdownPending s = false -> lock_script s = [] ->
  (length (acc_script s) < fuel)%nat ->
  OS_Accept inet_addr use_locking fuel fail_on_intr addrs s =
  (let '(r, rest, cl, e) := accept_ref inet_addr fail_on_intr addrs (errno_ s) (acc_script s) in
   Ok (r, hold_lock use_locking false (consumed rest cl e s))).
Proof. intros Hq Hs Hl Hf. by apply accept_loop_spec. Qed.

(** A resolver for the witnesses: an address is its first byte. *)
Definition first_byte (s : list Z) : Z := nth 0 s 0.

Definition idle_conn : Conn := mkConn [] [] [] 0.

(** A client with address 9 is refused, an interruption is skipped, a client with address 8 is
    accepted from the list "7,8". *)
Lemma OS_Accept_correct_witness :
  let s := mkOs false [mkAcc (AccConn (mkPeer 5 AF_INET 9 true idle_conn)) false;
                       mkAcc (AccErr EINTR) false;
                       mkAcc (AccConn (mkPeer 6 AF_INET 56 true idle_conn)) false] [] false [] 0 in
  OS_Accept first_byte true 4 false (Some [55; 44; 56]) s =
  Ok (Some (mkPeer 6 AF_INET 56 true idle_conn), mkOs false [] [] false [5] EINTR).
Proof.
  intros s. rewrite (OS_Accept_correct first_byte true false (Some [55; 44; 56]) s 4);
    [reflexivity|repeat constructor|reflexivity|reflexivity|cbn; lia].
Defined.

(** C39: when SIGUSR1 arrives while a client that is not allowed is being accepted, [OS_Accept]
    never returns, whatever happens on the socket: the shutdown flag skips [accept], and the
    stale descriptor is refused and closed again in every turn. *)
Theorem OS_Accept_hangs inet_addr use_locking fail_on_intr addrs s p rest :
  acc_script s = mkAcc (AccConn p) true :: rest -> shutdownPending s = false -> lock_script s = [] ->
  approved inet_addr addrs p = false ->
  forall fuel, OS_Accept inet_addr use_locking fuel fail_on_intr addrs s = NoFuel.
Proof.
  intros He Hs Hl Ha [|fuel]; [done|]. unfold OS_Accept. cbn [accept_loop].
  unfold bind at 1. rewrite AcquireLock_free by done. cbn [negb accept_approved].
  destruct (hold_lock_get use_locking true s) as (Hg1 & _ & Hg3 & _).
  unfold bind at 1. unfold bind at 1, get at 1. rewrite Hg3, He. cbn [accept_call length].
  unfold bind at 1. unfold bind at 1, get at 1. rewrite Hg1, Hs.
  unfold bind at 1, sys_accept, bind at 1, get at 1. rewrite Hg3, He.
  unfold bind, modify, ret, get, OS_Sigusr1Handler, OS_ShutdownPending. cbn -[accept_approved Z.eqb ClientAddrOK].
  pose proof Ha as Ha'. unfold approved in Ha'. apply orb_false_iff in Ha' as [Ha1 Ha2].
  apply negb_false_iff in Ha1. rewrite Ha1, ClientAddrOK_allowed, Ha2. cbn [negb lift].
  by rewrite refused_hangs.
Qed.

Lemma OS_Accept_hangs_witness :
  OS_Accept first_byte false 1000 false (Some [55])
    (mkOs false [mkAcc (AccConn (mkPeer 5 AF_INET 9 true idle_conn)) true] [] false [] 0) = NoFuel.
Proof.
  apply (OS_Accept_hangs first_byte false false (Some [55]) _
    (mkPeer 5 AF_INET 9 true idle_conn) []); reflexivity.
Defined.
