(* ===== verification/OsAsync.v ===== *)
(** * Asynchronous I/O: the table, the signal handlers and [OS_Close] of os_unix.c

    The bridge posts reads and writes in a table with two entries per descriptor
    ([libfcgi/os_unix.c]); OsDoIo.v waits for them.  The state also has the process's signal handlers,
    which [OS_LibInit] installs. *)

From stdpp Require Import gmap.
From S2P Require Import Prelude FcgiProto FcgiStream.

Definition FD_SETSIZE : Z := 1024.
Definition STDIN_FILENO : Z := 0.
Definition STDOUT_FILENO : Z := 1.
Definition STDERR_FILENO : Z := 2.

(** [AioInfo]; a function pointer is a number the application knows, a buffer is an address in
    the application's memory. *)
Record AioInfo := mkAio {
  procPtr : Z;
  clientData : Z;
  aio_fd : Z;
  aio_len : Z;
  aio_offset : Z;
  aio_buf : Z;
  inUse : bool }.

Definition aio_zero : AioInfo := mkAio 0 0 0 0 0 0 false.

Definition AIO_RD_IX (fd : Z) : Z := fd * 2.
Definition AIO_WR_IX (fd : Z) : Z := fd * 2 + 1.

(** What the kernel answers to a [select] of [OS_DoIo]: the descriptors it reports ready (it
    reports only descriptors that were asked for), or -1. *)
Inductive sel_event :=
  | SelReady (rd wr : gset Z)
  | SelErr (errno : Z).

(** One turn of the loop that drains a closing socket: [select] and [read]. *)
Inductive drain_event :=
  | DrRead (n : Z)
  | DrTimeout.

(** A [read] or [write] that [OS_DoIo] did, with the bytes that were moved. *)
Inductive io_event :=
  | IoRead (fd : Z) (bs : list Z)
  | IoWrite (fd : Z) (bs : list Z).

(** What a signal does: the library's two handlers, or one of the application's. *)
Inductive disposition :=
  | SIG_DFL
  | SIG_IGN
  | OS_SigpipeHandler
  | OS_Sigusr1Handler
  | OtherHandler (n : Z).

Definition SIGUSR1 : Z := 10.
Definition SIGPIPE : Z := 13.
Definition SIGTERM : Z := 15.

(** The static variables of os_unix.c for asynchronous I/O, the answers of the kernel to come
    (what [select], [read] and [write] will do), what has been done, and the process's signal
    handlers (a signal without one is at its default). *)
Record Aio := mkAioState {
  asyncIoInUse : bool;
  asyncIoTable : option (list AioInfo);
  asyncIoTableSize : Z;
  libInitialized : bool;
  readFdSet : gset Z;
  writeFdSet : gset Z;
  readFdSetPost : gset Z;
  writeFdSetPost : gset Z;
  numRdPosted : Z;
  numWrPosted : Z;
  maxFd : Z;
  sel_script : list sel_event;
  rd_script : list (option (list Z));
  wr_script : list (option nat);
  drain_script : list drain_event;
  closed_fds : list Z;
  io_trace : list io_event;
  handlers : gmap Z disposition }.

#[export] Instance set_asyncIoInUse : Setter asyncIoInUse := fun g r =>
  mkAioState (g (asyncIoInUse r)) (asyncIoTable r) (asyncIoTableSize r) (libInitialized r) (readFdSet r)
    (writeFdSet r) (readFdSetPost r) (writeFdSetPost r) (numRdPosted r) (numWrPosted r) (maxFd r)
    (sel_script r) (rd_script r) (wr_script r) (drain_script r) (closed_fds r) (io_trace r) (handlers r).
#[export] Instance set_asyncIoTable : Setter asyncIoTable := fun g r =>
  mkAioState (asyncIoInUse r) (g (asyncIoTable r)) (asyncIoTableSize r) (libInitialized r) (readFdSet r)
    (writeFdSet r) (readFdSetPost r) (writeFdSetPost r) (numRdPosted r) (numWrPosted r) (maxFd r)
    (sel_script r) (rd_script r) (wr_script r) (drain_script r) (closed_fds r) (io_trace r) (handlers r).
#[export] Instance set_asyncIoTableSize : Setter asyncIoTableSize := fun g r =>
  mkAioState (asyncIoInUse r) (asyncIoTable r) (g (asyncIoTableSize r)) (libInitialized r) (readFdSet r)
    (writeFdSet r) (readFdSetPost r) (writeFdSetPost r) (numRdPosted r) (numWrPosted r) (maxFd r)
    (sel_script r) (rd_script r) (wr_script r) (drain_script r) (closed_fds r) (io_trace r) (handlers r).
#[export] Instance set_libInitialized : Setter libInitialized := fun g r =>
  mkAioState (asyncIoInUse r) (asyncIoTable r) (asyncIoTableSize r) (g (libInitialized r)) (readFdSet r)
    (writeFdSet r) (readFdSetPost r) (writeFdSetPost r) (numRdPosted r) (numWrPosted r) (maxFd r)
    (sel_script r) (rd_script r) (wr_script r) (drain_script r) (closed_fds r) (io_trace r) (handlers r).
#[export] Instance set_readFdSet : Setter readFdSet := fun g r =>
  mkAioState (asyncIoInUse r) (asyncIoTable r) (asyncIoTableSize r) (libInitialized r) (g (readFdSet r))
    (writeFdSet r) (readFdSetPost r) (writeFdSetPost r) (numRdPosted r) (numWrPosted r) (maxFd r)
    (sel_script r) (rd_script r) (wr_script r) (drain_script r) (closed_fds r) (io_trace r) (handlers r).
#[export] Instance set_writeFdSet : Setter writeFdSet := fun g r =>
  mkAioState (asyncIoInUse r) (asyncIoTable r) (asyncIoTableSize r) (libInitialized r) (readFdSet r)
    (g (writeFdSet r)) (readFdSetPost r) (writeFdSetPost r) (numRdPosted r) (numWrPosted r) (maxFd r)
    (sel_script r) (rd_script r) (wr_script r) (drain_script r) (closed_fds r) (io_trace r) (handlers r).
#[export] Instance set_readFdSetPost : Setter readFdSetPost := fun g r =>
  mkAioState (asyncIoInUse r) (asyncIoTable r) (asyncIoTableSize r) (libInitialized r) (readFdSet r)
    (writeFdSet r) (g (readFdSetPost r)) (writeFdSetPost r) (numRdPosted r) (numWrPosted r) (maxFd r)
    (sel_script r) (rd_script r) (wr_script r) (drain_script r) (closed_fds r) (io_trace r) (handlers r).
#[export] Instance set_writeFdSetPost : Setter writeFdSetPost := fun g r =>
  mkAioState (asyncIoInUse r) (asyncIoTable r) (asyncIoTableSize r) (libInitialized r) (readFdSet r)
    (writeFdSet r) (readFdSetPost r) (g (writeFdSetPost r)) (numRdPosted r) (numWrPosted r) (maxFd r)
    (sel_script r) (rd_script r) (wr_script r) (drain_script r) (closed_fds r) (io_trace r) (handlers r).
#[export] Instance set_numRdPosted : Setter numRdPosted := fun g r =>
  mkAioState (asyncIoInUse r) (asyncIoTable r) (asyncIoTableSize r) (libInitialized r) (readFdSet r)
    (writeFdSet r) (readFdSetPost r) (writeFdSetPost r) (g (numRdPosted r)) (numWrPosted r) (maxFd r)
    (sel_script r) (rd_script r) (wr_script r) (drain_script r) (closed_fds r) (io_trace r) (handlers r).
#[export] Instance set_numWrPosted : Setter numWrPosted := fun g r =>
  mkAioState (asyncIoInUse r) (asyncIoTable r) (asyncIoTableSize r) (libInitialized r) (readFdSet r)
    (writeFdSet r) (readFdSetPost r) (writeFdSetPost r) (numRdPosted r) (g (numWrPosted r)) (maxFd r)
    (sel_script r) (rd_script r) (wr_script r) (drain_script r) (closed_fds r) (io_trace r) (handlers r).
#[export] Instance set_maxFd : Setter maxFd := fun g r =>
  mkAioState (asyncIoInUse r) (asyncIoTable r) (asyncIoTableSize r) (libInitialized r) (readFdSet r)
    (writeFdSet r) (readFdSetPost r) (writeFdSetPost r) (numRdPosted r) (numWrPosted r) (g (maxFd r))
    (sel_script r) (rd_script r) (wr_script r) (drain_script r) (closed_fds r) (io_trace r) (handlers r).
#[export] Instance set_sel_script : Setter sel_script := fun g r =>
  mkAioState (asyncIoInUse r) (asyncIoTable r) (asyncIoTableSize r) (libInitialized r) (readFdSet r)
    (writeFdSet r) (readFdSetPost r) (writeFdSetPost r) (numRdPosted r) (numWrPosted r) (maxFd r)
    (g (sel_script r)) (rd_script r) (wr_script r) (drain_script r) (closed_fds r) (io_trace r) (handlers r).
#[export] Instance set_rd_script : Setter rd_script := fun g r =>
  mkAioState (asyncIoInUse r) (asyncIoTable r) (asyncIoTableSize r) (libInitialized r) (readFdSet r)
    (writeFdSet r) (readFdSetPost r) (writeFdSetPost r) (numRdPosted r) (numWrPosted r) (maxFd r)
    (sel_script r) (g (rd_script r)) (wr_script r) (drain_script r) (closed_fds r) (io_trace r) (handlers r).
#[export] Instance set_wr_script : Setter wr_script := fun g r =>
  mkAioState (asyncIoInUse r) (asyncIoTable r) (asyncIoTableSize r) (libInitialized r) (readFdSet r)
    (writeFdSet r) (readFdSetPost r) (writeFdSetPost r) (numRdPosted r) (numWrPosted r) (maxFd r)
    (sel_script r) (rd_script r) (g (wr_script r)) (drain_script r) (closed_fds r) (io_trace r) (handlers r).
#[export] Instance set_drain_script : Setter drain_script := fun g r =>
  mkAioState (asyncIoInUse r) (asyncIoTable r) (asyncIoTableSize r) (libInitialized r) (readFdSet r)
    (writeFdSet r) (readFdSetPost r) (writeFdSetPost r) (numRdPosted r) (numWrPosted r) (maxFd r)
    (sel_script r) (rd_script r) (wr_script r) (g (drain_script r)) (closed_fds r) (io_trace r) (handlers r).
#[export] Instance set_closed_fds : Setter closed_fds := fun g r =>
  mkAioState (asyncIoInUse r) (asyncIoTable r) (asyncIoTableSize r) (libInitialized r) (readFdSet r)
    (writeFdSet r) (readFdSetPost r) (writeFdSetPost r) (numRdPosted r) (numWrPosted r) (maxFd r)
    (sel_script r) (rd_script r) (wr_script r) (drain_script r) (g (closed_fds r)) (io_trace r) (handlers r).
#[export] Instance set_io_trace : Setter io_trace := fun g r =>
  mkAioState (asyncIoInUse r) (asyncIoTable r) (asyncIoTableSize r) (libInitialized r) (readFdSet r)
    (writeFdSet r) (readFdSetPost r) (writeFdSetPost r) (numRdPosted r) (numWrPosted r) (maxFd r)
    (sel_script r) (rd_script r) (wr_script r) (drain_script r) (closed_fds r) (g (io_trace r)) (handlers r).
#[export] Instance set_handlers : Setter handlers := fun g r =>
  mkAioState (asyncIoInUse r) (asyncIoTable r) (asyncIoTableSize r) (libInitialized r) (readFdSet r)
    (writeFdSet r) (readFdSetPost r) (writeFdSetPost r) (numRdPosted r) (numWrPosted r) (maxFd r)
    (sel_script r) (rd_script r) (wr_script r) (drain_script r) (closed_fds r) (io_trace r) (g (handlers r)).

(** Nothing of the library has run yet. *)
Definition aio_init : Aio :=
  mkAioState false None 16 false ∅ ∅ ∅ ∅ 0 0 (-1) [] [] [] [] [] [] ∅.

(** ** The table *)

(** [FD_SET]; outside [fd_set] the macro writes past the object. *)
Definition fd_set (fd : Z) (s : gset Z) : res (gset Z) :=
  if (0 <=? fd) && (fd <? FD_SETSIZE) then Ok ({[fd]} ∪ s) else Crash MemFault.

(** [FD_CLR] of a descriptor outside the set writes past it too. *)
Definition fd_clr (fd : Z) (s : gset Z) : res (gset Z) :=
  if (0 <=? fd) && (fd <? FD_SETSIZE) then Ok (s ∖ {[fd]}) else Crash MemFault.

(** ** Signals *)

Definition handler_of (signo : Z) (s : Aio) : disposition := default SIG_DFL (handlers s !! signo).

(** [sa.sa_handler == SIG_DFL || sa.sa_handler == SIG_IGN]. *)
Definition unhandled (d : disposition) : bool := match d with SIG_DFL | SIG_IGN => true | _ => false end.

Definition installSignalHandler (signo : Z) (act : disposition) (force : bool) : M Aio unit :=
  s <- get ;;
  if force || unhandled (handler_of signo s) then modify (fun s => s <| handlers := <[signo := act]> (handlers s) |>)
  else ret tt.

(** The handler of SIGTERM is installed only when there is none. *)
Definition OS_InstallSignalHandlers (force : bool) : M Aio unit :=
  installSignalHandler SIGPIPE OS_SigpipeHandler force ;;;
  installSignalHandler SIGUSR1 OS_Sigusr1Handler force ;;;
  installSignalHandler SIGTERM OS_Sigusr1Handler false.

Definition OS_LibInit : M Aio Z :=
  s <- get ;;
  if libInitialized s then ret 0 else
  modify (fun s => s <| asyncIoTable := Some (replicate (Z.to_nat (asyncIoTableSize s)) aio_zero) |>) ;;;
  modify (fun s => s <| readFdSet := ∅ |> <| writeFdSet := ∅ |>
                     <| readFdSetPost := ∅ |> <| writeFdSetPost := ∅ |>) ;;;
  OS_InstallSignalHandlers false ;;;
  modify (fun s => s <| libInitialized := true |>) ;;;
  ret 0.

Definition OS_LibShutdown : M Aio unit :=
  s <- get ;;
  if negb (libInitialized s) then ret tt else
  modify (fun s => s <| asyncIoTable := None |> <| libInitialized := false |>).

(** [asyncIoTable[index]]. *)
Definition aio_get (index : Z) : M Aio AioInfo :=
  s <- get ;;
  match asyncIoTable s with
  | None => crash NullDeref
  | Some t =>
      if (0 <=? index) && (index <? zlen t) then ret (nth (Z.to_nat index) t aio_zero)
      else crash MemFault
  end.

Definition aio_put (index : Z) (a : AioInfo) : M Aio unit :=
  s <- get ;;
  match asyncIoTable s with
  | None => crash NullDeref
  | Some t =>
      if (0 <=? index) && (index <? zlen t)
      then modify (fun s => s <| asyncIoTable := Some (splice index [a] t) |>)
      else crash MemFault
  end.

(** The assertion that an entry is free, and the assignments that fill it. *)
Definition aio_post (index : Z) (a : AioInfo) : M Aio unit :=
  a0 <- aio_get index ;;
  c_assert (negb (inUse a0)) ;;;
  aio_put index a.

Definition GrowAsyncTable : M Aio unit :=
  s <- get ;;
  let oldTableSize := asyncIoTableSize s in
  size <- lift (int_chk (oldTableSize * 2)) ;;
  modify (fun s => s <| asyncIoTableSize := size |>) ;;;
  let t := default [] (asyncIoTable s) in
  let grown := take (Z.to_nat size) (t ++ replicate (Z.to_nat size - length t) aio_zero) in
  cleared <- lift (if (0 <=? oldTableSize) && (oldTableSize + oldTableSize <=? zlen grown)
                   then Ok (splice oldTableSize (replicate (Z.to_nat oldTableSize) aio_zero) grown)
                   else Crash MemFault) ;;
  modify (fun s => s <| asyncIoTable := Some cleared |>).

(** [while (index >= asyncIoTableSize) GrowAsyncTable();]: the size doubles in every turn. *)
Fixpoint grow_to (fuel : nat) (index : Z) : M Aio unit :=
  match fuel with
  | O => nofuel
  | S fuel =>
      s <- get ;;
      if asyncIoTableSize s <=? index then GrowAsyncTable ;;; grow_to fuel index else ret tt
  end.

Definition OS_AsyncReadStdin (buf len procPtr clientData : Z) : M Aio Z :=
  let index := AIO_RD_IX STDIN_FILENO in
  modify (fun s => s <| asyncIoInUse := true |>) ;;;
  aio_post index (mkAio procPtr clientData STDIN_FILENO len 0 buf true) ;;;
  s <- get ;;
  fds <- lift (fd_set STDIN_FILENO (readFdSet s)) ;;
  modify (fun s => s <| readFdSet := fds |>) ;;;
  modify (fun s => s <| maxFd := Z.max STDIN_FILENO (maxFd s) |>) ;;;
  ret 0.

Definition OS_AsyncRead (fd offset buf len procPtr clientData : Z) : M Aio Z :=
  index <- lift (int_chk (AIO_RD_IX fd)) ;;
  s <- get ;;
  c_assert (bool_decide (is_Some (asyncIoTable s))) ;;;
  modify (fun s => s <| asyncIoInUse := true |>) ;;;
  modify (fun s => s <| maxFd := Z.max fd (maxFd s) |>) ;;;
  grow_to 32 index ;;;
  aio_post index (mkAio procPtr clientData fd len offset buf true) ;;;
  s <- get ;;
  fds <- lift (fd_set fd (readFdSet s)) ;;
  modify (fun s => s <| readFdSet := fds |>) ;;;
  ret 0.

Definition OS_AsyncWrite (fd offset buf len procPtr clientData : Z) : M Aio Z :=
  index <- lift (int_chk (AIO_WR_IX fd)) ;;
  modify (fun s => s <| asyncIoInUse := true |>) ;;;
  modify (fun s => s <| maxFd := Z.max fd (maxFd s) |>) ;;;
  grow_to 32 index ;;;
  aio_post index (mkAio procPtr clientData fd len offset buf true) ;;;
  s <- get ;;
  fds <- lift (fd_set fd (writeFdSet s)) ;;
  modify (fun s => s <| writeFdSet := fds |>) ;;;
  ret 0.

(** ** Closing *)

(** "shutdown() the send side and then read() from client until EOF or a timeout expires": the
    turns the script describes; past it [select] times out. *)
Fixpoint drain (evs : list drain_event) : list drain_event :=
  match evs with
  | DrRead n :: evs => if 0 <? n then drain evs else evs
  | DrTimeout :: evs => evs
  | [] => []
  end.

Definition clear_inUse (index : Z) : M Aio unit :=
  a <- aio_get index ;;
  if inUse a
  then aio_put index (mkAio (procPtr a) (clientData a) (aio_fd a) (aio_len a) (aio_offset a)
                            (aio_buf a) false)
  else ret tt.

(** [shutdown_fails]: the result of [shutdown(fd, 1)]; [close_result]: that of [close(fd)], which no
    caller looks at. *)
Definition OS_Close (fd : Z) (shutdown_ok shutdown_fails : bool) (close_result : Z) : M Aio Z :=
  if fd =? -1 then ret 0 else
  s <- get ;;
  (if asyncIoInUse s then
     r <- lift (fd_clr fd (readFdSet s)) ;;
     rp <- lift (fd_clr fd (readFdSetPost s)) ;;
     modify (fun s => s <| readFdSet := r |> <| readFdSetPost := rp |>) ;;;
     clear_inUse (AIO_RD_IX fd) ;;;
     w <- lift (fd_clr fd (writeFdSet s)) ;;
     wp <- lift (fd_clr fd (writeFdSetPost s)) ;;
     modify (fun s => s <| writeFdSet := w |> <| writeFdSetPost := wp |>) ;;;
     clear_inUse (AIO_WR_IX fd) ;;;
     modify (fun s => if maxFd s =? fd then s <| maxFd := maxFd s - 1 |> else s)
   else ret tt) ;;;
  (if shutdown_ok && negb shutdown_fails
   then modify (fun s => s <| drain_script := drain (drain_script s) |>) else ret tt) ;;;
  modify (fun s => s <| closed_fds := closed_fds s ++ [fd] |>) ;;;
  ret close_result.

(** [shutdown_result]: the result of [shutdown(fd, 0)]. *)
Definition OS_CloseRead (fd shutdown_result : Z) : M Aio Z :=
  a <- aio_get (AIO_RD_IX fd) ;;
  (if inUse a then
     clear_inUse (AIO_RD_IX fd) ;;;
     s <- get ;;
     r <- lift (fd_clr fd (readFdSet s)) ;;
     modify (fun s => s <| readFdSet := r |>)
   else ret tt) ;;;
  ret shutdown_result.

Definition OS_IpcClose (ipcFd : Z) (shutdown shutdown_fails : bool) (close_result : Z) : M Aio Z :=
  OS_Close ipcFd shutdown shutdown_fails close_result.

(** ** The table and the descriptor sets agree *)

Lemma splice_insert {A} (i : Z) (x : A) l : 0 <= i < zlen l ->
  splice i [x] l = <[Z.to_nat i := x]> l.
Proof.
  intros Hi. unfold splice, zlen in *. rewrite insert_take_drop by lia.
  cbn [length app]. by rewrite Nat.add_1_r.
Qed.

(** Entry [i] of the table. *)
Definition entry (s : Aio) (i : Z) : AioInfo :=
  nth (Z.to_nat i) (default [] (asyncIoTable s)) aio_zero.

(** One direction of the table: an entry is in use exactly when its descriptor is waited for or
    posted, never both; the counter counts what is posted. *)
Record side_ok (s : Aio) (ix : Z -> Z) (waiting posted : gset Z) (num : Z) : Prop := {
  sd_used fd : 0 <= fd -> ix fd < asyncIoTableSize s ->
    inUse (entry s (ix fd)) = bool_decide (fd ∈ waiting ∪ posted);
  sd_bound fd : fd ∈ waiting ∪ posted -> 0 <= fd <= maxFd s /\ ix fd < asyncIoTableSize s;
  sd_disj : waiting ## posted;
  sd_num : num = Z.of_nat (size posted) }.

(** The invariant of the asynchronous I/O state. *)
Record aio_inv (s : Aio) : Prop := {
  ai_table : exists t, asyncIoTable s = Some t /\ zlen t = asyncIoTableSize s;
  ai_size : 16 <= asyncIoTableSize s <= 4096;
  ai_max : maxFd s < FD_SETSIZE;
  ai_read : side_ok s AIO_RD_IX (readFdSet s) (readFdSetPost s) (numRdPosted s);
  ai_write : side_ok s AIO_WR_IX (writeFdSet s) (writeFdSetPost s) (numWrPosted s) }.

Lemma aio_get_Ok s i : aio_inv s -> 0 <= i < asyncIoTableSize s ->
  aio_get i s = Ok (entry s i, s).
Proof.
  intros [(t & Et & Hl) ? ? ? ?] Hi. unfold aio_get, entry, bind, get. rewrite Et.
  rewrite (proj2 (Z.leb_le _ _)), (proj2 (Z.ltb_lt _ _)) by lia. done.
Qed.

(** [GrowAsyncTable] doubles the table and clears the new half. *)
Lemma GrowAsyncTable_spec s t : asyncIoTable s = Some t -> zlen t = asyncIoTableSize s ->
  0 <= asyncIoTableSize s <= 4096 ->
  GrowAsyncTable s = Ok (tt, s <| asyncIoTableSize := asyncIoTableSize s * 2 |>
    <| asyncIoTable := Some (t ++ replicate (Z.to_nat (asyncIoTableSize s)) aio_zero) |>).
Proof.
  intros Et Hl Hs. unfold GrowAsyncTable, bind at 1, get at 1. set (k := asyncIoTableSize s) in *.
  unfold bind at 1, lift at 1, int_chk, int_fits, INT_MIN, INT_MAX.
  rewrite (proj2 (Z.leb_le _ _)), (proj2 (Z.leb_le (k * 2) _)) by lia. cbn [andb].
  unfold bind at 1, modify at 1. rewrite Et. cbn [default from_option]. change (id t) with t.
  assert (Eg : take (Z.to_nat (k * 2)) (t ++ replicate (Z.to_nat (k * 2) - length t) aio_zero)
               = t ++ replicate (Z.to_nat k) aio_zero).
  { rewrite take_ge by (rewrite length_app, length_replicate; unfold zlen in *; lia).
    do 2 f_equal. unfold zlen in *. lia. }
  rewrite Eg. unfold bind at 1, lift at 1. rewrite zlen_app, zlen_replicate, Hl.
  rewrite (proj2 (Z.leb_le 0 k)), (proj2 (Z.leb_le (k + k) _)) by lia. cbn [andb].
  unfold modify. do 4 f_equal. unfold splice. unfold zlen in Hl.
  replace (Z.to_nat k) with (length t) by lia. rewrite take_app_length, length_replicate.
  rewrite drop_ge by (rewrite length_app, length_replicate; lia). by rewrite app_nil_r.
Qed.

(** Growing the table keeps its entries. *)
Lemma grow_to_spec fuel : forall s i t, asyncIoTable s = Some t -> zlen t = asyncIoTableSize s ->
  16 <= asyncIoTableSize s <= 4096 -> 0 <= i < 2048 ->
  4096 < asyncIoTableSize s * 2 ^ Z.of_nat fuel ->
  exists n s', grow_to fuel i s = Ok (tt, s') /\
    s' = s <| asyncIoTable := Some (t ++ replicate n aio_zero) |>
           <| asyncIoTableSize := zlen (t ++ replicate n aio_zero) |> /\
    i < asyncIoTableSize s' <= 4096 /\ 16 <= asyncIoTableSize s'.
Proof.
  induction fuel as [|fuel IH]; intros s i t Et Hl Hs Hi Hf; [cbn in Hf; lia|].
  cbn [grow_to]. unfold bind at 1, get at 1. set (k := asyncIoTableSize s) in *.
  destruct (Z.leb_spec k i) as [Hle|Hgt].
  - erewrite bind_Ok by (apply GrowAsyncTable_spec; [done|done|fold k; lia]). fold k.
    set (s1 := s <| asyncIoTableSize := _ |> <| asyncIoTable := _ |>).
    destruct (IH s1 i (t ++ replicate (Z.to_nat k) aio_zero)) as (n & s' & E' & Hs' & Hi');
      [done|cbn -[Z.mul]; rewrite zlen_app, zlen_replicate; lia|cbn -[Z.mul]; lia|done| |].
    { cbn -[Z.mul Z.pow Z.of_nat]. rewrite Nat2Z.inj_succ, Z.pow_succ_r in Hf by lia. lia. }
    exists (Z.to_nat k + n)%nat, s'. split; [exact E'|]. split; [|exact Hi'].
    rewrite Hs'. unfold s1. rewrite replicate_add, app_assoc. done.
  - exists 0%nat, s. split; [done|]. cbn [replicate]. rewrite app_nil_r, Hl. unfold k in *.
    split; [by destruct s; cbn in *; subst|lia].
Qed.

(** Posting an operation on a free entry. *)
Lemma post_entry s i a t : asyncIoTable s = Some t -> 0 <= i < zlen t -> inUse (entry s i) = false ->
  aio_post i a s =
  Ok (tt, s <| asyncIoTable := Some (<[Z.to_nat i := a]> t) |>).
Proof.
  intros Et Hi Hu. unfold aio_post, bind at 1, aio_get, bind at 1, get at 1. rewrite Et.
  rewrite (proj2 (Z.leb_le _ _)), (proj2 (Z.ltb_lt _ _)) by lia. cbn [andb].
  unfold entry in Hu. rewrite Et in Hu. cbn [default from_option id] in Hu.
  unfold ret. change (default [] (Some t)) with t in Hu. rewrite Hu. cbn [negb c_assert].
  unfold bind, aio_put, bind, get, ret. rewrite Et.
  rewrite (proj2 (Z.leb_le _ _)), (proj2 (Z.ltb_lt _ _)) by lia. cbn [andb]. unfold modify.
  by rewrite splice_insert.
Qed.

Lemma entry_insert s t i a j : asyncIoTable s = Some (<[Z.to_nat i := a]> t) -> 0 <= i < zlen t ->
  0 <= j -> entry s j = if i =? j then a else nth (Z.to_nat j) t aio_zero.
Proof.
  intros Et Hi Hj. unfold entry. rewrite Et. cbn [default from_option id]. change (id ?x) with x.
  destruct (Z.eqb_spec i j) as [<-|Hne].
  - apply nth_lookup_Some. apply list_lookup_insert_eq. unfold zlen in Hi. lia.
  - rewrite !nth_lookup, list_lookup_insert_ne by lia. done.
Qed.

Lemma nth_grown (t : list AioInfo) n i : nth i (t ++ replicate n aio_zero) aio_zero = nth i t aio_zero.
Proof.
  destruct (decide (i < length t)%nat).
  - by rewrite app_nth1.
  - rewrite app_nth2, (nth_overflow t) by lia. generalize (i - length t)%nat.
    induction n as [|n IH]; intros [|k]; cbn; [done..|apply IH].
Qed.

(** The state after the table grew. *)
Definition grown (t : list AioInfo) (n : nat) (s : Aio) : Aio :=
  s <| asyncIoTable := Some (t ++ replicate n aio_zero) |>
    <| asyncIoTableSize := zlen (t ++ replicate n aio_zero) |>.

Lemma grown_entry t n s i : asyncIoTable s = Some t -> entry (grown t n s) i = entry s i.
Proof. intros E. unfold entry. rewrite E. cbn. apply nth_grown. Qed.

Lemma grown_side t n s ix wait post num : asyncIoTable s = Some t -> zlen t = asyncIoTableSize s ->
  (forall fd, 0 <= fd -> 0 <= ix fd) ->
  side_ok s ix wait post num -> side_ok (grown t n s) ix wait post num.
Proof.
  intros Et Hl Hix [Hu Hb Hd Hn]. split; [| |done|done].
  - intros fd Hfd Hlt. rewrite grown_entry by done.
    destruct (Z.ltb_spec (ix fd) (asyncIoTableSize s)) as [H|H]; [by apply Hu|].
    rewrite bool_decide_eq_false_2 by (intros Hin; apply Hb in Hin; lia).
    unfold entry. rewrite Et. cbn. specialize (Hix fd Hfd). rewrite nth_overflow; [done|].
    unfold zlen in Hl. lia.
  - intros fd Hin. apply Hb in Hin as [? ?]. split; [done|]. cbn. rewrite zlen_app, zlen_replicate. lia.
Qed.

Lemma grown_inv t n s : asyncIoTable s = Some t -> asyncIoTableSize (grown t n s) <= 4096 ->
  aio_inv s -> aio_inv (grown t n s).
Proof.
  intros Et Hn [(t' & Et' & Hl) ? ? ? ?]. assert (t' = t) as -> by congruence. split; [by eexists| |done|..].
  - cbn. cbn in Hn. rewrite zlen_app, zlen_replicate in *. lia.
  - apply grown_side; [done..|unfold AIO_RD_IX; lia|done].
  - apply grown_side; [done..|unfold AIO_WR_IX; lia|done].
Qed.

(** [s'] is [s] with the entry [i] of the table filled and [maxFd] raised to [m]. *)
Definition filled_in (s s' : Aio) (t : list AioInfo) (i : Z) (a : AioInfo) (m : Z) : Prop :=
  asyncIoTable s = Some t /\ zlen t = asyncIoTableSize s /\
  asyncIoTable s' = Some (<[Z.to_nat i := a]> t) /\ asyncIoTableSize s' = asyncIoTableSize s /\
  maxFd s' = m /\ maxFd s <= m /\ 0 <= i < zlen t.

(** The side [ix] when one of its entries was taken into use. *)
Lemma side_post s s' t a ix wait post num fd m : filled_in s s' t (ix fd) a m ->
  side_ok s ix wait post num -> (forall x y, ix x = ix y -> x = y) -> (forall x, 0 <= x -> 0 <= ix x) ->
  0 <= fd <= m -> inUse a = true -> fd ∉ wait ∪ post ->
  side_ok s' ix ({[fd]} ∪ wait) post num.
Proof.
  intros (Et & Hl & Et' & Es & Em & Hm & Hi) [Hu Hb Hd Hn] Hinj Hix Hfd Ha Hni.
  split; [| |set_solver|done].
  - intros x Hx Hlt. erewrite entry_insert by (done || (pose proof (Hix x Hx); lia)).
    destruct (Z.eqb_spec (ix fd) (ix x)) as [E|E].
    + apply Hinj in E as <-. rewrite Ha, bool_decide_eq_true_2 by set_solver. done.
    + transitivity (inUse (entry s (ix x))); [unfold entry; by rewrite Et|].
      rewrite Hu by (done || lia). apply bool_decide_ext. assert (x <> fd) by congruence. set_solver.
  - intros x Hx. destruct (decide (x = fd)) as [->|Hne]; [lia|].
    destruct (Hb x ltac:(set_solver)) as [? ?]. lia.
Qed.

(** The other side is not touched. *)
Lemma side_other s s' t i a ix wait post num m : filled_in s s' t i a m ->
  side_ok s ix wait post num -> (forall x, 0 <= x -> 0 <= ix x /\ ix x <> i) ->
  side_ok s' ix wait post num.
Proof.
  intros (Et & Hl & Et' & Es & Em & Hm & Hi) [Hu Hb Hd Hn] Hix. split; [| |done|done].
  - intros x Hx Hlt. destruct (Hix x Hx). erewrite entry_insert by (done || lia).
    rewrite (proj2 (Z.eqb_neq _ _)) by lia.
    transitivity (inUse (entry s (ix x))); [unfold entry; by rewrite Et|]. apply Hu; lia.
  - intros x Hx. destruct (Hb x Hx) as [? ?]. lia.
Qed.

(** ** Posting, waiting and dispatching keep the invariant *)

Lemma AIO_RD_IX_inj x y : AIO_RD_IX x = AIO_RD_IX y -> x = y.
Proof. unfold AIO_RD_IX. lia. Qed.

Lemma AIO_WR_IX_inj x y : AIO_WR_IX x = AIO_WR_IX y -> x = y.
Proof. unfold AIO_WR_IX. lia. Qed.

Lemma fd_set_Ok fd s : 0 <= fd < FD_SETSIZE -> fd_set fd s = Ok ({[fd]} ∪ s).
Proof.
  intros. unfold fd_set. by rewrite (proj2 (Z.leb_le _ _)), (proj2 (Z.ltb_lt _ _)) by lia.
Qed.

(** The common part of [OS_AsyncRead] and [OS_AsyncWrite]: grow the table, fill the entry. *)
Lemma grow_post_spec s fd i a : aio_inv s -> 0 <= i < 2048 -> inUse (entry s i) = false ->
  let s1 := s <| asyncIoInUse := true |> <| maxFd := Z.max fd (maxFd s) |> in
  exists n t, asyncIoTable s = Some t /\ asyncIoTableSize (grown t n s) <= 4096 /\
    i < zlen (t ++ replicate n aio_zero) /\
    (grow_to 32 i ;;; aio_post i a) s1 =
    Ok (tt, (grown t n s1) <| asyncIoTable := Some (<[Z.to_nat i := a]> (t ++ replicate n aio_zero)) |>).
Proof.
  intros [(t & Et & Hl) Hs Hm _ _] Hi Hu s1.
  destruct (grow_to_spec 32 s1 i t Et Hl Hs Hi ltac:(cbn -[Z.mul Z.pow] in *; lia))
    as (n & s2 & E & Hs2 & Hi2 & Hn2).
  exists n, t. rewrite Hs2 in Hi2. split; [done|]. split; [cbn in *; lia|]. split; [cbn in *; lia|].
  erewrite bind_Ok by exact E. rewrite Hs2. fold (grown t n s1). apply post_entry.
  - done.
  - cbn in *; lia.
  - unfold entry in *. rewrite Et in Hu. cbn in *. by rewrite nth_grown.
Qed.

(** What an asynchronous operation leaves: the entry [i] is [a], every other one as before. *)
Definition entry_set (i : Z) (a : AioInfo) (s s' : Aio) : Prop :=
  entry s' i = a /\ forall j, 0 <= j -> j <> i -> entry s' j = entry s j.

Lemma entry_set_grown s t n i a s' : asyncIoTable s = Some t -> 0 <= i < zlen (t ++ replicate n aio_zero) ->
  asyncIoTable s' = Some (<[Z.to_nat i := a]> (t ++ replicate n aio_zero)) -> entry_set i a s s'.
Proof.
  intros Et Hi Et'. split.
  - erewrite entry_insert by (done || lia). by rewrite Z.eqb_refl.
  - intros j Hj Hne. erewrite entry_insert by (done || lia). rewrite (proj2 (Z.eqb_neq _ _)) by done.
    rewrite nth_grown. unfold entry. by rewrite Et.
Qed.

(** Posting a read of a descriptor that is neither waited for nor posted. *)
Lemma OS_AsyncRead_spec s fd offset buf len proc client : aio_inv s -> 0 <= fd < FD_SETSIZE ->
  fd ∉ readFdSet s ∪ readFdSetPost s ->
  exists s', OS_AsyncRead fd offset buf len proc client s = Ok (0, s') /\ aio_inv s' /\
    readFdSet s' = {[fd]} ∪ readFdSet s /\ readFdSetPost s' = readFdSetPost s /\
    writeFdSet s' = writeFdSet s /\ writeFdSetPost s' = writeFdSetPost s /\
    io_trace s' = io_trace s /\ rd_script s' = rd_script s /\
    entry_set (AIO_RD_IX fd) (mkAio proc client fd len offset buf true) s s'.
Proof.
  intros I Hfd Hni. unfold FD_SETSIZE in Hfd. set (i := AIO_RD_IX fd). set (a := mkAio _ _ _ _ _ _ _).
  assert (Hi : 0 <= i < 2048) by (unfold i, AIO_RD_IX; lia).
  assert (Hu : inUse (entry s i) = false).
  { destruct (Z.ltb_spec i (asyncIoTableSize s)) as [H|H].
    - unfold i. rewrite (sd_used _ _ _ _ _ (ai_read s I)) by (done || lia). by apply bool_decide_eq_false.
    - destruct I as [(t & Et & Hl) ? ? ? ?]. unfold entry. rewrite Et. cbn.
      rewrite nth_overflow; [done|unfold zlen in Hl; lia]. }
  destruct (grow_post_spec s fd i a I Hi Hu) as (n & t & Et & Hn & Hlt & E).
  set (s1 := s <| asyncIoInUse := true |> <| maxFd := Z.max fd (maxFd s) |>) in *.
  set (g := grown t n s). pose proof (grown_inv t n s Et Hn I) as Ig. fold g in Ig.
  set (s2 := (grown t n s1) <| asyncIoTable := Some (<[Z.to_nat i := a]> (t ++ replicate n aio_zero)) |>
               <| readFdSet := {[fd]} ∪ readFdSet s |>).
  exists s2. split.
  { unfold OS_AsyncRead. unfold bind at 1, lift at 1, int_chk, int_fits, INT_MIN, INT_MAX. fold i.
    rewrite (proj2 (Z.leb_le _ _)), (proj2 (Z.leb_le i _)) by lia. cbn [andb].
    unfold bind at 1, get at 1. rewrite Et. rewrite bool_decide_eq_true_2 by done. unfold bind at 1, c_assert, ret at 1.
    unfold bind at 1, modify at 1. unfold bind at 1, modify at 1.
    unfold bind in E. unfold bind at 1.
    change (s <| asyncIoInUse := true |> <| maxFd := _ |>) with s1.
    destruct (grow_to 32 i s1) as [[[] s3]| |]; [|done..]. unfold bind at 1. fold a. rewrite E.
    unfold bind at 1, get at 1. unfold bind at 1, lift at 1. rewrite fd_set_Ok by (unfold FD_SETSIZE; lia). done. }
  split; [|split_and!; [done..|]; apply (entry_set_grown s t n i a); [done|lia|done]].
  destruct Ig as [_ Hsz Hmx Hrd Hwr].
  assert (filled_in g s2 (t ++ replicate n aio_zero) i a (Z.max fd (maxFd s))).
  { split_and!; [done..|cbn -[Z.max]; lia|lia|done]. }
  split.
  - eexists. split; [done|]. cbn. unfold zlen. by rewrite length_insert.
  - exact Hsz.
  - cbn -[Z.max]. unfold FD_SETSIZE. cbn in Hmx. unfold FD_SETSIZE in Hmx. lia.
  - apply (side_post g s2 (t ++ replicate n aio_zero) a AIO_RD_IX _ _ _ fd (Z.max fd (maxFd s)));
      [done|exact Hrd|apply AIO_RD_IX_inj|unfold AIO_RD_IX; lia|lia|done|exact Hni].
  - apply (side_other g s2 (t ++ replicate n aio_zero) i a AIO_WR_IX _ _ _ (Z.max fd (maxFd s)));
      [done|exact Hwr|unfold i, AIO_RD_IX, AIO_WR_IX; lia].
Qed.

Lemma OS_AsyncWrite_spec s fd offset buf len proc client : aio_inv s -> 0 <= fd < FD_SETSIZE ->
  fd ∉ writeFdSet s ∪ writeFdSetPost s ->
  exists s', OS_AsyncWrite fd offset buf len proc client s = Ok (0, s') /\ aio_inv s' /\
    writeFdSet s' = {[fd]} ∪ writeFdSet s /\ writeFdSetPost s' = writeFdSetPost s /\
    readFdSet s' = readFdSet s /\ readFdSetPost s' = readFdSetPost s /\
    io_trace s' = io_trace s /\ rd_script s' = rd_script s /\
    entry_set (AIO_WR_IX fd) (mkAio proc client fd len offset buf true) s s'.
Proof.
  intros I Hfd Hni. unfold FD_SETSIZE in Hfd. set (i := AIO_WR_IX fd). set (a := mkAio _ _ _ _ _ _ _).
  assert (Hi : 0 <= i < 2048) by (unfold i, AIO_WR_IX; lia).
  assert (Hu : inUse (entry s i) = false).
  { destruct (Z.ltb_spec i (asyncIoTableSize s)) as [H|H].
    - unfold i. rewrite (sd_used _ _ _ _ _ (ai_write s I)) by (done || lia). by apply bool_decide_eq_false.
    - destruct I as [(t & Et & Hl) ? ? ? ?]. unfold entry. rewrite Et. cbn.
      rewrite nth_overflow; [done|unfold zlen in Hl; lia]. }
  destruct (grow_post_spec s fd i a I Hi Hu) as (n & t & Et & Hn & Hlt & E).
  set (s1 := s <| asyncIoInUse := true |> <| maxFd := Z.max fd (maxFd s) |>) in *.
  set (g := grown t n s). pose proof (grown_inv t n s Et Hn I) as Ig. fold g in Ig.
  set (s2 := (grown t n s1) <| asyncIoTable := Some (<[Z.to_nat i := a]> (t ++ replicate n aio_zero)) |>
               <| writeFdSet := {[fd]} ∪ writeFdSet s |>).
  exists s2. split.
  { unfold OS_AsyncWrite. unfold bind at 1, lift at 1, int_chk, int_fits, INT_MIN, INT_MAX. fold i.
    rewrite (proj2 (Z.leb_le _ _)), (proj2 (Z.leb_le i _)) by lia. cbn [andb].
    unfold bind at 1, modify at 1. unfold bind at 1, modify at 1.
    unfold bind in E. unfold bind at 1.
    change (s <| asyncIoInUse := true |> <| maxFd := _ |>) with s1.
    destruct (grow_to 32 i s1) as [[[] s3]| |]; [|done..]. unfold bind at 1. fold a. rewrite E.
    unfold bind at 1, get at 1. unfold bind at 1, lift at 1. rewrite fd_set_Ok by (unfold FD_SETSIZE; lia). done. }
  split; [|split_and!; [done..|]; apply (entry_set_grown s t n i a); [done|lia|done]].
  destruct Ig as [_ Hsz Hmx Hrd Hwr].
  assert (filled_in g s2 (t ++ replicate n aio_zero) i a (Z.max fd (maxFd s))).
  { split_and!; [done..|cbn -[Z.max]; lia|lia|done]. }
  split.
  - eexists. split; [done|]. cbn. unfold zlen. by rewrite length_insert.
  - exact Hsz.
  - cbn -[Z.max]. unfold FD_SETSIZE. cbn in Hmx. unfold FD_SETSIZE in Hmx. lia.
  - apply (side_other g s2 (t ++ replicate n aio_zero) i a AIO_RD_IX _ _ _ (Z.max fd (maxFd s)));
      [done|exact Hrd|unfold i, AIO_RD_IX, AIO_WR_IX; lia].
  - apply (side_post g s2 (t ++ replicate n aio_zero) a AIO_WR_IX _ _ _ fd (Z.max fd (maxFd s)));
      [done|exact Hwr|apply AIO_WR_IX_inj|unfold AIO_WR_IX; lia|lia|done|exact Hni].
Qed.

(** The same for standard input, whose entry is always there. *)
Lemma OS_AsyncReadStdin_spec s buf len proc client : aio_inv s ->
  STDIN_FILENO ∉ readFdSet s ∪ readFdSetPost s ->
  exists s', OS_AsyncReadStdin buf len proc client s = Ok (0, s') /\ aio_inv s' /\
    readFdSet s' = {[STDIN_FILENO]} ∪ readFdSet s /\ readFdSetPost s' = readFdSetPost s /\
    writeFdSet s' = writeFdSet s /\ writeFdSetPost s' = writeFdSetPost s /\
    io_trace s' = io_trace s /\ rd_script s' = rd_script s /\
    entry_set (AIO_RD_IX STDIN_FILENO) (mkAio proc client STDIN_FILENO len 0 buf true) s s'.
Proof.
  intros I Hni. set (i := AIO_RD_IX STDIN_FILENO). set (a := mkAio _ _ _ _ _ _ _).
  destruct (ai_table _ I) as (t & Et & Hl). pose proof (ai_size _ I) as Hsz. pose proof (ai_max _ I) as Hmx.
  assert (Hi : i = 0) by done.
  assert (Hu : inUse (entry s i) = false).
  { unfold i. rewrite (sd_used _ _ _ _ _ (ai_read s I)) by (unfold STDIN_FILENO, AIO_RD_IX; lia). by apply bool_decide_eq_false. }
  set (s1 := s <| asyncIoInUse := true |>). set (s2 := s1 <| asyncIoTable := Some (<[Z.to_nat i := a]> t) |>
    <| readFdSet := {[STDIN_FILENO]} ∪ readFdSet s |> <| maxFd := Z.max STDIN_FILENO (maxFd s) |>).
  exists s2. split.
  { unfold OS_AsyncReadStdin. rewrite (bind_Ok (modify _) _ _ tt s1) by done.
    erewrite bind_Ok by (apply (post_entry s1 _ _ t); [done|fold i; lia|done]). reflexivity. }
  assert (F : filled_in s s2 t i a (Z.max STDIN_FILENO (maxFd s))) by (split_and!; (done || lia)).
  split; [|split_and!; [done..|]].
  - destruct I as [_ _ _ Hr Hw]. split.
    + eexists. split; [done|]. cbn. unfold zlen. by rewrite length_insert.
    + exact Hsz.
    + cbn -[Z.max]. unfold STDIN_FILENO, FD_SETSIZE in *. lia.
    + apply (side_post s s2 t a AIO_RD_IX _ _ _ STDIN_FILENO (Z.max STDIN_FILENO (maxFd s)));
        [done|exact Hr|apply AIO_RD_IX_inj|unfold AIO_RD_IX; lia|unfold STDIN_FILENO; lia|done|exact Hni].
    + apply (side_other s s2 t i a AIO_WR_IX _ _ _ (Z.max STDIN_FILENO (maxFd s))); [done|exact Hw|].
      unfold i, AIO_RD_IX, AIO_WR_IX, STDIN_FILENO. lia.
  - apply (entry_set_grown s t 0 i a s2 Et); cbn [replicate]; rewrite app_nil_r; [lia|done].
Qed.

(** C35: an asynchronous read of a free descriptor keeps the invariant of the I/O table (an
    entry is in use exactly when its descriptor is waited for or posted, the counters count the
    posted ones), grows the table when needed, fills the entry of the descriptor and leaves every
    other entry as it was; a write does the same on its side. *)
Theorem OS_Async_keeps_invariant s fd offset buf len proc client :
  aio_inv s -> 0 <= fd < FD_SETSIZE ->
  (fd ∉ readFdSet s ∪ readFdSetPost s ->
   exists s', OS_AsyncRead fd offset buf len proc client s = Ok (0, s') /\ aio_inv s' /\
     readFdSet s' = {[fd]} ∪ readFdSet s /\
     entry_set (AIO_RD_IX fd) (mkAio proc client fd len offset buf true) s s') /\
  (fd ∉ writeFdSet s ∪ writeFdSetPost s ->
   exists s', OS_AsyncWrite fd offset buf len proc client s = Ok (0, s') /\ aio_inv s' /\
     writeFdSet s' = {[fd]} ∪ writeFdSet s /\
     entry_set (AIO_WR_IX fd) (mkAio proc client fd len offset buf true) s s').
Proof.
  intros I Hfd. split; intros Hni.
  - destruct (OS_AsyncRead_spec s fd offset buf len proc client I Hfd Hni)
      as (s' & E & I' & Hs & _ & _ & _ & _ & _ & He). by exists s'.
  - destruct (OS_AsyncWrite_spec s fd offset buf len proc client I Hfd Hni)
      as (s' & E & I' & Hs & _ & _ & _ & _ & _ & He). by exists s'.
Qed.

(** The library's handlers. *)
Definition own_handlers : gmap Z disposition :=
  <[SIGTERM := OS_Sigusr1Handler]> (<[SIGUSR1 := OS_Sigusr1Handler]> (<[SIGPIPE := OS_SigpipeHandler]> ∅)).

(** The state after [OS_LibInit] satisfies the invariant. *)
Definition aio_fresh : Aio :=
  mkAioState false (Some (replicate 16 aio_zero)) 16 true ∅ ∅ ∅ ∅ 0 0 (-1) [] [] [] [] [] [] own_handlers.

Lemma aio_fresh_init : OS_LibInit aio_init = Ok (0, aio_fresh).
Proof. reflexivity. Qed.

Lemma entry_fresh i : entry aio_fresh i = aio_zero.
Proof. unfold entry. cbn [default from_option asyncIoTable aio_fresh id]. rewrite <- (app_nil_l (replicate 16 aio_zero)), nth_grown.
  by destruct (Z.to_nat i).
Qed.

Lemma aio_fresh_inv : aio_inv aio_fresh.
Proof.
  assert (H : forall ix, side_ok aio_fresh ix ∅ ∅ 0).
  { intros ix. split; [|set_solver|set_solver|done].
    intros fd _ _. rewrite entry_fresh. by rewrite bool_decide_eq_false_2 by set_solver. }
  split; [by eexists|cbn; lia|done|apply H|apply H].
Qed.

(** Descriptor 9 needs entries beyond the sixteen of the initial table. *)
Lemma OS_Async_keeps_invariant_witness :
  exists s', OS_AsyncRead 9 0 100 8 1 9 aio_fresh = Ok (0, s') /\ aio_inv s' /\
    readFdSet s' = {[9]} ∪ ∅ /\ asyncIoTableSize s' = 32.
Proof.
  destruct (proj1 (OS_Async_keeps_invariant aio_fresh 9 0 100 8 1 9 aio_fresh_inv ltac:(unfold FD_SETSIZE; lia))
              ltac:(vm_compute; set_solver)) as (s' & E & I & Hs & _).
  exists s'. split; [exact E|]. split; [exact I|]. split; [exact Hs|].
  vm_compute in E. injection E as <-. reflexivity.
Defined.

(** What the signal does after [OS_LibInit]. *)
Definition own_handler (signo : Z) (d : disposition) : disposition :=
  if negb (unhandled d) then d
  else if signo =? SIGPIPE then OS_SigpipeHandler
  else if (signo =? SIGUSR1) || (signo =? SIGTERM) then OS_Sigusr1Handler
  else d.

Lemma handler_installed signo act force (s : Aio) : exists s', installSignalHandler signo act force s = Ok (tt, s') /\
  handler_of signo s' = (if force || unhandled (handler_of signo s) then act else handler_of signo s) /\
  (forall n, n <> signo -> handler_of n s' = handler_of n s) /\ s' = s <| handlers := handlers s' |>.
Proof.
  unfold installSignalHandler, bind, get. destruct (force || unhandled (handler_of signo s)).
  - eexists. split; [reflexivity|]. unfold handler_of. cbn. rewrite lookup_insert_eq. split_and!; [done| |by destruct s].
    intros n Hn. by rewrite lookup_insert_ne.
  - exists s. split_and!; try done. by destruct s.
Qed.

(** What [OS_LibInit] does to a library that was not initialised. *)
Lemma OS_LibInit_spec (s : Aio) : libInitialized s = false ->
  exists h, OS_LibInit s = Ok (0, s <| asyncIoTable := Some (replicate (Z.to_nat (asyncIoTableSize s)) aio_zero) |>
      <| readFdSet := ∅ |> <| writeFdSet := ∅ |> <| readFdSetPost := ∅ |> <| writeFdSetPost := ∅ |> <| handlers := h |> <| libInitialized := true |>) /\
    forall signo, default SIG_DFL (h !! signo) = own_handler signo (handler_of signo s).
Proof.
  intros Hl. set (s1 := s <| asyncIoTable := Some (replicate (Z.to_nat (asyncIoTableSize s)) aio_zero) |>
      <| readFdSet := ∅ |> <| writeFdSet := ∅ |> <| readFdSetPost := ∅ |> <| writeFdSetPost := ∅ |>).
  destruct (handler_installed SIGPIPE OS_SigpipeHandler false s1) as (s2 & E2 & H2 & O2 & F2).
  destruct (handler_installed SIGUSR1 OS_Sigusr1Handler false s2) as (s3 & E3 & H3 & O3 & F3).
  destruct (handler_installed SIGTERM OS_Sigusr1Handler false s3) as (s4 & E4 & H4 & O4 & F4).
  assert (E : OS_InstallSignalHandlers false s1 = Ok (tt, s4)).
  { unfold OS_InstallSignalHandlers. by rewrite (bind_Ok _ _ _ _ _ E2), (bind_Ok _ _ _ _ _ E3). }
  exists (handlers s4). split.
  - unfold OS_LibInit, bind at 1, get. rewrite Hl. erewrite bind_Ok by reflexivity. erewrite bind_Ok by reflexivity. fold s1.
    rewrite (bind_Ok _ _ _ _ _ E). by rewrite F4, F3, F2.
  - intros signo. change (default SIG_DFL (handlers s4 !! signo)) with (handler_of signo s4).
    change (handler_of signo s) with (handler_of signo s1). unfold own_handler.
    destruct (Z.eqb_spec signo SIGPIPE) as [->|Np]; [|destruct (Z.eqb_spec signo SIGUSR1) as [->|Nu]; [|destruct (Z.eqb_spec signo SIGTERM) as [->|Nt]]].
    + rewrite O4, O3, H2 by done. by destruct (unhandled _).
    + rewrite O4, H3, O2 by done. destruct (unhandled (handler_of SIGUSR1 s1)); reflexivity.
    + rewrite H4, O3, O2 by done. destruct (unhandled (handler_of SIGTERM s1)); reflexivity.
    + rewrite O4, O3, O2 by done. destruct (unhandled (handler_of signo s1)); reflexivity.
Qed.

(** [OS_LibInit] handles SIGPIPE, SIGUSR1 and SIGTERM, unless the application does: a handler that
    was installed before is kept, and no other signal is touched.  A second call does nothing. *)
Theorem OS_LibInit_handlers (s : Aio) : libInitialized s = false ->
  exists s', OS_LibInit s = Ok (0, s') /\ OS_LibInit s' = Ok (0, s') /\
    forall signo, handler_of signo s' = own_handler signo (handler_of signo s).
Proof.
  intros Hl. destruct (OS_LibInit_spec s Hl) as (h & E & H). eexists. split; [exact E|]. split; [done|]. exact H.
Qed.

Lemma OS_LibInit_handlers_witness : let s := aio_init <| handlers := {[SIGTERM := OtherHandler 1; SIGPIPE := SIG_IGN]} |> in
  exists s', OS_LibInit s = Ok (0, s') /\ handler_of SIGTERM s' = OtherHandler 1 /\ handler_of SIGPIPE s' = OS_SigpipeHandler /\
    handler_of SIGUSR1 s' = OS_Sigusr1Handler.
Proof.
  intros s. destruct (OS_LibInit_handlers s eq_refl) as (s' & E & _ & H). exists s'. split; [exact E|].
  split; [|split]; rewrite H; reflexivity.
Defined.
