(* ===== verification/OsDoIo.v ===== *)
(** * [OS_DoIo]: waiting and dispatching the completed operations

    [OS_DoIo] of [libfcgi/os_unix.c] waits with [select], marks what is ready as posted, and does
    the posted reads and writes and calls back the application.  The callbacks and the memory
    they read and write are an interface here, [Application]; CgiLoop.v is the application of the
    repository. *)

From stdpp Require Import gmap.
From S2P Require Import Prelude FcgiProto FcgiStream OsAsync.

(** The memory the posted buffers are in, and the callbacks: [( *procPtr)(clientData, len)], with
    [Some code] when it ends the process by [exit(code)]. *)
Class Application (App : Type) := {
  mem_load : App -> Z -> Z -> list Z;
  mem_store : Z -> list Z -> App -> App;
  callback : Z -> Z -> Z -> M (Aio * App) (option Z) }.

(** [m], and then [k] unless [m] ended the process. *)
Definition unless_exit {S} (m k : M S (option Z)) : M S (option Z) :=
  e <- m ;;
  match e with Some code => ret (Some code) | None => k end.

Section DoIo.
Context {App : Type} {app : Application App}.

Definition on_aio {A} (m : M Aio A) : M (Aio * App) A :=
  zoom fst (fun a s => (a, snd s)) m.

(** [read(fd, buf, len)] of the dispatcher: the bytes go to the application's memory.  Past its
    script the kernel reports the end of the file. *)
Definition aio_read (a : AioInfo) : M (Aio * App) Z :=
  s <- get ;;
  let '(r, rest) := match rd_script (fst s) with [] => (Some [], []) | r :: rest => (r, rest) end in
  on_aio (modify (fun s => s <| rd_script := rest |>)) ;;;
  match r with
  | None => ret (-1)
  | Some bs =>
      let bs := take (Z.to_nat (aio_len a)) bs in
      on_aio (modify (fun s => s <| io_trace := io_trace s ++ [IoRead (aio_fd a) bs] |>)) ;;;
      modify (fun s => (fst s, mem_store (aio_buf a) bs (snd s))) ;;;
      ret (zlen bs)
  end.

(** [write(fd, buf, len)]: the kernel takes a part of the bytes; past its script all of them. *)
Definition aio_write (a : AioInfo) : M (Aio * App) Z :=
  s <- get ;;
  let bs := mem_load (snd s) (aio_buf a) (aio_len a) in
  let '(r, rest) := match wr_script (fst s) with [] => (Some (length bs), []) | r :: rest => (r, rest) end in
  on_aio (modify (fun s => s <| wr_script := rest |>)) ;;;
  match r with
  | None => ret (-1)
  | Some n =>
      on_aio (modify (fun s => s <| io_trace := io_trace s ++ [IoWrite (aio_fd a) (take n bs)] |>)) ;;;
      ret (zlen (take n bs))
  end.

(** The descriptors [0 .. maxFd]. *)
Definition fds_upto (maxFd : Z) : list Z := seqZ 0 (maxFd + 1).

(** The loop that builds the list of completed events. *)
Definition post_ready (rd wr : gset Z) (s : Aio) (fd : Z) : Aio :=
  let s := if bool_decide (fd ∈ rd)
           then s <| numRdPosted := numRdPosted s + 1 |>
                  <| readFdSetPost := {[fd]} ∪ readFdSetPost s |>
                  <| readFdSet := readFdSet s ∖ {[fd]} |>
           else s in
  if bool_decide (fd ∈ wr)
  then s <| numWrPosted := numWrPosted s + 1 |>
         <| writeFdSetPost := {[fd]} ∪ writeFdSetPost s |>
         <| writeFdSet := writeFdSet s ∖ {[fd]} |>
  else s.

(** "If there were no completed events from a prior call, see if there's any work to do."
    [Some code] for [exit(code)]; a [select] past its script never returns. *)
Definition wait_ready : M Aio (option Z) :=
  s <- get ;;
  if (numRdPosted s =? 0) && (numWrPosted s =? 0) then
    match sel_script s with
    | [] => nofuel
    | SelErr e :: rest => modify (fun s => s <| sel_script := rest |>) ;;; ret (Some e)
    | SelReady rd wr :: rest =>
        modify (fun s => s <| sel_script := rest |>) ;;;
        modify (fun s => fold_left (post_ready (rd ∩ readFdSet s) (wr ∩ writeFdSet s))
                                   (fds_upto (maxFd s)) s) ;;;
        ret None
    end
  else ret None.

(** One event: [io] is the [read] or the [write]. *)
Definition complete (index : Z) (io : AioInfo -> M (Aio * App) Z) : M (Aio * App) (option Z) :=
  a <- on_aio (aio_get index) ;;
  len <- io a ;;
  on_aio (aio_put index (mkAio 0 (clientData a) (aio_fd a) (aio_len a) (aio_offset a)
                               (aio_buf a) false)) ;;;
  callback (procPtr a) (clientData a) len.

Definition dispatch_read (fd : Z) : M (Aio * App) (option Z) :=
  s <- get ;;
  if bool_decide (fd ∈ readFdSetPost (fst s)) then
    a <- on_aio (aio_get (AIO_RD_IX fd)) ;;
    if inUse a then
      on_aio (modify (fun s => s <| numRdPosted := numRdPosted s - 1 |>
                                 <| readFdSetPost := readFdSetPost s ∖ {[fd]} |>)) ;;;
      complete (AIO_RD_IX fd) aio_read
    else ret None
  else ret None.

Definition dispatch_write (fd : Z) : M (Aio * App) (option Z) :=
  s <- get ;;
  if bool_decide (fd ∈ writeFdSetPost (fst s)) then
    a <- on_aio (aio_get (AIO_WR_IX fd)) ;;
    if inUse a then
      on_aio (modify (fun s => s <| numWrPosted := numWrPosted s - 1 |>
                                 <| writeFdSetPost := writeFdSetPost s ∖ {[fd]} |>)) ;;;
      complete (AIO_WR_IX fd) aio_write
    else ret None
  else ret None.

(** [for (fd = 0; fd <= maxFd; fd++)]: a callback may change [maxFd] on the way. *)
Fixpoint dispatch_loop (fuel : nat) (fd : Z) : M (Aio * App) (option Z) :=
  match fuel with
  | O => nofuel
  | S fuel =>
      s <- get ;;
      if maxFd (fst s) <? fd then ret None else
      unless_exit (dispatch_read fd) (unless_exit (dispatch_write fd) (dispatch_loop fuel (fd + 1)))
  end.

(** [Some code] when the process exits.  [maxFd] stays below [FD_SETSIZE], which bounds the turns
    of the loop. *)
Definition OS_DoIo : M (Aio * App) (option Z) :=
  on_aio (modify (fun s => s <| asyncIoInUse := true |>)) ;;;
  unless_exit (on_aio wait_ready) (
  s <- get ;;
  if (numRdPosted (fst s) =? 0) && (numWrPosted (fst s) =? 0) then ret None else
  dispatch_loop (Z.to_nat (FD_SETSIZE + 2)) 0).
End DoIo.

(** ** The invariant of the table through a dispatch *)

(** One descriptor that [select] reported. *)
Definition report (rd wr : gset Z) (s : Aio) (fd : Z) : Prop :=
  (fd ∈ rd -> fd ∈ readFdSet s) /\ (fd ∈ wr -> fd ∈ writeFdSet s).

Lemma side_move s s' ix wait post num fd : asyncIoTable s' = asyncIoTable s ->
  asyncIoTableSize s' = asyncIoTableSize s -> maxFd s' = maxFd s -> fd ∈ wait ->
  side_ok s ix wait post num -> side_ok s' ix (wait ∖ {[fd]}) ({[fd]} ∪ post) (num + 1).
Proof.
  intros Et Es Em Hfd [Hu Hb Hd Hn]. split.
  - intros x Hx Hlt. unfold entry. rewrite Et. fold (entry s (ix x)). rewrite Hu by congruence.
    apply bool_decide_ext. destruct (decide (x = fd)) as [->|]; set_solver.
  - intros x Hx. rewrite Em, Es. apply Hb. destruct (decide (x = fd)) as [->|]; set_solver.
  - set_solver.
  - rewrite size_union by set_solver. rewrite size_singleton. lia.
Qed.

Lemma side_same s s' ix wait post num : asyncIoTable s' = asyncIoTable s ->
  asyncIoTableSize s' = asyncIoTableSize s -> maxFd s' = maxFd s ->
  side_ok s ix wait post num -> side_ok s' ix wait post num.
Proof.
  intros Et Es Em [Hu Hb Hd Hn]. split; [| |done|done].
  - intros x Hx Hlt. unfold entry. rewrite Et. fold (entry s (ix x)). apply Hu; congruence.
  - intros x Hx. rewrite Em, Es. by apply Hb.
Qed.

Lemma post_ready_inv rd wr s fd : aio_inv s -> report rd wr s fd -> aio_inv (post_ready rd wr s fd).
Proof.
  intros [Ht Hs Hm Hr Hw] [Hrd Hwr]. unfold post_ready. set (s1 := if bool_decide (fd ∈ rd) then _ else s).
  assert (I1 : aio_inv s1 /\ writeFdSet s1 = writeFdSet s).
  { unfold s1. case_bool_decide as Hin; [|split; [by split|done]]. split; [|done]. split; try done.
    - by apply (side_move s), Hr; auto.
    - by apply (side_same s), Hw. }
  destruct I1 as [[Ht1 Hs1 Hm1 Hr1 Hw1] Ew]. case_bool_decide as Hin; [|by split]. split; try done.
  - by apply (side_same s1), Hr1.
  - apply (side_move s1); try done. rewrite Ew. by apply Hwr.
Qed.

Lemma post_ready_sets rd wr s fd x : x <> fd ->
  (x ∈ readFdSet (post_ready rd wr s fd) <-> x ∈ readFdSet s) /\
  (x ∈ writeFdSet (post_ready rd wr s fd) <-> x ∈ writeFdSet s).
Proof. intros. unfold post_ready. do 2 case_bool_decide; cbn; set_solver. Qed.

Lemma post_all_inv rd wr fds : NoDup fds -> forall s, aio_inv s -> Forall (report rd wr s) fds ->
  aio_inv (fold_left (post_ready rd wr) fds s).
Proof.
  induction 1 as [|fd fds Hni _ IH]; intros s I Hr; [done|]. inversion_clear Hr as [|? ? H1 H2].
  cbn [fold_left]. apply IH; [by apply post_ready_inv|].
  rewrite list.Forall_forall in *. intros x Hx. specialize (H2 x Hx) as [? ?].
  destruct (post_ready_sets rd wr s fd x) as [E1 E2]; [intros ->; done|].
  split; intros; [apply E1|apply E2]; auto.
Qed.

(** The wait of [OS_DoIo] keeps the invariant whatever [select] reports. *)
Lemma wait_ready_inv s : aio_inv s -> sel_script s <> [] ->
  exists r s', wait_ready s = Ok (r, s') /\ aio_inv s'.
Proof.
  intros I Hne. unfold wait_ready, bind at 1, get at 1.
  destruct (_ && _); [|by exists None, s]. destruct (sel_script s) as [|[rd wr|e] rest]; [done|..].
  - eexists None, _. split; [reflexivity|]. set (s1 := s <| sel_script := rest |>).
    assert (I1 : aio_inv s1).
    { destruct I as [Ht Hs Hm Hr Hw]. split; [done..| |]; by apply (side_same s). }
    apply post_all_inv; [apply NoDup_seqZ|done|]. apply Forall_forall. intros x _.
    split; set_solver.
  - eexists (Some e), _. split; [reflexivity|].
    destruct I as [Ht Hs Hm Hr Hw]. split; [done..| |]; by apply (side_same s).
Qed.

Section Dispatch.
Context {App : Type} {app : Application App}.

(** What the kernel answers to a read, and what that makes of the state. *)
Definition got_len (r : option (list Z)) : Z := match r with Some bs => zlen bs | None => -1 end.

Definition read_done (a : AioInfo) (r : option (list Z)) (scr : list (option (list Z))) (s : Aio * App) : Aio * App :=
  match r with
  | Some bs => ((fst s) <| rd_script := scr |> <| io_trace := io_trace (fst s) ++ [IoRead (aio_fd a) bs] |>,
                mem_store (aio_buf a) bs (snd s))
  | None => ((fst s) <| rd_script := scr |>, snd s)
  end.

(** The kernel delivers bytes. *)
Definition script_ok (scr : list (option (list Z))) : Prop :=
  Forall (fun r => forall bs, r = Some bs -> Forall is_byte bs) scr.

Lemma aio_read_spec a (s : Aio * App) : 0 <= aio_len a -> exists r scr,
  aio_read a s = Ok (got_len r, read_done a r scr s) /\ got_len r <= aio_len a /\
  (script_ok (rd_script (fst s)) -> (forall bs, r = Some bs -> Forall is_byte bs) /\ script_ok scr).
Proof.
  intros Hl. unfold aio_read. rewrite (bind_Ok get _ _ s s) by done.
  set (answer := match rd_script (fst s) with [] => _ | _ => _ end).
  assert (Hscr : script_ok (rd_script (fst s)) ->
    (forall bs, fst answer = Some bs -> Forall is_byte bs) /\ script_ok (snd answer)).
  { unfold answer. intros H. destruct (rd_script (fst s)) as [|r0 rest0]; [|by inversion_clear H].
    split; [|done]. by intros bs [= <-]. }
  destruct answer as [r rest]. cbn [fst snd] in Hscr. exists (take (Z.to_nat (aio_len a)) <$> r), rest.
  assert (Hby : script_ok (rd_script (fst s)) ->
    (forall bs, take (Z.to_nat (aio_len a)) <$> r = Some bs -> Forall is_byte bs) /\ script_ok rest).
  { intros H. destruct (Hscr H) as [Hr ?]. split; [|done]. intros bs Hbs. destruct r as [bs0|]; [|done].
    injection Hbs as <-. apply Forall_take. by apply Hr. }
  destruct r as [bs|]; (split; [reflexivity|]); cbn [fmap option_fmap option_map got_len]; (split; [|done]); [|lia].
  unfold zlen. rewrite length_take. lia.
Qed.

(** What the kernel takes of a write. *)
Definition write_len (r : option (list Z)) : Z := got_len r.

Definition write_done (a : AioInfo) (r : option (list Z)) (scr : list (option nat)) (s : Aio * App) : Aio * App :=
  match r with
  | Some bs => ((fst s) <| wr_script := scr |> <| io_trace := io_trace (fst s) ++ [IoWrite (aio_fd a) bs] |>, snd s)
  | None => ((fst s) <| wr_script := scr |>, snd s)
  end.

Lemma aio_write_spec a (s : Aio * App) : exists r scr,
  aio_write a s = Ok (write_len r, write_done a r scr s) /\
  forall bs, r = Some bs -> exists n, bs = take n (mem_load (snd s) (aio_buf a) (aio_len a)).
Proof.
  unfold aio_write. rewrite (bind_Ok get _ _ s s) by done. set (bs := mem_load _ _ _).
  destruct (match wr_script (fst s) with [] => _ | _ => _ end) as [r rest].
  exists ((fun n => take n bs) <$> r), rest.
  destruct r as [n|]; (split; [reflexivity|]); intros x [= <-]. by exists n.
Qed.

(** An entry of the table that is given back. *)
Definition released (a : AioInfo) : AioInfo :=
  mkAio 0 (clientData a) (aio_fd a) (aio_len a) (aio_offset a) (aio_buf a) false.

(** The side [ix] when the posted descriptor [fd] was dispatched and its entry released. *)
Lemma side_release s s' t a ix wait post num fd m : filled_in s s' t (ix fd) a m ->
  side_ok s ix wait post num -> (forall x y, ix x = ix y -> x = y) -> (forall x, 0 <= x -> 0 <= ix x) ->
  inUse a = false -> fd ∈ post -> side_ok s' ix wait (post ∖ {[fd]}) (num - 1).
Proof.
  intros (Et & Hl & Et' & Es & Em & Hm & Hi) [Hu Hb Hd Hn] Hinj Hix Ha Hin.
  split; [| |set_solver|].
  - intros x Hx Hlt. erewrite entry_insert by (done || (pose proof (Hix x Hx); lia)).
    destruct (Z.eqb_spec (ix fd) (ix x)) as [E|E].
    + apply Hinj in E as <-. rewrite Ha, bool_decide_eq_false_2 by set_solver. done.
    + transitivity (inUse (entry s (ix x))); [unfold entry; by rewrite Et|].
      rewrite Hu by (done || lia). apply bool_decide_ext. assert (x <> fd) by congruence. set_solver.
  - intros x Hx. destruct (Hb x ltac:(set_solver)) as [? ?]. lia.
  - rewrite size_difference by set_solver. rewrite size_singleton. 
    assert (size post <> 0%nat) by (intros Hz; apply size_empty_inv in Hz; set_solver). lia.
Qed.

Lemma complete_spec i io (s s' : Aio * App) t n : asyncIoTable (fst s) = Some t -> 0 <= i < zlen t ->
  io (entry (fst s) i) s = Ok (n, s') -> asyncIoTable (fst s') = Some t ->
  complete i io s = callback (procPtr (entry (fst s) i)) (clientData (entry (fst s) i)) n
    ((fst s') <| asyncIoTable := Some (<[Z.to_nat i := released (entry (fst s) i)]> t) |>, snd s').
Proof.
  intros Et Hi E Et'. unfold complete. set (a := entry (fst s) i) in *.
  erewrite bind_Ok with (a := a) (s' := s).
  2:{ unfold on_aio, zoom, aio_get, bind, get. rewrite Et. rewrite (proj2 (Z.leb_le _ _)), (proj2 (Z.ltb_lt _ _)) by lia.
      cbn [andb]. unfold a, entry. rewrite Et. by destruct s. }
  erewrite bind_Ok by exact E. erewrite bind_Ok; [reflexivity|].
  unfold on_aio, zoom, aio_put, bind, get. rewrite Et'. rewrite (proj2 (Z.leb_le _ _)), (proj2 (Z.ltb_lt _ _)) by lia.
  cbn [andb]. unfold modify. by rewrite splice_insert by lia.
Qed.

(** Everything but the table, the posted side and the trace is as before the dispatch. *)
Record dispatched (s s1 : Aio) (i : Z) : Prop := {
  dp_inv : aio_inv s1;
  dp_max : maxFd s1 = maxFd s;
  dp_entry : entry_set i (released (entry s i)) s s1;
  dp_waiting : readFdSet s1 = readFdSet s /\ writeFdSet s1 = writeFdSet s }.

(** A posted read is taken off the list, performed, and its callback is called with its
    result, in a state where the invariant holds and the entry is free again. *)
Lemma dispatch_read_spec fd (s : Aio * App) : aio_inv (fst s) -> fd ∈ readFdSetPost (fst s) ->
  0 <= aio_len (entry (fst s) (AIO_RD_IX fd)) ->
  let a := entry (fst s) (AIO_RD_IX fd) in
  exists r scr s1, dispatch_read fd s = callback (procPtr a) (clientData a) (got_len r) s1 /\
    got_len r <= aio_len a /\
    (script_ok (rd_script (fst s)) -> (forall bs, r = Some bs -> Forall is_byte bs) /\ script_ok (rd_script (fst s1))) /\
    snd s1 = snd (read_done a r scr s) /\
    io_trace (fst s1) = io_trace (fst (read_done a r scr s)) /\ dispatched (fst s) (fst s1) (AIO_RD_IX fd) /\
    readFdSetPost (fst s1) = readFdSetPost (fst s) ∖ {[fd]} /\ writeFdSetPost (fst s1) = writeFdSetPost (fst s).
Proof.
  intros I Hin Hlen. destruct (ai_read _ I) as [Hu Hb Hd Hn].
  destruct (Hb fd ltac:(set_solver)) as [Hfd Hlt].
  set (i := AIO_RD_IX fd) in *. assert (Hi : 0 <= i) by (unfold i, AIO_RD_IX; lia). cbv zeta.
  set (a := entry (fst s) i) in *.
  assert (Ha : inUse a = true) by (unfold a, i; rewrite Hu by (done || lia); by apply bool_decide_eq_true_2; set_solver).
  destruct (ai_table _ I) as (t & Et & Hl).
  set (s0 := ((fst s) <| numRdPosted := numRdPosted (fst s) - 1 |> <| readFdSetPost := readFdSetPost (fst s) ∖ {[fd]} |>, snd s)).
  destruct (aio_read_spec a s0 Hlen) as (r & scr & Er & Hr & Hby).
  assert (Et2 : asyncIoTable (fst (read_done a r scr s0)) = Some t) by (by destruct r).
  eexists r, scr, _. split.
  { unfold dispatch_read. rewrite (bind_Ok get _ _ s s) by done. rewrite bool_decide_eq_true_2 by done. fold i.
    erewrite bind_Ok by (unfold on_aio, zoom; rewrite (aio_get_Ok _ i I) by lia; reflexivity). fold a. rewrite Ha.
    erewrite bind_Ok with (s' := s0) by reflexivity.
    assert (Ea : entry (fst s0) i = a) by done.
    rewrite (complete_spec i aio_read s0 _ t _ Et ltac:(lia) ltac:(rewrite Ea; exact Er) Et2), Ea. reflexivity. }
  split; [done|]. split; [by destruct r|]. split; [by destruct r|]. split; [by destruct r|].
  set (s1 := (_ <| asyncIoTable := _ |>) : Aio). cbn [fst].
  assert (F : filled_in (fst s) s1 t i (released a) (maxFd (fst s))).
  { unfold s1. destruct r; split_and!; (done || lia). }
  assert (Hs : readFdSet s1 = readFdSet (fst s) /\ writeFdSet s1 = writeFdSet (fst s) /\ maxFd s1 = maxFd (fst s) /\
     readFdSetPost s1 = readFdSetPost (fst s) ∖ {[fd]} /\ writeFdSetPost s1 = writeFdSetPost (fst s) /\
     numRdPosted s1 = numRdPosted (fst s) - 1 /\ numWrPosted s1 = numWrPosted (fst s)) by (unfold s1; by destruct r).
  clearbody s1. destruct Hs as (Hrs & Hws & Hm & Hrp & Hwp & Hnr & Hnw).
  split; [|done]. split; [|done| |done].
  - destruct I as [_ Hsz Hmx HR HW]. pose proof F as (_ & _ & Et' & Esz & _). split.
    + eexists. split; [exact Et'|]. unfold zlen. rewrite length_insert. unfold zlen in Hl. lia.
    + by rewrite Esz.
    + by rewrite Hm.
    + rewrite Hrs, Hrp, Hnr. by apply (side_release (fst s) s1 t (released a) AIO_RD_IX _ _ _ fd (maxFd (fst s)));
        [| |apply AIO_RD_IX_inj|unfold AIO_RD_IX; lia| |].
    + rewrite Hws, Hwp, Hnw. apply (side_other (fst s) s1 t i (released a) AIO_WR_IX _ _ _ (maxFd (fst s))); [done|done|].
      unfold i, AIO_RD_IX, AIO_WR_IX. lia.
  - apply (entry_set_grown (fst s) t 0 i _ s1 Et); cbn [replicate]; rewrite app_nil_r; [lia|apply F].
Qed.

(** The same for a posted write. *)
Lemma dispatch_write_spec fd (s : Aio * App) : aio_inv (fst s) -> fd ∈ writeFdSetPost (fst s) ->
  let a := entry (fst s) (AIO_WR_IX fd) in
  exists r scr s1, dispatch_write fd s = callback (procPtr a) (clientData a) (write_len r) s1 /\
    (forall bs, r = Some bs -> exists n, bs = take n (mem_load (snd s) (aio_buf a) (aio_len a))) /\ snd s1 = snd s /\
    io_trace (fst s1) = io_trace (fst (write_done a r scr s)) /\ dispatched (fst s) (fst s1) (AIO_WR_IX fd) /\
    writeFdSetPost (fst s1) = writeFdSetPost (fst s) ∖ {[fd]} /\ readFdSetPost (fst s1) = readFdSetPost (fst s) /\ rd_script (fst s1) = rd_script (fst s).
Proof.
  intros I Hin. destruct (ai_write _ I) as [Hu Hb Hd Hn].
  destruct (Hb fd ltac:(set_solver)) as [Hfd Hlt].
  set (i := AIO_WR_IX fd) in *. assert (Hi : 0 <= i) by (unfold i, AIO_WR_IX; lia). cbv zeta.
  set (a := entry (fst s) i) in *.
  assert (Ha : inUse a = true) by (unfold a, i; rewrite Hu by (done || lia); by apply bool_decide_eq_true_2; set_solver).
  destruct (ai_table _ I) as (t & Et & Hl).
  set (s0 := ((fst s) <| numWrPosted := numWrPosted (fst s) - 1 |> <| writeFdSetPost := writeFdSetPost (fst s) ∖ {[fd]} |>, snd s)).
  destruct (aio_write_spec a s0) as (r & scr & Er & Hr).
  assert (Et2 : asyncIoTable (fst (write_done a r scr s0)) = Some t) by (by destruct r).
  eexists r, scr, _. split.
  { unfold dispatch_write. rewrite (bind_Ok get _ _ s s) by done. rewrite bool_decide_eq_true_2 by done. fold i.
    erewrite bind_Ok by (unfold on_aio, zoom; rewrite (aio_get_Ok _ i I) by lia; reflexivity). fold a. rewrite Ha.
    erewrite bind_Ok with (s' := s0) by reflexivity.
    assert (Ea : entry (fst s0) i = a) by done.
    rewrite (complete_spec i aio_write s0 _ t _ Et ltac:(lia) ltac:(rewrite Ea; exact Er) Et2), Ea. reflexivity. }
  split; [done|]. split; [by destruct r|]. split; [by destruct r|].
  set (s1 := (_ <| asyncIoTable := _ |>) : Aio). cbn [fst].
  assert (F : filled_in (fst s) s1 t i (released a) (maxFd (fst s))).
  { unfold s1. destruct r; split_and!; (done || lia). }
  assert (Hs : readFdSet s1 = readFdSet (fst s) /\ writeFdSet s1 = writeFdSet (fst s) /\ maxFd s1 = maxFd (fst s) /\
     writeFdSetPost s1 = writeFdSetPost (fst s) ∖ {[fd]} /\ readFdSetPost s1 = readFdSetPost (fst s) /\
     numWrPosted s1 = numWrPosted (fst s) - 1 /\ numRdPosted s1 = numRdPosted (fst s) /\ rd_script s1 = rd_script (fst s)) by (unfold s1; by destruct r).
  clearbody s1. destruct Hs as (Hrs & Hws & Hm & Hwp & Hrp & Hnw & Hnr & Hscr).
  split; [|done]. split; [|done| |done].
  - destruct I as [_ Hsz Hmx HR HW]. pose proof F as (_ & _ & Et' & Esz & _). split.
    + eexists. split; [exact Et'|]. unfold zlen. rewrite length_insert. unfold zlen in Hl. lia.
    + by rewrite Esz.
    + by rewrite Hm.
    + rewrite Hrs, Hrp, Hnr. apply (side_other (fst s) s1 t i (released a) AIO_RD_IX _ _ _ (maxFd (fst s))); [done|done|].
      unfold i, AIO_RD_IX, AIO_WR_IX. lia.
    + rewrite Hws, Hwp, Hnw. by apply (side_release (fst s) s1 t (released a) AIO_WR_IX _ _ _ fd (maxFd (fst s)));
        [| |apply AIO_WR_IX_inj|unfold AIO_WR_IX; lia| |].
  - apply (entry_set_grown (fst s) t 0 i _ s1 Et); cbn [replicate]; rewrite app_nil_r; [lia|apply F].
Qed.

(** With nothing posted for a descriptor nothing is done. *)
Lemma dispatch_read_idle fd (s : Aio * App) : fd ∉ readFdSetPost (fst s) -> dispatch_read fd s = Ok (None, s).
Proof. intros H. unfold dispatch_read. rewrite (bind_Ok get _ _ s s) by done. by rewrite bool_decide_eq_false_2. Qed.

Lemma dispatch_write_idle fd (s : Aio * App) : fd ∉ writeFdSetPost (fst s) -> dispatch_write fd s = Ok (None, s).
Proof. intros H. unfold dispatch_write. rewrite (bind_Ok get _ _ s s) by done. by rewrite bool_decide_eq_false_2. Qed.

Lemma unless_exit_None {S} (m k : M S (option Z)) (s s' : S) : m s = Ok (None, s') -> unless_exit m k s = k s'.
Proof. intros E. unfold unless_exit. by erewrite bind_Ok by exact E. Qed.

Lemma dispatch_loop_idle fuel : forall fd (s : Aio * App), readFdSetPost (fst s) = ∅ ->
  writeFdSetPost (fst s) = ∅ -> maxFd (fst s) < fd + Z.of_nat fuel - 1 -> (0 < fuel)%nat ->
  dispatch_loop fuel fd s = Ok (None, s).
Proof.
  induction fuel as [|fuel IH]; intros fd s Hr Hw Hm Hf; [lia|]. cbn [dispatch_loop].
  rewrite (bind_Ok get _ _ s s) by done. destruct (Z.ltb_spec (maxFd (fst s)) fd); [done|].
  rewrite (unless_exit_None _ _ s s) by (apply dispatch_read_idle; set_solver).
  rewrite (unless_exit_None _ _ s s) by (apply dispatch_write_idle; set_solver). apply IH; [done..|lia|lia].
Qed.
(** ** A rule for [OS_DoIo]

An invariant of the application and the table that [select]'s reports do not disturb, and that
every single completed operation with its callback keeps, is kept by [OS_DoIo]. *)

Record moved (a a' : Aio) : Prop := {
  mv_inv : aio_inv a';
  mv_table : asyncIoTable a' = asyncIoTable a;
  mv_max : maxFd a' = maxFd a;
  mv_read : readFdSet a' ∪ readFdSetPost a' = readFdSet a ∪ readFdSetPost a;
  mv_write : writeFdSet a' ∪ writeFdSetPost a' = writeFdSet a ∪ writeFdSetPost a;
  mv_trace : io_trace a' = io_trace a;
  mv_script : rd_script a' = rd_script a }.

Lemma post_ready_moved rd wr s fd : aio_inv s -> report rd wr s fd -> moved s (post_ready rd wr s fd).
Proof.
  intros I R. pose proof (post_ready_inv rd wr s fd I R) as I'. destruct R as [Hr Hw].
  unfold post_ready in *. split; [done|..]; clear I'.
  all: destruct (bool_decide_reflect (fd ∈ rd)), (bool_decide_reflect (fd ∈ wr)); cbn; try done.
  all: apply set_eq; intros x; destruct (decide (x = fd)) as [->|]; set_solver.
Qed.

Lemma moved_trans a b c : moved a b -> moved b c -> moved a c.
Proof. intros [? ? ? ? ? ? ?] [? ? ? ? ? ? ?]. split; [done|..]; congruence. Qed.

Lemma post_all_moved rd wr fds : NoDup fds -> forall s, aio_inv s -> Forall (report rd wr s) fds ->
  moved s (fold_left (post_ready rd wr) fds s).
Proof.
  induction 1 as [|fd fds Hni _ IH]; intros s I Hr; [by split|]. inversion_clear Hr as [|? ? H1 H2].
  cbn [fold_left]. eapply moved_trans; [by apply post_ready_moved|]. apply IH; [by apply post_ready_inv|].
  rewrite list.Forall_forall in *. intros x Hx. specialize (H2 x Hx) as [? ?].
  destruct (post_ready_sets rd wr s fd x) as [E1 E2]; [intros ->; done|].
  split; intros; [apply E1|apply E2]; auto.
Qed.

Lemma wait_ready_spec s : aio_inv s ->
  match wait_ready s with
  | Ok (None, s') => moved s s'
  | Ok (Some _, _) => True
  | NoFuel => sel_script s = []
  | Crash _ => False
  end.
Proof.
  intros I. unfold wait_ready, bind at 1, get at 1.
  destruct (_ && _); [|by split]. destruct (sel_script s) as [|[rd wr|e] rest] eqn:E; [done|..|done].
  set (s1 := s <| sel_script := rest |>).
  assert (I1 : aio_inv s1).
  { destruct I as [Ht Hs Hm Hr Hw]. split; [done..| |]; by apply (side_same s). }
  change (moved s (fold_left (post_ready (rd ∩ readFdSet s1) (wr ∩ writeFdSet s1)) (fds_upto (maxFd s1)) s1)).
  destruct (post_all_moved (rd ∩ readFdSet s1) (wr ∩ writeFdSet s1) (fds_upto (maxFd s1)) (NoDup_seqZ _ _) s1 I1) as [? ? ? ? ? ? ?].
  { apply Forall_forall. intros x _. split; set_solver. }
  by split.
Qed.

Section Rule.
Context (Inv : Aio * App -> Prop) (Fault : fault -> Prop).

Definition kept (r : res (option Z * (Aio * App))) : Prop :=
  match r with
  | Ok (None, s) => Inv s
  | Ok (Some _, _) => True
  | Crash f => Fault f
  | NoFuel => False
  end.

Lemma unless_exit_kept m k s : kept (m s) -> (forall s', Inv s' -> kept (k s')) -> kept (unless_exit m k s).
Proof.
  intros Hm Hk. unfold unless_exit, bind. destruct (m s) as [[[code|] s']|fl|]; [done|..|done|done]. by apply Hk.
Qed.

Hypothesis inv_aio : forall s, Inv s -> aio_inv (fst s).
Hypothesis inv_moved : forall a a' m, Inv (a, m) -> moved a a' -> Inv (a', m).
Hypothesis inv_read : forall fd s, Inv s -> fd ∈ readFdSetPost (fst s) -> kept (dispatch_read fd s).
Hypothesis inv_write : forall fd s, Inv s -> fd ∈ writeFdSetPost (fst s) -> kept (dispatch_write fd s).

Lemma dispatch_loop_kept fuel : forall fd s, Inv s -> FD_SETSIZE <= fd + Z.of_nat fuel - 1 -> (0 < fuel)%nat ->
  kept (dispatch_loop fuel fd s).
Proof.
  induction fuel as [|fuel IH]; intros fd s I Hm Hf; [lia|]. cbn [dispatch_loop].
  rewrite (bind_Ok get _ _ s s) by done. destruct (Z.ltb_spec (maxFd (fst s)) fd) as [H|H]; [done|].
  pose proof (ai_max _ (inv_aio s I)). apply unless_exit_kept.
  - destruct (decide (fd ∈ readFdSetPost (fst s))); [by apply inv_read|by rewrite dispatch_read_idle].
  - intros s1 I1. apply unless_exit_kept.
    + destruct (decide (fd ∈ writeFdSetPost (fst s1))); [by apply inv_write|by rewrite dispatch_write_idle].
    + intros s2 I2. pose proof (ai_max _ (inv_aio s2 I2)). apply IH; [done|lia|lia].
Qed.

(** Without an answer left for [select] the wait may not return. *)
Lemma OS_DoIo_kept s : Inv s -> (OS_DoIo s = NoFuel /\ sel_script (fst s) = []) \/ kept (OS_DoIo s).
Proof.
  intros I. unfold OS_DoIo. destruct s as [a m]. set (a1 := a <| asyncIoInUse := true |>).
  rewrite (bind_Ok _ _ _ tt (a1, m)) by done. assert (I1 : Inv (a1, m)).
  { apply (inv_moved a); [done|]. destruct (inv_aio _ I) as [Ht Hz Hm Hr Hw]. split; [|done..].
    split; [done..| |]; by apply (side_same a). }
  pose proof (wait_ready_spec a1 (inv_aio _ I1)) as H.
  set (r := unless_exit _ _ _). enough (Hr : match r with NoFuel => sel_script a1 = [] | Ok x => kept (Ok x) | Crash f => kept (Crash f) end).
  { destruct r; [by right..|by left]. }
  unfold r, unless_exit, bind at 1, on_aio, zoom. cbn [fst snd].
  destruct (wait_ready a1) as [[[code|] a2]|fl|]; [done|..|done|done]. cbn [fst snd].
  assert (I2 : Inv (a2, m)) by (by eapply inv_moved).
  unfold bind at 1, get at 1. cbn [fst snd]. destruct (_ && _); [done|].
  assert (K : kept (dispatch_loop (Z.to_nat (FD_SETSIZE + 2)) 0 (a2, m)))
    by (apply dispatch_loop_kept; [done|unfold FD_SETSIZE; lia|unfold FD_SETSIZE; lia]).
  by destruct (dispatch_loop _ 0 (a2, m)).
Qed.
End Rule.
End Dispatch.

Lemma fd_clr_Ok fd s : 0 <= fd < FD_SETSIZE -> fd_clr fd s = Ok (s ∖ {[fd]}).
Proof.
  intros. unfold fd_clr. by rewrite (proj2 (Z.leb_le _ _)), (proj2 (Z.ltb_lt _ _)) by lia.
Qed.

Lemma clear_inUse_spec i s t : asyncIoTable s = Some t -> 0 <= i < zlen t ->
  exists t', clear_inUse i s = Ok (tt, s <| asyncIoTable := Some t' |>) /\ zlen t' = zlen t.
Proof.
  intros Et Hi. unfold clear_inUse, aio_get, bind at 1, bind at 1, get at 1. rewrite Et.
  rewrite (proj2 (Z.leb_le _ _)), (proj2 (Z.ltb_lt _ _)) by lia. cbn [andb]. unfold ret at 1.
  destruct (inUse _).
  - eexists. unfold aio_put, bind, get. rewrite Et.
    rewrite (proj2 (Z.leb_le _ _)), (proj2 (Z.ltb_lt _ _)) by lia. cbn [andb]. split; [done|].
    unfold zlen in *. rewrite splice_insert by (unfold zlen; lia). by rewrite length_insert.
  - exists t. split; [|done]. by destruct s; cbn in *; subst.
Qed.

(** [OS_Close] of a descriptor whose entries exist. *)
Lemma OS_Close_spec s t fd ok fails rc : asyncIoTable s = Some t -> 0 <= fd < FD_SETSIZE ->
  AIO_WR_IX fd < zlen t -> asyncIoInUse s = true -> 
  exists s', OS_Close fd ok fails rc s = Ok (rc, s') /\
    readFdSet s' = readFdSet s ∖ {[fd]} /\ readFdSetPost s' = readFdSetPost s ∖ {[fd]} /\
    writeFdSet s' = writeFdSet s ∖ {[fd]} /\ writeFdSetPost s' = writeFdSetPost s ∖ {[fd]} /\
    numRdPosted s' = numRdPosted s /\ numWrPosted s' = numWrPosted s /\
    maxFd s' <= maxFd s /\ sel_script s' = sel_script s /\ asyncIoInUse s' = true.
Proof.
  intros Et Hfd Hi Hu. unfold AIO_WR_IX in Hi. unfold OS_Close.
  destruct (Z.eqb_spec fd (-1)) as [|_]; [lia|]. unfold bind at 1, get at 1. rewrite Hu, !fd_clr_Ok by done.
  set (s1 := s <| readFdSet := readFdSet s ∖ {[fd]} |> <| readFdSetPost := readFdSetPost s ∖ {[fd]} |>).
  destruct (clear_inUse_spec (AIO_RD_IX fd) s1 t Et) as (t1 & E1 & Hl1); [unfold AIO_RD_IX; lia|].
  set (s2 := s1 <| asyncIoTable := Some t1 |> <| writeFdSet := writeFdSet s ∖ {[fd]} |>
                <| writeFdSetPost := writeFdSetPost s ∖ {[fd]} |>).
  destruct (clear_inUse_spec (AIO_WR_IX fd) s2 t1 eq_refl) as (t2 & E2 & Hl2); [unfold AIO_WR_IX; lia|].
  set (s3 := if maxFd s =? fd then s2 <| asyncIoTable := Some t2 |> <| maxFd := maxFd s - 1 |>
             else s2 <| asyncIoTable := Some t2 |>).
  erewrite bind_Ok with (s' := s3).
  2:{ do 3 (erewrite bind_Ok by reflexivity). erewrite bind_Ok by exact E1.
      do 3 (erewrite bind_Ok by reflexivity). erewrite bind_Ok by exact E2. reflexivity. }
  assert (H3 : readFdSet s3 = readFdSet s ∖ {[fd]} /\ readFdSetPost s3 = readFdSetPost s ∖ {[fd]} /\
    writeFdSet s3 = writeFdSet s ∖ {[fd]} /\ writeFdSetPost s3 = writeFdSetPost s ∖ {[fd]} /\
    numRdPosted s3 = numRdPosted s /\ numWrPosted s3 = numWrPosted s /\
    maxFd s3 <= maxFd s /\ sel_script s3 = sel_script s /\ asyncIoInUse s3 = true).
  { unfold s3. destruct (maxFd s =? fd); cbn -[Z.sub]; split_and!; (done || lia). }
  destruct (ok && negb fails); (eexists; split; [unfold bind, modify, ret; reflexivity|]); exact H3.
Qed.

(** Closing the only descriptor with a posted read strands the event counter: from then on
    every [OS_DoIo] returns at once, without waiting in [select] and without calling anybody,
    and leaves the state as it is. *)
Theorem OS_Close_strands_DoIo {App} {app : Application App} s t fd ok fails rc (mem : App) :
  asyncIoTable s = Some t -> AIO_WR_IX fd < zlen t -> 0 <= fd < FD_SETSIZE ->
  asyncIoInUse s = true -> maxFd s < FD_SETSIZE -> readFdSetPost s = {[fd]} -> numRdPosted s = 1 ->
  writeFdSetPost s = ∅ ->
  exists s', OS_Close fd ok fails rc s = Ok (rc, s') /\ OS_DoIo (s', mem) = Ok (None, (s', mem)) /\
    sel_script s' = sel_script s.
Proof.
  intros Et Hi Hfd Hu Hm Hp Hn Hw.
  destruct (OS_Close_spec s t fd ok fails rc Et Hfd Hi Hu) as (s' & E & _ & Hrp & _ & Hwp & Hnr & Hnw & Hmx & Hs & Hu').
  exists s'. split; [exact E|]. split; [|exact Hs]. unfold OS_DoIo.
  erewrite bind_Ok with (s' := (s', mem)) by (unfold on_aio, zoom, modify; cbn; destruct s'; cbn in *; by subst).
  rewrite (unless_exit_None _ _ _ (s', mem)).
  2:{ unfold on_aio, zoom. cbn [fst snd]. unfold wait_ready, bind, get. rewrite Hnr, Hn. reflexivity. }
  unfold bind at 1, get at 1. cbn [fst]. rewrite Hnr, Hn. cbn [Z.eqb Pos.eqb andb].
  apply dispatch_loop_idle; cbn [fst].
  - rewrite Hrp, Hp. set_solver.
  - rewrite Hwp, Hw. set_solver.
  - unfold FD_SETSIZE in *. lia.
  - unfold FD_SETSIZE. lia.
Qed.

(** An application without callbacks, for the witness. *)
Definition no_callbacks : Application unit :=
  {| mem_load := fun _ _ _ => []; mem_store := fun _ _ m => m; callback := fun _ _ _ => ret None |}.

Definition one_posted : Aio :=
  mkAioState true (Some (replicate 16 aio_zero)) 16 true ∅ ∅ {[3]} ∅ 1 0 3
    [SelReady {[5]} ∅] [] [] [] [] [] ∅.

Lemma OS_Close_strands_DoIo_witness :
  exists s', OS_Close 3 false false 0 one_posted = Ok (0, s') /\
    @OS_DoIo unit no_callbacks (s', tt) = Ok (None, (s', tt)) /\ sel_script s' = sel_script one_posted.
Proof.
  apply (@OS_Close_strands_DoIo unit no_callbacks one_posted (replicate 16 aio_zero) 3 false false 0); try reflexivity;
    unfold FD_SETSIZE; cbn; lia.
Defined.
