(* ===== verification/FcgiRequest.v ===== *)
(** * Requests: the life of a connection in fcgiapp.c

    [NewStream] and the functions that set streams up, the request structure with the global
    state of the library, and [FCGX_Init], [FCGX_Accept_r], [FCGX_Finish_r], [FCGX_Free] and
    their non-reentrant forms.  A pointer to a stream that may be [NULL] is an [option]; an
    operation on a stream of the request runs on that stream, the request's data and the
    connection ([on_stream]). *)

From S2P Require Import Prelude FcgiProto FcgiStream FcgiWriter FcgiParams FcgiReader FcgiRecords OsAccept OsAsync.

(** ** Streams *)

(** [NewStream] once its memory is allocated at the address [mBuff].  The buffer is the
    [bufflen] bytes that [data] says it can hold; up to seven bytes behind them are lost to
    alignment and never used. *)
Definition NewStream (mBuff bufflen : Z) (isReader : bool) (streamType : Z) : FCGX_Stream :=
  let bufflen := AlignInt8 (Z.min (Z.max bufflen 32) (FCGI_MAX_LENGTH + 1)) in
  let bufflen := if AlignPtr8 mBuff =? mBuff then bufflen else bufflen - 8 in
  let data := {|
    buff := replicate (Z.to_nat bufflen) 0;
    FcgiStream.bufflen := bufflen;
    FcgiStream.mBuff := mBuff;
    buffStop := if isReader then 0 else bufflen;
    stype := streamType;
    eorStop := false;
    skip := false;
    contentLen := 0;
    paddingLen := 0;
    isAnythingWritten := false;
    rawWrite := false |} in
  if isReader then
    {| rdNext := 0; stop := 0; stopUnget := 0; wrNext := 0;
       FcgiStream.isReader := isReader; isClosed := false; wasFCloseCalled := false;
       FCGI_errno := 0; data := data |}
  else
    {| wrNext := FCGI_HEADER_LEN; stop := buffStop data; stopUnget := -1; rdNext := buffStop data;
       FcgiStream.isReader := isReader; isClosed := false; wasFCloseCalled := false;
       FCGI_errno := 0; data := data |}.

Definition NewReader (mBuff bufflen streamType : Z) : FCGX_Stream :=
  NewStream mBuff bufflen true streamType.
Definition NewWriter (mBuff bufflen streamType : Z) : FCGX_Stream :=
  NewStream mBuff bufflen false streamType.

(** A request structure of zeros, as [memset] leaves it. *)
Definition req_zero : ReqData := mkReqData 0 0 0 false false 0 0 0 0 false.

(** The writer that [FCGX_CreateWriter] makes for the bridge, with its own request data; of
    these only [ipcFd], [requestId] and [nWriters] are initialised. *)
Definition FCGX_CreateWriter (mBuff ipcFd requestId bufflen streamType : Z) (c : Conn) : SS :=
  let reqDataPtr := req_zero <| FcgiStream.ipcFd := ipcFd |>
    <| FcgiStream.requestId := requestId |> <| nWriters := 2 |> in
  mkSS (NewWriter mBuff bufflen streamType) reqDataPtr c.

(** [SetReaderType] on the stream an operation runs on. *)
Definition SetReaderType (streamType : Z) : M SS unit :=
  s <- get ;;
  c_assert (isReader (strm s)) ;;;
  upd_data (fun d => d <| stype := streamType |> <| eorStop := false |> <| skip := false |>
                       <| contentLen := 0 |> <| paddingLen := 0 |>) ;;;
  upd_strm (fun st => st <| stop := rdNext st |> <| wrNext := rdNext st |>) ;;;
  upd_strm (fun st => st <| isClosed := false |>).

Definition FCGX_StartFilterData : M SS Z :=
  s <- get ;;
  if negb (role (req s) =? FCGI_FILTER) || negb (isReader (strm s)) || negb (isClosed (strm s))
     || negb (stype (data (strm s)) =? FCGI_STDIN)
  then SetError FCGX_CALL_SEQ_ERROR ;;; ret (-1)
  else SetReaderType FCGI_DATA ;;; ret 0.

Definition FCGX_SetExitStatus (status : Z) : M SS unit :=
  upd_req (fun r => r <| appStatus := status |>).

(** ** The request and the library *)

Record FCGX_Request := mkRequest {
  rd : ReqData;
  in_ : option FCGX_Stream;
  out : option FCGX_Stream;
  err : option FCGX_Stream;
  paramsPtr : option Params;
  envp : option (list slot) }.

#[export] Instance set_rd : Setter rd := fun g r =>
  mkRequest (g (rd r)) (in_ r) (out r) (err r) (paramsPtr r) (envp r).
#[export] Instance set_in_ : Setter in_ := fun g r =>
  mkRequest (rd r) (g (in_ r)) (out r) (err r) (paramsPtr r) (envp r).
#[export] Instance set_out : Setter out := fun g r =>
  mkRequest (rd r) (in_ r) (g (out r)) (err r) (paramsPtr r) (envp r).
#[export] Instance set_err : Setter err := fun g r =>
  mkRequest (rd r) (in_ r) (out r) (g (err r)) (paramsPtr r) (envp r).
#[export] Instance set_paramsPtr : Setter paramsPtr := fun g r =>
  mkRequest (rd r) (in_ r) (out r) (err r) (g (paramsPtr r)) (envp r).
#[export] Instance set_envp : Setter envp := fun g r =>
  mkRequest (rd r) (in_ r) (out r) (err r) (paramsPtr r) (g (envp r)).

(** The library's globals, one request ([the_request] or the caller's), the connection it is
    on, the operating system, the addresses [malloc] will return, and what the peers of the
    connections closed so far received. *)
Record World := mkWorld {
  request : FCGX_Request;
  cn : Conn;
  os : Os;
  aio : Aio;
  mallocs : list Z;
  received : list (list Z);
  libInitialized : bool;
  isFastCGI : Z;
  webServerAddressList : option (list Z) }.

#[export] Instance set_request : Setter request := fun g r =>
  mkWorld (g (request r)) (cn r) (os r) (aio r) (mallocs r) (received r) (libInitialized r) (isFastCGI r) (webServerAddressList r).
#[export] Instance set_cn : Setter cn := fun g r =>
  mkWorld (request r) (g (cn r)) (os r) (aio r) (mallocs r) (received r) (libInitialized r) (isFastCGI r) (webServerAddressList r).
#[export] Instance set_os : Setter os := fun g r =>
  mkWorld (request r) (cn r) (g (os r)) (aio r) (mallocs r) (received r) (libInitialized r) (isFastCGI r) (webServerAddressList r).
#[export] Instance set_aio : Setter aio := fun g r =>
  mkWorld (request r) (cn r) (os r) (g (aio r)) (mallocs r) (received r) (libInitialized r) (isFastCGI r) (webServerAddressList r).
#[export] Instance set_mallocs : Setter mallocs := fun g r =>
  mkWorld (request r) (cn r) (os r) (aio r) (g (mallocs r)) (received r) (libInitialized r) (isFastCGI r) (webServerAddressList r).
#[export] Instance set_received : Setter received := fun g r =>
  mkWorld (request r) (cn r) (os r) (aio r) (mallocs r) (g (received r)) (libInitialized r) (isFastCGI r) (webServerAddressList r).
#[export] Instance set_libInitialized : Setter libInitialized := fun g r =>
  mkWorld (request r) (cn r) (os r) (aio r) (mallocs r) (received r) (g (libInitialized r)) (isFastCGI r) (webServerAddressList r).
#[export] Instance set_isFastCGI : Setter isFastCGI := fun g r =>
  mkWorld (request r) (cn r) (os r) (aio r) (mallocs r) (received r) (libInitialized r) (g (isFastCGI r)) (webServerAddressList r).
#[export] Instance set_webServerAddressList : Setter webServerAddressList := fun g r =>
  mkWorld (request r) (cn r) (os r) (aio r) (mallocs r) (received r) (libInitialized r) (isFastCGI r) (g (webServerAddressList r)).

Definition upd_request (f : FCGX_Request -> FCGX_Request) : M World unit :=
  modify (fun w => w <| request := f (request w) |>).
Definition upd_rd (f : ReqData -> ReqData) : M World unit :=
  upd_request (fun r => r <| rd := f (rd r) |>).

(** The next address of [malloc]; past the script addresses are aligned. *)
Definition malloc : M World Z :=
  w <- get ;;
  match mallocs w with
  | [] => ret 0
  | a :: rest => modify (fun w => w <| mallocs := rest |>) ;;; ret a
  end.

(** Which stream of the request. *)
Inductive which := In | Out | Err.

Definition stream_of_request (k : which) (r : FCGX_Request) : option FCGX_Stream :=
  match k with In => in_ r | Out => out r | Err => err r end.

Definition set_stream (k : which) (st : option FCGX_Stream) (r : FCGX_Request) : FCGX_Request :=
  match k with
  | In => r <| in_ := st |>
  | Out => r <| out := st |>
  | Err => r <| err := st |>
  end.

(** An operation on a stream of the request: it shares the request's data and the connection
    with the others. *)
Definition on_stream {A} (k : which) (m : M SS A) : M World A := fun w =>
  match stream_of_request k (request w) with
  | None => Crash NullDeref
  | Some st =>
      match m (mkSS st (rd (request w)) (cn w)) with
      | Ok (a, s) =>
          Ok (a, w <| request := (set_stream k (Some (strm s)) (request w)) <| rd := req s |> |>
                   <| cn := conn s |>)
      | Crash f => Crash f
      | NoFuel => NoFuel
      end
  end.

Definition FCGX_FreeStream (k : which) : M World unit := upd_request (set_stream k None).

Definition FreeParams : M World unit := upd_request (fun r => r <| paramsPtr := None |>).

(** Closes the connection of the request: its peer has received what was written. *)
Definition close_ipc (ipcFd : Z) (shutdown : bool) : M World unit :=
  w <- get ;;
  zoom aio (fun a w => w <| aio := a |>) (OS_IpcClose ipcFd shutdown false 0) ;;;
  if ipcFd <? 0 then ret tt else
  modify (fun w => w <| received := received w ++ [tx (cn w)] |> <| cn := mkConn [] [] [] (os_errno (cn w)) |>).

Definition FCGX_Free (close : bool) : M World unit :=
  FCGX_FreeStream In ;;;
  FCGX_FreeStream Out ;;;
  FCGX_FreeStream Err ;;;
  FreeParams ;;;
  if close then
    w <- get ;;
    close_ipc (ipcFd (rd (request w))) (negb (detached (rd (request w)))) ;;;
    upd_rd (fun r => r <| ipcFd := -1 |>) ;;;
    upd_rd (fun r => r <| detached := false |>)
  else ret tt.

Definition FCGX_InitRequest (sock flags : Z) : M World Z :=
  upd_request (fun _ => mkRequest req_zero None None None None None) ;;;
  upd_rd (fun r => r <| listen_sock := sock |>) ;;;
  upd_rd (fun r => r <| FcgiStream.flags := flags |>) ;;;
  upd_rd (fun r => r <| ipcFd := -1 |>) ;;;
  ret 0.

(** [FCGX_FClose] of a writer of the request, which may be null. *)
Definition close_stream (k : which) : M World Z := fun w =>
  match stream_of_request k (request w) with
  | None => Ok (0, w)
  | Some _ => on_stream k (@FCGX_FClose writer_procs) w
  end.

Lemma close_stream_Ok k w r : on_stream k (@FCGX_FClose writer_procs) w = Ok r -> close_stream k w = Ok r.
Proof. unfold close_stream, on_stream. by destruct (stream_of_request k (request w)). Qed.

Definition FCGX_Finish_r : M World unit :=
  w <- get ;;
  let close := negb (keepConnection (rd (request w))) in
  close <- (match in_ (request w) with
            | None => ret close
            | Some _ =>
                e <- close_stream Err ;;
                o <- close_stream Out ;;
                i <- on_stream In FCGX_GetError ;;
                ret (close || negb (e =? 0) || negb (o =? 0) || negb (i =? 0))
            end) ;;
  FCGX_Free close.

Definition FCGX_Attach : M World Z := upd_rd (fun r => r <| detached := false |>) ;;; ret 0.

Definition FCGX_Detach : M World Z :=
  w <- get ;;
  if ipcFd (rd (request w)) <=? 0 then ret (-1)
  else upd_rd (fun r => r <| detached := true |>) ;;; ret 0.

Definition FCGI_FAIL_ACCEPT_ON_INTR : Z := 1.
Definition FCGI_LISTENSOCK_FILENO : Z := 0.

(** The strings "FCGI_ROLE=RESPONDER", "FCGI_ROLE=AUTHORIZER" and "FCGI_ROLE=FILTER". *)
Definition FCGI_ROLE_eq : list Z := [70; 67; 71; 73; 95; 82; 79; 76; 69; 61].
Definition RESPONDER : list Z := [82; 69; 83; 80; 79; 78; 68; 69; 82].
Definition AUTHORIZER : list Z := [65; 85; 84; 72; 79; 82; 73; 90; 69; 82].
Definition FILTER : list Z := [70; 73; 76; 84; 69; 82].

Definition role_string (role : Z) : option (list Z) :=
  if role =? FCGI_RESPONDER then Some (FCGI_ROLE_eq ++ RESPONDER) else
  if role =? FCGI_AUTHORIZER then Some (FCGI_ROLE_eq ++ AUTHORIZER) else
  if role =? FCGI_FILTER then Some (FCGI_ROLE_eq ++ FILTER) else None.

Section Accept.
Context {uninit : Uninit}.
Variable inet_addr : list Z -> Z.
Variable use_locking : bool.

(** "If a connection isn't open, accept a new connection": [Some rc] when the call returns. *)
Definition ensure_connection : M World (option Z) :=
  w <- get ;;
  let r := rd (request w) in
  if ipcFd r <? 0 then
    let fail_on_intr := negb (Z.land (flags r) FCGI_FAIL_ACCEPT_ON_INTR =? 0) in
    p <- zoom os (fun o w => w <| os := o |>)
           (OS_Accept inet_addr use_locking (S (length (acc_script (os w)))) fail_on_intr
              (webServerAddressList w)) ;;
    match p with
    | Some p =>
        upd_rd (fun r => r <| ipcFd := p_fd p |>) ;;;
        modify (fun w => w <| cn := p_conn p |>) ;;;
        ret None
    | None =>
        upd_rd (fun r => r <| ipcFd := -1 |>) ;;;
        w <- get ;;
        ret (Some (if 0 <? errno_ (os w) then 0 - errno_ (os w) else -9999))
    end
  else ret None.

(** "Read from the connection in order to get the request's role and environment": whether
    that succeeded ([break]) or not ([goto TryAgain]). *)
Definition read_request : M World bool :=
  upd_rd (fun r => r <| isBeginProcessed := false |>) ;;;
  a <- malloc ;;
  upd_request (fun r => r <| in_ := Some (NewReader a 8192 0) |>) ;;;
  on_stream In FillBuffProc ;;;
  w <- get ;;
  if negb (isBeginProcessed (rd (request w))) then ret false else
  match role_string (role (rd (request w))) with
  | None => ret false
  | Some roleStr =>
      p <- lift (NewParams 30) ;;
      p <- lift (PutParam p roleStr) ;;
      upd_request (fun r => r <| paramsPtr := Some p |>) ;;;
      on_stream In (SetReaderType FCGI_PARAMS) ;;;
      rp <- on_stream In (s <- get ;; @ReadParams reader_procs (rd_fuel s) p) ;;
      upd_request (fun r => r <| paramsPtr := Some (snd rp) |>) ;;;
      ret (0 <=? fst rp)
  end.

(** The [for (;;)]: every turn but the first accepts a connection. *)
Fixpoint accept_request (fuel : nat) : M World (option Z) :=
  match fuel with
  | O => nofuel
  | S fuel =>
      rc <- ensure_connection ;;
      match rc with
      | Some rc => ret (Some rc)
      | None =>
          ok <- read_request ;;
          if ok : bool then ret None else FCGX_Free true ;;; accept_request fuel
      end
  end.

Definition FCGX_Accept_r : M World Z :=
  w <- get ;;
  if negb (libInitialized w) then ret (-9998) else
  FCGX_Finish_r ;;;
  w <- get ;;
  rc <- accept_request (length (acc_script (os w)) + 2) ;;
  match rc with
  | Some rc => ret rc
  | None =>
      on_stream In (SetReaderType FCGI_STDIN) ;;;
      a <- malloc ;;
      upd_request (fun r => r <| out := Some (NewWriter a 8192 FCGI_STDOUT) |>) ;;;
      a <- malloc ;;
      upd_request (fun r => r <| err := Some (NewWriter a 512 FCGI_STDERR) |>) ;;;
      upd_rd (fun r => r <| nWriters := 2 |>) ;;;
      upd_request (fun r => r <| envp := vec <$> paramsPtr r |>) ;;;
      ret 0
  end.
End Accept.

Section Init.
(** [getenv("FCGI_WEB_SERVER_ADDRS")], and whether [getpeername] on the listening socket fails
    with [ENOTCONN] ([OS_IsFcgi]). *)
Variable web_server_addrs : option (list Z).
Variable OS_IsFcgi : bool.

Definition FCGX_Init : M World Z :=
  w <- get ;;
  if libInitialized w then ret 0 else
  FCGX_InitRequest FCGI_LISTENSOCK_FILENO 0 ;;;
  rc <- zoom aio (fun a w => w <| aio := a |>) OS_LibInit ;;
  if rc =? -1 then
    w <- get ;; ret (if errno_ (os w) =? 0 then -9997 else errno_ (os w))
  else
    modify (fun w => w <| webServerAddressList := web_server_addrs |>) ;;;
    modify (fun w => w <| libInitialized := true |>) ;;;
    ret 0.

(** [None] when the process exits. *)
Definition FCGX_IsCGI : M World (option bool) :=
  w <- get ;;
  if negb (isFastCGI w =? -1) then ret (Some (isFastCGI w =? 0)) else
  rc <- (if libInitialized w then ret 0 else FCGX_Init) ;;
  if negb (rc =? 0) then ret None else
  modify (fun w => w <| isFastCGI := if OS_IsFcgi then 1 else 0 |>) ;;;
  w <- get ;;
  ret (Some (isFastCGI w =? 0)).

Context {uninit : Uninit}.
Variable inet_addr : list Z -> Z.
Variable use_locking : bool.

(** [FCGX_Accept]; the streams and the environment it stores for the caller are those of
    [the_request]. *)
Definition FCGX_Accept : M World Z :=
  w <- get ;;
  rc <- (if libInitialized w then ret 0 else FCGX_Init) ;;
  if negb (rc =? 0) then ret rc else FCGX_Accept_r inet_addr use_locking.
End Init.

Definition FCGX_Finish : M World unit := FCGX_Finish_r.

(** [FCGX_OpenSocket] with the result of [OS_CreateLocalIpcFd]. *)
Definition FCGX_OpenSocket (rc : Z) : M World Z :=
  w <- get ;;
  (if (rc =? FCGI_LISTENSOCK_FILENO) && (isFastCGI w =? 0)
   then modify (fun w => w <| isFastCGI := 1 |>) else ret tt) ;;;
  ret rc.

(** ** New streams *)

(** The size of a buffer, aligned or not. *)
Definition buffer_size (mBuff bufflen : Z) : Z :=
  let n := AlignInt8 (Z.min (Z.max bufflen 32) (FCGI_MAX_LENGTH + 1)) in
  if AlignPtr8 mBuff =? mBuff then n else n - 8.

Lemma buffer_size_bounds a n : 24 <= buffer_size a n <= 65536 /\ buffer_size a n mod 8 = 0.
Proof.
  unfold buffer_size, FCGI_MAX_LENGTH. set (x := Z.min _ _).
  assert (Hx : 32 <= x <= 65536) by lia.
  destruct (AlignInt8_bounds x) as [Hb Hm]; [unfold INT_MAX; lia|].
  apply Z.mod_divide in Hm as [k Hk]; [|lia].
  destruct (_ =? _); (split; [lia|]); apply Z.mod_divide; (lia || (by exists k) || (exists (k - 1); lia)).
Qed.

Lemma NewStream_buff a n r t : buff (data (NewStream a n r t)) = replicate (Z.to_nat (buffer_size a n)) 0 /\
  bufflen (data (NewStream a n r t)) = buffer_size a n /\ stype (data (NewStream a n r t)) = t.
Proof. by destruct r. Qed.

Lemma zlen_buffer a n : zlen (replicate (Z.to_nat (buffer_size a n)) 0) = buffer_size a n.
Proof. rewrite zlen_replicate. pose proof (buffer_size_bounds a n). lia. Qed.

(** A writer that was given [W], of which [base] is on the connection, wherever that
    connection is by now: another writer may have written in between. *)
Definition writer_open (T : Z) (rq : ReqData) (base W : list Z) (st : FCGX_Stream) : Prop :=
  forall c, accepts (wr c) -> framed T rq (rx c) (tx c) base (mkSS st rq c) W.

Lemma NewWriter_open a n T rq : is_byte T -> 0 <= requestId rq < 65536 -> 0 <= ipcFd rq ->
  writer_open T rq [] [] (NewWriter a n T).
Proof.
  intros HT Hid Hfd c Hc. pose proof (buffer_size_bounds a n). pose proof (zlen_buffer a n).
  split.
  - split; cbn -[AlignInt8 AlignPtr8]; fold (buffer_size a n); try done; try lia; rewrite ?zlen_buffer; lia.
  - split_and!; try done; cbn -[AlignInt8 AlignPtr8]; unfold FCGI_HEADER_LEN; fold (buffer_size a n); try lia.
    exists []. cbn. by rewrite app_nil_r.
Qed.

(** An open writer keeps what it holds when another one uses the connection, or when the
    request's data change in what writers do not look at. *)
Lemma framed_park T rq rx0 tx0 base s W rs : framed T rq rx0 tx0 base s W ->
  tx (conn s) = tx0 ++ wire rs -> Forall (from_writer T (requestId rq)) rs ->
  W = base ++ stream_of T rs ++ pending s ->
  (isAnythingWritten (data (strm s)) = false <-> base ++ stream_of T rs = []) ->
  writer_open T rq (base ++ stream_of T rs) W (strm s).
Proof.
  intros (L & ? & ? & ? & <- & ? & _) Htx Hrs HW Hany c Hc.
  split; [by destruct L|]. split_and!; try done; try (cbn; lia).
  exists []. cbn. rewrite !app_nil_r. split_and!; try done. by rewrite <- app_assoc.
Qed.

Lemma writer_open_rq T rq rq' base W st : writer_open T rq base W st ->
  requestId rq' = requestId rq -> ipcFd rq' = ipcFd rq -> writer_open T rq' base W st.
Proof.
  intros H Hid Hfd c Hc. destruct (H c Hc) as (L & ? & ? & ? & _ & ? & rs & Hrs & ? & ? & ?).
  split; [destruct L; split; try done; cbn in *; congruence|]. split_and!; try done; try (cbn in *; lia).
  exists rs. by rewrite Hid.
Qed.

Lemma NewReader_between a n t rq c : 0 <= ipcFd rq -> accepts (wr c) -> delivers (rx c) ->
  between (mkSS (NewReader a n t) rq c) /\ unread (mkSS (NewReader a n t) rq c) = rx_bytes (rx c).
Proof.
  intros Hfd Ha Hd. pose proof (buffer_size_bounds a n). pose proof (zlen_buffer a n).
  split; [|done]. split; try done.
  split; cbn -[AlignInt8 AlignPtr8]; fold (buffer_size a n); rewrite ?zlen_buffer; try done; try lia.
Qed.

(** ** Accepting a request *)

Definition put_stream (k : which) (s : SS) (w : World) : World :=
  w <| request := (set_stream k (Some (strm s)) (request w)) <| rd := req s |> |> <| cn := conn s |>.

Lemma on_stream_Ok {A} k (m : M SS A) w st a s : stream_of_request k (request w) = Some st ->
  m (mkSS st (rd (request w)) (cn w)) = Ok (a, s) -> on_stream k m w = Ok (a, put_stream k s w).
Proof. intros E1 E2. unfold on_stream. by rewrite E1, E2. Qed.

(** [SetReaderType] between two streams: the records of the next one are to be read. *)
Lemma SetReaderType_open T rq rs epad tail s : rd_layout s -> req s = rq -> stream_ok T rq epad ->
  Forall (deliverable T (requestId rq)) rs ->
  unread s = wire rs ++ enc (mkRec T (requestId rq) [] epad) ++ tail ->
  exists s', SetReaderType T s = Ok (tt, s') /\
    rd_at T rq (tx (conn s)) rs epad tail s' (rd_content T (requestId rq) rs) /\
    frag s' = [] /\ req s' = rq /\ conn s' = conn s /\ unread s' = unread s.
Proof.
  intros L Hrq OK Hrs Hu. unfold SetReaderType, bind at 1, get at 1. rewrite (rl_reader s L).
  eexists. split; [unfold bind, c_assert, ret, upd_data, upd_strm, modify; reflexivity|].
  pose proof (rl_ptr s L). split_and!; try done.
  - split; [done|]. split; [done|]. split; [cbn; lia|]. split; [cbn; lia|].
    exists [], [], rs. split; [|done]. split; try done; [by destruct L|by exists []; rewrite app_nil_r|].
    exists (unread s). split; [done|]. rewrite Hu. done.
  - unfold frag. cbn. by rewrite Z.sub_diag.
Qed.

Lemma rd_content_len T id rs : (length (rd_content T id rs) <= length (wire rs))%nat.
Proof.
  induction rs as [|r rs IH]; [done|]. rewrite wire_cons, length_app.
  change (rd_content T id (r :: rs)) with ((if is_ours T id r then r_content r else []) ++ rd_content T id rs).
  rewrite length_app. unfold enc. rewrite !length_app. destruct (is_ours _ _ _); cbn [length]; lia.
Qed.

Lemma rd_fuel_unread s : rd_layout s -> rd_fuel s = S (length (unread s)).
Proof.
  intros L. pose proof (unread_len s L) as H. pose proof (rl_ptr s L). unfold rd_fuel, zlen in *. lia.
Qed.

Lemma rd_fuel_content T id rs w s : rd_layout s -> unread s = wire rs ++ w ->
  (length (rd_content T id rs) < rd_fuel s)%nat.
Proof.
  intros L Hu. pose proof (rd_content_len T id rs). rewrite rd_fuel_unread, Hu, length_app by done. lia.
Qed.

Lemma rd_at_layout T rq tx0 rs0 epad tail s X : rd_at T rq tx0 rs0 epad tail s X -> rd_layout s.
Proof. intros (_ & _ & Hr & Hs & c & p & rs & I & _). destruct (is_layout I). cbn in *. by split; try done; lia. Qed.

Section AcceptSpec.
Context {uninit : Uninit}.

(** What the web server sends to begin a request with the environment [ps]: the begin record
    [b], the records [prs] of the parameters stream (of any sizes, possibly with records of
    other requests between them) and its end; [tail] is what follows. *)
Record request_ok (b : rec) (prs : list rec) (ps : list (list Z * list Z)) : Prop := {
  rq_begin : rec_ok b /\ r_type b = FCGI_BEGIN_REQUEST /\ r_id b <> 0;
  rq_body : zlen (r_content b) = 8 /\ Forall is_byte (r_content b);
  rq_pad : r_pad b = [];
  rq_params : Forall (deliverable FCGI_PARAMS (r_id b)) prs;
  rq_bytes : Forall is_byte (rd_content FCGI_PARAMS (r_id b) prs);
  rq_len : zlen (rd_content FCGI_PARAMS (r_id b) prs) < 536870911;
  rq_parse : nv_parse (S (length (rd_content FCGI_PARAMS (r_id b) prs)))
               (rd_content FCGI_PARAMS (r_id b) prs) = NvOk ps }.

Definition request_bytes (b : rec) (prs : list rec) (tail : list Z) : list Z :=
  enc b ++ wire prs ++ enc (mkRec FCGI_PARAMS (r_id b) [] []) ++ tail.

(** The role that the body of a begin record asks for. *)
Definition begin_role (b : rec) : option (list Z) :=
  role_string (role (begun_req (r_id b) (r_content b) req_zero)).

(** Reading the environment. *)
Lemma read_params_spec rq tx0 rs0 tail p ss s X ps : rd_at FCGI_PARAMS rq tx0 rs0 [] tail s X -> frag s = [] ->
  params_hold p ss -> Forall is_byte X -> zlen ss + zlen X < 536870912 ->
  nv_parse (S (length X)) X = NvOk ps -> (length X < rd_fuel s)%nat ->
  exists p' s', (s <- get ;; @ReadParams reader_procs (rd_fuel s) p) s = Ok (0, p', s') /\
    params_hold p' (ss ++ (nv_string <$> ps)) /\ rd_end FCGI_PARAMS rq tx0 rs0 [] tail s'.
Proof.
  intros H Hf Hp HX Hb Hparse Hfuel.
  assert (Hc : @src_content _ (rd_source FCGI_PARAMS rq tx0 rs0 [] tail) s X) by (exists X; by rewrite Hf).
  pose proof (@ReadParams_spec _ (rd_source FCGI_PARAMS rq tx0 rs0 [] tail) (rd_fuel s) s X p ss Hc HX Hp Hb Hfuel) as Hr.
  rewrite (nv_parse_fuel _ (S (length X))) in Hr by lia. rewrite Hparse in Hr.
  destruct Hr as (p' & s' & E & Hp' & He).
  exists p', s'. split; [unfold bind, get; exact E|done].
Qed.

(** The state after the environment was read: the parameters hold the role and the
    environment, and what is unread is what follows the parameters stream. *)
Definition request_read (b : rec) (prs : list rec) (ps : list (list Z * list Z)) (tail : list Z)
    (w w' : World) : Prop :=
  exists role p st, begin_role b = Some role /\
  paramsPtr (request w') = Some p /\ params_hold p (role :: (nv_string <$> ps)) /\
  in_ (request w') = Some st /\
  rd_end FCGI_PARAMS (begun_req (r_id b) (r_content b) ((rd (request w)) <| isBeginProcessed := false |>))
    (tx (cn w)) prs [] tail (mkSS st (rd (request w')) (cn w')) /\
  out (request w') = out (request w) /\ err (request w') = err (request w) /\
  mallocs w' = drop 1 (mallocs w) /\ aio w' = aio w /\ received w' = received w /\
  libInitialized w' = libInitialized w.

Lemma malloc_Ok w : exists a, malloc w = Ok (a, w <| mallocs := drop 1 (mallocs w) |>).
Proof.
  unfold malloc, bind, get. destruct (mallocs w) as [|a l] eqn:E.
  - exists 0. destruct w; cbn in *; by subst.
  - by exists a.
Qed.

Lemma read_request_spec b prs ps tail w : request_ok b prs ps -> begin_role b <> None ->
  0 <= ipcFd (rd (request w)) -> accepts (wr (cn w)) -> delivers (rx (cn w)) ->
  rx_bytes (rx (cn w)) = request_bytes b prs tail ->
  exists w', read_request w = Ok (true, w') /\ request_read b prs ps tail w w'.
Proof.
  intros R Hrole Hfd Ha Hd Hb. destruct R as [(Hok & Ht & Hid) [Hl Hbb] Hpad Hprs HX HXl Hparse].
  unfold read_request. erewrite bind_Ok by reflexivity.
  set (rq0 := (rd (request w)) <| isBeginProcessed := false |>).
  set (w0 := w <| request := (request w) <| rd := rq0 |> |>).
  destruct (malloc_Ok w0) as (a & Em). erewrite bind_Ok by exact Em.
  set (st0 := NewReader a 8192 0). erewrite bind_Ok by reflexivity. set (w1 := _ <| request := _ |>).
  destruct (NewReader_between a 8192 0 rq0 (cn w) Hfd Ha Hd) as [B Hu].
  rewrite Hb in Hu. unfold request_bytes in Hu.
  destruct (FillBuffProc_begin b _ _ B eq_refl Hu) as (s1 & E1 & L1 & _ & _ & _ & _ & _ & _ & Htx1 & Hu1 & Hrq1);
    try done.
  { intros Hz. apply (f_equal length) in Hz. unfold enc in Hz. rewrite !length_app in Hz. cbn in Hz. lia. }
  erewrite bind_Ok by (eapply (on_stream_Ok In); [reflexivity|exact E1]).
  erewrite bind_Ok by reflexivity. cbn [put_stream request setter set_request set_cn rd set_rd set_stream].
  rewrite Hrq1. cbn [req] in *.
  set (rq1 := begun_req (r_id b) (r_content b) rq0) in *.
  change (isBeginProcessed rq1) with true. cbn [negb].
  unfold begin_role in Hrole. change (role (begun_req (r_id b) (r_content b) req_zero)) with (role rq1) in Hrole.
  destruct (role_string (role rq1)) as [roleStr|] eqn:Er; [|done].
  destruct (NewParams_hold 30 ltac:(lia)) as (p0 & Ep0 & Hp0).
  destruct (PutParam_hold p0 [] roleStr Hp0) as (p1 & Ep1 & Hp1); [rewrite zlen_nil; lia|].
  unfold bind at 1, lift at 1. rewrite Ep0. unfold bind at 1, lift at 1. rewrite Ep1.
  erewrite bind_Ok by reflexivity.
  rewrite Hpad, app_nil_l in Hu1.
  destruct (SetReaderType_open FCGI_PARAMS rq1 prs [] tail s1 L1 Hrq1) as (s2 & E2 & H2 & Hf2 & Hrq2 & Hc2 & Hu2);
    [|done|done|].
  { destruct Hok as (? & ? & ?). split; try done; cbn; lia. }
  erewrite bind_Ok by (eapply (on_stream_Ok In); [reflexivity|rewrite <- Hrq1; destruct s1; exact E2]).
  set (X := rd_content FCGI_PARAMS (requestId rq1) prs) in *.
  assert (Hfuel : (length X < rd_fuel s2)%nat).
  { eapply rd_fuel_content; [by eapply rd_at_layout|]. rewrite Hu2. exact Hu1. }
  destruct (read_params_spec rq1 _ _ tail p1 [roleStr] s2 X ps H2 Hf2 Hp1 HX) as (p2 & s3 & E3 & Hp3 & Hend);
    [rewrite zlen_cons, zlen_nil; unfold X; cbn; lia|done|done|].
  erewrite bind_Ok by (eapply (on_stream_Ok In); [reflexivity|rewrite <- Hrq2; destruct s2; exact E3]).
  erewrite bind_Ok by reflexivity. eexists. split; [reflexivity|].
  exists roleStr, p2, (strm s3). split; [done|]. split; [done|]. split; [done|]. split; [done|].
  split; [|done]. cbn [tx cn] in Hend. cbn in Htx1. rewrite Htx1 in Hend.
  destruct s3; exact Hend.
Qed.
End AcceptSpec.

(** ** The theorems *)

(** A reader between two streams whose peer has sent the records [rs] of the stream of type [T],
    the end of this stream, and [tail]. *)
Record stream_comes (T : Z) (rs : list rec) (epad tail : list Z) (s : SS) : Prop := {
  sc_layout : rd_layout s;
  sc_ok : stream_ok T (req s) epad;
  sc_records : Forall (deliverable T (requestId (req s))) rs;
  sc_bytes : Forall is_byte (rd_content T (requestId (req s)) rs);
  sc_unread : unread s = wire rs ++ enc (mkRec T (requestId (req s)) [] epad) ++ tail }.

Section StreamTheorems.
Context {uninit : Uninit}.

Lemma stream_comes_open T rs epad tail s : stream_comes T rs epad tail s ->
  exists s', SetReaderType T s = Ok (tt, s') /\ req s' = req s /\
    (length (rd_content T (requestId (req s)) rs) < rd_fuel s')%nat /\
    @src_content _ (rd_source T (req s) (tx (conn s)) rs epad tail) s' (rd_content T (requestId (req s)) rs).
Proof.
  intros [L OK Hrs HX Hu].
  destruct (SetReaderType_open T (req s) rs epad tail s L eq_refl OK Hrs Hu) as (s1 & E1 & H1 & Hf1 & Hrq1 & Hc1 & Hu1).
  exists s1. split; [done|]. split; [done|]. split.
  - eapply rd_fuel_content; [by eapply rd_at_layout|]. by rewrite Hu1.
  - eexists. split; [exact H1|]. by rewrite Hf1.
Qed.

(** C29: [ReadParams] on a stream is the reference decoder of name-value pairs on its content,
    whatever records and pieces it arrives in: the pairs as strings [name=value] in their
    order; failure when the last pair is cut short; and undefined behaviour, the signed
    overflow of [nameLen + valueLen + 2], when the lengths of a pair add up to 2^31 - 2. *)
Theorem ReadParams_decodes T rs epad tail s p ss : stream_comes T rs epad tail s -> params_hold p ss ->
  let X := rd_content T (requestId (req s)) rs in
  zlen ss + zlen X < 536870912 ->
  let r := (SetReaderType T ;;; s <- get ;; @ReadParams reader_procs (rd_fuel s) p) s in
  match nv_parse (S (length X)) X with
  | NvOk ps => exists p' s', r = Ok (0, p', s') /\ params_hold p' (ss ++ (nv_string <$> ps)) /\
                 isClosed (strm s') = true /\ unread s' = epad ++ tail
  | NvTruncated => exists p' s', r = Ok (-1, p', s')
  | NvOverflow => r = Crash IntOverflow
  end.
Proof.
  intros H Hp X Hb r. destruct (stream_comes_open T rs epad tail s H) as (s1 & E1 & Hrq & Hfuel & Hc).
  assert (Er : r = @ReadParams reader_procs (rd_fuel s1) p s1).
  { unfold r. erewrite bind_Ok by exact E1. done. }
  pose proof (@ReadParams_spec _ (rd_source T (req s) (tx (conn s)) rs epad tail) (rd_fuel s1) s1 X p ss Hc
    (sc_bytes _ _ _ _ _ H) Hp Hb Hfuel) as Hr.
  fold X in Hfuel. rewrite (nv_parse_fuel _ (S (length X))) in Hr by lia. rewrite Er. unfold ReadParams_post in Hr.
  destruct (nv_parse _ X); [|done..]. destruct Hr as (p' & s' & E & Hp' & He). exists p', s'.
  split; [done|]. split; [done|]. split; [apply He|apply He].
Qed.

(** Successive calls of [FCGX_GetStr]. *)
Fixpoint GetStrs (ns : list Z) : M SS (list (list Z)) :=
  match ns with
  | [] => ret []
  | n :: ns => bs <- @FCGX_GetStr reader_procs n ;; rest <- GetStrs ns ;; ret (bs :: rest)
  end.

Fixpoint pieces (ns : list Z) (X : list Z) : list (list Z) :=
  match ns with
  | [] => []
  | n :: ns => sub 0 n X :: pieces ns (drop (Z.to_nat n) X)
  end.

Lemma GetStrs_closed ns s : isClosed (strm s) = true -> GetStrs ns s = Ok (pieces ns [], s).
Proof.
  intros Hc. induction ns as [|n ns IH]; [done|]. cbn [GetStrs pieces].
  erewrite bind_Ok by (unfold FCGX_GetStr, bind, get; rewrite Hc; reflexivity).
  erewrite bind_Ok by exact IH. rewrite drop_nil. unfold ret. by destruct (Z.to_nat n); unfold sub; rewrite drop_nil, take_nil.
Qed.

Lemma GetStrs_spec T rq tx0 rs epad tail ns : forall s X, Forall (fun n => 0 <= n) ns ->
  @src_content _ (rd_source T rq tx0 rs epad tail) s X -> exists s', GetStrs ns s = Ok (pieces ns X, s').
Proof.
  induction ns as [|n ns IH]; intros s X Hns H; [by exists s|]. inversion_clear Hns as [|? ? Hn Hns'].
  cbn [GetStrs pieces].
  destruct (@FCGX_GetStr_spec _ (rd_source T rq tx0 rs epad tail) n s X H Hn) as (s1 & E1 & H1).
  erewrite bind_Ok by exact E1. unfold src_after in H1. destruct (Z.leb_spec n (zlen X)).
  - destruct (IH s1 _ Hns' H1) as (s2 & E2). exists s2. by erewrite bind_Ok by exact E2.
  - exists s1. rewrite (drop_ge X) by (unfold zlen in *; lia).
    by erewrite bind_Ok by (apply GetStrs_closed; apply H1).
Qed.

(** C30: reading a stream gives the content of its records, however the bytes arrive and however
    much is asked for at a time; reads beyond the end give nothing. *)
Theorem GetStr_delivers T rs epad tail s ns : stream_comes T rs epad tail s -> Forall (fun n => 0 <= n) ns ->
  exists s', (SetReaderType T ;;; GetStrs ns) s = Ok (pieces ns (rd_content T (requestId (req s)) rs), s').
Proof.
  intros H Hns. destruct (stream_comes_open T rs epad tail s H) as (s1 & E1 & _ & _ & Hc).
  destruct (GetStrs_spec _ _ _ _ _ _ ns s1 _ Hns Hc) as (s2 & E2). exists s2. by erewrite bind_Ok by exact E1.
Qed.

Definition filter_ready (s : SS) : bool :=
  (role (req s) =? FCGI_FILTER) && isClosed (strm s) && (stype (data (strm s)) =? FCGI_STDIN).

(** a filter starts on its data when it has read the end of [STDIN]: the next stream is
    then the one of type [FCGI_DATA]; for another role, or before, the call is refused with
    [FCGX_CALL_SEQ_ERROR] and the stream closed. *)
Theorem StartFilterData_spec rs tail s ns : stream_comes FCGI_DATA rs [] tail s -> Forall (fun n => 0 <= n) ns ->
  if filter_ready s
  then exists s', (rc <- FCGX_StartFilterData ;; reads <- GetStrs ns ;; ret (rc, reads)) s =
         Ok ((0, pieces ns (rd_content FCGI_DATA (requestId (req s)) rs)), s')
  else FCGX_StartFilterData s =
         Ok (-1, s <| strm := (strm s) <| FCGI_errno := FCGX_CALL_SEQ_ERROR |> <| isClosed := true |> |>).
Proof.
  intros H Hns. pose proof (sc_layout _ _ _ _ _ H) as L. unfold filter_ready.
  assert (Eg : negb (role (req s) =? FCGI_FILTER) || negb (isReader (strm s)) || negb (isClosed (strm s))
    || negb (stype (data (strm s)) =? FCGI_STDIN) = negb (filter_ready s)).
  { unfold filter_ready. rewrite (rl_reader s L), !negb_andb. cbn. by rewrite orb_false_r. }
  fold (filter_ready s). destruct (filter_ready s).
  - destruct (stream_comes_open FCGI_DATA rs [] tail s H) as (s1 & E1 & _ & _ & Hc).
    destruct (GetStrs_spec _ _ _ _ _ _ ns s1 _ Hns Hc) as (s2 & E2). exists s2.
    erewrite bind_Ok; [by erewrite bind_Ok by exact E2|].
    unfold FCGX_StartFilterData, bind at 1, get at 1. rewrite Eg. cbn [negb].
    by erewrite bind_Ok by exact E1.
  - unfold FCGX_StartFilterData, bind at 1, get at 1. rewrite Eg. cbn [negb].
    unfold bind, SetError, upd_strm, modify, ret. cbn. by rewrite (rl_errno s L).
Qed.
End StreamTheorems.

(** The pairs A=x and B= in two records of request 1, a record of request 2, and a [DATA] stream. *)
Module StreamSample.
Definition rq (role : Z) : ReqData := mkReqData 1 role 4 true false 0 2 0 0 false.
Definition recs (T : Z) : list rec :=
  [mkRec T 1 [1; 1; 65] [0]; mkRec T 2 [7] []; mkRec T 1 [120; 1; 0; 66] []].
Definition bytes (T : Z) : list Z := wire (recs T) ++ enc (mkRec T 1 [] []) ++ [].
Definition state (T role : Z) : SS :=
  mkSS (NewReader 0 64 FCGI_STDIN) (rq role) (mkConn [RdData (take 9 (bytes T)); RdData (drop 9 (bytes T))] [] [] 0).
Definition ended (T role : Z) : SS :=
  (state T role) <| strm := (strm (state T role)) <| isClosed := true |> |>.

#[export] Instance zero_stack : Uninit := {| response_init := replicate 64 0; response_init_len := eq_refl |}.

Ltac compute_done := vm_compute; solve [done | repeat split; solve [done | intros; discriminate]].
Ltac concrete := first [compute_done | by (vm_compute; repeat (constructor; [compute_done|]); constructor)].

Lemma comes T role s : T = FCGI_PARAMS \/ T = FCGI_DATA -> s = state T role \/ s = ended T role ->
  stream_comes T (recs T) [] [] s.
Proof.
  intros [-> | ->] [-> | ->].
  all: split; [split; concrete|split; concrete|concrete..].
Qed.
End StreamSample.

Lemma ReadParams_decodes_witness : let uninit := StreamSample.zero_stack in
  exists p' s', (SetReaderType FCGI_PARAMS ;;; s <- get ;; @ReadParams reader_procs (rd_fuel s) (mkParams [Null; Undef] 2 0))
    (StreamSample.state FCGI_PARAMS FCGI_RESPONDER) = Ok (0, p', s') /\
    params_hold p' [[65; 61; 120]; [66; 61]].
Proof.
  intros uninit.
  destruct (ReadParams_decodes FCGI_PARAMS (StreamSample.recs FCGI_PARAMS) [] []
    (StreamSample.state FCGI_PARAMS FCGI_RESPONDER) (mkParams [Null; Undef] 2 0) []) as (p' & s' & E & Hp & _).
  - apply (StreamSample.comes FCGI_PARAMS FCGI_RESPONDER); auto.
  - split; [done|done|cbn; lia|by exists [Undef]].
  - by vm_compute.
  - exists p', s'. split; [exact E|exact Hp].
Defined.

Lemma GetStr_delivers_witness : let uninit := StreamSample.zero_stack in
  exists s', (SetReaderType FCGI_DATA ;;; GetStrs [2; 0; 4; 9]) (StreamSample.state FCGI_DATA FCGI_RESPONDER) =
    Ok ([[1; 1]; []; [65; 120; 1; 0]; [66]], s').
Proof.
  intros uninit.
  apply (GetStr_delivers FCGI_DATA (StreamSample.recs FCGI_DATA) [] [] (StreamSample.state FCGI_DATA FCGI_RESPONDER)).
  - apply (StreamSample.comes FCGI_DATA FCGI_RESPONDER); auto.
  - repeat (constructor; [lia|]). constructor.
Defined.

Lemma StartFilterData_spec_witness : let uninit := StreamSample.zero_stack in
  exists s', (rc <- FCGX_StartFilterData ;; reads <- GetStrs [6; 6] ;; ret (rc, reads)) (StreamSample.ended FCGI_DATA FCGI_FILTER) =
    Ok ((0, [[1; 1; 65; 120; 1; 0]; [66]]), s').
Proof.
  intros uninit.
  apply (StartFilterData_spec (StreamSample.recs FCGI_DATA) [] (StreamSample.ended FCGI_DATA FCGI_FILTER) [6; 6]).
  - apply (StreamSample.comes FCGI_DATA FCGI_FILTER); auto.
  - repeat (constructor; [lia|]). constructor.
Defined.
