(* ===== verification/OsProcess.v ===== *)
(** * Processes: starting an application, and what a descriptor is

    [OS_SpawnChild], [OS_IsFcgi] and [OS_SetFlags] of [libfcgi/os_unix.c], on the descriptors of a
    process. *)

From stdpp Require Import gmap.
From S2P Require Import Prelude FcgiProto OsAccept OsAsync FcgiRequest.

Definition STDERR_FILENO : Z := 2.
Definition ENOTCONN : Z := 107.

(** The open files of a process by descriptor; a file is a number. *)
Notation Fds := (gmap Z Z).

(** [close], and [dup2] (which fails when the old descriptor is not open); their results are not
    used. *)
Definition sys_close (fd : Z) : M Fds unit := modify (delete fd).
Definition sys_dup2 (old new : Z) : M Fds unit :=
  fds <- get ;; match fds !! old with Some f => modify <[new := f]> | None => ret tt end.

(** How a process goes on after [OS_SpawnChild]. *)
Inductive spawned :=
  | Parent (rc : Z)
  | Child (appPath : list Z)
  | Ended (code : Z).

(** [forkResult] is what [fork] returned; [exec_errno] why [execl] failed, if it did. *)
Definition OS_SpawnChild (forkResult sys_errno : Z) (exec_errno : option Z) (appPath : list Z) (listenFd : Z) : M Fds spawned :=
  if forkResult <? 0 then ret (Ended sys_errno) else
  if forkResult =? 0 then
    sys_close STDIN_FILENO ;;;
    (if negb (listenFd =? FCGI_LISTENSOCK_FILENO) then
       sys_dup2 listenFd FCGI_LISTENSOCK_FILENO ;;;
       sys_close listenFd
     else ret tt) ;;;
    sys_close STDOUT_FILENO ;;;
    sys_close STDERR_FILENO ;;;
    ret (match exec_errno with None => Child appPath | Some e => Ended e end)
  else ret (Parent 0).

(** What [getpeername] returns and the [errno] it leaves. *)
Definition OS_IsFcgi (getpeername : Z -> Z * Z) (sock : Z) : bool :=
  let '(rc, e) := getpeername sock in negb (rc =? 0) && (e =? ENOTCONN).

(** The flags of the open descriptors; [Some code] when the process exits. *)
Definition OS_SetFlags (sys_errno : Z) (setfl_fails : bool) (fd new : Z) : M (gmap Z Z) (option Z) :=
  table <- get ;;
  match table !! fd with
  | None => ret (Some sys_errno)
  | Some val => if setfl_fails then ret (Some sys_errno) else modify <[fd := Z.lor val new]> ;;; ret None
  end.

(** the application that [OS_SpawnChild] starts finds the listening socket as its standard input,
    no standard output or error, no second descriptor of the socket, and every other descriptor of
    its parent; the parent's own descriptors do not change. *)
Theorem child_descriptors sys_errno appPath listenFd sock (fds : Fds) : fds !! listenFd = Some sock -> listenFd <> FCGI_LISTENSOCK_FILENO ->
  (exists fds', OS_SpawnChild 0 sys_errno None appPath listenFd fds = Ok (Child appPath, fds') /\
    fds' !! FCGI_LISTENSOCK_FILENO = Some sock /\ fds' !! STDOUT_FILENO = None /\ fds' !! STDERR_FILENO = None /\
    fds' !! listenFd = None /\
    forall fd, fd ∉ [STDIN_FILENO; STDOUT_FILENO; STDERR_FILENO; listenFd] -> fds' !! fd = fds !! fd) /\
  forall pid, 0 < pid -> OS_SpawnChild pid sys_errno None appPath listenFd fds = Ok (Parent 0, fds).
Proof.
  intros Hl Hn. unfold FCGI_LISTENSOCK_FILENO in *. split.
  - eexists. split.
    + unfold OS_SpawnChild. cbn [Z.ltb Z.compare Z.eqb]. unfold FCGI_LISTENSOCK_FILENO. rewrite (proj2 (Z.eqb_neq listenFd 0)) by done.
      assert (E : sys_dup2 listenFd 0 (delete STDIN_FILENO fds) = Ok (tt, <[0 := sock]> (delete STDIN_FILENO fds))).
      { unfold sys_dup2, bind, get. by rewrite lookup_delete_ne, Hl by (unfold STDIN_FILENO; lia). }
      cbn [negb]. unfold bind at 1, sys_close at 1, modify at 1. unfold bind at 1. rewrite (bind_Ok _ _ _ _ _ E). reflexivity.
    + unfold STDIN_FILENO, STDOUT_FILENO, STDERR_FILENO in *. split_and!.
      * by rewrite !lookup_delete_ne, lookup_insert_eq by lia.
      * by rewrite lookup_delete_ne, lookup_delete_eq by lia.
      * by rewrite lookup_delete_eq.
      * destruct (decide (listenFd = 2)) as [->|]; [by rewrite lookup_delete_eq|rewrite lookup_delete_ne by lia].
        destruct (decide (listenFd = 1)) as [->|]; [by rewrite lookup_delete_eq|rewrite lookup_delete_ne by lia].
        by rewrite lookup_delete_eq.
      * intros fd Hfd. rewrite !elem_of_cons in Hfd. by rewrite !lookup_delete_ne, lookup_insert_ne, lookup_delete_ne by (intros E; apply Hfd; rewrite <- E; tauto).
  - intros pid Hp. unfold OS_SpawnChild. by rewrite (proj2 (Z.ltb_ge _ _)), (proj2 (Z.eqb_neq _ _)) by lia.
Qed.

(** When the listening socket is descriptor 0, as it is when the bridge was started without a
    standard input, the child closes it and the application finds no socket to accept on: the
    comment says that nothing has to be done in this case. *)
Theorem child_loses_listener sys_errno appPath (fds : Fds) :
  exists fds', OS_SpawnChild 0 sys_errno None appPath FCGI_LISTENSOCK_FILENO fds = Ok (Child appPath, fds') /\
    fds' !! FCGI_LISTENSOCK_FILENO = None.
Proof. eexists. split; [reflexivity|]. by rewrite !lookup_delete_ne, lookup_delete_eq by done. Qed.

Lemma child_descriptors_witness :
  exists fds', OS_SpawnChild 0 0 None [47; 97] 4 {[0 := 10; 1 := 11; 2 := 12; 4 := 20; 7 := 17]} = Ok (Child [47; 97], fds') /\
    fds' !! 0 = Some 20 /\ fds' !! 1 = None /\ fds' !! 4 = None /\ fds' !! 7 = Some 17.
Proof.
  destruct (child_descriptors 0 [47; 97] 4 20 {[0 := 10; 1 := 11; 2 := 12; 4 := 20; 7 := 17]} ltac:(by vm_compute) ltac:(done))
    as [(fds' & E & H0 & H1 & _ & H4 & H) _].
  exists fds'. split; [exact E|]. split; [exact H0|]. split; [exact H1|]. split; [exact H4|].
  rewrite H; [by vm_compute|]. rewrite !elem_of_cons, elem_of_nil. unfold STDIN_FILENO, STDOUT_FILENO, STDERR_FILENO. lia.
Defined.
