(* ===== verification/FcgiPrintf.v ===== *)
(** * Formatted output: [FCGX_VFPrintF]

    [FCGX_VFPrintF] of [libfcgi/fcgiapp.c], which formats into a buffer of its own with [sprintf],
    one conversion at a time, and writes the buffer with [FCGX_PutStr]; and its callers
    [FCGX_FPrintF] and [FCGX_PutS]. *)

From stdpp Require Import sets.
From S2P Require Import Prelude CSprintf FcgiProto FcgiStream FcgiWriter FcgiRequest.

(** ** The arguments *)

(** What is passed through the ellipsis: an [int] or [unsigned] (a [short] and a [char] are
    promoted), a [long] or [unsigned long], a string or [NULL], pointers, floating point numbers. *)
Inductive arg (Dbl : Type) :=
  | AInt (z : Z)
  | ALong (z : Z)
  | AStr (s : option (list Z))
  | APtr (p : Z)
  | ADouble (d : Dbl)
  | ALongDouble (d : Dbl).
Arguments AInt {Dbl} z.
Arguments ALong {Dbl} z.
Arguments AStr {Dbl} s.
Arguments APtr {Dbl} p.
Arguments ADouble {Dbl} d.
Arguments ALongDouble {Dbl} d.

(** What a call of [FCGX_VFPrintF] works on: the stream, the arguments that are left, what [%n]
    has stored through pointers, and [auxBuffLen], 0 while [auxBuffPtr] is [NULL].  [Malloc]
    succeeds. *)
Record Printf (Dbl : Type) := mkPrintf {
  stream : SS;
  args : list (arg Dbl);
  stores : list (Z * Z);
  auxBuffLen : Z }.
Arguments mkPrintf {Dbl}.
Arguments stream {Dbl}.
Arguments args {Dbl}.
Arguments stores {Dbl}.
Arguments auxBuffLen {Dbl}.

(** An argument that the scan of a specification has already read. *)
Inductive early (Dbl : Type) := NoArg | EarlyStr (s : list Z) | EarlyDbl (d : Dbl).
Arguments NoArg {Dbl}.
Arguments EarlyStr {Dbl} s.
Arguments EarlyDbl {Dbl} d.

Definition PRINTF_BUFFLEN : Z := 100.
Definition FMT_BUFFLEN : Z := 25.

Section Printf.
Context {procs : StreamProcs} {Dbl : Type} {libc : Libc Dbl}.
Notation PF := (Printf Dbl).

#[export] Instance set_stream : Setter (stream (Dbl := Dbl)) := fun g r =>
  mkPrintf (g (stream r)) (args r) (stores r) (auxBuffLen r).
#[export] Instance set_args : Setter (args (Dbl := Dbl)) := fun g r =>
  mkPrintf (stream r) (g (args r)) (stores r) (auxBuffLen r).
#[export] Instance set_stores : Setter (stores (Dbl := Dbl)) := fun g r =>
  mkPrintf (stream r) (args r) (g (stores r)) (auxBuffLen r).
#[export] Instance set_auxBuffLen : Setter (auxBuffLen (Dbl := Dbl)) := fun g r =>
  mkPrintf (stream r) (args r) (stores r) (g (auxBuffLen r)).

Definition put (bs : list Z) : M PF Z := zoom stream (fun s p => p <| stream := s |>) (FCGX_PutStr bs).

(** [va_arg]: the next argument; reading one of another type is undefined behaviour. *)
Definition va_arg {A} (as_type : arg Dbl -> option A) : M PF A :=
  p <- get ;;
  match args p with
  | a :: rest =>
      match as_type a with
      | Some x => modify (fun p => p <| args := rest |>) ;;; ret x
      | None => crash MemFault
      end
  | [] => crash MemFault
  end.

Definition as_int (a : arg Dbl) : option Z := match a with AInt z => Some z | _ => None end.
Definition as_long (a : arg Dbl) : option Z := match a with ALong z => Some z | _ => None end.
Definition as_str (a : arg Dbl) : option (option (list Z)) := match a with AStr s => Some s | _ => None end.
Definition as_ptr (a : arg Dbl) : option Z := match a with APtr p => Some p | _ => None end.
Definition as_double (a : arg Dbl) : option Dbl := match a with ADouble d => Some d | _ => None end.
Definition as_long_double (a : arg Dbl) : option Dbl := match a with ALongDouble d => Some d | _ => None end.

(** ** The conversion specification *)

(** What scanning a specification finds: [op], [sizeModifier], [fmtBuff] and the specification's
    length in the format. *)
Record scanned := mkScanned {
  sc_op : Z;
  sc_mod : Z;
  sc_fmt : list Z;
  sc_len : Z }.

(** Fast path: [f] is what follows the percent sign; past its end is the terminating NUL. *)
Definition scan_fast (f : list Z) : scanned :=
  let op := nth 0 f 0 in
  if is_mod op then let op' := nth 1 f 0 in mkScanned op' op [37; op; op'] 3
  else mkScanned op 32 [37; op] 2.

(** [abs], which overflows for [INT_MIN]. *)
Definition c_abs (n : Z) : res Z := int_chk (Z.abs n).

(** "Scan minimum field width": what is added to [fmtBuff], [minWidth], and the rest of the
    format; [None] for the error return. *)
Definition scan_width (p : list Z) : M PF (option (list Z * Z * list Z)) :=
  let '(ds, rest) := span is_digit p in
  if zlen ds =? 0 then
    if nth 0 p 0 =? 42 then
      minWidth <- va_arg as_int ;;
      a <- lift (c_abs minWidth) ;;
      ret (if 999999 <? a then None else Some (decimal minWidth, minWidth, drop 1 p))
    else ret (Some ([], 0, p))
  else if zlen ds <=? 6 then ret (Some (ds, number ds, rest))
  else ret None.

(** "Scan precision"; [-1] when there is none. *)
Definition scan_precision (p : list Z) : M PF (option (list Z * Z * list Z)) :=
  if nth 0 p 0 =? 46 then
    let p := drop 1 p in
    let '(ds, rest) := span is_digit p in
    if zlen ds =? 0 then
      if nth 0 p 0 =? 42 then
        precision <- va_arg as_int ;;
        let precision := if precision <? 0 then 0 else precision in
        ret (if 999999 <? precision then None else Some (46 :: decimal precision, precision, drop 1 p))
      else ret (Some ([46], 0, p))
    else if zlen ds <=? 6 then ret (Some (46 :: ds, number ds, rest))
    else ret None
  else ret (Some ([], -1, p)).

(** The characters of ["(null)"]. *)
Definition null_text : list Z := [40; 110; 117; 108; 108; 41].

(** "Bound the required buffer size." *)
Definition bound_buffer (op sizeModifier precision : Z) : M PF (option (Z * early Dbl)) :=
  if (op =? 100) || (op =? 105) || (op =? 117) || (op =? 111) || (op =? 120) || (op =? 88) || (op =? 99) || (op =? 112)
  then ret (Some (Z.max precision 46, NoArg))
  else if op =? 115 then
    s <- va_arg as_str ;;
    let s := c_string (default null_text s) in
    ret (Some (if precision =? -1 then zlen s else Z.min precision (zlen s), EarlyStr s))
  else if op =? 102 then
    d <- (if sizeModifier =? 32 then x <- va_arg as_double ;; ret (Some (x, frexp_exp x))
          else if sizeModifier =? 76 then x <- va_arg as_long_double ;; ret (Some (x, frexp_exp (to_double x)))
          else ret None) ;;
    match d with
    | None => ret None
    | Some (d, exp) =>
        let precision := if precision =? -1 then 6 else precision in
        ret (Some (precision + 3 + (if 0 <? exp then Z.quot exp 3 else 0), EarlyDbl d))
    end
  else if (op =? 101) || (op =? 69) || (op =? 103) || (op =? 71) then
    let precision := if precision =? -1 then 6 else precision in
    ret (Some (precision + 8, NoArg))
  else ret None.

(** "Allocate the buffer": [buffLen]. *)
Definition allocate (buffReqd : Z) : M PF Z :=
  if buffReqd <=? PRINTF_BUFFLEN then ret PRINTF_BUFFLEN else
  p <- get ;;
  (if (auxBuffLen p =? 0) || (auxBuffLen p <? buffReqd)
   then modify (fun p => p <| auxBuffLen := buffReqd |>) else ret tt) ;;;
  p <- get ;;
  ret (auxBuffLen p).

(** Slow path: what it scans, the argument it has read, and the buffer's length. *)
Definition scan_slow (f : list Z) : M PF (option (scanned * early Dbl * Z)) :=
  let '(flags, p) := span is_flag f in
  if 5 <? zlen flags then ret None else
  w <- scan_width p ;;
  match w with
  | None => ret None
  | Some (wtext, minWidth, p) =>
    pr <- scan_precision p ;;
    match pr with
    | None => ret None
    | Some (ptext, precision, p) =>
        let '(mtext, sizeModifier, p) :=
          if is_mod (nth 0 p 0) then ([nth 0 p 0], nth 0 p 0, drop 1 p) else ([], 32, p) in
        let op := nth 0 p 0 in
        let fmt := 37 :: flags ++ wtext ++ ptext ++ mtext ++ [op] in
        c_assert (zlen fmt <? FMT_BUFFLEN) ;;;
        let specifierLength := zlen f + 1 - zlen p + 1 in
        b <- bound_buffer op sizeModifier precision ;;
        match b with
        | None => ret None
        | Some (buffReqd, early) =>
            buffLen <- allocate (Z.max (buffReqd + 10) minWidth) ;;
            ret (Some (mkScanned op sizeModifier fmt specifierLength, early, buffLen))
        end
    end
  end.

(** ** The conversion *)

(** How the switch on [op] ends: [goto ErrorReturn], [performedOp = FALSE], or with the
    characters in a buffer of [buffLen] bytes. *)
Inductive outcome := ErrorReturn | NotPerformed | Performed (chars : list Z) (buffLen : Z).

(** [sprintf(buffPtr, fmtBuff, v); buffCount = strlen(buffPtr);]. *)
Definition sprintf_to (buffLen : Z) (fmt : list Z) (v : value Dbl) : M PF outcome :=
  bs <- lift (sprintf fmt v) ;;
  if zlen bs + 1 <=? buffLen then ret (Performed (c_string bs) buffLen) else crash MemFault.

(** [d] and [i]. *)
Definition convert_signed (md buffLen : Z) (fmt : list Z) : M PF outcome :=
  if md =? 32 then z <- va_arg as_int ;; sprintf_to buffLen fmt (VInt (to_int z))
  else if md =? 108 then z <- va_arg as_long ;; sprintf_to buffLen fmt (VInt (to_long z))
  else if md =? 104 then z <- va_arg as_int ;; sprintf_to buffLen fmt (VInt (to_short z))
  else ret ErrorReturn.

(** [u], [o], [x] and [X]. *)
Definition convert_unsigned (md buffLen : Z) (fmt : list Z) : M PF outcome :=
  if md =? 32 then z <- va_arg as_int ;; sprintf_to buffLen fmt (VInt (to_uint z))
  else if md =? 108 then z <- va_arg as_long ;; sprintf_to buffLen fmt (VInt (to_ulong z))
  else if md =? 104 then z <- va_arg as_int ;; sprintf_to buffLen fmt (VInt (to_ushort z))
  else ret ErrorReturn.

Definition convert_char (md buffLen : Z) (fmt : list Z) : M PF outcome :=
  if md =? 32 then z <- va_arg as_int ;; sprintf_to buffLen fmt (VInt z) else ret ErrorReturn.

(** On the fast path the string itself is the buffer. *)
Definition convert_string (fastPath : bool) (md buffLen : Z) (fmt : list Z) (e : early Dbl) : M PF outcome :=
  if negb (md =? 32) then ret ErrorReturn
  else if fastPath then
    s <- va_arg as_str ;;
    match s with
    | None => crash NullDeref
    | Some s => ret (Performed (c_string s) (zlen (c_string s) + 1))
    end
  else match e with EarlyStr s => sprintf_to buffLen fmt (VStr s) | _ => crash MemFault end.

Definition convert_pointer (md buffLen : Z) (fmt : list Z) : M PF outcome :=
  if negb (md =? 32) then ret ErrorReturn else p <- va_arg as_ptr ;; sprintf_to buffLen fmt (VPtr p).

(** [n]: [streamCount] through the pointer. *)
Definition convert_count (md count buffLen : Z) : M PF outcome :=
  if (md =? 32) || (md =? 108) || (md =? 104) then
    p <- va_arg as_ptr ;;
    modify (fun s => s <| stores := stores s ++ [(p, if md =? 104 then to_short count else count)] |>) ;;;
    ret (Performed [] buffLen)
  else ret ErrorReturn.

(** [f]. *)
Definition convert_fixed (fastPath : bool) (md buffLen : Z) (fmt : list Z) (e : early Dbl) : M PF outcome :=
  if fastPath then ret NotPerformed
  else if (md =? 32) || (md =? 76)
  then match e with EarlyDbl d => sprintf_to buffLen fmt (VDbl d) | _ => crash MemFault end
  else ret ErrorReturn.

(** [e], [E], [g] and [G]. *)
Definition convert_exp (md buffLen : Z) (fmt : list Z) : M PF outcome :=
  if md =? 32 then d <- va_arg as_double ;; sprintf_to buffLen fmt (VDbl d)
  else if md =? 76 then d <- va_arg as_long_double ;; sprintf_to buffLen fmt (VDbl d)
  else ret ErrorReturn.

(** "This giant switch statement". *)
Definition convert (fastPath : bool) (sc : scanned) (e : early Dbl) (count buffLen : Z) : M PF outcome :=
  let op := sc_op sc in let md := sc_mod sc in let fmt := sc_fmt sc in
  if (op =? 100) || (op =? 105) then convert_signed md buffLen fmt
  else if (op =? 117) || (op =? 111) || (op =? 120) || (op =? 88) then convert_unsigned md buffLen fmt
  else if op =? 99 then convert_char md buffLen fmt
  else if op =? 115 then convert_string fastPath md buffLen fmt e
  else if op =? 112 then convert_pointer md buffLen fmt
  else if op =? 110 then convert_count md count buffLen
  else if op =? 102 then convert_fixed fastPath md buffLen fmt e
  else if (op =? 101) || (op =? 69) || (op =? 103) || (op =? 71) then convert_exp md buffLen fmt
  else if op =? 37 then (if md =? 32 then ret (Performed [37] buffLen) else ret ErrorReturn)
  else if op =? 0 then ret ErrorReturn
  else ret NotPerformed.

(** The loop that "always executes either once or twice": the characters, [buffLen] and the
    specification's length, or the error return. *)
Definition directive (f : list Z) (count : Z) : M PF (option (list Z * Z * Z)) :=
  let sc := scan_fast f in
  r <- convert true sc NoArg count PRINTF_BUFFLEN ;;
  match r with
  | Performed bs len => ret (Some (bs, len, sc_len sc))
  | ErrorReturn => ret None
  | NotPerformed =>
      s <- scan_slow f ;;
      match s with
      | None => ret None
      | Some (sc, e, buffLen) =>
          r <- convert false sc e count buffLen ;;
          ret (match r with Performed bs len => Some (bs, len, sc_len sc) | _ => None end)
      end
  end.

(** [FCGX_PutStr(...)] of some characters with its error return, and [streamCount += ...]. *)
Definition emit (bs : list Z) (count : Z) : M PF (option Z) :=
  if 0 <? zlen bs then
    r <- put bs ;;
    if r <? 0 then ret None else
    count <- lift (int_chk (count + zlen bs)) ;;
    ret (Some count)
  else ret (Some count).

(** [while (f != fStop)]: [streamCount], or [None] for the error return. *)
Fixpoint VFPrintF_loop (fuel : nat) (f : list Z) (count : Z) : M PF (option Z) :=
  match f with
  | [] => ret (Some count)
  | _ :: _ =>
    match fuel with
    | O => nofuel
    | S fuel =>
      let '(lit, rest) := span (fun c => negb (c =? 37)) f in
      c <- emit lit count ;;
      match c, rest with
      | None, _ => ret None
      | Some count, [] => ret (Some count)
      | Some count, _ :: spec =>
          d <- directive spec count ;;
          match d with
          | None => ret None
          | Some (bs, buffLen, len) =>
              c_assert (zlen bs <? buffLen) ;;;
              c <- emit bs count ;;
              match c with
              | None => ret None
              | Some count => VFPrintF_loop fuel (drop (Z.to_nat len) rest) count
              end
          end
      end
    end
  end.

(** Every turn takes at least one character of the format. *)
Definition FCGX_VFPrintF (format : list Z) : M PF Z :=
  r <- VFPrintF_loop (length format) format 0 ;;
  ret (default (-1) r).

(** The argument list starts with the call and ends with it. *)
Definition FCGX_FPrintF (format : list Z) (ap : list (arg Dbl)) : M SS Z := fun s =>
  match FCGX_VFPrintF format (mkPrintf s ap [] 0) with
  | Ok (n, p) => Ok (n, stream p)
  | Crash f => Crash f
  | NoFuel => NoFuel
  end.
End Printf.

Definition FCGX_PutS {procs : StreamProcs} (str : list Z) : M SS Z := FCGX_PutStr (c_string str).

(** ** What ISO C prints

    A format in pieces: literal characters, [%%], [%n] and the other conversion specifications. *)

Inductive width := WNone | WNum (ds : list Z) | WStar.
Inductive precision := PNone | PNum (ds : list Z) | PStar.

Record conversion := mkConv {
  c_flags : list Z;
  c_width : width;
  c_prec : precision;
  c_mod : Z;
  c_op : Z }.

Inductive piece :=
  | Lit (bs : list Z)
  | Percent
  | Count (md : Z)
  | Conv (c : conversion).

Definition width_text (w : width) : list Z := match w with WNone => [] | WNum ds => ds | WStar => [42] end.
Definition prec_text (p : precision) : list Z := match p with PNone => [] | PNum ds => 46 :: ds | PStar => [46; 42] end.
Definition mod_text (m : Z) : list Z := if m =? 32 then [] else [m].

Definition render_conv (c : conversion) : list Z :=
  c_flags c ++ width_text (c_width c) ++ prec_text (c_prec c) ++ mod_text (c_mod c) ++ [c_op c].

Definition render_piece (p : piece) : list Z :=
  match p with
  | Lit bs => bs
  | Percent => [37; 37]
  | Count md => 37 :: mod_text md ++ [110]
  | Conv c => 37 :: render_conv c
  end.

Definition render (ps : list piece) : list Z := concat (map render_piece ps).

Definition int_ops : list Z := [100; 105; 117; 111; 120; 88].
Definition text_ops : list Z := [99; 115; 112].
Definition float_ops : list Z := [102; 101; 69; 103; 71].

(** The conversions that the function knows, with a width and a precision of at most six digits;
    a precision may be empty. *)
Record conv_ok (c : conversion) : Prop := {
  co_flags : forallb is_flag (c_flags c) = true /\ zlen (c_flags c) <= 5;
  co_width : match c_width c with WNum ds => forallb is_digit ds = true /\ 1 <= zlen ds <= 6 /\ nth 0 ds 0 <> 48 | _ => True end;
  co_prec : match c_prec c with PNum ds => forallb is_digit ds = true /\ zlen ds <= 6 | _ => True end;
  co_op : (c_op c ∈ int_ops /\ c_mod c ∈ [32; 108; 104]) \/ (c_op c ∈ text_ops /\ c_mod c = 32) \/
          (c_op c ∈ float_ops /\ c_mod c ∈ [32; 76]) }.

Definition piece_ok (p : piece) : Prop :=
  match p with
  | Lit bs => 37 ∉ bs
  | Percent => True
  | Count md => md ∈ [32; 108; 104]
  | Conv c => conv_ok c
  end.

Section Reference.
Context {Dbl : Type} {libc : Libc Dbl}.

(** The width and the precision, from the arguments where the format says so. *)
Definition get_width (w : width) (args : list (arg Dbl)) : option (Z * list (arg Dbl)) :=
  match w, args with
  | WNone, _ => Some (0, args)
  | WNum ds, _ => Some (number ds, args)
  | WStar, AInt w :: args => Some (w, args)
  | _, _ => None
  end.

Definition get_prec (p : precision) (args : list (arg Dbl)) : option (option Z * list (arg Dbl)) :=
  match p, args with
  | PNone, _ => Some (None, args)
  | PNum ds, _ => Some (Some (number ds), args)
  | PStar, AInt p :: args => if (0 <=? p) && (p <=? 999999) then Some (Some p, args) else None
  | _, _ => None
  end.

(** The argument as the conversion sees it.  A character that is NUL and a string that is [NULL] are left
    out, and so is a [long double] that is beyond the range of [double], for [%Lf]. *)
Definition value_of (op md : Z) (a : arg Dbl) : option (value Dbl) :=
  if (op =? 100) || (op =? 105) then
    match a with
    | AInt z => if md =? 32 then Some (VInt (to_int z)) else if md =? 104 then Some (VInt (to_short z)) else None
    | ALong z => if md =? 108 then Some (VInt (to_long z)) else None
    | _ => None
    end
  else if (op =? 117) || (op =? 111) || (op =? 120) || (op =? 88) then
    match a with
    | AInt z => if md =? 32 then Some (VInt (to_uint z)) else if md =? 104 then Some (VInt (to_ushort z)) else None
    | ALong z => if md =? 108 then Some (VInt (to_ulong z)) else None
    | _ => None
    end
  else if op =? 99 then match a with AInt z => if uchar z =? 0 then None else Some (VInt z) | _ => None end
  else if op =? 115 then match a with AStr (Some s) => Some (VStr (c_string s)) | _ => None end
  else if op =? 112 then match a with APtr p => Some (VPtr p) | _ => None end
  else match a with
       | ADouble d => if (md =? 32) && is_double d then Some (VDbl d) else None
       | ALongDouble d => if (md =? 76) && (negb (op =? 102) || in_double d) then Some (VDbl d) else None
       | _ => None
       end.

(** A negative width is the flag [-] and its absolute value; a width of zero that is passed as an
    argument is read as the flag [0]. *)
Definition spec_of (c : conversion) (w : Z) (prec : option Z) : spec :=
  let flags := c_flags c in
  mkSpec (has 45 flags || (w <? 0)) (has 48 flags || match c_width c with WStar => w =? 0 | _ => false end)
         (has 43 flags) (has 32 flags) (has 35 flags) (Z.abs w) prec (c_mod c) (c_op c).

(** One conversion: its text, and the arguments that are left.  Fields of a hundred characters
    and more are left out. *)
Definition print_conv (c : conversion) (args : list (arg Dbl)) : option (list Z * list (arg Dbl)) :=
  '(w, args) ← get_width (c_width c) args;
  '(prec, args) ← get_prec (c_prec c) args;
  if PRINTF_BUFFLEN <=? Z.abs w then None else
  match args with
  | a :: args =>
      v ← value_of (c_op c) (c_mod c) a;
      match format (spec_of c w prec) v with Ok t => Some (t, args) | _ => None end
  | [] => None
  end.

(** The text of a whole call after [count] characters, what it stores, and the arguments left. *)
Fixpoint print (ps : list piece) (args : list (arg Dbl)) (count : Z) : option (list Z * list (Z * Z) * list (arg Dbl)) :=
  match ps with
  | [] => Some ([], [], args)
  | Lit bs :: ps =>
      '(t, st, args) ← print ps args (count + zlen bs);
      Some (bs ++ t, st, args)
  | Percent :: ps =>
      '(t, st, args) ← print ps args (count + 1);
      Some (37 :: t, st, args)
  | Count md :: ps =>
      match args with
      | APtr p :: args =>
          '(t, st, args) ← print ps args count;
          Some (t, (p, if md =? 104 then to_short count else count) :: st, args)
      | _ => None
      end
  | Conv c :: ps =>
      '(u, args) ← print_conv c args;
      '(t, st, args) ← print ps args (count + zlen u);
      Some (u ++ t, st, args)
  end.
End Reference.

(** ** Scanning a specification *)

(** A character that can come after the flags, the width and the precision. *)
Definition plain (c : Z) : bool := negb (is_flag c) && negb (is_digit c) && negb (c =? 46) && negb (c =? 42).

Lemma op_plain c : conv_ok c -> plain (c_op c) = true /\ is_mod (c_op c) = false /\ c_op c <> 0 /\ c_op c <> 37 /\ c_op c <> 110.
Proof.
  intros [_ _ _ H]. unfold int_ops, text_ops, float_ops in H. repeat rewrite elem_of_cons in H. rewrite !elem_of_nil in H.
  assert (E : c_op c ∈ int_ops ++ text_ops ++ float_ops) by (unfold int_ops, text_ops, float_ops; cbn; repeat rewrite elem_of_cons; tauto).
  clear H. unfold int_ops, text_ops, float_ops in E. cbn in E. repeat rewrite elem_of_cons in E. rewrite elem_of_nil in E.
  repeat destruct E as [E|E]; rewrite ?E; done.
Qed.

Lemma mod_cases c : conv_ok c -> c_mod c = 32 \/ (is_mod (c_mod c) = true /\ c_mod c <> 32 /\ plain (c_mod c) = true).
Proof.
  intros [_ _ _ H]. assert (E : c_mod c ∈ [32; 108; 104; 76]).
  { repeat rewrite elem_of_cons in *. destruct H as [[_ H]|[[_ H]|[_ H]]]; rewrite ?elem_of_nil in *; tauto. }
  repeat rewrite elem_of_cons in E. rewrite elem_of_nil in E. repeat destruct E as [E|E]; rewrite ?E; [by left|right..|done]; done.
Qed.

Lemma mod_text_eq c : conv_ok c -> forall r, 
  (if is_mod (nth 0 (mod_text (c_mod c) ++ c_op c :: r) 0)
   then ([nth 0 (mod_text (c_mod c) ++ c_op c :: r) 0], nth 0 (mod_text (c_mod c) ++ c_op c :: r) 0, drop 1 (mod_text (c_mod c) ++ c_op c :: r))
   else ([], 32, mod_text (c_mod c) ++ c_op c :: r)) = (mod_text (c_mod c), c_mod c, c_op c :: r) /\
  parse_mod (mod_text (c_mod c) ++ c_op c :: r) = (c_mod c, c_op c :: r).
Proof.
  intros H r. destruct (op_plain c H) as (_ & Hm & _). unfold mod_text. destruct (mod_cases c H) as [E|(E & Hn & _)].
  - rewrite E. cbn [Z.eqb Pos.eqb app nth parse_mod]. by rewrite Hm.
  - rewrite (proj2 (Z.eqb_neq _ _) Hn). cbn [app nth parse_mod drop]. by rewrite E.
Qed.

(** What comes after the flags, after the width and after the precision. *)
Definition stops (accept : Z -> bool) (l : list Z) : Prop := match l with [] => True | c :: _ => accept c = false end.

Lemma tail_stops c r : conv_ok c -> let tail := mod_text (c_mod c) ++ c_op c :: r in
  stops is_digit tail /\ stops is_flag tail /\ nth 0 tail 0 <> 46 /\ nth 0 tail 0 <> 42.
Proof.
  intros H tail. assert (P : match tail with [] => False | x :: _ => plain x = true end).
  { unfold tail, mod_text. destruct (op_plain c H) as (Hp & _), (mod_cases c H) as [E|(E & Hn & Hp')].
    - by rewrite E.
    - by rewrite (proj2 (Z.eqb_neq _ _) Hn). }
  destruct tail as [|x tail]; [done|]. unfold plain in P. rewrite !andb_true_iff, !negb_true_iff, !Z.eqb_neq in P.
  destruct P as (((? & ?) & ?) & ?). cbn. done.
Qed.

(** [parse_spec] on the parts it looks for. *)
Lemma parse_spec_parts flags ds ptext prec c : conv_ok c -> forallb is_flag flags = true -> forallb is_digit ds = true ->
  (ds = [] \/ is_flag (nth 0 ds 0) = false) ->
  (ptext = [] /\ prec = None \/ exists pds, ptext = 46 :: pds /\ forallb is_digit pds = true /\ prec = Some (number pds)) ->
  parse_spec (flags ++ ds ++ ptext ++ mod_text (c_mod c) ++ [c_op c]) =
    Some (mkSpec (has 45 flags) (has 48 flags) (has 43 flags) (has 32 flags) (has 35 flags) (number ds) prec (c_mod c) (c_op c)).
Proof.
  intros H Hf Hd Hd0 Hp. destruct (tail_stops c [] H) as (T1 & T2 & T3 & _). destruct (mod_text_eq c H []) as [_ Hm].
  set (tail := mod_text (c_mod c) ++ [c_op c]) in *. unfold parse_spec.
  assert (S1 : stops is_digit (ptext ++ tail) /\ stops is_flag (ptext ++ tail)).
  { destruct Hp as [[-> _]|(pds & -> & _)]; done. }
  rewrite span_app; [|done|].
  2:{ destruct ds as [|d ds]; [apply S1|]. destruct Hd0 as [?|Hd0]; done. }
  unfold parse_width. rewrite span_app by (apply S1 || done).
  assert (Hprec : parse_prec (ptext ++ tail) = (prec, tail)).
  { unfold parse_prec. destruct Hp as [[-> ->]|(pds & -> & Hpd & ->)].
    - cbn [app]. destruct tail as [|x tl]; [done|]. cbn [nth] in T3. clear -T3. repeat (destruct x as [|x|x]; try done).
    - cbn [app]. by rewrite span_app by done. }
  rewrite Hprec, Hm. done.
Qed.

Lemma has_app x l k : has x (l ++ k) = has x l || has x k.
Proof. unfold has. repeat case_bool_decide; rewrite ?elem_of_app in *; set_solver. Qed.

Section Correct.
Context {procs : StreamProcs} {Dbl : Type} {libc : Libc Dbl}.
Notation PF := (Printf Dbl).

(** The text of the width in [fmtBuff] is read back as the width. *)
Lemma scan_width_spec c w args1 r (p : PF) : conv_ok c -> stops is_digit r -> nth 0 r 0 <> 42 -> 
  get_width (c_width c) (args p) = Some (w, args1) -> (c_width c = WStar -> Z.abs w < PRINTF_BUFFLEN) ->
  exists wtext minus ds, scan_width (width_text (c_width c) ++ r) p = Ok (Some (wtext, w, r), p <| args := args1 |>) /\
    wtext = minus ++ ds /\ zlen wtext <= 7 /\ forallb is_flag minus = true /\ forallb is_digit ds = true /\
    (ds = [] \/ is_flag (nth 0 ds 0) = false) /\ number ds = Z.abs w /\
    (forall x, has x minus = (bool_decide (x = 45) && (w <? 0)) || (bool_decide (x = 48) && match c_width c with WStar => w =? 0 | _ => false end)).
Proof.
  intros H Hr Hr0 Hw Hlim. unfold PRINTF_BUFFLEN in *. pose proof (co_width c H) as Hok. unfold scan_width. destruct p as [st ar so au]. cbn [args] in *.
  destruct (c_width c) as [|ds|] eqn:Ec; cbn [width_text] in *.
  - injection Hw as <- <-. exists [], [], []. cbn [app].
    assert (Es : span is_digit r = ([], r)) by (destruct r as [|x r]; [done|]; cbn in *; by rewrite Hr).
    rewrite Es. change (zlen (@nil Z) =? 0) with true. cbn [nth]. rewrite (proj2 (Z.eqb_neq _ _) Hr0).
    split; [done|]. split_and!; try done; [by left|]. intros x. by rewrite !andb_false_r.
  - injection Hw as <- <-. destruct Hok as (Hd & Hl & H0). exists ds, [], ds. rewrite span_app by done.
    rewrite (proj2 (Z.eqb_neq _ 0)), (proj2 (Z.leb_le _ _)) by lia. split; [done|].
    assert (Hn : 0 <= number ds).
    { clear -Hd. induction ds as [|d ds IH] using rev_ind; [done|]. rewrite number_snoc. rewrite forallb_app in Hd.
      apply andb_prop in Hd as [Hd1 Hd2]. specialize (IH Hd1). cbn in Hd2. unfold is_digit in Hd2. lia. }
    split_and!; try done; [lia| |lia|].
    + right. destruct ds as [|d ds]; [done|]. cbn in *. apply andb_prop in Hd as [Hd _]. unfold is_digit in Hd. unfold is_flag.
      rewrite !orb_false_iff, !Z.eqb_neq. lia.
    + intros x. rewrite (proj2 (Z.ltb_ge _ 0)) by done. by rewrite !andb_false_r.
  - specialize (Hlim eq_refl). destruct ar as [|[z| | | | | ] ar]; try done. injection Hw as -> ->. cbn [app nth].
    change (span is_digit (42 :: r)) with ([] : list Z, 42 :: r). cbv iota beta. change (zlen (@nil Z) =? 0) with true. change (42 =? 42) with true. cbv iota.
    assert (E : va_arg as_int (mkPrintf st (AInt w :: args1) so au) = Ok (w, mkPrintf st args1 so au)) by done.
    assert (Ea : c_abs w = Ok (Z.abs w)).
    { unfold c_abs, int_chk, int_fits, INT_MIN, INT_MAX. by rewrite (proj2 (Z.leb_le _ _)), (proj2 (Z.leb_le (Z.abs w) _)) by lia. }
    assert (G : forallb (fun w => 
        let '(m, ds) := span (fun c => (c =? 45) || (w =? 0)) (decimal w) in
        bool_decide (decimal w = m ++ ds) && (zlen (decimal w) <=? 7) && forallb is_flag m && forallb is_digit ds &&
        (bool_decide (ds = []) || negb (is_flag (nth 0 ds 0))) && (number ds =? Z.abs w) &&
        bool_decide (m = (if w <? 0 then [45] else if w =? 0 then [48] else []))) (seqZ (-99) 199) = true) by (vm_compute; reflexivity).
    rewrite forallb_forall in G. specialize (G w). rewrite <- list_elem_of_In, elem_of_seqZ in G. specialize (G ltac:(lia)).
    destruct (span _ (decimal w)) as [m ds]. rewrite !andb_true_iff, orb_true_iff, !bool_decide_eq_true, negb_true_iff, Z.leb_le, Z.eqb_eq in G.
    destruct G as ((((((G1 & G2) & G3) & G4) & G5) & G6) & G7). exists (decimal w), m, ds. split.
    { erewrite bind_Ok by exact E. rewrite Ea. erewrite (bind_Ok (lift _)) by reflexivity. by rewrite (proj2 (Z.ltb_ge _ _)) by lia. }
    split_and!; try done.
    intros x. rewrite G7. unfold has. destruct (Z.ltb_spec w 0), (Z.eqb_spec w 0); try lia; repeat case_bool_decide; set_solver.
Qed.

Lemma number_nonneg ds : forallb is_digit ds = true -> 0 <= number ds.
Proof.
  induction ds as [|d ds IH] using rev_ind; [done|]. rewrite number_snoc, forallb_app. intros [H1 H2]%andb_prop.
  specialize (IH H1). cbn in H2. unfold is_digit in H2. lia.
Qed.

Lemma scan_precision_spec c prec args1 r (p : PF) : conv_ok c -> stops is_digit r -> nth 0 r 0 <> 46 -> nth 0 r 0 <> 42 ->
  get_prec (c_prec c) (args p) = Some (prec, args1) ->
  exists ptext, scan_precision (prec_text (c_prec c) ++ r) p = Ok (Some (ptext, default (-1) prec, r), p <| args := args1 |>) /\
    zlen ptext <= 7 /\ (forall n, prec = Some n -> 0 <= n) /\
    (ptext = [] /\ prec = None \/ exists pds, ptext = 46 :: pds /\ forallb is_digit pds = true /\ prec = Some (number pds)).
Proof.
  intros H Hr Hr0 Hr1 Hp. pose proof (co_prec c H) as Hok. unfold scan_precision. destruct p as [st ar so au]. cbn [args] in *.
  destruct (c_prec c) as [|ds|] eqn:Ec; cbn [prec_text] in *.
  - injection Hp as <- <-. exists []. cbn [app]. rewrite (proj2 (Z.eqb_neq _ _) Hr0). split; [done|]. split; [done|]. split; [done|]. by left.
  - injection Hp as <- <-. destruct Hok as [Hd Hl]. pose proof (number_nonneg ds Hd). cbn [app nth drop]. rewrite !drop_0, span_app by done.
    change (46 =? 46) with true. cbv iota beta. exists (46 :: ds). rewrite zlen_cons. 
    split; [|split; [lia|]; split; [by intros n [= <-]|]; right; by exists ds]. cbn [default from_option id].
    destruct (Z.eqb_spec (zlen ds) 0) as [E|E].
    + apply zlen_0 in E as ->. cbn [app]. rewrite (proj2 (Z.eqb_neq _ _) Hr1). done.
    + by rewrite (proj2 (Z.leb_le _ _)) by lia.
  - destruct ar as [|[z| | | | | ] ar]; try done. cbn [get_prec] in Hp. destruct (_ && _) eqn:Ez in Hp; [|done]. injection Hp as <- ->.
    apply andb_prop in Ez as [Ez1 Ez2]. apply Z.leb_le in Ez1, Ez2.
    destruct (decimal_digits z ltac:(lia)) as (ds & Eds & Hd & Hn & Hl & _). exists (46 :: decimal z). rewrite Eds, zlen_cons.
    split; [|split; [lia|]; split; [intros n [= <-]; lia|]; right; exists ds; by rewrite Hn].
    cbn [app nth drop]. rewrite !drop_0. change (46 =? 46) with true. cbv iota beta. change (span is_digit (42 :: r)) with ([] : list Z, 42 :: r). cbv iota beta.
    change (zlen (@nil Z) =? 0) with true. change (42 =? 42) with true. cbv iota.
    erewrite bind_Ok by reflexivity. rewrite (proj2 (Z.ltb_ge z 0)), (proj2 (Z.ltb_ge 999999 z)) by lia. rewrite Eds. done.
Qed.

(** The early argument of [%s] and [%f]. *)
Definition is_early (op : Z) : bool := (op =? 115) || (op =? 102).

(** Case distinction on the conversion. *)
Ltac by_op H :=
  unfold int_ops, text_ops, float_ops in H; repeat rewrite elem_of_cons in H; rewrite ?elem_of_nil in H;
  repeat match type of H with
  | (_ \/ _) => destruct H as [H|H]
  | (_ /\ _) => destruct H as [? H]
  end.

(** What a conversion is given, by the kind of the conversion. *)
Inductive kind := KSigned | KUnsigned | KChar | KString | KPointer | KFixed | KExp.

Definition kind_of (op : Z) : kind :=
  if (op =? 100) || (op =? 105) then KSigned
  else if (op =? 117) || (op =? 111) || (op =? 120) || (op =? 88) then KUnsigned
  else if op =? 99 then KChar else if op =? 115 then KString else if op =? 112 then KPointer
  else if op =? 102 then KFixed else KExp.

Definition expects (op md : Z) (a : arg Dbl) (v : value Dbl) : Prop :=
  match kind_of op, v with
  | KSigned, VInt n => Z.abs n <= ULONG_MAX /\
      (md = 32 /\ (exists z, a = AInt z /\ n = to_int z) \/ md = 108 /\ (exists z, a = ALong z /\ n = to_long z) \/
       md = 104 /\ (exists z, a = AInt z /\ n = to_short z))
  | KUnsigned, VInt n => 0 <= n <= ULONG_MAX /\
      (md = 32 /\ (exists z, a = AInt z /\ n = to_uint z) \/ md = 108 /\ (exists z, a = ALong z /\ n = to_ulong z) \/
       md = 104 /\ (exists z, a = AInt z /\ n = to_ushort z))
  | KChar, VInt n => md = 32 /\ a = AInt n /\ uchar n <> 0
  | KString, VStr s => md = 32 /\ exists s', a = AStr (Some s') /\ s = c_string s'
  | KPointer, VPtr p => md = 32 /\ a = APtr p
  | KFixed, VDbl d => (md = 32 /\ a = ADouble d /\ is_double d = true) \/ (md = 76 /\ a = ALongDouble d /\ in_double d = true)
  | KExp, VDbl d => (md = 32 /\ a = ADouble d) \/ (md = 76 /\ a = ALongDouble d)
  | _, _ => False
  end.

Lemma int_ranges z : Z.abs (to_int z) <= ULONG_MAX /\ Z.abs (to_long z) <= ULONG_MAX /\ Z.abs (to_short z) <= ULONG_MAX /\
  0 <= to_uint z <= ULONG_MAX /\ 0 <= to_ulong z <= ULONG_MAX /\ 0 <= to_ushort z <= ULONG_MAX.
Proof.
  unfold to_int, to_long, to_short, to_uint, to_ulong, to_ushort, ULONG_MAX.
  pose proof (Z.mod_pos_bound (z + 2147483648) 4294967296 ltac:(lia)). pose proof (Z.mod_pos_bound (z + 9223372036854775808) 18446744073709551616 ltac:(lia)).
  pose proof (Z.mod_pos_bound (z + 32768) 65536 ltac:(lia)). pose proof (Z.mod_pos_bound z 4294967296 ltac:(lia)).
  pose proof (Z.mod_pos_bound z 18446744073709551616 ltac:(lia)). pose proof (Z.mod_pos_bound z 65536 ltac:(lia)). lia.
Qed.

Lemma value_expected c a v : conv_ok c -> value_of (c_op c) (c_mod c) a = Some v -> expects (c_op c) (c_mod c) a v.
Proof.
  intros H. destruct (co_op c H) as [[Ho _]|[[Ho Hm]|[Ho _]]]; revert Ho; unfold value_of, expects, kind_of;
    intros Ho; by_op Ho; rewrite ?Ho; cbn [Z.eqb Pos.eqb orb negb]; (destruct a as [z|z|[s|]|q|d|d]; try done);
    repeat match goal with |- context [if ?x then _ else _] => destruct x eqn:? end; try done; intros [= <-];
    try pose proof (int_ranges z); rewrite ?andb_true_iff, ?Z.eqb_eq, ?Z.eqb_neq in *; naive_solver.
Qed.

(** The bound of the buffer that the function computes, and that it holds. *)
Definition bound_exp (md : Z) (d : Dbl) : Z := frexp_exp (if md =? 76 then to_double d else d).

Definition bound_of (op md precision : Z) (v : value Dbl) : Z :=
  match v with
  | VStr s => if precision =? -1 then zlen s else Z.min precision (zlen s)
  | VDbl d => if op =? 102 then (if precision =? -1 then 6 else precision) + 3 + (if 0 <? bound_exp md d then Z.quot (bound_exp md d) 3 else 0)
              else (if precision =? -1 then 6 else precision) + 8
  | _ => Z.max precision 46
  end.

Lemma kind_ops c : conv_ok c -> c_op c <> 0 /\ match kind_of (c_op c) with
  | KSigned => c_op c = 100 \/ c_op c = 105
  | KUnsigned => c_op c = 117 \/ c_op c = 111 \/ c_op c = 120 \/ c_op c = 88
  | KChar => c_op c = 99 | KString => c_op c = 115 | KPointer => c_op c = 112 | KFixed => c_op c = 102
  | KExp => c_op c = 101 \/ c_op c = 69 \/ c_op c = 103 \/ c_op c = 71
  end.
Proof.
  intros H. destruct (co_op c H) as [[Ho _]|[[Ho _]|[Ho _]]]; by_op Ho; rewrite ?Ho; cbn; lia.
Qed.

Lemma text_ok sp v t prec a : sp_op sp <> 0 -> sp_prec sp = prec -> (forall n, prec = Some n -> 0 <= n) ->
  expects (sp_op sp) (sp_mod sp) a v ->
  match kind_of (sp_op sp) with
  | KSigned => sp_op sp = 100 \/ sp_op sp = 105
  | KUnsigned => sp_op sp = 117 \/ sp_op sp = 111 \/ sp_op sp = 120 \/ sp_op sp = 88
  | KChar => sp_op sp = 99 | KString => sp_op sp = 115 | KPointer => sp_op sp = 112 | KFixed => sp_op sp = 102
  | KExp => sp_op sp = 101 \/ sp_op sp = 69 \/ sp_op sp = 103 \/ sp_op sp = 71
  end -> format sp v = Ok t ->
  Forall (fun c => c <> 0) t /\ zlen t <= Z.max (sp_width sp) (bound_of (sp_op sp) (sp_mod sp) (default (-1) prec) v + 9).
Proof.
  intros Hop Hprec Hp He Hk Hf. unfold expects in He. pose proof (zlen_nonneg (fmt_text sp [])) as _.
  assert (Hd1 : default 1 (sp_prec sp) <= Z.max (default (-1) prec) 1) by (rewrite Hprec; destruct prec; cbn; lia).
  assert (Hp6 : 0 <= default 6 (sp_prec sp)) by (rewrite Hprec; destruct prec; cbn; [auto|lia]).
  destruct (kind_of (sp_op sp)) eqn:Ek, v as [n|s|q|d]; try done; cbn [bound_of].
  - assert (t = fmt_signed sp n) as -> by (unfold format in Hf; destruct Hk as [Hk|Hk]; rewrite Hk in Hf; by injection Hf).
    pose proof (fmt_signed_len sp n (proj1 He)). split; [apply fmt_signed_chars|lia].
  - assert (t = fmt_unsigned sp n) as -> by (unfold format in Hf; repeat destruct Hk as [Hk|Hk]; rewrite Hk in Hf; by injection Hf).
    pose proof (fmt_unsigned_ok sp n (proj1 He) Hop) as [Hl Hc]. split; [done|lia].
  - assert (t = fmt_text sp [uchar n]) as -> by (unfold format in Hf; rewrite Hk in Hf; by injection Hf).
    rewrite zlen_fmt_text. change (zlen [uchar n]) with 1. split; [|lia]. apply fmt_text_chars; [done|]. repeat constructor. apply He.
  - assert (t = fmt_string sp s) as -> by (unfold format in Hf; rewrite Hk in Hf; by injection Hf).
    unfold fmt_string. rewrite zlen_fmt_text, Hprec. destruct He as (_ & s' & _ & ->). pose proof (c_string_chars s') as Hc.
    destruct prec as [n|]; cbn [default from_option id].
    + specialize (Hp n eq_refl). rewrite (proj2 (Z.eqb_neq _ _)) by lia.
      split; [apply fmt_text_chars; [done|by apply Forall_take]|]. unfold zlen. rewrite length_take. lia.
    + split; [by apply fmt_text_chars|]. cbn. lia.
  - assert (t = fmt_text sp (fmt_pointer q)) as -> by (unfold format in Hf; rewrite Hk in Hf; by injection Hf).
    rewrite zlen_fmt_text. pose proof (fmt_pointer_len q). split; [apply fmt_text_chars; [done|apply fmt_pointer_nonzero]|lia].
  - assert (t = fmt_double sp d) as -> by (unfold format in Hf; rewrite Hk in Hf; by injection Hf).
    split; [apply fmt_double_nonzero|]. assert (Hl : zlen (fmt_double sp d) <= Z.max (sp_width sp) (default 6 (sp_prec sp) + 4 + Z.max 0 (bound_exp (sp_mod sp) d) / 3)).
    { unfold bound_exp. destruct He as [(-> & _ & Hd)|(-> & _ & Hd)]; [by apply fmt_fixed_len|by apply fmt_fixed_long]. }
    rewrite Hk in *. cbn [Z.eqb Pos.eqb].
    assert (Hd : default 6 (sp_prec sp) = if default (-1) prec =? -1 then 6 else default (-1) prec).
    { rewrite Hprec. destruct prec as [n|]; cbn; [specialize (Hp n eq_refl); by rewrite (proj2 (Z.eqb_neq _ _)) by lia|done]. }
    rewrite Hd in Hl. destruct (Z.ltb_spec 0 (bound_exp (sp_mod sp) d)).
    + rewrite Z.quot_div_nonneg by lia. rewrite (Z.max_r 0 (bound_exp (sp_mod sp) d)) in Hl by lia. lia.
    + rewrite (Z.max_l 0 (bound_exp (sp_mod sp) d)) in Hl by lia. change (0 / 3) with 0 in Hl. lia.
  - assert (Hne : sp_op sp <> 102) by (repeat destruct Hk as [Hk|Hk]; rewrite Hk; done).
    assert (t = fmt_double sp d) as -> by (unfold format in Hf; repeat destruct Hk as [Hk|Hk]; rewrite Hk in Hf; by injection Hf).
    split; [apply fmt_double_nonzero|]. pose proof (fmt_exp_len sp d Hne Hp6) as Hl. rewrite (proj2 (Z.eqb_neq _ _) Hne).
    assert (Hd : default 6 (sp_prec sp) = if default (-1) prec =? -1 then 6 else default (-1) prec).
    { rewrite Hprec. destruct prec as [n|]; cbn; [specialize (Hp n eq_refl); by rewrite (proj2 (Z.eqb_neq _ _)) by lia|done]. }
    rewrite Hd in Hl. lia.
Qed.

Definition early_of (op : Z) (v : value Dbl) : early Dbl :=
  match v with
  | VStr s => EarlyStr s
  | VDbl d => if op =? 102 then EarlyDbl d else NoArg
  | _ => NoArg
  end.

Lemma bound_buffer_spec c precision a v rest (p : PF) : conv_ok c -> expects (c_op c) (c_mod c) a v -> args p = a :: rest ->
  bound_buffer (c_op c) (c_mod c) precision p =
    Ok (Some (bound_of (c_op c) (c_mod c) precision v, early_of (c_op c) v), if is_early (c_op c) then p <| args := rest |> else p).
Proof.
  intros H He Ha. destruct (kind_ops c H) as [_ Hk]. unfold expects in He. unfold bound_buffer, is_early, early_of, bound_of.
  destruct p as [st ar so au]. cbn [args] in Ha. subst ar.
  destruct (kind_of (c_op c)), v as [n|s|q|d]; try done; repeat destruct Hk as [Hk|Hk]; rewrite ?Hk; cbn [Z.eqb Pos.eqb orb]; try done.
  - destruct He as (_ & s' & -> & ->). erewrite bind_Ok by reflexivity. cbn [default from_option id].
    done.
  - destruct He as [(-> & -> & _)|(-> & -> & _)]; cbn [Z.eqb Pos.eqb]; done.
Qed.

Lemma allocate_spec r (p : PF) : exists len aux, allocate r p = Ok (len, p <| auxBuffLen := aux |>) /\ PRINTF_BUFFLEN <= len /\ r <= len /\
  len <= Z.max PRINTF_BUFFLEN (Z.max r (auxBuffLen p)).
Proof.
  unfold allocate. destruct p as [st ar so au]. destruct (Z.leb_spec r PRINTF_BUFFLEN) as [Hr|Hr].
  - exists PRINTF_BUFFLEN, au. split; [done|cbn; lia].
  - rewrite (bind_Ok get _ _ (mkPrintf st ar so au) (mkPrintf st ar so au)) by done. cbn [auxBuffLen].
    destruct ((au =? 0) || (au <? r)) eqn:E.
    + exists r, r. split; [done|]. cbn. lia.
    + exists au, au. split; [done|]. apply orb_false_iff in E as [_ E]. apply Z.ltb_ge in E. cbn. lia.
Qed.

Definition conv_tail (c : conversion) (r : list Z) : list Z := mod_text (c_mod c) ++ c_op c :: r.

Lemma width_stops c r : conv_ok c -> stops is_flag (width_text (c_width c) ++ prec_text (c_prec c) ++ conv_tail c r) /\
  stops is_digit (prec_text (c_prec c) ++ conv_tail c r) /\ nth 0 (prec_text (c_prec c) ++ conv_tail c r) 0 <> 42.
Proof.
  intros H. destruct (tail_stops c r H) as (T1 & T2 & T3 & T4). fold (conv_tail c r) in T1, T2, T3, T4. pose proof (co_width c H) as Hw.
  assert (P : stops is_flag (prec_text (c_prec c) ++ conv_tail c r) /\ stops is_digit (prec_text (c_prec c) ++ conv_tail c r) /\ nth 0 (prec_text (c_prec c) ++ conv_tail c r) 0 <> 42)
    by (by destruct (c_prec c)).
  split; [|apply P]. destruct (c_width c) as [|ds|]; [apply P| |done]. destruct Hw as (Hd & Hl & H0).
  destruct ds as [|d ds]; [apply P|]. cbn in *. apply andb_prop in Hd as [Hd _]. unfold is_digit in Hd. unfold is_flag.
  rewrite !orb_false_iff, !Z.eqb_neq. lia.
Qed.

Lemma scan_slow_spec c w prec args1 a rest v r (p : PF) : conv_ok c ->
  get_width (c_width c) (args p) = Some (w, args1) -> get_prec (c_prec c) args1 = Some (prec, a :: rest) ->
  (c_width c = WStar -> Z.abs w < PRINTF_BUFFLEN) -> expects (c_op c) (c_mod c) a v ->
  exists len aux fmt, scan_slow (render_conv c ++ r) p =
      Ok (Some (mkScanned (c_op c) (c_mod c) fmt (zlen (render_conv c) + 1), early_of (c_op c) v, len),
          p <| args := if is_early (c_op c) then rest else a :: rest |> <| auxBuffLen := aux |>) /\
    PRINTF_BUFFLEN <= len /\ bound_of (c_op c) (c_mod c) (default (-1) prec) v + 10 <= len /\ sprintf fmt v = format (spec_of c w prec) v /\
    len <= Z.max PRINTF_BUFFLEN (Z.max (Z.max (bound_of (c_op c) (c_mod c) (default (-1) prec) v + 10) w) (auxBuffLen p)).
Proof.
  intros H Hw Hp Hlim He. destruct (width_stops c r H) as (S1 & S2 & S3). destruct (tail_stops c r H) as (T1 & T2 & T3 & T4).
  destruct (co_flags c H) as [Hf Hfl].
  assert (Er : render_conv c ++ r = c_flags c ++ width_text (c_width c) ++ prec_text (c_prec c) ++ conv_tail c r).
  { unfold render_conv, conv_tail. by rewrite <- !app_assoc. }
  destruct (scan_width_spec c w args1 _ p H S2 S3 Hw Hlim) as (wtext & minus & ds & Ew & -> & Hwl & Hm & Hd & Hd0 & Hnum & Hhas).
  set (p1 := p <| args := args1 |>) in *.
  destruct (scan_precision_spec c prec (a :: rest) (conv_tail c r) p1 H T1 T3 T4 Hp) as (ptext & Ep & Hpl & Hpn & Hpt).
  set (p2 := p1 <| args := a :: rest |>) in *.
  pose proof (bound_buffer_spec c (default (-1) prec) a v rest p2 H He eq_refl) as Eb.
  set (p3 := if is_early (c_op c) then p2 <| args := rest |> else p2) in *.
  destruct (allocate_spec (Z.max (bound_of (c_op c) (c_mod c) (default (-1) prec) v + 10) w) p3) as (len & aux & Ea & Hl1 & Hl2 & Hl3).
  exists len, aux, (37 :: c_flags c ++ (minus ++ ds) ++ ptext ++ mod_text (c_mod c) ++ [c_op c]).
  assert (Eaux : auxBuffLen p3 = auxBuffLen p) by (unfold p3, p2, p1; by destruct (is_early (c_op c))). rewrite Eaux in Hl3.
  split; [|split; [done|split; [lia|split; [|done]]]].
  - unfold scan_slow. rewrite Er, span_app by done. rewrite (proj2 (Z.ltb_ge _ _)) by lia.
    rewrite (bind_Ok _ _ _ _ _ Ew). rewrite (bind_Ok _ _ _ _ _ Ep).
    destruct (mod_text_eq c H r) as [Em _]. unfold conv_tail. rewrite Em. cbv iota beta. cbn [nth].
    unfold c_assert. rewrite (proj2 (Z.ltb_lt _ _)).
    2:{ rewrite zlen_cons, !zlen_app. rewrite zlen_app in Hwl. change (zlen [c_op c]) with 1. unfold FMT_BUFFLEN.
        assert (zlen (mod_text (c_mod c)) <= 1) by (unfold mod_text, zlen; destruct (c_mod c =? 32); cbn; lia). lia. }
    rewrite (bind_Ok (ret tt) _ _ tt p2) by done. rewrite (bind_Ok _ _ _ _ _ Eb). rewrite (bind_Ok _ _ _ _ _ Ea).
    unfold ret. f_equal. f_equal.
    + do 4 f_equal. unfold render_conv. rewrite !zlen_app, !zlen_cons. change (zlen (@nil Z)) with 0. cbn [drop]. lia.
    + unfold p3, p2, p1. by destruct (is_early (c_op c)).
  - unfold sprintf. rewrite <- !app_assoc, (app_assoc (c_flags c)).
    rewrite (parse_spec_parts (c_flags c ++ minus) ds ptext prec c H); [|by rewrite forallb_app, Hf|done|done|done].
    f_equal. unfold spec_of. rewrite !has_app, !Hhas, Hnum.
    repeat (rewrite bool_decide_eq_true_2 by done || rewrite bool_decide_eq_false_2 by done). cbn [andb orb].
    rewrite !orb_false_r. done.
Qed.

Lemma sprintf_to_Ok len fmt v t (p : PF) : sprintf fmt v = Ok t -> Forall (fun c => c <> 0) t -> zlen t + 1 <= len ->
  sprintf_to len fmt v p = Ok (Performed t len, p).
Proof.
  intros E Hc Hl. unfold sprintf_to. rewrite E. erewrite (bind_Ok (lift _)) by reflexivity.
  rewrite (proj2 (Z.leb_le _ _)) by done. by rewrite c_string_all.
Qed.

(** The switch, with the argument where the scan has left it. *)
Lemma convert_spec fast c fmt n a v t rest count len (p : PF) : conv_ok c -> expects (c_op c) (c_mod c) a v ->
  sprintf fmt v = Ok t -> Forall (fun c => c <> 0) t -> zlen t + 1 <= len ->
  args p = (if negb fast && is_early (c_op c) then rest else a :: rest) -> (fast = true -> is_early (c_op c) = false) ->
  convert fast (mkScanned (c_op c) (c_mod c) fmt n) (if fast then NoArg else early_of (c_op c) v) count len p =
    Ok (Performed t len, p <| args := rest |>).
Proof.
  intros H He Es Hc Hl Ha Hfast. destruct (kind_ops c H) as [_ Hk]. unfold expects in He. unfold convert, is_early, early_of in *. cbn [sc_op sc_mod sc_fmt].
  destruct p as [st ar so au]. cbn [args] in Ha.
  assert (G : forall z, z = mkPrintf st rest so au -> sprintf_to len fmt v z = Ok (Performed t len, mkPrintf st rest so au))
    by (intros z ->; by apply sprintf_to_Ok).
  destruct (kind_of (c_op c)), v as [k|s|q|d]; try done; repeat destruct Hk as [Hk|Hk]; rewrite Hk in *;
    cbn [Z.eqb Pos.eqb orb negb andb] in *; rewrite ?andb_false_r in Ha; subst ar.
  1,2: destruct He as (_ & [(-> & z & -> & ->)|[(-> & z & -> & ->)|(-> & z & -> & ->)]]); cbn -[to_int to_long to_short]; by apply G.
  1,2,3,4: destruct He as (_ & [(-> & z & -> & ->)|[(-> & z & -> & ->)|(-> & z & -> & ->)]]); cbn -[to_uint to_ulong to_ushort]; by apply G.
  - destruct He as (-> & -> & _). by apply G.
  - destruct fast; [by specialize (Hfast eq_refl)|]. destruct He as (-> & _). by apply G.
  - destruct He as (-> & ->). by apply G.
  - destruct fast; [by specialize (Hfast eq_refl)|]. destruct He as [[-> _]|[-> _]]; by apply G.
  - destruct He as [[-> ->]|[-> ->]]; by apply G.
  - destruct He as [[-> ->]|[-> ->]]; by apply G.
  - destruct He as [[-> ->]|[-> ->]]; by apply G.
  - destruct He as [[-> ->]|[-> ->]]; by apply G.
Qed.

(** The fast path gives up on a specification that it does not know. *)
Lemma convert_unknown op md fmt n e count len (p : PF) : op ∈ [45; 48; 43; 32; 35; 42; 46; 102] \/ is_digit op = true ->
  convert true (mkScanned op md fmt n) e count len p = Ok (NotPerformed, p).
Proof.
  intros H. assert (E : op ∈ [45; 48; 43; 32; 35; 42; 46; 102; 48; 49; 50; 51; 52; 53; 54; 55; 56; 57]).
  { destruct H as [H|H]; [repeat rewrite elem_of_cons in *; tauto|]. unfold is_digit in H.
    assert (op = 48 \/ op = 49 \/ op = 50 \/ op = 51 \/ op = 52 \/ op = 53 \/ op = 54 \/ op = 55 \/ op = 56 \/ op = 57) by lia.
    repeat rewrite elem_of_cons. tauto. }
  clear H. repeat rewrite elem_of_cons in E. rewrite elem_of_nil in E. repeat destruct E as [->|E]; try done.
Qed.

Definition fast_conv (c : conversion) : bool :=
  bool_decide (c_flags c = []) && match c_width c with WNone => true | _ => false end &&
  match c_prec c with PNone => true | _ => false end && negb (c_op c =? 102).

(** What the fast path sees of a specification that it does not know. *)
Lemma slow_scan_fast c r count (p : PF) : conv_ok c -> fast_conv c = false ->
  convert true (scan_fast (render_conv c ++ r)) NoArg count PRINTF_BUFFLEN p = Ok (NotPerformed, p).
Proof.
  intros H Hs. assert (E : exists op md fmt n, scan_fast (render_conv c ++ r) = mkScanned op md fmt n /\
    (op ∈ [45; 48; 43; 32; 35; 42; 46; 102] \/ is_digit op = true)).
  2:{ destruct E as (op & md & fmt & n & -> & Ho). by apply convert_unknown. }
  assert (D : forall x l, is_mod x = false -> exists md fmt n, scan_fast (x :: l) = mkScanned x md fmt n).
  { intros x l Hx. unfold scan_fast. cbn [nth]. rewrite Hx. by eexists _, _, _. }
  destruct (co_flags c H) as [Hf _]. pose proof (co_width c H) as Hw. unfold render_conv.
  destruct (c_flags c) as [|x fl] eqn:Ef; cbn [app].
  - destruct (c_width c) as [|ds|] eqn:Ew; cbn [width_text app].
    + destruct (c_prec c) as [|ds|] eqn:Ep; cbn [prec_text app].
      * assert (Ho : c_op c = 102).
        { unfold fast_conv in Hs. rewrite Ef, Ew, Ep in Hs. cbn in Hs. by destruct (Z.eqb_spec (c_op c) 102). }
        rewrite Ho. unfold mod_text. destruct (mod_cases c H) as [E|(E & Hn & _)].
        -- rewrite E. cbn [Z.eqb Pos.eqb app]. destruct (D 102 r eq_refl) as (md & fmt & n & ->). exists 102, md, fmt, n.
           split; [done|]. left. repeat rewrite elem_of_cons. tauto.
        -- rewrite (proj2 (Z.eqb_neq _ _) Hn). cbn [app]. unfold scan_fast. cbn [nth]. rewrite E. eexists _, _, _, _. split; [done|].
           left. repeat rewrite elem_of_cons. tauto.
      * destruct (D 46 ((ds ++ mod_text (c_mod c) ++ [c_op c]) ++ r) eq_refl) as (md & fmt & n & ->). exists 46, md, fmt, n.
        split; [done|]. left. repeat rewrite elem_of_cons. tauto.
      * destruct (D 46 (42 :: (mod_text (c_mod c) ++ [c_op c]) ++ r) eq_refl) as (md & fmt & n & ->). exists 46, md, fmt, n.
        split; [done|]. left. repeat rewrite elem_of_cons. tauto.
    + destruct Hw as (Hd & Hl & _). destruct ds as [|x ds]; [unfold zlen in Hl; cbn in Hl; lia|]. cbn in Hd. apply andb_prop in Hd as [Hd _]. cbn [app].
      destruct (D x ((ds ++ prec_text (c_prec c) ++ mod_text (c_mod c) ++ [c_op c]) ++ r)) as (md & fmt & n & ->).
      { unfold is_digit in Hd. unfold is_mod. rewrite !orb_false_iff, !Z.eqb_neq. lia. }
      exists x, md, fmt, n. split; [done|by right].
    + destruct (D 42 ((prec_text (c_prec c) ++ mod_text (c_mod c) ++ [c_op c]) ++ r) eq_refl) as (md & fmt & n & ->).
      exists 42, md, fmt, n. split; [done|]. left. repeat rewrite elem_of_cons. tauto.
  - cbn in Hf. apply andb_prop in Hf as [Hx _]. unfold is_flag in Hx. rewrite !orb_true_iff, !Z.eqb_eq in Hx.
    destruct (D x ((fl ++ width_text (c_width c) ++ prec_text (c_prec c) ++ mod_text (c_mod c) ++ [c_op c]) ++ r)) as (md & fmt & n & ->).
    { unfold is_mod. rewrite !orb_false_iff, !Z.eqb_neq. lia. }
    exists x, md, fmt, n. split; [done|]. left. repeat rewrite elem_of_cons. tauto.
Qed.

Lemma print_conv_inv c ar t rest : print_conv c ar = Some (t, rest) ->
  exists w prec args1 a v, get_width (c_width c) ar = Some (w, args1) /\ get_prec (c_prec c) args1 = Some (prec, a :: rest) /\
    Z.abs w < PRINTF_BUFFLEN /\ value_of (c_op c) (c_mod c) a = Some v /\ format (spec_of c w prec) v = Ok t.
Proof.
  unfold print_conv. destruct (get_width (c_width c) ar) as [[w args1]|]; [|done]. cbn.
  destruct (get_prec (c_prec c) args1) as [[prec args2]|] eqn:Ep; [|done]. cbn. destruct (Z.leb_spec PRINTF_BUFFLEN (Z.abs w)) as [|Hw]; [done|].
  destruct args2 as [|a args2]; [done|]. destruct (value_of _ _ a) as [v|] eqn:Ev; [|done]. cbn.
  destruct (format _ v) eqn:Ef; try done. intros [= -> ->]. by exists w, prec, args1, a, v.
Qed.

Lemma spec_text c w prec a v t : conv_ok c -> (forall n, prec = Some n -> 0 <= n) -> expects (c_op c) (c_mod c) a v -> format (spec_of c w prec) v = Ok t ->
  Forall (fun c => c <> 0) t /\ zlen t <= Z.max (Z.abs w) (bound_of (c_op c) (c_mod c) (default (-1) prec) v + 9).
Proof. intros H Hp He Hf. destruct (kind_ops c H) as [Hop Hk]. by apply (text_ok (spec_of c w prec) v t prec a). Qed.

Lemma directive_fast c r count t rest (p : PF) : conv_ok c -> fast_conv c = true -> print_conv c (args p) = Some (t, rest) ->
  exists len, directive (render_conv c ++ r) count p = Ok (Some (t, len, zlen (render_conv c) + 1), p <| args := rest |>) /\ zlen t < len.
Proof.
  intros H Hfc Hp. destruct (print_conv_inv _ _ _ _ Hp) as (w & prec & args1 & a & v & Hw & Hpr & _ & Hv & Hf). clear Hp.
  pose proof (value_expected c a v H Hv) as He. unfold fast_conv in Hfc. rewrite !andb_true_iff, bool_decide_eq_true, negb_true_iff in Hfc.
  destruct Hfc as (((Ef & Ew) & Ep) & Eo). destruct (c_width c) eqn:Ewd; try done. destruct (c_prec c) eqn:Epd; try done. 
  injection Hw as <- <-. injection Hpr as <- Ha.
  destruct (op_plain c H) as (_ & Hm & _).
  assert (Es : exists fmt, scan_fast (render_conv c ++ r) = mkScanned (c_op c) (c_mod c) fmt (zlen (render_conv c) + 1) /\
    sprintf fmt v = format (spec_of c 0 None) v).
  { exists (37 :: mod_text (c_mod c) ++ [c_op c]). split.
    - unfold render_conv, scan_fast. rewrite Ef, Ewd, Epd. cbn [width_text prec_text app]. unfold mod_text.
      destruct (mod_cases c H) as [E|(E & Hn & _)].
      + rewrite E. cbn [Z.eqb Pos.eqb app nth]. by rewrite Hm.
      + rewrite (proj2 (Z.eqb_neq _ _) Hn). cbn [app nth]. by rewrite E.
    - unfold sprintf. pose proof (parse_spec_parts [] [] [] None c H eq_refl eq_refl (or_introl eq_refl) ltac:(by left)) as E. cbn [app] in E.
      rewrite E. unfold spec_of. by rewrite Ef, Ewd. }
  destruct Es as (fmt & Es & Efmt). destruct (spec_text c 0 None a v t H ltac:(done) He Hf) as [Hc Hl].
  unfold directive. rewrite Es. destruct (is_early (c_op c)) eqn:Ee.
  - (* a string is its own buffer *)
    unfold is_early in Ee. rewrite Eo, orb_false_r in Ee. apply Z.eqb_eq in Ee. unfold expects in He. rewrite Ee in He. cbn in He.
    destruct v as [|s| |]; try done. destruct He as (Emd & s' & -> & ->).
    assert (t = c_string s') as ->.
    { unfold format in Hf. cbn [sp_op spec_of] in Hf. rewrite Ee in Hf. cbn [Z.eqb Pos.eqb orb] in Hf. injection Hf as <-.
      unfold fmt_string, fmt_text. cbn [sp_prec spec_of sp_width sp_minus]. rewrite rep_none by (pose proof (zlen_nonneg (c_string s')); lia).
      destruct (_ || _); [apply app_nil_r|done]. }
    exists (zlen (c_string s') + 1). split; [|lia]. rewrite Ee, Emd. destruct p as [st ar so au]. cbn [args] in Ha. subst ar. reflexivity.
  - exists PRINTF_BUFFLEN. assert (Hlen : zlen t + 1 <= PRINTF_BUFFLEN).
    { unfold PRINTF_BUFFLEN. unfold expects in He. destruct (kind_ops c H) as [_ Hk]. unfold is_early in Ee. cbn [default from_option id] in Hl.
      destruct (kind_of (c_op c)), v; try done; cbn [bound_of] in Hl; try lia.
      rewrite Eo in Hl. cbn in Hl. lia. }
    split; [|lia]. pose proof (convert_spec true c fmt (zlen (render_conv c) + 1) a v t rest count PRINTF_BUFFLEN p H He ltac:(congruence) Hc Hlen) as E.
    cbn [negb andb] in E. rewrite Ha in E. specialize (E eq_refl (fun _ => Ee)).
    rewrite (bind_Ok _ _ _ _ _ E). reflexivity.
Qed.

Lemma directive_conv c r count t rest (p : PF) : conv_ok c -> print_conv c (args p) = Some (t, rest) ->
  exists len aux, directive (render_conv c ++ r) count p =
    Ok (Some (t, len, zlen (render_conv c) + 1), p <| args := rest |> <| auxBuffLen := aux |>) /\ zlen t < len.
Proof.
  intros H Hp. destruct (fast_conv c) eqn:Ef.
  - destruct (directive_fast c r count t rest p H Ef Hp) as (len & E & Hl). exists len, (auxBuffLen p). split; [|done]. rewrite E. by destruct p.
  - destruct (print_conv_inv _ _ _ _ Hp) as (w & prec & args1 & a & v & Hw & Hpr & Hlim & Hv & Hf).
    pose proof (value_expected c a v H Hv) as He.
    destruct (scan_slow_spec c w prec args1 a rest v r p H Hw Hpr (fun _ => Hlim) He) as (len & aux & fmt & E & Hl1 & Hl2 & Hfmt & _).
    assert (Hpn : forall n, prec = Some n -> 0 <= n).
    { intros n ->. pose proof (co_prec c H) as Hok. destruct (c_prec c) as [|ds|]; [done| |].
      - injection Hpr as <- _. apply number_nonneg, Hok.
      - destruct args1 as [|[z| | | | |] args1]; try done. cbn in Hpr. destruct (_ && _) eqn:Ez; [|done]. injection Hpr as <- _. apply andb_prop in Ez as [Ez _]. by apply Z.leb_le. }
    destruct (spec_text c w prec a v t H Hpn He Hf) as [Hc Hl]. exists len, aux. split; [|lia].
    unfold directive. rewrite (bind_Ok _ _ _ _ _ (slow_scan_fast c r count p H Ef)). rewrite (bind_Ok _ _ _ _ _ E).
    set (p1 := p <| args := _ |> <| auxBuffLen := aux |>).
    pose proof (convert_spec false c fmt (zlen (render_conv c) + 1) a v t rest count len p1 H He ltac:(congruence) Hc ltac:(lia) eq_refl ltac:(done)) as E2.
    rewrite (bind_Ok _ _ _ _ _ E2). unfold p1. by destruct (is_early (c_op c)).
Qed.

(** ** The whole format *)

Context {sink : Sink procs}.

Lemma put_writes bs (p : PF) W : snk_at (stream p) W ->
  exists s', put bs p = Ok (zlen bs, p <| stream := s' |>) /\ snk_at s' (W ++ bs).
Proof.
  intros H. destruct (FCGX_PutStr_spec bs (stream p) W H) as (s' & E & H'). exists s'. split; [|done].
  unfold put. by erewrite zoom_Ok by exact E.
Qed.

(** The literal characters before a percent sign, or to the end. *)
Lemma span_literal l r : 37 ∉ l -> match r with [] => True | c :: _ => c = 37 end ->
  span (fun c => negb (c =? 37)) (l ++ r) = (l, r).
Proof.
  intros Hl Hr. apply span_app.
  - apply forallb_forall. intros x Hx%list_elem_of_In. rewrite negb_true_iff, Z.eqb_neq. by intros ->.
  - destruct r as [|c r]; [done|]. by rewrite Hr.
Qed.

Lemma int_chk_Ok n : INT_MIN <= n <= INT_MAX -> int_chk n = Ok n.
Proof. intros. unfold int_chk, int_fits. by rewrite (proj2 (Z.leb_le _ _)), (proj2 (Z.leb_le n _)) by lia. Qed.

Lemma emit_Ok bs (p : PF) W count : snk_at (stream p) W -> 0 <= count -> count + zlen bs <= INT_MAX ->
  exists s', emit bs count p = Ok (Some (count + zlen bs), p <| stream := s' |>) /\ snk_at s' (W ++ bs).
Proof.
  intros H Hc Hl. pose proof (zlen_nonneg bs). unfold emit. destruct (Z.ltb_spec 0 (zlen bs)) as [E|E].
  - destruct (put_writes bs p W H) as (s' & Ep & H'). exists s'. split; [|done]. rewrite (bind_Ok _ _ _ _ _ Ep).
    rewrite (proj2 (Z.ltb_ge _ _)) by done. rewrite int_chk_Ok by (unfold INT_MIN in *; lia). done.
  - assert (bs = []) as -> by (apply zlen_0; lia). exists (stream p). rewrite app_nil_r. split; [|done].
    change (zlen (@nil Z)) with 0. rewrite Z.add_0_r. by destruct p.
Qed.

(** What a directive after the literal does. *)
Definition does (spec : list Z) (count : Z) (p p' : PF) (t : list Z) (n : Z) : Prop :=
  exists len, directive spec count p = Ok (Some (t, len, n), p') /\ zlen t < len.

Lemma directive_turn fuel l spec n count t (p : PF) W ar so : 37 ∉ l -> snk_at (stream p) W -> 0 <= count -> count + zlen l + zlen t <= INT_MAX ->
  (forall s1, exists aux, does spec (count + zlen l) (p <| stream := s1 |>) (mkPrintf s1 ar so aux) t n) ->
  exists s' aux, VFPrintF_loop (S fuel) (l ++ 37 :: spec) count p =
      VFPrintF_loop fuel (drop (Z.to_nat n) (37 :: spec)) (count + zlen l + zlen t) (mkPrintf s' ar so aux) /\ snk_at s' (W ++ l ++ t).
Proof.
  intros Hl H Hc Hmax Hd. pose proof (zlen_nonneg t). pose proof (zlen_nonneg l).
  destruct (emit_Ok l p W count H Hc ltac:(lia)) as (s1 & E1 & Hs1). destruct (Hd s1) as (aux & len & Ed & Hlen).
  set (p2 := mkPrintf s1 ar so aux) in *. destruct (emit_Ok t p2 (W ++ l) (count + zlen l) Hs1 ltac:(lia) ltac:(lia)) as (s' & E2 & H').
  exists s', aux. split; [|by rewrite app_assoc].
  destruct (l ++ 37 :: spec) as [|x f] eqn:Ex; [by destruct l|]. cbn [VFPrintF_loop]. rewrite <- Ex, span_literal by done. clear x f Ex.
  rewrite (bind_Ok _ _ _ _ _ E1). rewrite (bind_Ok _ _ _ _ _ Ed). unfold c_assert. rewrite (proj2 (Z.ltb_lt _ _)) by done.
  rewrite (bind_Ok (ret tt) _ _ tt p2) by done. by rewrite (bind_Ok _ _ _ _ _ E2).
Qed.

(** What is left after a directive. *)
Lemma drop_directive n d r : n = zlen d + 1 -> drop (Z.to_nat n) (37 :: d ++ r) = r.
Proof.
  intros ->. pose proof (zlen_nonneg d). rewrite Z2Nat.inj_add by lia. unfold zlen. rewrite Nat2Z.id, Nat.add_1_r. cbn [drop].
  by rewrite drop_app_length.
Qed.

(** A directive [d] with the text [u], and then the rest of the format. *)
Lemma directive_then fuel l d rest_fmt count u t (p : PF) W ar so st rest : 37 ∉ l -> snk_at (stream p) W -> 0 <= count ->
  count + zlen l + zlen (u ++ t) <= INT_MAX ->
  (forall s1, exists aux, does (d ++ rest_fmt) (count + zlen l) (p <| stream := s1 |>) (mkPrintf s1 ar so aux) u (zlen d + 1)) ->
  (forall p1 W1, snk_at (stream p1) W1 -> args p1 = ar -> stores p1 = so -> exists s' aux,
     VFPrintF_loop fuel rest_fmt (count + zlen l + zlen u) p1 =
       Ok (Some (count + zlen l + zlen u + zlen t), mkPrintf s' rest (so ++ st) aux) /\ snk_at s' (W1 ++ t)) ->
  exists s' aux, VFPrintF_loop (S fuel) (l ++ 37 :: d ++ rest_fmt) count p =
      Ok (Some (count + zlen l + zlen (u ++ t)), mkPrintf s' rest (so ++ st) aux) /\ snk_at s' (W ++ l ++ u ++ t).
Proof.
  intros Hl H Hc Hmax Hd Hk. rewrite zlen_app in Hmax. pose proof (zlen_nonneg t).
  destruct (directive_turn fuel l (d ++ rest_fmt) (zlen d + 1) count u p W ar so Hl H Hc ltac:(lia) Hd) as (s1 & aux1 & E1 & Hs1).
  rewrite drop_directive in E1 by done. destruct (Hk (mkPrintf s1 ar so aux1) _ Hs1 eq_refl eq_refl) as (s' & aux & E & H').
  exists s', aux. rewrite E1, E, zlen_app, Z.add_assoc. split; [done|]. by rewrite <- !app_assoc in H'.
Qed.

Lemma loop_spec ps : Forall piece_ok ps -> forall l fuel count (p : PF) W t st rest, 37 ∉ l -> (length l + length (render ps) <= fuel)%nat ->
  snk_at (stream p) W -> 0 <= count -> count + zlen l + zlen t <= INT_MAX ->
  print ps (args p) (count + zlen l) = Some (t, st, rest) ->
  exists s' aux, VFPrintF_loop fuel (l ++ render ps) count p =
      Ok (Some (count + zlen l + zlen t), mkPrintf s' rest (stores p ++ st) aux) /\ snk_at s' (W ++ l ++ t).
Proof.
  induction 1 as [|x ps Hx Hps IH]; intros l fuel count p W t st rest Hl Hf H Hc Hmax Hp.
  - injection Hp as <- <- <-. cbn [render concat map]. rewrite !app_nil_r. change (zlen (@nil Z)) with 0 in *. rewrite Z.add_0_r in *.
    destruct l as [|y l].
    + exists (stream p), (auxBuffLen p). change (zlen (@nil Z)) with 0. rewrite Z.add_0_r, app_nil_r. split; [|done]. destruct fuel; by destruct p.
    + destruct fuel as [|fuel]; [cbn in Hf; lia|]. destruct (emit_Ok (y :: l) p W count H Hc Hmax) as (s' & E & H').
      exists s', (auxBuffLen p). split; [|done].
      cbn [VFPrintF_loop]. pose proof (span_literal (y :: l) [] Hl I) as Es. rewrite app_nil_r in Es. rewrite Es.
      rewrite (bind_Ok _ _ _ _ _ E). by destruct p.
  - cbn [render map concat] in *. fold (render ps) in *. pose proof (zlen_nonneg l) as Hl0.
    assert (IH0 : forall fuel count (p : PF) W t st rest, (length (render ps) <= fuel)%nat -> snk_at (stream p) W -> 0 <= count -> count + zlen t <= INT_MAX ->
      print ps (args p) count = Some (t, st, rest) -> exists s' aux, VFPrintF_loop fuel (render ps) count p =
        Ok (Some (count + zlen t), mkPrintf s' rest (stores p ++ st) aux) /\ snk_at s' (W ++ t)).
    { intros fuel0 count0 p0 W0 t0 st0 rest0 Hf0 H0 Hc0 Hm0 Hp0. specialize (IH [] fuel0 count0 p0 W0 t0 st0 rest0).
      change (zlen (@nil Z)) with 0 in IH. rewrite Z.add_0_r in IH. cbn [app length] in IH. apply IH; [set_solver|done..]. }
    destruct x as [bs| |md|c]; cbn [render_piece piece_ok print] in *.
    + (* a literal joins the one before it *)
      destruct (print ps (args p) _) as [[[t' st'] rest']|] eqn:Ep; [|done]. cbn in Hp. injection Hp as <- <- <-.
      rewrite zlen_app in Hmax. rewrite length_app in Hf. rewrite zlen_app, Z.add_assoc.
      destruct (IH (l ++ bs) fuel count p W t' st' rest') as (s' & aux & E & H'); rewrite ?zlen_app, ?length_app in *.
      * rewrite not_elem_of_app. done.
      * lia.
      * done.
      * done.
      * lia.
      * by rewrite Z.add_assoc.
      * exists s', aux. rewrite <- !app_assoc, Z.add_assoc in *. by rewrite E.
    + destruct (print ps (args p) _) as [[[t' st'] rest']|] eqn:Ep; [|done]. cbn in Hp. injection Hp as <- <- <-.
      destruct fuel as [|fuel]; [cbn in Hf; lia|].
      apply (directive_then fuel l [37] (render ps) count [37] t' p W (args p) (stores p) st' rest' Hl H Hc Hmax).
      * intros s1. exists (auxBuffLen p), PRINTF_BUFFLEN. split; [by destruct p|by vm_compute].
      * rewrite zlen_cons in Hmax. intros p1 W1 H1 Ea Es. rewrite <- Es. apply IH0; try done; [cbn in Hf; lia|change (zlen [37]) with 1; lia..|].
        by rewrite Ea.
    + destruct (args p) as [|[| | |q| | ] ar] eqn:Ea; try done. destruct (print ps ar _) as [[[t' st'] rest']|] eqn:Ep; [|done]. cbn in Hp. injection Hp as <- <- <-.
      destruct fuel as [|fuel]; [cbn in Hf; lia|]. set (v := if md =? 104 then to_short (count + zlen l) else count + zlen l) in *.
      destruct (directive_then fuel l (mod_text md ++ [110]) (render ps) count [] t' p W ar (stores p ++ [(q, v)]) st' rest' Hl H Hc Hmax) as (s' & aux & E & H').
      * intros s1. exists (auxBuffLen p), PRINTF_BUFFLEN. split; [|by vm_compute]. destruct p as [ps0 ar0 so au]. cbn [args] in Ea. subst ar0.
        unfold mod_text. repeat rewrite elem_of_cons in Hx. rewrite elem_of_nil in Hx. unfold v. destruct Hx as [->|[->|[->|[]]]]; reflexivity.
      * change (zlen (@nil Z)) with 0. rewrite Z.add_0_r. intros p1 W1 H1 Ea1 Es. rewrite <- Es. apply IH0; try done; [|cbn [app] in Hmax; lia|by rewrite Ea1].
        rewrite !length_app in Hf. cbn in Hf. lia.
      * exists s', aux. cbn [app] in *. rewrite <- app_assoc in E. cbn [app] in E. rewrite <- app_assoc. cbn [app]. rewrite E. by rewrite <- app_assoc.
    + destruct (print_conv c (args p)) as [[u ar]|] eqn:Eu; [|done]. cbn in Hp. destruct (print ps ar _) as [[[t' st'] rest']|] eqn:Ep; [|done]. cbn in Hp. injection Hp as <- <- <-.
      destruct fuel as [|fuel]; [cbn in Hf; lia|]. pose proof (zlen_nonneg u).
      apply (directive_then fuel l (render_conv c) (render ps) count u t' p W ar (stores p) st' rest' Hl H Hc Hmax).
      * intros s1. set (p1 := p <| stream := s1 |>). destruct (directive_conv c (render ps) (count + zlen l) u ar p1 Hx Eu) as (len & aux & E & Hlen).
        exists aux, len. split; [|done]. rewrite E. by destruct p.
      * rewrite zlen_app in Hmax. intros p1 W1 H1 Ea Es. rewrite <- Es. apply IH0; try done; [|lia|lia|by rewrite Ea].
        rewrite !length_app in Hf. cbn in Hf. lia.
Qed.

End Correct.

Section Limits.
Context {procs : StreamProcs} {Dbl : Type} {libc : Libc Dbl}.

(** a field of a hundred characters or more overflows the buffer: the bound of its size is the
    larger of the bound of the text and the minimum width, without the terminating NUL, so that
    [sprintf] writes one character past the buffer. *)
Theorem wide_field_overflows flags ds z s : forallb is_flag flags = true -> zlen flags <= 5 ->
  forallb is_digit ds = true -> zlen ds <= 6 -> nth 0 ds 0 <> 48 -> PRINTF_BUFFLEN <= number ds ->
  FCGX_FPrintF (render [Conv (mkConv flags (WNum ds) PNone 32 100)]) [AInt z] s = Crash MemFault.
Proof.
  intros Hf Hfl Hd Hl Hd0 Hw. set (c := mkConv flags (WNum ds) PNone 32 100).
  assert (Hne : 1 <= zlen ds) by (destruct ds as [|d ds]; [unfold number, PRINTF_BUFFLEN in Hw; cbn in Hw; lia|rewrite zlen_cons; pose proof (zlen_nonneg ds); lia]).
  assert (H : conv_ok c).
  { split; cbn [c c_flags c_width c_prec c_op c_mod]; try done. left. unfold int_ops. repeat rewrite elem_of_cons. tauto. }
  set (p := mkPrintf (Dbl := Dbl) s [AInt z] [] 0).
  assert (He : expects (Dbl := Dbl) (c_op c) (c_mod c) (AInt z) (VInt (to_int z))).
  { cbn. split; [apply int_ranges|]. left. split; [done|by exists z]. }
  destruct (scan_slow_spec c (number ds) None [AInt z] (AInt z) [] (VInt (to_int z)) [] p H eq_refl eq_refl ltac:(done) He)
    as (len & aux & fmt & E & _ & _ & Hfmt & Hlen).
  assert (Hcrash : directive (render_conv c ++ []) 0 p = Crash MemFault).
  { unfold directive. rewrite (bind_Ok _ _ _ _ _ (slow_scan_fast c [] 0 p H ltac:(unfold fast_conv; cbn; by destruct (bool_decide _)))).
    rewrite (bind_Ok _ _ _ _ _ E). apply bind_Crash. unfold convert. cbn [sc_op sc_mod sc_fmt c c_op c_mod Z.eqb Pos.eqb orb].
    unfold convert_signed. cbn [Z.eqb Pos.eqb]. rewrite (bind_Ok _ _ _ z (mkPrintf s [] [] aux)) by done.
    unfold sprintf_to. rewrite Hfmt. set (sp := spec_of c (number ds) None). change (format sp (VInt (to_int z))) with (Ok (fmt_signed sp (to_int z))).
    erewrite (bind_Ok (lift _)) by reflexivity.
    pose proof (fmt_signed_len sp (to_int z) (proj1 (int_ranges z))) as [Hlo _]. cbn [sp sp_width spec_of] in Hlo.
    cbn [bound_of c c_op default from_option id auxBuffLen p] in Hlen. unfold PRINTF_BUFFLEN in *.
    by rewrite (proj2 (Z.leb_gt _ _)) by lia. }
  rewrite app_nil_r in Hcrash.
  assert (G : forall n, VFPrintF_loop (S n) (37 :: render_conv c) 0 p = Crash MemFault).
  { intros n. cbn [VFPrintF_loop span]. change (negb (37 =? 37)) with false. cbv iota beta.
    rewrite (bind_Ok (emit [] 0) _ p (Some 0) p) by done. cbv iota beta. by rewrite (bind_Crash _ _ p MemFault Hcrash). }
  unfold FCGX_FPrintF, FCGX_VFPrintF. fold p. unfold render. cbn [map concat render_piece]. rewrite app_nil_r. cbn [length].
  by rewrite (bind_Crash _ _ p MemFault (G _)).
Qed.

(** A [long double] beyond the range of [double]: the exponent that [frexp] finds is not its own, and where
    it is not positive the buffer of a hundred bytes is kept for a text of more. *)
Lemma long_double_overflows d s : frexp_exp (to_double d) <= 0 ->
  PRINTF_BUFFLEN <= zlen (fmt_double (mkSpec false false false false false 0 None 76 102) d) ->
  FCGX_FPrintF [37; 76; 102] [ALongDouble d] s = Crash MemFault.
Proof.
  intros Hexp Hlen. set (p := mkPrintf (Dbl := Dbl) s [ALongDouble d] [] 0).
  assert (Hb : bound_buffer 102 76 (-1) p = Ok (Some (9, EarlyDbl d), mkPrintf s [] [] 0)).
  { unfold bound_buffer. cbn [Z.eqb Pos.eqb orb]. rewrite (bind_Ok _ _ _ (Some (d, frexp_exp (to_double d))) (mkPrintf s [] [] 0)) by done.
    by rewrite (proj2 (Z.ltb_ge _ _)) by done. }
  assert (Hs : scan_slow [76; 102] p = Ok (Some (mkScanned 102 76 [37; 76; 102] 3, EarlyDbl d, PRINTF_BUFFLEN), mkPrintf s [] [] 0)).
  { unfold scan_slow. change (span is_flag [76; 102]) with ([] : list Z, [76; 102]). cbv iota beta. change (5 <? zlen []) with false. cbv iota.
    rewrite (bind_Ok _ _ p (Some ([], 0, [76; 102])) p) by done. rewrite (bind_Ok _ _ p (Some ([], -1, [76; 102])) p) by done.
    cbn [nth is_mod Z.eqb Pos.eqb orb drop app]. rewrite (bind_Ok _ _ p tt p) by done. by rewrite (bind_Ok _ _ _ _ _ Hb). }
  assert (Hcrash : directive [76; 102] 0 p = Crash MemFault).
  { unfold directive. rewrite (bind_Ok _ _ p NotPerformed p) by done. rewrite (bind_Ok _ _ _ _ _ Hs). apply bind_Crash.
    unfold convert. cbn [sc_op sc_mod sc_fmt Z.eqb Pos.eqb orb]. unfold convert_fixed. cbn [Z.eqb Pos.eqb orb]. unfold sprintf_to.
    rewrite (bind_Ok _ _ _ (fmt_double (mkSpec false false false false false 0 None 76 102) d) (mkPrintf s [] [] 0)) by done.
    by rewrite (proj2 (Z.leb_gt _ _)) by lia. }
  unfold FCGX_FPrintF, FCGX_VFPrintF. fold p. cbn [length VFPrintF_loop span]. change (negb (37 =? 37)) with false. cbv iota beta.
  rewrite (bind_Crash _ _ p MemFault); [done|]. rewrite (bind_Ok (emit [] 0) _ p (Some 0) p) by done. cbv iota beta.
  by rewrite (bind_Crash _ _ p MemFault Hcrash).
Qed.

(** A negative precision is taken as zero: ISO C has it taken as if it were omitted, which
    prints the digit of zero. *)
Theorem negative_precision_is_zero p s : p < 0 ->
  FCGX_FPrintF [37; 46; 42; 100] [AInt p; AInt 0] s = Ok (0, s) /\ decimal 0 = [48].
Proof. intros Hp. destruct p as [|p|p]; [lia|lia|]. split; [vm_compute; by destruct s|done]. Qed.
End Limits.

(** A writer, and a format with a literal, numbers, a string and a count. *)
Module PrintfSample.
Definition writer : SS := mkSS (NewWriter 0 64 FCGI_STDOUT) (mkReqData 1 0 3 true false 0 2 0 0 false) (mkConn [] [] [] 0).
Definition conv (flags : list Z) (w : width) (p : precision) (op : Z) : piece := Conv (mkConv flags w p 32 op).
Definition pieces : list piece :=
  [Lit [120; 61]; conv [48] (WNum [53]) PNone 100; Percent; conv [45] WStar (PNum [50]) 115; Count 32; conv [] WNone (PNum [49]) 102].
Definition arguments : list (arg unit) := [AInt (-42); AInt 4; AStr (Some [97; 98; 99]); APtr 4096; ADouble tt].

Lemma conv_fits flags w p op : op ∈ [100; 102; 115] -> forallb is_flag flags = true -> zlen flags <= 5 ->
  match w with WNum ds => forallb is_digit ds = true /\ 1 <= zlen ds <= 6 /\ nth 0 ds 0 <> 48 | _ => True end ->
  match p with PNum ds => forallb is_digit ds = true /\ zlen ds <= 6 | _ => True end -> piece_ok (conv flags w p op).
Proof.
  intros Ho Hf Hl Hw Hp. split; [done|done|done|]. unfold int_ops, text_ops, float_ops. cbn [c_op c_mod]. repeat rewrite elem_of_cons in *.
  rewrite ?elem_of_nil in *. tauto.
Qed.

Lemma pieces_ok : Forall piece_ok pieces.
Proof.
  assert (C : forall f w p op, op ∈ [100; 102; 115] -> forallb is_flag f = true -> zlen f <= 5 ->
    match w with WNum ds => forallb is_digit ds = true /\ 1 <= zlen ds <= 6 /\ nth 0 ds 0 <> 48 | _ => True end ->
    match p with PNum ds => forallb is_digit ds = true /\ zlen ds <= 6 | _ => True end -> piece_ok (conv f w p op)) by apply conv_fits.
  unfold pieces. constructor; [by apply (bool_decide_unpack (37 ∉ [120; 61]))|].
  constructor; [apply C; [set_solver|done|done|by vm_compute|done]|]. constructor; [done|].
  constructor; [apply C; [set_solver|done|done|done|by vm_compute]|]. constructor; [cbn; set_solver|].
  constructor; [apply C; [set_solver|done|done|done|by vm_compute]|]. constructor.
Qed.

Lemma writer_ready : @snk_at writer_procs (framed_sink FCGI_STDOUT (req writer) [] [] []) writer [].
Proof. apply (NewWriter_open 0 64 FCGI_STDOUT (req writer) ltac:(by vm_compute) ltac:(by vm_compute) ltac:(done) (conn writer)). constructor. Qed.
End PrintfSample.


Lemma wide_field_overflows_witness :
  @FCGX_FPrintF writer_procs unit ZeroFloat.libc [37; 49; 48; 48; 100] [AInt 7] PrintfSample.writer = Crash MemFault.
Proof.
  apply (@wide_field_overflows writer_procs unit ZeroFloat.libc [] [49; 48; 48] 7 PrintfSample.writer); vm_compute; try reflexivity; discriminate.
Defined.

Lemma negative_precision_is_zero_witness :
  @FCGX_FPrintF writer_procs unit ZeroFloat.libc [37; 46; 42; 100] [AInt (-1); AInt 0] PrintfSample.writer = Ok (0, PrintfSample.writer).
Proof. apply (@negative_precision_is_zero writer_procs unit ZeroFloat.libc (-1) PrintfSample.writer). reflexivity. Defined.
