(* ===== verification/FcgiControl.v ===== *)
(** * Control records: beginning a request, management records, refused headers

    What the reader does with the records that are not stream content
    ([ProcessBeginRecord], [ProcessManagementRecord], [ProcessHeader], [SetReaderType] in
    [libfcgi/fcgiapp.c]), and inputs on which it goes wrong. *)

From S2P Require Import Prelude FcgiProto FcgiStream FcgiWriter FcgiParams FcgiReader FcgiRecords FcgiRequest.

(** A reader between two records, for the witnesses: [bytes] have arrived in one piece. *)
Module ControlSample.
Definition rq (begun : bool) : ReqData := mkReqData 1 0 4 begun false 0 0 0 0 false.
Definition reader (begun : bool) (bytes : list Z) : SS :=
  mkSS (NewReader 0 64 FCGI_STDIN) (rq begun) (mkConn [RdData bytes] [] [] 0).

Lemma reader_between begun bytes : bytes <> [] -> between (reader begun bytes) /\ unread (reader begun bytes) = bytes.
Proof.
  intros Hne. destruct (NewReader_between 0 64 FCGI_STDIN (rq begun) (mkConn [RdData bytes] [] [] 0)) as [B Hu].
  - cbn. lia.
  - constructor.
  - by repeat constructor.
  - split; [exact B|]. etransitivity; [exact Hu|]. cbn. by rewrite app_nil_r.
Qed.
End ControlSample.

Section Control.
Context {uninit : Uninit}.

(** a [BEGIN_REQUEST] record, however its bytes arrive, sets the request's id, role and
    whether the connection is kept from its body, and leaves the reader at the byte behind
    it, its padding still to be skipped. *)
Theorem FillBuffProc_begins r w s : between s -> isBeginProcessed (req s) = false ->
  unread s = enc r ++ w -> w <> [] -> rec_ok r -> r_type r = FCGI_BEGIN_REQUEST -> r_id r <> 0 ->
  zlen (r_content r) = 8 ->
  exists s', FillBuffProc s = Ok (tt, s') /\ isBeginProcessed (req s') = true /\
    requestId (req s') = r_id r /\
    role (req s') = nth 0 (r_content r) 0 * 256 + nth 1 (r_content r) 0 /\
    keepConnection (req s') = Z.testbit (nth 2 (r_content r) 0) 0 /\
    appStatus (req s') = appStatus (req s) /\
    paddingLen (data (strm s')) = zlen (r_pad r) /\ unread s' = r_pad r ++ w /\
    tx (conn s') = tx (conn s).
Proof.
  intros B Hb Hu Hw Hok Ht Hid Hl.
  destruct (FillBuffProc_begin r w s B Hb Hu Hw Hok Ht Hid Hl)
    as (s' & E & _ & _ & _ & _ & _ & _ & Hp & Htx & Hu' & Hrq).
  exists s'. split; [done|]. rewrite Hrq. split; [done|]. split; [done|].
  destruct (r_content r) as [|a [|b [|c x]]]; [done..|]. cbn [begun_req bytes_begin_body nth roleB1 roleB0 flags_].
  split; [cbn -[Z.shiftl]; by rewrite shiftl_8|]. split; [|done].
  cbn -[Z.land Z.testbit]. unfold FCGI_KEEP_CONN. change 1 with (Z.ones 1). rewrite Z.land_ones by lia.
  change (2 ^ 1) with 2. rewrite <- Z.bit0_mod. by destruct (Z.testbit c 0).
Qed.

(** a management record of a type that the library does not know is answered with
    [FCGI_UNKNOWN_TYPE] and that type; nothing else changes, not even the position: the body
    of the record is not consumed. *)
Theorem unknown_type_answered h s : between s -> version h = FCGI_VERSION_1 ->
  header_requestId h = FCGI_NULL_REQUEST_ID -> type h <> FCGI_BEGIN_REQUEST -> type h <> FCGI_GET_VALUES ->
  exists s', @ProcessHeader nested_procs uninit h (entering s) = Ok (MGMT_RECORD, s') /\
    tx (conn s') = tx (conn s) ++
      enc (mkRec FCGI_UNKNOWN_TYPE 0 (uchar (type h) :: replicate 7 0) []) /\
    unread s' = unread s /\ req s' = req s /\
    contentLen (data (strm s')) = header_contentLength h.
Proof.
  intros [L _ _ _ _ _] Hv Hid Hb Hg. unfold ProcessHeader. rewrite Hv, Hid. cbn [Z.eqb Pos.eqb negb FCGI_VERSION_1].
  do 2 (erewrite (bind_Ok (upd_data _)) by reflexivity).
  set (s2 := with_lens (header_contentLength h) (paddingLength h) (entering s)).
  rewrite (bind_Ok get _ _ s2 s2) by done.
  rewrite (proj2 (Z.eqb_neq _ _) Hb). cbn [Z.eqb FCGI_NULL_REQUEST_ID].
  destruct (ProcessManagementRecord_unknown (type h) s2 Hg) as (w & Hw & E); [by destruct L..|].
  eexists. split; [exact E|]. done.
Qed.


(** A header of another version, a record of another stream of this request, and a peer
    that closes before a header is complete are refused: the stream is closed with the error,
    and nothing is sent. *)
Theorem bad_headers_refused s : between s ->
  (forall bs w, unread s = bs ++ w -> zlen bs = FCGI_HEADER_LEN -> nth 0 bs 0 <> FCGI_VERSION_1 ->
    exists s', FillBuffProc s = Ok (tt, s') /\ refused FCGX_UNSUPPORTED_VERSION s' /\ tx (conn s') = tx (conn s)) /\
  (forall r w, unread s = enc r ++ w -> rec_ok r -> r_type r <> FCGI_BEGIN_REQUEST -> r_id r <> 0 ->
    r_id r = requestId (req s) -> r_type r <> stype (data (strm s)) ->
    exists s', FillBuffProc s = Ok (tt, s') /\ refused FCGX_PROTOCOL_ERROR s' /\ tx (conn s') = tx (conn s)) /\
  (zlen (unread s) < FCGI_HEADER_LEN ->
    exists s', FillBuffProc s = Ok (tt, s') /\ refused FCGX_PROTOCOL_ERROR s' /\ tx (conn s') = tx (conn s)).
Proof.
  intros B. change (FillBuffProc s) with (@FillBuff_body nested_procs uninit s). split; [|split].
  - intros bs w Hu Hl Hv. by apply (@FillBuff_version nested_procs uninit bs w s).
  - intros r w Hu Hok Hb Hid Hrq Hty. by apply (@FillBuff_wrong_type nested_procs uninit r w s).
  - intros Hl. by apply (@FillBuff_eof nested_procs uninit s).
Qed.
End Control.

Lemma FillBuffProc_begins_witness : let uninit := StreamSample.zero_stack in
  exists s', FillBuffProc (ControlSample.reader false (enc (mkRec FCGI_BEGIN_REQUEST 300 [1; 3; 1; 0; 0; 0; 0; 0] [0]) ++ [1])) = Ok (tt, s') /\
    requestId (req s') = 300 /\ role (req s') = 259 /\ keepConnection (req s') = true.
Proof.
  intros uninit. set (r := mkRec FCGI_BEGIN_REQUEST 300 [1; 3; 1; 0; 0; 0; 0; 0] [0]).
  destruct (ControlSample.reader_between false (enc r ++ [1])) as [B Hu]; [done|].
  destruct (FillBuffProc_begins r [1] _ B eq_refl Hu) as (s' & E & _ & Hi & Hr & Hk & _); try done.
  exists s'. split; [exact E|]. split; [exact Hi|]. split; [exact Hr|exact Hk].
Defined.

Lemma unknown_type_answered_witness : let uninit := StreamSample.zero_stack in
  exists s', @ProcessHeader nested_procs uninit (header_of 12 0 8 0) (entering (ControlSample.reader true [1])) = Ok (MGMT_RECORD, s') /\
    tx (conn s') = [1; 11; 0; 0; 0; 8; 0; 0; 12; 0; 0; 0; 0; 0; 0; 0].
Proof.
  intros uninit. destruct (ControlSample.reader_between true [1]) as [B _]; [done|].
  destruct (unknown_type_answered (header_of 12 0 8 0) _ B) as (s' & E & Ht & _); try done.
  exists s'. split; [exact E|]. exact Ht.
Defined.


Lemma bad_headers_refused_witness : let uninit := StreamSample.zero_stack in
  exists s', FillBuffProc (ControlSample.reader true [2; 5; 0; 1; 0; 0; 0; 0]) = Ok (tt, s') /\
    refused FCGX_UNSUPPORTED_VERSION s'.
Proof.
  intros uninit. destruct (ControlSample.reader_between true [2; 5; 0; 1; 0; 0; 0; 0]) as [B Hu]; [done|].
  destruct (proj1 (bad_headers_refused _ B) [2; 5; 0; 1; 0; 0; 0; 0] [] Hu) as (s' & E & Hr & _); try done.
  exists s'. split; [exact E|exact Hr].
Defined.

(** ** Inputs on which the reader goes wrong *)

(** a record of another request with empty content, such as the end of its [STDIN], sets
    [skip] with nothing to skip: the content of the next record of this request is dropped, and
    the application reads the stream as empty. *)
Theorem empty_foreign_record_drops_content : let uninit := StreamSample.zero_stack in
  let sent := wire [mkRec FCGI_STDIN 2 [] []; mkRec FCGI_STDIN 1 [104; 105] []; mkRec FCGI_STDIN 1 [] []] in
  exists s', (SetReaderType FCGI_STDIN ;;; GetStrs [8]) (ControlSample.reader true sent) = Ok ([[]], s') /\
    unread s' = [] /\ FCGI_errno (strm s') = 0.
Proof. intros uninit sent. eexists. split; [vm_compute; reflexivity|]. done. Qed.

(** Without the record of the other request the content arrives. *)
Example own_record_delivered : let uninit := StreamSample.zero_stack in
  let sent := wire [mkRec FCGI_STDIN 1 [104; 105] []; mkRec FCGI_STDIN 1 [] []] in
  exists s', (SetReaderType FCGI_STDIN ;;; GetStrs [8]) (ControlSample.reader true sent) = Ok ([[104; 105]], s').
Proof. intros uninit sent. eexists. vm_compute. reflexivity. Qed.

(** [ProcessManagementRecord] answers a variable as often as it is asked for, without a
    look at the size of [response]: asked four times for [FCGI_MAX_CONNS] it writes past the
    end of its 64 bytes. *)
Theorem repeated_names_overflow_response (n : nat) (response : list Z) : length response = 64%nat -> (4 <= n)%nat ->
  answer_values (replicate n (nv_string (FCGI_MAX_CONNS, []))) response FCGI_HEADER_LEN = Crash MemFault.
Proof.
  intros Hr Hn. destruct n as [|[|[|[|n]]]]; [lia..|]. cbn [replicate].
  set (x := nv_string _).
  assert (Hs : forall vec r p, zlen r = 64 -> 0 <= p -> exists r', (p + 18 <= 64 -> zlen r' = 64) /\
    answer_values (x :: vec) r p = if p + 18 <=? 64 then answer_values vec r' (p + 17) else Crash MemFault).
  { intros vec r p Hz Hp. exists (splice p (14 :: 1 :: FCGI_MAX_CONNS ++ [49; 0]) r). split.
    - intros Hle. rewrite zlen_splice; [done|done|]. rewrite Hz. exact Hle.
    - cbn [answer_values]. change (before_eq (c_string x)) with (Some FCGI_MAX_CONNS). cbv iota beta.
      change (mgmt_value FCGI_MAX_CONNS) with (Some 49). cbv iota beta zeta. unfold mem_write. rewrite Hz.
      change (zlen (uchar (zlen FCGI_MAX_CONNS) :: 1 :: FCGI_MAX_CONNS ++ [49; 0])) with 18.
      rewrite (proj2 (Z.leb_le 0 p)) by done. cbn [andb]. by destruct (p + 18 <=? 64). }
  assert (Hz : zlen response = 64) by (unfold zlen; lia).
  destruct (Hs (x :: x :: x :: replicate n x) response 8 Hz ltac:(lia)) as (r1 & Hz1 & E1).
  destruct (Hs (x :: x :: replicate n x) r1 25 (Hz1 ltac:(lia)) ltac:(lia)) as (r2 & Hz2 & E2).
  destruct (Hs (x :: replicate n x) r2 42 (Hz2 ltac:(lia)) ltac:(lia)) as (r3 & Hz3 & E3).
  destruct (Hs (replicate n x) r3 59 (Hz3 ltac:(lia)) ltac:(lia)) as (r4 & _ & E4).
  etransitivity; [exact E1|]. etransitivity; [exact E2|]. etransitivity; [exact E3|exact E4].
Qed.

Lemma repeated_names_overflow_response_witness :
  answer_values (replicate 4 (nv_string (FCGI_MAX_CONNS, []))) (replicate 64 0) FCGI_HEADER_LEN = Crash MemFault.
Proof. apply repeated_names_overflow_response; [reflexivity|lia]. Defined.
