(* ===== verification/FcgiServe.v ===== *)
(** * Serving a request: [FCGX_Accept_r], the application's calls, [FCGX_Finish_r]

    The abstract specification of the library for one request: the application reads the
    content of the web server's [STDIN] records, whatever their sizes and pieces, and what it
    writes on its two output streams, in any interleaving, reaches the web server as the
    contents of the [STDOUT] and [STDERR] records, closed by the end of the request with the
    application's status.  The operations of [libfcgi/fcgiapp.c] refine it. *)

From S2P Require Import Prelude FcgiProto FcgiStream FcgiWriter FcgiParams FcgiReader FcgiRecords OsAccept OsAsync FcgiRequest.

(** ** One connection, three streams *)

(** The answer to an attempt to begin a second request, as records. *)
Definition reply_rec (r : rec) : list rec :=
  if r_type r =? FCGI_BEGIN_REQUEST
  then [mkRec FCGI_END_REQUEST (r_id r) (end_body_bytes (MakeEndRequestBody 0 FCGI_CANT_MPX_CONN)) []]
  else [].

Definition reply_recs (rs : list rec) : list rec := concat (map reply_rec rs).

Lemma replies_recs rs : replies rs = wire (reply_recs rs).
Proof.
  induction rs as [|r rs IH]; [done|].
  change (replies (r :: rs)) with (mpx_reply r ++ replies rs).
  change (reply_recs (r :: rs)) with (reply_rec r ++ reply_recs rs). rewrite wire_app, <- IH. f_equal.
  unfold mpx_reply, reply_rec. destruct (_ =? _); [|done]. by rewrite wire_one.
Qed.

Lemma reply_recs_type rs : Forall (fun r => r_type r = FCGI_END_REQUEST) (reply_recs rs).
Proof.
  induction rs as [|r rs IH]; [constructor|].
  change (reply_recs (r :: rs)) with (reply_rec r ++ reply_recs rs). apply Forall_app. split; [|done].
  unfold reply_rec. destruct (_ =? _); by repeat constructor.
Qed.

Lemma stream_of_type T T' rs : Forall (fun r => r_type r = T') rs -> T <> T' -> stream_of T rs = [].
Proof. intros H ?. apply stream_of_other. eapply List.Forall_impl; [|exact H]. cbn. congruence. Qed.

Lemma from_writer_type T id rs : Forall (from_writer T id) rs -> Forall (fun r => r_type r = T) rs.
Proof. intros H. eapply List.Forall_impl; [|exact H]. by intros r (_ & ? & _). Qed.

Section Reader.
Context {uninit : Uninit} (T : Z) (epad tail : list Z).

(** A reader keeps what it has to deliver when a writer uses the connection, and when the
    request's data change in what readers do not look at. *)
Lemma rd_layout_park s rq' c' : rd_layout s -> 0 <= ipcFd rq' -> rx c' = rx (conn s) ->
  accepts (wr c') -> rd_layout (mkSS (strm s) rq' c').
Proof. intros [] ? Hrx ?. split; try done. cbn. by rewrite Hrx. Qed.

Lemma unread_park s rq' c' : rx c' = rx (conn s) -> unread (mkSS (strm s) rq' c') = unread s.
Proof. intros Hrx. unfold unread. cbn. by rewrite Hrx. Qed.

Definition same_reader (rq rq' : ReqData) : Prop :=
  requestId rq' = requestId rq /\ ipcFd rq' = ipcFd rq /\ isBeginProcessed rq' = isBeginProcessed rq.

Lemma rd_at_park rq rq' tx0 rs0 s X c' : rd_at T rq tx0 rs0 epad tail s X -> same_reader rq rq' ->
  rx c' = rx (conn s) -> accepts (wr c') ->
  exists ds rs, tx (conn s) = tx0 ++ replies ds /\
    rd_at T rq' (tx c') rs epad tail (mkSS (strm s) rq' c') X.
Proof.
  intros (OK & Hsk & Hr & Hs & c & p & rs & I & ->) (Hi & Hfd & Hb) Hrx Ha.
  destruct (is_tx I) as (ds & -> & Htx). exists ds, rs. split; [done|]. split.
  { destruct OK. split; try done; congruence. }
  do 3 (split; [done|]). exists c, p, rs. rewrite Hi. split; [|done].
  pose proof (is_req I) as Hrq. cbn in Hrq.
  pose proof (is_layout I) as L. apply (rd_layout_park _ rq' c') in L; try done.
  2:{ rewrite Hfd, <- Hrq. by destruct (is_layout I). }
  destruct I. split; try done.
  - by rewrite Hi.
  - exists []. by rewrite app_nil_r.
  - destruct is_unread as (w & Hu & Hw). exists w. rewrite Hi. split; [|done]. rewrite <- Hu.
    by rewrite <- (unread_park (set_ptrs (stop (strm s)) (stopUnget (strm s)) s) rq' c').
Qed.

Lemma rd_end_park rq rq' tx0 rs0 s c' : rd_end T rq tx0 rs0 epad tail s -> same_reader rq rq' ->
  rx c' = rx (conn s) -> accepts (wr c') ->
  tx (conn s) = tx0 ++ replies rs0 /\ rd_end T rq' (tx c') [] epad tail (mkSS (strm s) rq' c').
Proof.
  intros [] (Hi & Hfd & Hb) Hrx Ha. split; [done|]. split; try done.
  - apply rd_layout_park; try done. rewrite Hfd, <- re_req. by destruct re_layout.
  - cbn. by rewrite app_nil_r.
  - by rewrite <- re_unread, <- (unread_park s rq' c').
Qed.

(** The input stream of a request that still has to deliver [X]. *)
Definition reading (rq : ReqData) (c : Conn) (X : list Z) (st : FCGX_Stream) : Prop :=
  (exists rs0, @src_content _ (rd_source T rq (tx c) rs0 epad tail) (mkSS st rq c) X) \/
  (X = [] /\ rd_end T rq (tx c) [] epad tail (mkSS st rq c)).

Lemma reading_park rq rq' c c' X st : reading rq c X st -> same_reader rq rq' -> rx c' = rx c ->
  accepts (wr c') -> reading rq' c' X st.
Proof.
  intros [(rs0 & Y & H & ->)|[-> H]] Hq Hrx Ha.
  - left. destruct (rd_at_park rq rq' _ rs0 _ Y c' H Hq Hrx Ha) as (ds & rs & _ & H'). exists rs, Y. done.
  - right. split; [done|]. by apply (rd_end_park rq rq' _ _ _ c' H).
Qed.

Lemma rd_at_conn rq tx0 rs0 s X : rd_at T rq tx0 rs0 epad tail s X ->
  req s = rq /\ accepts (wr (conn s)) /\ isReader (strm s) = true /\ FCGI_errno (strm s) = 0.
Proof. intros (_ & _ & _ & _ & c & p & rs & I & _). pose proof (is_req I). by destruct (is_layout I). Qed.

(** What a call leaves of a source is still the input stream of the request. *)
Lemma reading_at rq tx0 rs0 s X : @src_content _ (rd_source T rq tx0 rs0 epad tail) s X ->
  req s = rq /\ accepts (wr (conn s)) /\ (exists ds, tx (conn s) = tx0 ++ wire (reply_recs ds)) /\
  reading rq (conn s) X (strm s).
Proof.
  intros (Y & H & ->). destruct (rd_at_conn _ _ _ _ _ H) as (Hrq & Ha & _). split; [done|]. split; [done|].
  destruct (rd_at_park rq rq _ rs0 s Y (conn s) H) as (ds & rs & Htx & H'); try done.
  split; [by exists ds; rewrite <- replies_recs|]. left. exists rs, Y. done.
Qed.

Lemma reading_end rq tx0 rs0 s : rd_end T rq tx0 rs0 epad tail s ->
  req s = rq /\ accepts (wr (conn s)) /\ (exists ds, tx (conn s) = tx0 ++ wire (reply_recs ds)) /\
  reading rq (conn s) [] (strm s).
Proof.
  intros H. assert (Hrq := re_req _ _ _ _ _ _ _ H).
  assert (Ha : accepts (wr (conn s))) by (by destruct (re_layout _ _ _ _ _ _ _ H)).
  destruct (rd_end_park rq rq tx0 rs0 s (conn s) H) as [Htx H']; try done.
  split; [done|]. split; [done|]. split; [exists rs0; by rewrite <- replies_recs|]. by right.
Qed.

(** [FCGX_GetStr] on the input stream of a request. *)
Lemma reading_GetStr rq c X st n : reading rq c X st -> 0 <= n ->
  exists s', @FCGX_GetStr reader_procs n (mkSS st rq c) = Ok (sub 0 n X, s') /\
    req s' = rq /\ accepts (wr (conn s')) /\ (exists ds, tx (conn s') = tx c ++ wire (reply_recs ds)) /\
    reading rq (conn s') (drop (Z.to_nat n) X) (strm s').
Proof.
  intros [(rs0 & H)|[-> H]] Hn.
  - destruct (@FCGX_GetStr_spec _ (rd_source T rq (tx c) rs0 epad tail) n _ X H Hn) as (s' & E & Ha).
    exists s'. split; [done|]. unfold src_after in Ha. destruct (Z.leb_spec n (zlen X)).
    + by apply (reading_at rq _ rs0).
    + rewrite drop_ge by (unfold zlen in *; lia). by apply (reading_end rq _ rs0).
  - exists (mkSS st rq c). destruct (reading_end _ _ _ _ H) as (? & ? & ? & Hrd). rewrite drop_nil.
    unfold sub. rewrite drop_nil, take_nil. split; [|done].
    unfold FCGX_GetStr, bind at 1, get at 1.
    rewrite (re_closed _ _ _ _ _ _ _ H). done.
Qed.

(** [FCGX_GetChar]. *)
Lemma reading_GetChar rq c X st : reading rq c X st ->
  exists s', @FCGX_GetChar reader_procs (mkSS st rq c) = Ok (head_or EOF X, s') /\
    req s' = rq /\ accepts (wr (conn s')) /\ (exists ds, tx (conn s') = tx c ++ wire (reply_recs ds)) /\
    reading rq (conn s') (drop 1 X) (strm s').
Proof.
  intros [(rs0 & H)|[-> H]].
  - destruct (@FCGX_GetChar_spec _ (rd_source T rq (tx c) rs0 epad tail) _ X H) as (s' & E & Ha).
    exists s'. split; [done|]. destruct X; [by apply (reading_end rq _ rs0)|by apply (reading_at rq _ rs0)].
  - exists (mkSS st rq c). destruct (reading_end _ _ _ _ H) as (? & ? & ? & Hrd). split; [|done].
    unfold FCGX_GetChar, bind at 1, get at 1. by rewrite (re_closed _ _ _ _ _ _ _ H).
Qed.

(** [FCGX_GetLine]. *)
Lemma reading_GetLine rq c X st n : reading rq c X st -> Forall is_byte X ->
  exists s', @FCGX_GetLine reader_procs n (mkSS st rq c) =
      Ok (if bool_decide (X = []) && (1 <? n) then None else Some (take_line (Z.to_nat (n - 1)) X), s') /\
    req s' = rq /\ accepts (wr (conn s')) /\ (exists ds, tx (conn s') = tx c ++ wire (reply_recs ds)) /\
    reading rq (conn s') (drop (length (take_line (Z.to_nat (n - 1)) X)) X) (strm s').
Proof.
  intros [(rs0 & H)|[-> H]] HX.
  - destruct (@FCGX_GetLine_spec _ (rd_source T rq (tx c) rs0 epad tail) n _ X H HX) as (s' & E & Ha).
    exists s'. split; [done|]. destruct (line_eof _ X) eqn:El; [|by apply (reading_at rq _ rs0)].
    rewrite drop_ge; [by apply (reading_end rq _ rs0)|]. by apply line_eof_all.
  - exists (mkSS st rq c). destruct (reading_end _ _ _ _ H) as (? & ? & ? & Hrd).
    rewrite drop_nil. split; [|done]. unfold FCGX_GetLine. destruct (Z.ltb_spec 1 n).
    + destruct (Z.to_nat (n - 1)) eqn:Ek; [lia|]. cbn [GetLine_loop].
      destruct (reading_GetChar rq c [] st) as (s' & E & _); [by right|].
      unfold FCGX_GetChar, bind at 1, bind at 1, get at 1. by rewrite (re_closed _ _ _ _ _ _ _ H).
    + by replace (Z.to_nat (n - 1)) with 0%nat by lia.
Qed.
End Reader.

Section Writer.
Context (T : Z) (rq : ReqData).

(** A framed state, parked: what it sent since [tx0], and the writer it leaves. *)
Lemma framed_leave rx0 tx0 base s W : framed T rq rx0 tx0 base s W ->
  exists rs, Forall (from_writer T (requestId rq)) rs /\ tx (conn s) = tx0 ++ wire rs /\
    rx (conn s) = rx0 /\ req s = rq /\ accepts (wr (conn s)) /\
    writer_open T rq (base ++ stream_of T rs) W (strm s).
Proof.
  intros H. pose proof H as (L & _ & _ & _ & Hrq & _ & rs & Hrs & Htx & Hrx & HW & Hany).
  exists rs. do 4 (split; [done|]). split; [apply (wl_accepts s L)|].
  by apply (framed_park T rq rx0 tx0 base s W rs).
Qed.

Lemma open_PutStr base W st c bs : writer_open T rq base W st -> accepts (wr c) ->
  exists s' rs, @FCGX_PutStr writer_procs bs (mkSS st rq c) = Ok (zlen bs, s') /\
    Forall (from_writer T (requestId rq)) rs /\ tx (conn s') = tx c ++ wire rs /\
    rx (conn s') = rx c /\ req s' = rq /\ accepts (wr (conn s')) /\
    writer_open T rq (base ++ stream_of T rs) (W ++ bs) (strm s').
Proof.
  intros H Ha. destruct (@FCGX_PutStr_spec _ (framed_sink T rq (rx c) (tx c) base) bs _ W (H c Ha))
    as (s' & E & H'). destruct (framed_leave _ _ _ _ _ H') as (rs & ?). by exists s', rs.
Qed.

Lemma open_PutChar base W st c b : writer_open T rq base W st -> accepts (wr c) ->
  exists s' rs, @FCGX_PutChar writer_procs b (mkSS st rq c) = Ok (uchar b, s') /\
    Forall (from_writer T (requestId rq)) rs /\ tx (conn s') = tx c ++ wire rs /\
    rx (conn s') = rx c /\ req s' = rq /\ accepts (wr (conn s')) /\
    writer_open T rq (base ++ stream_of T rs) (W ++ [uchar b]) (strm s').
Proof.
  intros H Ha. destruct (@FCGX_PutChar_spec _ (framed_sink T rq (rx c) (tx c) base) b _ W (H c Ha))
    as (s' & E & H'). destruct (framed_leave _ _ _ _ _ H') as (rs & ?). by exists s', rs.
Qed.

Lemma open_FFlush base W st c : writer_open T rq base W st -> accepts (wr c) ->
  exists s' rs, @FCGX_FFlush writer_procs (mkSS st rq c) = Ok (0, s') /\
    Forall (from_writer T (requestId rq)) rs /\ tx (conn s') = tx c ++ wire rs /\
    rx (conn s') = rx c /\ req s' = rq /\ accepts (wr (conn s')) /\
    writer_open T rq (base ++ stream_of T rs) W (strm s').
Proof.
  intros H Ha. destruct (@FCGX_FFlush_spec _ (framed_sink T rq (rx c) (tx c) base) _ W (H c Ha))
    as (s' & E & H'). destruct (framed_leave _ _ _ _ _ H') as (rs & ?). by exists s', rs.
Qed.
End Writer.

(** ** The application's view of a request *)

(** What the application has still to read, what it has written, and its exit status. *)
Record view := mkView { v_in : list Z; v_out : list Z; v_err : list Z; v_status : Z }.

(** The calls of an application. *)
Inductive app_op :=
  | AGetChar
  | AGetStr (n : Z)
  | AGetLine (n : Z)
  | APutChar (k : which) (c : Z)
  | APutStr (k : which) (bs : list Z)
  | AFFlush (k : which)
  | ASetExitStatus (status : Z).

Inductive app_res := RInt (z : Z) | RBytes (bs : list Z) | RLine (line : option (list Z)).

Definition read_to (X : list Z) (v : view) : view := mkView X (v_out v) (v_err v) (v_status v).

Definition written_to (k : which) (bs : list Z) (v : view) : view :=
  match k with
  | In => v
  | Out => mkView (v_in v) (v_out v ++ bs) (v_err v) (v_status v)
  | Err => mkView (v_in v) (v_out v) (v_err v ++ bs) (v_status v)
  end.

(** What a call returns and does, by the documentation of the interface. *)
Definition view_op (op : app_op) (v : view) : app_res * view :=
  match op with
  | AGetChar => (RInt (head_or EOF (v_in v)), read_to (drop 1 (v_in v)) v)
  | AGetStr n => (RBytes (sub 0 n (v_in v)), read_to (drop (Z.to_nat n) (v_in v)) v)
  | AGetLine n =>
      let line := take_line (Z.to_nat (n - 1)) (v_in v) in
      (RLine (if bool_decide (v_in v = []) && (1 <? n) then None else Some line),
       read_to (drop (length line) (v_in v)) v)
  | APutChar k c => (RInt (uchar c), written_to k [uchar c] v)
  | APutStr k bs => (RInt (zlen bs), written_to k bs v)
  | AFFlush _ => (RInt 0, v)
  | ASetExitStatus st => (RInt 0, mkView (v_in v) (v_out v) (v_err v) st)
  end.

Fixpoint view_ops (ops : list app_op) (v : view) : list app_res * view :=
  match ops with
  | [] => ([], v)
  | op :: ops =>
      let '(r, v) := view_op op v in
      let '(rs, v) := view_ops ops v in (r :: rs, v)
  end.

(** The calls an application may make: reads of a size that is not negative, and output on the
    output streams. *)
Definition op_ok (op : app_op) : Prop :=
  match op with
  | AGetStr n => 0 <= n
  | APutChar k _ | APutStr k _ | AFFlush k => k <> In
  | AGetChar | AGetLine _ | ASetExitStatus _ => True
  end.

Section App.
Context {uninit : Uninit}.

(** The calls as the library performs them; the streams know their procedures. *)
Definition app_call (op : app_op) : M World app_res :=
  match op with
  | AGetChar => c <- on_stream In (@FCGX_GetChar reader_procs) ;; ret (RInt c)
  | AGetStr n => bs <- on_stream In (@FCGX_GetStr reader_procs n) ;; ret (RBytes bs)
  | AGetLine n => line <- on_stream In (@FCGX_GetLine reader_procs n) ;; ret (RLine line)
  | APutChar k c => r <- on_stream k (@FCGX_PutChar writer_procs c) ;; ret (RInt r)
  | APutStr k bs => r <- on_stream k (@FCGX_PutStr writer_procs bs) ;; ret (RInt r)
  | AFFlush k => r <- on_stream k (@FCGX_FFlush writer_procs) ;; ret (RInt r)
  | ASetExitStatus st => on_stream Out (FCGX_SetExitStatus st) ;;; ret (RInt 0)
  end.

Fixpoint app_run (ops : list app_op) : M World (list app_res) :=
  match ops with
  | [] => ret []
  | op :: ops => r <- app_call op ;; rs <- app_run ops ;; ret (r :: rs)
  end.

(** A record the library sends while it serves request [id]. *)
Definition served_rec (id : Z) (r : rec) : Prop :=
  from_writer FCGI_STDOUT id r \/ from_writer FCGI_STDERR id r \/ r_type r = FCGI_END_REQUEST.

(** The library serves a request of which the application has the view [v]; behind [tx0],
    the records [rs] are on the connection. *)
Record serving (rq : ReqData) (epad tail tx0 : list Z) (rs : list rec) (v : view) (w : World) : Prop := {
  sv_rq : rd (request w) = rq;
  sv_status : appStatus rq = v_status v;
  sv_bytes : Forall is_byte (v_in v);
  sv_writers : nWriters rq = 2;
  sv_in : exists st, in_ (request w) = Some st /\ reading FCGI_STDIN epad tail rq (cn w) (v_in v) st;
  sv_out : exists st, out (request w) = Some st /\
             writer_open FCGI_STDOUT rq (stream_of FCGI_STDOUT rs) (v_out v) st;
  sv_err : exists st, err (request w) = Some st /\
             writer_open FCGI_STDERR rq (stream_of FCGI_STDERR rs) (v_err v) st;
  sv_tx : tx (cn w) = tx0 ++ wire rs;
  sv_recs : Forall (served_rec (requestId rq)) rs;
  sv_accepts : accepts (wr (cn w)) }.

(** What a call of the application leaves alone. *)
Definition same_library (w w' : World) : Prop :=
  paramsPtr (request w') = paramsPtr (request w) /\ envp (request w') = envp (request w) /\
  os w' = os w /\ aio w' = aio w /\ mallocs w' = mallocs w /\ received w' = received w /\
  FcgiRequest.libInitialized w' = FcgiRequest.libInitialized w.

Lemma same_library_put k s w : same_library w (put_stream k s w).
Proof. by destruct k. Qed.

Lemma same_library_trans w1 w2 w3 : same_library w1 w2 -> same_library w2 w3 -> same_library w1 w3.
Proof. unfold same_library. intros. split_and!; intuition congruence. Qed.

Lemma served_replies id ds : Forall (served_rec id) (reply_recs ds).
Proof. eapply List.Forall_impl; [|apply reply_recs_type]. intros r ?. by right; right. Qed.

Lemma writer_open_eq T rq base base' W st : writer_open T rq base W st -> base = base' ->
  writer_open T rq base' W st.
Proof. by intros ? <-. Qed.

(** A read leaves the writers alone, but for the answers it may have sent. *)
Lemma serving_read rq epad tail tx0 rs v w s' ds X : serving rq epad tail tx0 rs v w ->
  req s' = rq -> accepts (wr (conn s')) -> tx (conn s') = tx (cn w) ++ wire (reply_recs ds) ->
  reading FCGI_STDIN epad tail rq (conn s') X (strm s') ->
  Forall is_byte X -> serving rq epad tail tx0 (rs ++ reply_recs ds) (read_to X v) (put_stream In s' w).
Proof.
  intros [? ? _ ? _ (so & Eo & Ho) (se & Ee & He) Htx Hrs ?] Hrq Ha Ht Hrd HX.
  assert (Hz : forall T, T <> FCGI_END_REQUEST -> stream_of T (reply_recs ds) = []).
  { intros T HT. apply (stream_of_type T FCGI_END_REQUEST); [apply reply_recs_type|done]. }
  split; try done.
  - by exists (strm s').
  - exists so. split; [done|]. eapply writer_open_eq; [exact Ho|]. by rewrite stream_of_app, Hz, app_nil_r.
  - exists se. split; [done|]. eapply writer_open_eq; [exact He|]. by rewrite stream_of_app, Hz, app_nil_r.
  - cbn. by rewrite Ht, Htx, wire_app, app_assoc.
  - apply Forall_app. split; [done|apply served_replies].
Qed.

(** A write on one of the output streams leaves the other streams alone. *)
Lemma serving_write k T rq epad tail tx0 rs v w s' rs1 (W bs : list Z) : serving rq epad tail tx0 rs v w ->
  (k = Out /\ T = FCGI_STDOUT) \/ (k = Err /\ T = FCGI_STDERR) ->
  req s' = rq -> accepts (wr (conn s')) -> rx (conn s') = rx (cn w) ->
  tx (conn s') = tx (cn w) ++ wire rs1 -> Forall (from_writer T (requestId rq)) rs1 ->
  writer_open T rq (stream_of T rs ++ stream_of T rs1) W (strm s') ->
  W = (if k is Out then v_out v else v_err v) ++ bs ->
  serving rq epad tail tx0 (rs ++ rs1) (written_to k bs v) (put_stream k s' w).
Proof.
  intros [? ? ? ? (si & Ei & Hi) (so & Eo & Ho) (se & Ee & He) Htx Hrs ?] Hk Hrq Ha Hrx Ht Hrs1 HW ->.
  assert (Hz : forall T', T' <> T -> stream_of T' rs1 = []).
  { intros T' HT. apply (stream_of_type T' T); [|done]. by eapply from_writer_type. }
  assert (Hin : reading FCGI_STDIN epad tail rq (conn s') (v_in v) si) by
    (eapply reading_park; [exact Hi|done..]).
  destruct Hk as [[-> ->]|[-> ->]]; split; try done; cbn [put_stream set_stream setter set_request set_cn
      set_rd set_out set_err request cn rd in_ out err v_in v_out v_err]; try (by eexists).
  all: try (rewrite Ht, Htx, wire_app, app_assoc; done).
  all: try (apply Forall_app; split; [done|]; eapply List.Forall_impl; [|exact Hrs1]; intros r ?; unfold served_rec; tauto).
  - exists (strm s'). split; [done|]. by rewrite stream_of_app.
  - exists se. split; [done|]. eapply writer_open_eq; [exact He|]. by rewrite stream_of_app, Hz, app_nil_r.
  - exists so. split; [done|]. eapply writer_open_eq; [exact Ho|]. by rewrite stream_of_app, Hz, app_nil_r.
  - exists (strm s'). split; [done|]. by rewrite stream_of_app.
Qed.

(** A call that reads, on the stream and on the library. *)
Lemma call_reads {A} (m : M SS A) (x : A) rq epad tail tx0 rs v w X :
  serving rq epad tail tx0 rs v w -> Forall is_byte X ->
  (forall st, reading FCGI_STDIN epad tail rq (cn w) (v_in v) st ->
    exists s', m (mkSS st rq (cn w)) = Ok (x, s') /\ req s' = rq /\ accepts (wr (conn s')) /\
      (exists ds, tx (conn s') = tx (cn w) ++ wire (reply_recs ds)) /\
      reading FCGI_STDIN epad tail rq (conn s') X (strm s')) ->
  exists w' rs', on_stream In m w = Ok (x, w') /\
    serving rq epad tail tx0 (rs ++ rs') (read_to X v) w' /\ same_library w w'.
Proof.
  intros S HX Hm. destruct (sv_in _ _ _ _ _ _ _ S) as (st & Ei & Hi). pose proof (sv_rq _ _ _ _ _ _ _ S) as Hrq.
  destruct (Hm st Hi) as (s' & E & Hq & Ha & (ds & Ht) & Hrd).
  exists (put_stream In s' w), (reply_recs ds).
  split; [by apply (on_stream_Ok In) with (st := st); rewrite ?Hrq|].
  split; [by apply serving_read|apply same_library_put].
Qed.

(** A call that writes, on the stream and on the library. *)
Lemma call_writes {A} k (m : M SS A) (x : A) bs rq epad tail tx0 rs v w :
  serving rq epad tail tx0 rs v w -> k <> In ->
  (forall T st W, writer_open T rq (stream_of T rs) W st -> accepts (wr (cn w)) ->
    exists s' rs', m (mkSS st rq (cn w)) = Ok (x, s') /\ Forall (from_writer T (requestId rq)) rs' /\
      tx (conn s') = tx (cn w) ++ wire rs' /\ rx (conn s') = rx (cn w) /\ req s' = rq /\
      accepts (wr (conn s')) /\ writer_open T rq (stream_of T rs ++ stream_of T rs') (W ++ bs) (strm s')) ->
  exists w' rs', on_stream k m w = Ok (x, w') /\
    serving rq epad tail tx0 (rs ++ rs') (written_to k bs v) w' /\ same_library w w'.
Proof.
  intros S Hk Hm. pose proof (sv_rq _ _ _ _ _ _ _ S) as Hrq. pose proof (sv_accepts _ _ _ _ _ _ _ S) as Ha.
  assert (Hst : exists T st, ((k = Out /\ T = FCGI_STDOUT) \/ (k = Err /\ T = FCGI_STDERR)) /\
    stream_of_request k (request w) = Some st /\
    writer_open T rq (stream_of T rs) (if k is Out then v_out v else v_err v) st).
  { destruct k; [done|..]; [destruct (sv_out _ _ _ _ _ _ _ S) as (st & ? & ?)|destruct (sv_err _ _ _ _ _ _ _ S) as (st & ? & ?)];
      do 2 eexists; eauto. }
  destruct Hst as (T & st & HT & Est & Ho).
  destruct (Hm T st _ Ho Ha) as (s' & rs' & E & ? & ? & ? & ? & ? & ?).
  exists (put_stream k s' w), rs'. split; [by apply (on_stream_Ok k) with (st := st); rewrite ?Hrq|].
  split; [|apply same_library_put].
  by apply (serving_write k T rq epad tail tx0 rs v w s' rs' ((if k is Out then v_out v else v_err v) ++ bs) bs).
Qed.

(** Every call of the application refines its specification. *)
Lemma app_call_refines op rq epad tail tx0 rs v w : serving rq epad tail tx0 rs v w -> op_ok op ->
  exists w' rq' rs', app_call op w = Ok (fst (view_op op v), w') /\ same_reader rq rq' /\
    keepConnection rq' = keepConnection rq /\ detached rq' = detached rq /\
    serving rq' epad tail tx0 (rs ++ rs') (snd (view_op op v)) w' /\ same_library w w'.
Proof.
  intros S Hop. pose proof (sv_bytes _ _ _ _ _ _ _ S) as HX.
  assert (Hfin : forall A (m : M World A) (f : A -> app_res) (x : A) v',
    (exists w' rs', m w = Ok (x, w') /\ serving rq epad tail tx0 (rs ++ rs') v' w' /\ same_library w w') ->
    exists w' rq' rs', (a <- m ;; ret (f a)) w = Ok (f x, w') /\ same_reader rq rq' /\
      keepConnection rq' = keepConnection rq /\ detached rq' = detached rq /\
      serving rq' epad tail tx0 (rs ++ rs') v' w' /\ same_library w w').
  { intros A m f x v' (w' & rs' & E & ? & ?). exists w', rq, rs'.
    split; [by erewrite bind_Ok by exact E|]. done. }
  destruct op as [|n|n|k c|k bs|k|st]; cbn [app_call view_op op_ok fst snd] in *.
  - apply Hfin, call_reads; [done|by apply Forall_drop|]. intros st. apply reading_GetChar.
  - apply Hfin, call_reads; [done|by apply Forall_drop|]. intros st Hr. by apply reading_GetStr.
  - apply Hfin, call_reads; [done|by apply Forall_drop|]. intros st Hr. by apply reading_GetLine.
  - apply Hfin, call_writes; [done..|]. intros T st W. apply open_PutChar.
  - apply Hfin, call_writes; [done..|]. intros T st W. apply open_PutStr.
  - apply Hfin. assert (Hv : written_to k [] v = v) by (destruct v, k; cbn; by rewrite ?app_nil_r).
    destruct (call_writes k (@FCGX_FFlush writer_procs) 0 [] rq epad tail tx0 rs v w S Hop) as (w' & rs' & H).
    { intros T st W. rewrite app_nil_r. apply open_FFlush. }
    rewrite Hv in H. by exists w', rs'.
  - destruct (sv_in _ _ _ _ _ _ _ S) as (si & Ei & Hi).
    destruct (sv_out _ _ _ _ _ _ _ S) as (so & Eo & Ho). destruct (sv_err _ _ _ _ _ _ _ S) as (se & Ee & He).
    pose proof (sv_rq _ _ _ _ _ _ _ S) as Hrq. pose proof (sv_accepts _ _ _ _ _ _ _ S).
    set (rq' := rq <| appStatus := st |>). exists (put_stream Out (mkSS so rq' (cn w)) w), rq', [].
    split; [erewrite bind_Ok by (apply (on_stream_Ok Out) with (st := so); rewrite ?Hrq; done); done|].
    do 3 (split; [done|]). split; [|apply same_library_put]. rewrite app_nil_r.
    destruct S. split; try done; cbn.
    + exists si. split; [done|]. by apply (reading_park _ _ _ rq rq' (cn w) (cn w)).
    + exists so. split; [done|]. by apply (writer_open_rq _ rq).
    + exists se. split; [done|]. by apply (writer_open_rq _ rq).
Qed.

(** A whole application refines its specification, in whatever order it makes its calls. *)
Lemma app_run_refines ops : forall rq epad tail tx0 rs v w, serving rq epad tail tx0 rs v w -> Forall op_ok ops ->
  exists w' rq' rs', app_run ops w = Ok (fst (view_ops ops v), w') /\ same_reader rq rq' /\
    keepConnection rq' = keepConnection rq /\ detached rq' = detached rq /\
    serving rq' epad tail tx0 (rs ++ rs') (snd (view_ops ops v)) w' /\ same_library w w'.
Proof.
  induction ops as [|op ops IH]; intros rq epad tail tx0 rs v w S Hops.
  - exists w, rq, []. rewrite app_nil_r. done.
  - inversion_clear Hops as [|? ? H1 H2].
    destruct (app_call_refines op rq epad tail tx0 rs v w S H1) as (w1 & rq1 & rs1 & E1 & (Hi & Hf & Hb) & Hk & Hd & S1 & L1).
    cbn [view_ops app_run]. destruct (view_op op v) as [r v1]. cbn [fst snd] in *.
    destruct (IH rq1 epad tail tx0 _ v1 w1 S1 H2) as (w2 & rq2 & rs2 & E2 & (Hi2 & Hf2 & Hb2) & Hk2 & Hd2 & S2 & L2).
    destruct (view_ops ops v1) as [rr v2]. cbn [fst snd] in *. exists w2, rq2, (rs1 ++ rs2).
    rewrite app_assoc. split; [erewrite bind_Ok by exact E1; by erewrite bind_Ok by exact E2|].
    split; [split_and!; congruence|]. do 2 (split; [congruence|]). split; [done|].
    by apply (same_library_trans _ w1).
Qed.
End App.

(** ** Accepting *)

Section AcceptSpec.
Context {uninit : Uninit}.
Variable inet_addr : list Z -> Z.
Variable use_locking : bool.

(** The library between two requests: no stream is open, and the connection was closed or is
    kept for the next request. *)
Definition idle (w : World) : Prop :=
  FcgiRequest.libInitialized w = true /\ in_ (request w) = None /\
  ((ipcFd (rd (request w)) = -1 /\ keepConnection (rd (request w)) = false) \/
   (0 <= ipcFd (rd (request w)) /\ keepConnection (rd (request w)) = true)).

(** The connection the next request will be on: the one that is kept, or the first one that
    the specification of [OS_Accept] gives. *)
Definition next_connection (w : World) (fd : Z) (c : Conn) : Prop :=
  if ipcFd (rd (request w)) <? 0 then
    quiet (acc_script (os w)) /\ shutdownPending (os w) = false /\ lock_script (os w) = [] /\
    exists p rest cl e,
      accept_ref inet_addr (negb (Z.land (flags (rd (request w))) FCGI_FAIL_ACCEPT_ON_INTR =? 0))
        (webServerAddressList w) (errno_ (os w)) (acc_script (os w)) = (Some p, rest, cl, e) /\
      fd = p_fd p /\ c = p_conn p
  else fd = ipcFd (rd (request w)) /\ c = cn w.

(** [w] with the streams and parameters of the last request freed. *)
Definition freed (w : World) : World :=
  w <| request := (request w) <| in_ := None |> <| out := None |> <| err := None |> <| paramsPtr := None |> |>.

(** [w] after [FCGX_Finish_r] with no request being served. *)
Definition finished (w : World) : World :=
  if keepConnection (rd (request w)) then freed w
  else (freed w) <| request := (request (freed w)) <| rd := (rd (request w)) <| ipcFd := -1 |> <| detached := false |> |> |>.

Lemma Finish_idle w : idle w -> FCGX_Finish_r w = Ok (tt, finished w).
Proof.
  intros (Hl & Hin & Hc). unfold FCGX_Finish_r, bind at 1, get at 1. rewrite Hin.
  unfold bind at 1, ret at 1. unfold finished, FCGX_Free.
  destruct Hc as [[Hfd Hk]|[Hfd Hk]]; rewrite Hk; cbn [negb]; [|done].
  unfold bind, FCGX_FreeStream, FreeParams, upd_request, modify, get, close_ipc, zoom, bind, get.
  cbn -[OS_IpcClose Z.ltb]. rewrite Hfd. unfold OS_IpcClose, OS_Close. cbn.
  unfold freed. destruct w as [[? ? ? ? ? ?] ? ? ? ? ? ? ? ?]; cbn in *. done.
Qed.

(** [w] with a connection. *)
Definition connected (fd : Z) (c : Conn) (o : Os) (w : World) : World :=
  w <| request := (request w) <| rd := (rd (request w)) <| ipcFd := fd |> |> |> <| cn := c |> <| os := o |>.

Lemma ensure_connection_spec w fd c : next_connection w fd c ->
  exists o, ensure_connection inet_addr use_locking w = Ok (None, connected fd c o w).
Proof.
  unfold next_connection, ensure_connection. unfold bind at 1, get at 1.
  destruct (ipcFd (rd (request w)) <? 0).
  - intros (Hq & Hs & Hl & p & rest & cl & e & Er & -> & ->).
    exists (hold_lock use_locking false (consumed rest cl e (os w))).
    unfold bind at 1, zoom at 1, OS_Accept.
    rewrite (accept_loop_spec inet_addr use_locking _ _ _ (errno_ (os w)) (acc_script (os w)) None (os w))
      by (done || lia).
    rewrite Er. unfold upd_rd, upd_request, bind, modify, ret. cbn.
    destruct w as [[? ? ? ? ? ?] ? ? ? ? ? ? ? ?]; cbn. done.
  - intros [-> ->]. exists (os w). unfold ret. by destruct w as [[[] ? ? ? ? ?] ? ? ? ? ? ? ? ?].
Qed.

Lemma finished_next w fd c : idle w -> next_connection w fd c -> next_connection (finished w) fd c.
Proof.
  intros (_ & _ & Hc) H. unfold finished. destruct Hc as [[Hfd Hk]|[Hfd Hk]]; rewrite Hk; [|exact H].
  unfold next_connection in *. rewrite Hfd in H. exact H.
Qed.

(** The records of the [STDIN] stream, and the padding of its end. *)
Definition stdin_ok (id : Z) (srs : list rec) (epad : list Z) : Prop :=
  Forall (deliverable FCGI_STDIN id) srs /\ zlen epad <= 255 /\ Forall is_byte (rd_content FCGI_STDIN id srs).

Definition stdin_bytes (id : Z) (srs : list rec) (epad tail : list Z) : list Z :=
  wire srs ++ enc (mkRec FCGI_STDIN id [] epad) ++ tail.

(** The last part of [FCGX_Accept_r]: the streams of the application. *)
Definition open_streams : M World Z :=
  on_stream In (SetReaderType FCGI_STDIN) ;;;
  a <- malloc ;;
  upd_request (fun r => r <| out := Some (NewWriter a 8192 FCGI_STDOUT) |>) ;;;
  a <- malloc ;;
  upd_request (fun r => r <| err := Some (NewWriter a 512 FCGI_STDERR) |>) ;;;
  upd_rd (fun r => r <| nWriters := 2 |>) ;;;
  upd_request (fun r => r <| envp := vec <$> paramsPtr r |>) ;;;
  ret 0.

Lemma open_streams_spec rq tx0 prs srs epad tail w st p : in_ (request w) = Some st ->
  paramsPtr (request w) = Some p -> stdin_ok (requestId rq) srs epad ->
  0 < requestId rq < 65536 -> isBeginProcessed rq = true ->
  rd_end FCGI_PARAMS rq tx0 prs [] (stdin_bytes (requestId rq) srs epad tail) (mkSS st (rd (request w)) (cn w)) ->
  exists w', open_streams w = Ok (0, w') /\
    serving (rq <| nWriters := 2 |>) epad tail tx0 (reply_recs prs)
      (mkView (rd_content FCGI_STDIN (requestId rq) srs) [] [] (appStatus rq)) w' /\
    paramsPtr (request w') = Some p /\ envp (request w') = Some (vec p) /\ os w' = os w /\ aio w' = aio w /\
    received w' = received w /\ FcgiRequest.libInitialized w' = FcgiRequest.libInitialized w.
Proof.
  intros Ein Ep (Hsrs & Hpad & HX) Hid Hbp H. pose proof H as [L Hcl Hst Hrq HT Heor Hsk Hc Hp Htx Hu].
  cbn [strm req conn] in *. subst rq. cbn [app] in Hu.
  destruct (SetReaderType_open FCGI_STDIN (rd (request w)) srs epad tail _ L eq_refl)
    as (s1 & E1 & H1 & Hf1 & Hrq1 & Hc1 & Hu1); [|done|done|].
  { by split. }
  unfold open_streams. erewrite bind_Ok by (apply (on_stream_Ok In) with (st := st); [exact Ein|exact E1]).
  set (w1 := put_stream In s1 w). destruct (malloc_Ok w1) as (a & Em). erewrite bind_Ok by exact Em.
  erewrite bind_Ok by reflexivity. set (w2 := _ <| request := _ |>).
  destruct (malloc_Ok w2) as (a2 & Em2). erewrite bind_Ok by exact Em2.
  eexists. split; [reflexivity|].
  assert (Ha : accepts (wr (cn w))) by apply (rl_accepts _ L).
  split; [|cbn; rewrite Ep; done].
  split; cbn [connected setter set_request set_rd set_out set_err set_envp set_mallocs set_cn set_in_ w1 w2 put_stream
    set_stream request rd cn in_ out err v_in v_out v_err v_status appStatus]; rewrite ?Hrq1, ?Hc1; try done.
  - exists (strm s1). split; [done|]. 
    apply (reading_park FCGI_STDIN epad tail (rd (request w)) _ (conn s1)); [|done|by rewrite Hc1|done].
    left. rewrite Hc1 in *. cbn [conn] in *. exists srs, (rd_content FCGI_STDIN (requestId (rd (request w))) srs).
    split; [destruct s1; cbn in *; subst; exact H1|]. change (frag _) with (frag s1). by rewrite Hf1.
  - eexists. split; [done|].
    rewrite (stream_of_type _ FCGI_END_REQUEST) by (done || apply reply_recs_type).
    apply NewWriter_open; cbn; try done; [lia|]. pose proof (rl_fd _ L). done.
  - eexists. split; [done|].
    rewrite (stream_of_type _ FCGI_END_REQUEST) by (done || apply reply_recs_type).
    apply NewWriter_open; cbn; try done; [lia|]. pose proof (rl_fd _ L). done.
  - cbn. by rewrite Htx, replies_recs.
  - apply served_replies.
Qed.

(** The web server asks to keep the connection. *)
Definition keep_conn (b : rec) : bool :=
  negb (Z.land (flags_ (bytes_begin_body (r_content b))) FCGI_KEEP_CONN =? 0).

(** What the application finds when [FCGX_Accept_r] has returned. *)
Record accepted (b : rec) (prs : list rec) (ps : list (list Z * list Z)) (role : list Z)
    (srs : list rec) (epad tail : list Z) (fd : Z) (c : Conn) (w w' : World) (rq : ReqData) : Prop := {
  ac_serving : serving rq epad tail (tx c) (reply_recs prs)
    (mkView (rd_content FCGI_STDIN (r_id b) srs) [] [] (appStatus (rd (request w)))) w';
  ac_params : exists p, paramsPtr (request w') = Some p /\ params_hold p (role :: (nv_string <$> ps)) /\
                envp (request w') = Some (vec p);
  ac_id : requestId rq = r_id b;
  ac_keep : keepConnection rq = keep_conn b;
  ac_fd : ipcFd rq = fd;
  ac_rest : aio w' = aio w /\ received w' = received w /\ FcgiRequest.libInitialized w' = true }.

Lemma Accept_r_spec b prs ps role srs epad tail fd c w : idle w -> next_connection w fd c ->
  0 <= fd -> accepts (wr c) -> delivers (rx c) -> request_ok b prs ps -> begin_role b = Some role ->
  stdin_ok (r_id b) srs epad ->
  rx_bytes (rx c) = request_bytes b prs (stdin_bytes (r_id b) srs epad tail) ->
  exists w' rq, FCGX_Accept_r inet_addr use_locking w = Ok (0, w') /\
    accepted b prs ps role srs epad tail fd c w w' rq.
Proof.
  intros Hidle Hn Hfd Ha Hd R Hrole Hin Hb.
  pose proof (finished_next w fd c Hidle Hn) as Hn1. pose proof Hidle as (Hl & _ & _).
  destruct (ensure_connection_spec _ _ _ Hn1) as (o & Eo). set (w1 := connected fd c o (finished w)) in *.
  destruct (read_request_spec b prs ps (stdin_bytes (r_id b) srs epad tail) w1) as (w2 & E2 & role' & p & st & Hr);
    [done|by rewrite Hrole|done|done|done|done|].
  destruct Hr as (Hr' & Ep & Hp & Ei & Hend & _ & _ & _ & Ha2 & Hr2 & Hl2). rewrite Hrole in Hr'. injection Hr' as <-.
  set (rq := begun_req _ _ _) in Hend. destruct R as [(Hok & _ & Hid) _ _ _ _ _ _].
  assert (Hstatus : appStatus rq = appStatus (rd (request w))).
  { cbn. unfold finished, freed. by destruct (keepConnection _). }
  assert (Haio : aio w2 = aio w /\ received w2 = received w /\ FcgiRequest.libInitialized w2 = true).
  { rewrite Ha2, Hr2, Hl2. unfold w1, finished, freed. by destruct (keepConnection _). }
  destruct (open_streams_spec rq (tx c) prs srs epad tail w2 st p Ei Ep Hin) as (w3 & E3 & Sv & Ep3 & Ee & _ & Ea3 & Er3 & El3);
    [|done|done|].
  { destruct Hok as (_ & ? & _). change (requestId rq) with (r_id b). lia. }
  exists w3, (rq <| nWriters := 2 |>). split.
  - unfold FCGX_Accept_r, bind at 1, get at 1. rewrite Hl. cbn [negb].
    erewrite bind_Ok by (by apply Finish_idle). unfold bind at 1, get at 1.
    assert (Er : forall n, accept_request inet_addr use_locking (S n) (finished w) = Ok (None, w2)).
    { intros n. cbn [accept_request]. erewrite bind_Ok by exact Eo.
      cbv iota beta. by erewrite bind_Ok by exact E2. }
    rewrite Nat.add_comm. erewrite bind_Ok by apply Er. exact E3.
  - split; try done.
    + rewrite Hstatus in Sv. exact Sv.
    + by exists p.
    + destruct Haio as (? & ? & ?). split_and!; congruence.
Qed.
End AcceptSpec.

(** ** Finishing *)

Section FinishSpec.
Context {uninit : Uninit}.

(** The records that end the request, after those that carry the content. *)
Definition closing (id : Z) (v : view) (rse rso : list rec) : list rec :=
  (rse ++ eof_recs FCGI_STDERR id (v_err v)) ++ (rso ++ eof_recs FCGI_STDOUT id (v_out v)) ++
  [mkRec FCGI_END_REQUEST id (end_body_bytes (MakeEndRequestBody (v_status v) FCGI_REQUEST_COMPLETE)) []].

Lemma stream_of_eof T T' id W : stream_of T (eof_recs T' id W) = [].
Proof.
  unfold eof_recs. destruct (_ && _); [done|]. unfold stream_of. cbn. by case_decide.
Qed.

(** What the web server gets: the contents the application wrote, and its status. *)
Lemma closing_streams id v rs rse rso : Forall (from_writer FCGI_STDERR id) rse ->
  Forall (from_writer FCGI_STDOUT id) rso ->
  stream_of FCGI_STDERR (rs ++ closing id v rse rso) = stream_of FCGI_STDERR rs ++ stream_of FCGI_STDERR rse /\
  stream_of FCGI_STDOUT (rs ++ closing id v rse rso) = stream_of FCGI_STDOUT rs ++ stream_of FCGI_STDOUT rso.
Proof.
  intros He%from_writer_type Ho%from_writer_type. unfold closing.
  rewrite !stream_of_app, !stream_of_eof.
  rewrite (stream_of_type FCGI_STDERR _ rso Ho), (stream_of_type FCGI_STDOUT _ rse He) by done.
  rewrite !(stream_of_type _ FCGI_END_REQUEST [_]) by (done || by repeat constructor).
  by rewrite !app_nil_r.
Qed.

(** Closing the two writers. *)
Lemma close_writers rq epad tail tx0 rs v w : serving rq epad tail tx0 rs v w ->
  exists w' rse rso, (e <- close_stream Err ;;
                      o <- close_stream Out ;;
                      i <- on_stream In FCGX_GetError ;;
                      ret (negb (keepConnection rq) || negb (e =? 0) || negb (o =? 0) || negb (i =? 0))) w
      = Ok (negb (keepConnection rq), w') /\
    Forall (from_writer FCGI_STDERR (requestId rq)) rse /\
    stream_of FCGI_STDERR rs ++ stream_of FCGI_STDERR rse = v_err v /\
    Forall (from_writer FCGI_STDOUT (requestId rq)) rso /\
    stream_of FCGI_STDOUT rs ++ stream_of FCGI_STDOUT rso = v_out v /\
    tx (cn w') = tx0 ++ wire (rs ++ closing (requestId rq) v rse rso) /\
    rd (request w') = rq <| nWriters := 0 |> /\ rx (cn w') = rx (cn w) /\ accepts (wr (cn w')) /\
    same_library w w'.
Proof.
  intros [Hrq Hst _ Hn (si & Ei & Hi) (so & Eo & Ho) (se & Ee & He) Htx Hrs Ha].
  destruct (FClose_writer_spec _ _ _ _ _ _ _ (He _ Ha)) as (s1 & rse & E1 & Hrse & HWe & Htx1 & Hrq1 & Hrx1 & Ha1 & _).
  set (w1 := put_stream Err s1 w). set (rq1 := rq <| nWriters := nWriters rq - 1 |>) in *.
  apply (writer_open_rq _ _ rq1) in Ho; [|done..].
  destruct (FClose_writer_spec _ _ _ _ _ _ _ (Ho _ Ha1)) as (s2 & rso & E2 & Hrso & HWo & Htx2 & Hrq2 & Hrx2 & Ha2 & _).
  set (w2 := put_stream Out s2 w1).
  assert (Herr : FCGI_errno si = 0).
  { destruct Hi as [(rs0 & Y & H & _)|[_ H]]; [by destruct (rd_at_conn _ _ _ _ _ _ _ _ H) as (_ & _ & _ & ?)|].
    by destruct (re_layout _ _ _ _ _ _ _ H). }
  exists (put_stream In (mkSS si (req s2) (conn s2)) w2), rse, rso. split.
  { erewrite bind_Ok by (apply close_stream_Ok, (on_stream_Ok Err) with (st := se); [done|rewrite Hrq; exact E1]).
    erewrite bind_Ok by (apply close_stream_Ok, (on_stream_Ok Out) with (st := so); [done|cbn; rewrite Hrq1; exact E2]).
    erewrite bind_Ok by (apply (on_stream_Ok In) with (st := si); [done|]; unfold FCGX_GetError, bind, get; reflexivity).
    cbn. rewrite Herr. by rewrite !orb_false_r. }
  do 4 (split; [done|]). split.
  { cbn. rewrite Htx2, Htx1, Htx, !wire_app. unfold closing.
    assert (end_recs rq = []) as -> by (unfold end_recs; by rewrite Hn).
    assert (end_recs rq1 = [mkRec FCGI_END_REQUEST (requestId rq)
      (end_body_bytes (MakeEndRequestBody (v_status v) FCGI_REQUEST_COMPLETE)) []]) as ->.
    { unfold end_recs, rq1. cbn -[MakeEndRequestBody]. by rewrite Hn, Hst. }
    rewrite app_nil_r, !wire_app, <- !app_assoc. done. }
  split; [|split; [cbn; congruence|split; [done|]]].
  - cbn. rewrite Hrq2. unfold rq1. cbn. by rewrite Hn.
  - by apply (same_library_trans _ w2).
Qed.

Lemma OS_IpcClose_Ok fd sh rc a : asyncIoInUse a = false ->
  exists r a', OS_IpcClose fd sh false rc a = Ok (r, a') /\ asyncIoInUse a' = false.
Proof.
  intros Ha. unfold OS_IpcClose, OS_Close. destruct (fd =? -1); [by exists 0, a|].
  unfold bind at 1, get at 1. rewrite Ha. unfold bind, ret, modify, negb.
  destruct sh; cbn; by eexists _, _.
Qed.

Lemma Free_close w : 0 <= ipcFd (rd (request w)) -> asyncIoInUse (aio w) = false ->
  exists w', FCGX_Free true w = Ok (tt, w') /\ received w' = received w ++ [tx (cn w)] /\
    asyncIoInUse (aio w') = false /\ in_ (request w') = None /\ ipcFd (rd (request w')) = -1 /\
    keepConnection (rd (request w')) = keepConnection (rd (request w)) /\
    FcgiRequest.libInitialized w' = FcgiRequest.libInitialized w.
Proof.
  intros Hfd Ha.
  destruct (OS_IpcClose_Ok (ipcFd (rd (request w))) (negb (detached (rd (request w)))) 0 (aio w) Ha)
    as (cr & a' & E & Ha'). destruct w as [[rd0 ? ? ? ? ?] ? ? a ? ? ? ? ?]. cbn in Hfd, Ha, E.
  eexists. split.
  - unfold FCGX_Free, FCGX_FreeStream, FreeParams, upd_rd, upd_request, close_ipc, zoom, bind, get, modify.
    cbn -[OS_IpcClose Z.ltb]. rewrite E. cbn -[Z.ltb]. cdecide. reflexivity.
  - done.
Qed.

(** What the web server received for a request of which the application had the view [v]: the
    records [recs], which it is free to have in any sizes. *)
Definition delivered (id : Z) (v : view) (recs : list rec) : Prop :=
  stream_of FCGI_STDOUT recs = v_out v /\ stream_of FCGI_STDERR recs = v_err v /\
  exists front, recs = front ++
    [mkRec FCGI_END_REQUEST id (end_body_bytes (MakeEndRequestBody (v_status v) FCGI_REQUEST_COMPLETE)) []] /\
    mkRec FCGI_STDOUT id [] [] ∈ front.

Lemma closing_delivered id v rs rse rso : Forall (from_writer FCGI_STDERR id) rse ->
  Forall (from_writer FCGI_STDOUT id) rso ->
  stream_of FCGI_STDERR rs ++ stream_of FCGI_STDERR rse = v_err v ->
  stream_of FCGI_STDOUT rs ++ stream_of FCGI_STDOUT rso = v_out v ->
  delivered id v (rs ++ closing id v rse rso).
Proof.
  intros He Ho HWe HWo. destruct (closing_streams id v rs rse rso He Ho) as [H1 H2].
  split; [congruence|]. split; [congruence|].
  exists (rs ++ (rse ++ eof_recs FCGI_STDERR id (v_err v)) ++ rso ++ eof_recs FCGI_STDOUT id (v_out v)).
  split; [unfold closing; by rewrite <- !app_assoc|].
  apply elem_of_app. right. apply elem_of_app. right. apply elem_of_app. right.
  unfold eof_recs. cbn. by left.
Qed.

Lemma Finish_r_spec rq epad tail tx0 rs v w : serving rq epad tail tx0 rs v w ->
  asyncIoInUse (aio w) = false -> 0 <= ipcFd rq -> FcgiRequest.libInitialized w = true ->
  exists w' recs, FCGX_Finish_r w = Ok (tt, w') /\ delivered (requestId rq) v (rs ++ recs) /\ idle w' /\
    asyncIoInUse (aio w') = false /\
    if keepConnection rq
    then received w' = received w /\ tx (cn w') = tx0 ++ wire (rs ++ recs) /\ rx (cn w') = rx (cn w) /\
         accepts (wr (cn w')) /\ ipcFd (rd (request w')) = ipcFd rq
    else received w' = received w ++ [tx0 ++ wire (rs ++ recs)].
Proof.
  intros Sv Ha Hfd Hl.
  destruct (close_writers rq epad tail tx0 rs v w Sv)
    as (w1 & rse & rso & E & Hrse & HWe & Hrso & HWo & Htx & Hrq1 & Hrx & Hacc & HL).
  destruct HL as (_ & _ & _ & Haio & _ & Hrec & Hlib).
  pose proof (closing_delivered (requestId rq) v rs rse rso Hrse Hrso HWe HWo) as Hdel.
  destruct (sv_in _ _ _ _ _ _ _ Sv) as (si & Ei & _). pose proof (sv_rq _ _ _ _ _ _ _ Sv) as Hrq.
  assert (Ef : FCGX_Finish_r w = FCGX_Free (negb (keepConnection rq)) w1).
  { unfold FCGX_Finish_r, bind at 1, get at 1. rewrite Ei, Hrq. erewrite bind_Ok by exact E. done. }
  rewrite Ef. destruct (keepConnection rq) eqn:Ek; cbn [negb].
  - eexists _, _. split; [reflexivity|]. split; [exact Hdel|].
    split; [|cbn; rewrite Haio, Hrq1; done].
    split; [cbn; congruence|]. split; [done|]. right. cbn. by rewrite Hrq1.
  - destruct (Free_close w1) as (w2 & E2 & Hr2 & Ha2 & Hi2 & Hf2 & Hk2 & Hl2);
      [by rewrite Hrq1|by rewrite Haio|].
    exists w2, (closing (requestId rq) v rse rso). split; [exact E2|]. split; [exact Hdel|].
    split; [|split; [done|by rewrite Hr2, Htx, Hrec]].
    split; [congruence|]. split; [done|]. left. rewrite Hrq1 in Hk2. cbn in Hk2. by rewrite Hk2.
Qed.
End FinishSpec.

(** ** The theorems *)

(** What an application does between two calls of [FCGX_Accept_r]. *)
Definition serve_one {uninit : Uninit} (inet_addr : list Z -> Z) (use_locking : bool) (ops : list app_op)
  : M World (Z * list app_res) :=
  rc <- FCGX_Accept_r inet_addr use_locking ;;
  reads <- app_run ops ;;
  FCGX_Finish_r ;;;
  ret (rc, reads).

(** What the peer of a connection sends for one request. *)
Definition sends (b : rec) (prs : list rec) (ps : list (list Z * list Z)) (srs : list rec)
    (epad tail : list Z) (c : Conn) : Prop :=
  request_ok b prs ps /\ begin_role b <> None /\ stdin_ok (r_id b) srs epad /\
  accepts (wr c) /\ delivers (rx c) /\
  rx_bytes (rx c) = request_bytes b prs (stdin_bytes (r_id b) srs epad tail).


(** A request that arrives in three pieces: role responder, the variables A=x and A=y sent in two
    records, and the body "hi!" in two records with one of another request in between. *)
Module Sample.
Definition begin : rec := mkRec FCGI_BEGIN_REQUEST 1 [0; 1; 0; 0; 0; 0; 0; 0] [].
Definition env : list (list Z * list Z) := [([65], [120]); ([65], [121])].
Definition params : list rec :=
  [mkRec FCGI_PARAMS 1 [1; 1; 65; 120; 1] [0; 0; 0]; mkRec FCGI_PARAMS 1 [1; 65; 121] []].
Definition body : list rec :=
  [mkRec FCGI_STDIN 1 [104; 105] [0]; mkRec FCGI_STDIN 9 [63] []; mkRec FCGI_STDIN 1 [33] []].
Definition bytes : list Z := request_bytes begin params (stdin_bytes 1 body [] []).
Definition connection : Conn :=
  mkConn [RdData (take 13 bytes); RdData (take 40 (drop 13 bytes)); RdData (drop 53 bytes)] [] [] 0.
Definition world : World :=
  mkWorld (mkRequest (req_zero <| ipcFd := -1 |>) None None None None None) idle_conn
    (mkOs false [mkAcc (AccConn (mkPeer 5 AF_INET 9 true connection)) false] [] false [] 0)
    aio_fresh [] [] true (-1) None.
Definition ops : list app_op :=
  [APutStr Out [79; 75]; AGetStr 2; APutStr Err [69]; AFFlush Out; AGetLine 7; AGetChar; ASetExitStatus 3].

#[export] Instance zero_stack : Uninit := {| response_init := replicate 64 0; response_init_len := eq_refl |}.

Lemma world_idle : idle world.
Proof. split; [done|]. split; [done|]. by left. Qed.

Lemma world_next : next_connection first_byte world 5 connection.
Proof.
  split; [by repeat constructor|]. do 2 (split; [done|]). by exists (mkPeer 5 AF_INET 9 true connection), [], [], 0.
Qed.

Ltac bytes := cbn; repeat (constructor; [unfold is_byte; lia|]); constructor.

Lemma connection_sends : sends begin params env body [] [] connection.
Proof.
  split; [|split; [done|split; [|split; [by constructor|split; [by repeat constructor|]]]]].
  - split; try (by vm_compute).
    + split; [by vm_compute|]. bytes.
    + repeat (constructor; [repeat split; vm_compute; done|]). constructor.
    + bytes.
  - split; [|split; [done|bytes]]. repeat (constructor; [repeat split; vm_compute; done|]). constructor.
  - by vm_compute.
Qed.
End Sample.


Definition FCGI_ROLE_name : list Z := [70; 67; 71; 73; 95; 82; 79; 76; 69].

Lemma begin_role_nv b role : begin_role b = Some role ->
  exists value, role = nv_string (FCGI_ROLE_name, value).
Proof.
  unfold begin_role, role_string. repeat destruct (_ =? _); intros [= <-]; by eexists.
Qed.

Lemma accepted_environment_spec {uninit : Uninit} inet_addr use_locking b prs ps srs epad tail fd c w name :
  idle w -> next_connection inet_addr w fd c -> 0 <= fd -> sends b prs ps srs epad tail c ->
  61 ∉ name -> Forall (fun nv => 61 ∉ fst nv) ps ->
  exists w' value, FCGX_Accept_r inet_addr use_locking w = Ok (0, w') /\
    begin_role b = Some (nv_string (FCGI_ROLE_name, value)) /\
    FCGX_GetParam (Some name) (envp (request w')) = Ok (assoc_first name ((FCGI_ROLE_name, value) :: ps)).
Proof.
  intros Hi Hn Hfd (R & Hrole & Hin & Ha & Hd & Hb) Hname Hps.
  destruct (begin_role b) as [role|] eqn:Er; [|done].
  destruct (begin_role_nv b role Er) as (value & ->).
  destruct (Accept_r_spec inet_addr use_locking b prs ps (nv_string (FCGI_ROLE_name, value)) srs epad tail fd c w)
    as (w1 & rq & E1 & [_ (p & _ & Hp & Ee) _ _ _ _]); [done..|].
  exists w1, value. split; [done|]. split; [done|]. unfold FCGX_GetParam. rewrite Ee.
  destruct Hp as [_ _ _ (v & ->)].
  apply (GetParam_loop_spec name ((FCGI_ROLE_name, value) :: ps)); [done|].
  constructor; [|done]. cbn [fst]. unfold FCGI_ROLE_name. rewrite !elem_of_cons, elem_of_nil. lia.
Qed.



(** the padding of [BEGIN_REQUEST] is not skipped: [SetReaderType] forgets it, and its bytes
    are taken for the header of the next record.  The error closes the stream, which
    [ReadParams] takes for the end of the environment: a request that is valid by the protocol
    is accepted without any of its variables. *)
Theorem padded_begin_loses_environment : let uninit := Sample.zero_stack in
  let begin := mkRec FCGI_BEGIN_REQUEST 1 [0; 1; 0; 0; 0; 0; 0; 0] [0; 0; 0; 0; 0; 0; 0; 0] in
  let conn := mkConn [RdData (request_bytes begin Sample.params (stdin_bytes 1 Sample.body [] []))] [] [] 0 in
  let w := Sample.world <| os := mkOs false [mkAcc (AccConn (mkPeer 5 AF_INET 9 true conn)) false] [] false [] 0 |> in
  exists w' st, FCGX_Accept_r first_byte false w = Ok (0, w') /\
    strings <$> paramsPtr (request w') = Some [FCGI_ROLE_eq ++ RESPONDER] /\
    in_ (request w') = Some st /\ FCGI_errno st = FCGX_UNSUPPORTED_VERSION.
Proof. intros uninit begin conn w. eexists _, _. split; [vm_compute; reflexivity|]. done. Qed.
