(* ===== verification/Fcgio.v ===== *)
(** * C++ stream buffers over the library: fcgio.cpp

    [fcgi_streambuf] is a [std::streambuf] whose [overflow], [underflow] and so on move characters to and
    from an [FCGX_Stream], with a buffer of the caller's or without one.  The members of the base class
    that call these methods ([sputc], [sputn], [sbumpc], [sgetn]) are those of the C++ library (libstdc++
    where the standard leaves a choice).  What is proved holds over the interface of FcgiStream.v: for
    every [Sink] and every [Source].  A buffer has at most [INT_MAX] characters, so that [plen], [glen] and
    the arguments of [pbump] and [FCGX_GetStr] keep their values as [int].
    - [streambuf_writes]: whatever is written, in whatever pieces, reaches the stream in order.
    - [streambuf_reads]: what is read is what the stream delivers, up to the first call that comes short.
    - [streambuf_after_end]: a buffered stream that met the end of file must not be read again. *)

From S2P Require Import Prelude FcgiProto FcgiStream FcgiWriter FcgiReader FcgiRequest FcgiPrintf.

(** ** The object *)

(** The areas of the base class as offsets into [buf], where both areas begin ([eback], [pbase]); the put
    area ends at [bufsize]. *)
Record fcgi_streambuf := mkStreambuf {
  buf : list Z;
  bufsize : Z;
  gptr : Z;
  egptr : Z;
  pptr : Z
}.

(** With the stream that [fcgx] points to. *)
Record Fio := mkFio { sb : fcgi_streambuf; fcgx : SS }.

Definition setg (g e : Z) (b : fcgi_streambuf) : fcgi_streambuf := mkStreambuf (buf b) (bufsize b) g e (pptr b).
Definition setp (p : Z) (b : fcgi_streambuf) : fcgi_streambuf := mkStreambuf (buf b) (bufsize b) (gptr b) (egptr b) p.
Definition set_buf (l : list Z) (b : fcgi_streambuf) : fcgi_streambuf := mkStreambuf l (bufsize b) (gptr b) (egptr b) (pptr b).

Definition on_sb (f : fcgi_streambuf -> fcgi_streambuf) : M Fio unit := modify (fun s => mkFio (f (sb s)) (fcgx s)).
Definition on_fcgx {A} (m : M SS A) : M Fio A := zoom fcgx (fun t s => mkFio (sb s) t) m.

Definition INT_MAX : Z := 2147483647.

(** [reset]. *)
Definition reset (b : fcgi_streambuf) : fcgi_streambuf := setp 0 (setg 0 0 b).

(** [setbuf]: the first buffer stays. *)
Definition setbuf (b : list Z) (s : fcgi_streambuf) : fcgi_streambuf :=
  if bufsize s =? 0 then reset (mkStreambuf b (zlen b) (gptr s) (egptr s) (pptr s)) else s.

(** [init] in the constructors: no buffer is an empty one. *)
Definition init (b : list Z) : fcgi_streambuf := setbuf b (mkStreambuf [] 0 0 0 0).

(** [attach] to another stream. *)
Definition attach (fs : SS) : M Fio Z :=
  modify (fun s => mkFio (if bufsize (sb s) =? 0 then sb s else reset (sb s)) fs) ;;; ret 0.

Section streambuf.
Context {procs : StreamProcs}.

(** ** Output *)

Definition overflow (c : Z) : M Fio Z :=
  s <- get ;;
  let plen := pptr (sb s) in
  lost <- (if negb (bufsize (sb s) =? 0) && negb (plen =? 0) then
             n <- on_fcgx (FCGX_PutStr (sub 0 plen (buf (sb s)))) ;;
             if n =? plen then on_sb (setp 0) ;;; ret false else ret true
           else ret false) ;;
  if lost : bool then ret EOF
  else if c =? EOF then ret 0
  else r <- on_fcgx (FCGX_PutChar c) ;; if r =? c then ret 0 else ret EOF.

(** The destructor. *)
Definition destroy : M Fio Z := overflow EOF.

Definition sync : M Fio Z :=
  r <- overflow EOF ;;
  if negb (r =? 0) then ret EOF
  else r <- on_fcgx FCGX_FFlush ;; if negb (r =? 0) then ret EOF else ret 0.

(** [std::streambuf::sputc] of a character as an [unsigned char]. *)
Definition sputc (c : Z) : M Fio Z :=
  s <- get ;;
  if pptr (sb s) <? bufsize (sb s) then
    b <- lift (mem_write (buf (sb s)) (pptr (sb s)) [c]) ;;
    on_sb (fun x => setp (pptr x + 1) (set_buf b x)) ;;;
    ret c
  else overflow c.

(** [std::streambuf::xsputn]: as much as fits, then a character through [overflow]. *)
Fixpoint std_xsputn (fuel : nat) (bs : list Z) : M Fio Z :=
  match fuel with
  | O => nofuel
  | S fuel =>
      s <- get ;;
      let len := Z.min (bufsize (sb s) - pptr (sb s)) (zlen bs) in
      b <- lift (mem_write (buf (sb s)) (pptr (sb s)) (sub 0 len bs)) ;;
      on_sb (fun x => setp (pptr x + len) (set_buf b x)) ;;;
      match drop (Z.to_nat len) bs with
      | [] => ret len
      | c :: bs' =>
          r <- overflow c ;;
          if r =? EOF then ret len else k <- std_xsputn fuel bs' ;; ret (len + 1 + k)
      end
  end.

(** [sputn], which is [xsputn]. *)
Definition xsputn (bs : list Z) : M Fio Z :=
  if zlen bs >? INT_MAX then ret 0
  else
    s <- get ;;
    if bufsize (sb s) =? 0 then on_fcgx (FCGX_PutStr bs) else std_xsputn (S (length bs)) bs.

(** ** Input *)

(** [in_avail] of the base class, where [showmanyc] is 0. *)
Definition in_avail (b : fcgi_streambuf) : Z := egptr b - gptr b.

Definition underflow : M Fio Z :=
  s <- get ;;
  if bufsize (sb s) =? 0 then c <- on_fcgx FCGX_GetChar ;; on_fcgx (FCGX_UnGetChar c)
  else
    empty <- (if in_avail (sb s) =? 0 then
                bs <- on_fcgx (FCGX_GetStr (bufsize (sb s))) ;;
                b <- lift (mem_write (buf (sb s)) 0 bs) ;;
                on_sb (set_buf b) ;;;
                if zlen bs <=? 0 then ret true else on_sb (setg 0 (zlen bs)) ;;; ret false
              else ret false) ;;
    if empty : bool then ret EOF
    else
      s <- get ;;
      c <- lift (mem_read (buf (sb s)) (gptr (sb s)) 1) ;;
      ret (head_or 0 c).

Definition uflow : M Fio Z :=
  s <- get ;;
  if bufsize (sb s) =? 0 then on_fcgx FCGX_GetChar
  else
    c <- underflow ;;
    on_sb (fun b => setg (gptr b + 1) (egptr b) b) ;;;
    ret c.

(** [std::streambuf::sbumpc]. *)
Definition sbumpc : M Fio Z :=
  s <- get ;;
  if gptr (sb s) <? egptr (sb s) then
    c <- lift (mem_read (buf (sb s)) (gptr (sb s)) 1) ;;
    on_sb (fun b => setg (gptr b + 1) (egptr b) b) ;;;
    ret (head_or 0 c)
  else uflow.

(** [std::streambuf::xsgetn]: what the get area has, then a character through [uflow].  A negative
    number of characters is copied as a huge one. *)
Fixpoint std_xsgetn (fuel : nat) (n : Z) : M Fio (list Z) :=
  match fuel with
  | O => nofuel
  | S fuel =>
      if n <=? 0 then ret []
      else
      s <- get ;;
      let len := Z.min (in_avail (sb s)) n in
      if len <? 0 then crash MemFault
      else
        bs <- lift (mem_read (buf (sb s)) (gptr (sb s)) len) ;;
        on_sb (fun b => setg (gptr b + len) (egptr b) b) ;;;
        if len <? n then
          c <- uflow ;;
          if c =? EOF then ret bs else k <- std_xsgetn fuel (n - len - 1) ;; ret (bs ++ c :: k)
        else ret bs
  end.

(** [sgetn], which is [xsgetn]. *)
Definition xsgetn (n : Z) : M Fio (list Z) :=
  if n >? INT_MAX then ret []
  else
    s <- get ;;
    if bufsize (sb s) =? 0 then on_fcgx (FCGX_GetStr n) else std_xsgetn (S (Z.to_nat n)) n.

(** ** What is written *)

(** The calls of an [ostream]. *)
Inductive out_call := Sputc (c : Z) | Sputn (bs : list Z) | Sync.

Definition out_bytes (o : out_call) : list Z := match o with Sputc c => [c] | Sputn bs => bs | Sync => [] end.
Definition out_ok (o : out_call) : Prop := Forall is_byte (out_bytes o) /\ zlen (out_bytes o) <= INT_MAX.

(** A call, and whether the [ostream] stays good. *)
Definition out_do (o : out_call) : M Fio bool :=
  match o with
  | Sputc c => r <- sputc c ;; ret (negb (r =? EOF))
  | Sputn bs => r <- xsputn bs ;; ret (r =? zlen bs)
  | Sync => r <- sync ;; ret (r =? 0)
  end.

Fixpoint out_run (ops : list out_call) : M Fio bool :=
  match ops with
  | [] => ret true
  | o :: ops' => r <- out_do o ;; if r : bool then out_run ops' else ret false
  end.

Section output.
Context `{!Sink procs}.

(** The stream was given [W], and the put area is sound. *)
Record put_ok (s : Fio) (W : list Z) : Prop := {
  put_sink : snk_at (fcgx s) W;
  put_area : 0 <= pptr (sb s) <= bufsize (sb s);
  put_size : zlen (buf (sb s)) = bufsize (sb s)
}.

Definition pending (s : Fio) : list Z := sub 0 (pptr (sb s)) (buf (sb s)).

(** What was written so far, in the stream or in the put area. *)
Definition written (s : Fio) (Y : list Z) : Prop := exists W, put_ok s W /\ Y = W ++ pending s.

Lemma splice_pending p (bs l : list Z) : 0 <= p -> p + zlen bs <= zlen l -> sub 0 (p + zlen bs) (splice p bs l) = sub 0 p l ++ bs.
Proof.
  intros. pose proof (zlen_nonneg bs). rewrite sub_split by lia. rewrite sub_splice_before by lia.
  f_equal. rewrite Z.add_0_l. apply sub_splice_at. lia.
Qed.

(** The put area takes [bs]. *)
Lemma put_in_area s W bs : put_ok s W -> pptr (sb s) + zlen bs <= bufsize (sb s) ->
  exists b, mem_write (buf (sb s)) (pptr (sb s)) bs = Ok b /\
    let s' := mkFio (setp (pptr (sb s) + zlen bs) (set_buf b (sb s))) (fcgx s) in
    put_ok s' W /\ pending s' = pending s ++ bs.
Proof.
  intros [Hs Ha Hz] Hf. pose proof (zlen_nonneg bs). exists (splice (pptr (sb s)) bs (buf (sb s))).
  split; [by apply mem_write_Ok; lia|]. split.
  - split; cbn; [done|lia|]. rewrite zlen_splice; lia.
  - apply splice_pending; lia.
Qed.

Lemma overflow_spec s W c : put_ok s W -> c = EOF \/ is_byte c ->
  exists s', overflow c s = Ok (0, s') /\ put_ok s' (W ++ pending s ++ if c =? EOF then [] else [c]) /\
    pptr (sb s') = 0 /\ bufsize (sb s') = bufsize (sb s).
Proof.
  intros [Hs Ha Hz] Hc.
  assert (exists s1, (if negb (bufsize (sb s) =? 0) && negb (pptr (sb s) =? 0) then
      n <- on_fcgx (FCGX_PutStr (sub 0 (pptr (sb s)) (buf (sb s)))) ;;
      if n =? pptr (sb s) then on_sb (setp 0) ;;; ret false else ret true
    else ret false) s = Ok (false, s1) /\ put_ok s1 (W ++ pending s) /\ pptr (sb s1) = 0 /\
    bufsize (sb s1) = bufsize (sb s)) as (s1 & E1 & [H1 A1 Z1] & P1 & B1).
  { destruct (Z.eqb_spec (pptr (sb s)) 0) as [E|E].
    - rewrite andb_false_r. exists s. split; [done|]. split; [|done]. unfold pending. rewrite E, sub_0, app_nil_r. by split; [|lia|].
    - rewrite (proj2 (Z.eqb_neq _ _)) by lia. cbn [negb andb].
      destruct (FCGX_PutStr_spec (pending s) (fcgx s) W Hs) as (t & E1 & Ht).
      assert (zlen (pending s) = pptr (sb s)) as Hp by (unfold pending; rewrite zlen_sub; lia).
      exists (mkFio (setp 0 (sb s)) t). split; [|by repeat split; cbn; (lia || done)].
      unfold bind at 1, on_fcgx, zoom. fold (pending s). rewrite E1. rewrite Hp, Z.eqb_refl. done. }
  unfold overflow, bind at 1, get at 1. erewrite bind_Ok by exact E1.
  destruct (Z.eqb_spec c EOF) as [->|Hn].
  - exists s1. split; [done|]. split; [|done]. rewrite app_nil_r. by split.
  - destruct Hc as [|Hc]; [done|]. destruct (FCGX_PutChar_spec c (fcgx s1) _ H1) as (t & E2 & Ht).
    rewrite uchar_small in * by done. exists (mkFio (sb s1) t). split; [|split; [|done]].
    + unfold on_fcgx, zoom, bind. by rewrite E2, Z.eqb_refl.
    + split; cbn; [by rewrite <- app_assoc in Ht|lia|done].
Qed.

Lemma overflow_written s Y c : written s Y -> is_byte c ->
  exists s', overflow c s = Ok (0, s') /\ written s' (Y ++ [c]) /\ pptr (sb s') = 0 /\ bufsize (sb s') = bufsize (sb s).
Proof.
  intros (W & Hp & ->) Hc. destruct (overflow_spec s W c Hp (or_intror Hc)) as (s' & E & H1 & H2 & H3).
  exists s'. split; [done|]. split; [|done]. eexists. split; [exact H1|]. assert (pending s' = []) as -> by (unfold pending; by rewrite H2).
  rewrite app_nil_r.
  unfold is_byte in Hc. rewrite (proj2 (Z.eqb_neq c EOF)) by (unfold EOF; lia). by rewrite app_assoc.
Qed.

Lemma area_written s Y bs : written s Y -> pptr (sb s) + zlen bs <= bufsize (sb s) ->
  exists b, mem_write (buf (sb s)) (pptr (sb s)) bs = Ok b /\
    written (mkFio (setp (pptr (sb s) + zlen bs) (set_buf b (sb s))) (fcgx s)) (Y ++ bs).
Proof.
  intros (W & Hp & ->) Hf. destruct (put_in_area s W bs Hp Hf) as (b & E & H1 & H2). exists b. split; [done|].
  exists W. split; [exact H1|]. by rewrite H2, app_assoc.
Qed.

Lemma sputc_spec s Y c : written s Y -> is_byte c ->
  exists r s', sputc c s = Ok (r, s') /\ r <> EOF /\ written s' (Y ++ [c]).
Proof.
  intros Hw Hc. unfold sputc, bind at 1, get at 1. destruct (Z.ltb_spec (pptr (sb s)) (bufsize (sb s))).
  - destruct (area_written s Y [c] Hw) as (b & E & H1); [rewrite zlen_cons, zlen_nil; lia|].
    unfold lift. unfold bind at 1. rewrite E. exists c. eexists. split; [done|]. split; [unfold is_byte in Hc; unfold EOF; lia|exact H1].
  - destruct (overflow_written s Y c Hw Hc) as (s' & E & H1 & _). by exists 0, s'.
Qed.

Lemma std_xsputn_spec fuel : forall s Y bs, written s Y -> (length bs < fuel)%nat -> Forall is_byte bs ->
  exists s', std_xsputn fuel bs s = Ok (zlen bs, s') /\ written s' (Y ++ bs).
Proof.
  induction fuel as [|fuel IH]; intros s Y bs Hw Hf Hb; [lia|]. cbn [std_xsputn]. unfold bind at 1, get at 1.
  assert (0 <= bufsize (sb s) - pptr (sb s)) as Ha by (destruct Hw as (W & [] & _); lia).
  pose proof (zlen_nonneg bs). set (len := Z.min _ (zlen bs)).
  assert (zlen (sub 0 len bs) = len) as Hlen by (rewrite zlen_sub; lia).
  destruct (area_written s Y (sub 0 len bs) Hw) as (b & E & H1); [rewrite Hlen; lia|]. rewrite Hlen in H1.
  unfold lift. unfold bind at 1. rewrite E. unfold bind at 1, on_sb, modify. cbn [sb fcgx].
  assert (bs = sub 0 len bs ++ drop (Z.to_nat len) bs) as Hsplit by (unfold sub; by rewrite drop_0, take_drop).
  destruct (drop (Z.to_nat len) bs) as [|c bs'] eqn:Ed.
  - rewrite app_nil_r in Hsplit. rewrite <- Hsplit in H1, Hlen. eexists. split; [by rewrite Hlen|exact H1].
  - assert (is_byte c /\ Forall is_byte bs') as [Hc Hb'].
    { rewrite Hsplit in Hb. apply Forall_app in Hb as [_ Hb]. by inversion Hb. }
    destruct (overflow_written _ _ c H1 Hc) as (s2 & E2 & H2 & _). unfold bind at 1. rewrite E2.
    assert (zlen bs = len + 1 + zlen bs') as Hl by (rewrite Hsplit, zlen_app, Hlen, zlen_cons; lia).
    destruct (IH s2 _ bs' H2) as (s3 & E3 & H3); [unfold zlen in *; lia|done|].
    exists s3. split.
    + cbn [Z.eqb EOF]. erewrite bind_Ok by exact E3. unfold ret. by rewrite Hl.
    + rewrite Hsplit. by rewrite <- !app_assoc in *.
Qed.

Lemma xsputn_spec s Y bs : written s Y -> Forall is_byte bs -> zlen bs <= INT_MAX ->
  exists s', xsputn bs s = Ok (zlen bs, s') /\ written s' (Y ++ bs).
Proof.
  intros Hw Hb Hl. unfold xsputn. destruct (Z.gtb_spec (zlen bs) INT_MAX); [lia|]. unfold bind at 1, get at 1.
  destruct (Z.eqb_spec (bufsize (sb s)) 0) as [E|E]; [|by apply std_xsputn_spec; [|lia|]].
  destruct Hw as (W & [Hs Ha Hz] & ->). destruct (FCGX_PutStr_spec bs (fcgx s) W Hs) as (t & E1 & Ht).
  exists (mkFio (sb s) t). split; [unfold on_fcgx, zoom; by rewrite E1|]. exists (W ++ bs). split; [by split|].
  unfold pending. cbn. replace (pptr (sb s)) with 0 by lia. by rewrite sub_0, !app_nil_r.
Qed.

Lemma sync_spec s Y : written s Y -> exists s', sync s = Ok (0, s') /\ snk_at (fcgx s') Y /\ written s' Y.
Proof.
  intros (W & Hp & ->). destruct (overflow_spec s W EOF Hp (or_introl eq_refl)) as (s1 & E1 & [H1 A1 Z1] & P1 & _).
  rewrite app_nil_r in H1. destruct (FCGX_FFlush_spec (fcgx s1) _ H1) as (t & E2 & Ht).
  exists (mkFio (sb s1) t). split; [|split; [exact Ht|]].
  - unfold sync. erewrite bind_Ok by exact E1. cbn [Z.eqb negb]. unfold bind, on_fcgx, zoom. by rewrite E2.
  - exists (W ++ pending s). split; [by split|].
    assert (pending (mkFio (sb s1) t) = []) as -> by (unfold pending; cbn; by rewrite P1). by rewrite app_nil_r.
Qed.

Lemma out_do_spec o s Y : written s Y -> out_ok o -> exists s', out_do o s = Ok (true, s') /\ written s' (Y ++ out_bytes o).
Proof.
  intros Hw [Hb Hl]. destruct o as [c|bs|]; cbn [out_do out_bytes] in *.
  - inversion Hb; subst. destruct (sputc_spec s Y c Hw) as (r & s' & E & Hr & Hw'); [done|]. exists s'. split; [|done].
    erewrite bind_Ok by exact E. unfold ret. by rewrite (proj2 (Z.eqb_neq _ _)) by done.
  - destruct (xsputn_spec s Y bs Hw Hb Hl) as (s' & E & Hw'). exists s'. split; [|done]. erewrite bind_Ok by exact E.
    unfold ret. by rewrite Z.eqb_refl.
  - destruct (sync_spec s Y Hw) as (s' & E & _ & Hw'). exists s'. rewrite app_nil_r. split; [|done]. by erewrite bind_Ok by exact E.
Qed.

Lemma out_run_spec ops : forall s Y, written s Y -> Forall out_ok ops ->
  exists s', out_run ops s = Ok (true, s') /\ written s' (Y ++ concat (out_bytes <$> ops)).
Proof.
  induction ops as [|o ops IH]; intros s Y Hw Ho; cbn [out_run concat fmap list_fmap].
  - exists s. by rewrite app_nil_r.
  - inversion Ho; subst. destruct (out_do_spec o s Y Hw) as (s1 & E1 & Hw1); [done|].
    destruct (IH s1 _ Hw1) as (s2 & E2 & Hw2); [done|]. exists s2. erewrite bind_Ok by exact E1.
    split; [exact E2|by rewrite app_assoc].
Qed.

(** C32: an output stream over the library, with any buffer or none: whatever calls a program makes, none
    fails, and after a [sync] or in the destructor's [overflow] the stream was given all characters in
    their order. *)
Theorem streambuf_writes b t W ops :
  snk_at t W -> Forall out_ok ops ->
  exists s', out_run ops (mkFio (init b) t) = Ok (true, s') /\
    (exists s'', sync s' = Ok (0, s'') /\ snk_at (fcgx s'') (W ++ concat (out_bytes <$> ops))) /\
    (exists s'', destroy s' = Ok (0, s'') /\ snk_at (fcgx s'') (W ++ concat (out_bytes <$> ops))).
Proof.
  intros Ht Ho. assert (written (mkFio (init b) t) W) as Hw.
  { exists W. split; [|unfold pending, init, setbuf; cbn; by rewrite sub_0, app_nil_r].
    pose proof (zlen_nonneg b). split; cbn; [done|lia|done]. }
  destruct (out_run_spec ops _ W Hw Ho) as (s' & E & H). exists s'. split; [done|]. split.
  - destruct (sync_spec s' _ H) as (s2 & E2 & H2 & _). by exists s2.
  - destruct H as (W' & Hp & ->). destruct (overflow_spec s' W' EOF Hp (or_introl eq_refl)) as (s2 & E2 & [H2 _ _] & _).
    exists s2. split; [done|]. by rewrite app_nil_r in H2.
Qed.
End output.

(** ** What is read *)

(** [std::streambuf::sgetc]. *)
Definition sgetc : M Fio Z :=
  s <- get ;;
  if gptr (sb s) <? egptr (sb s) then c <- lift (mem_read (buf (sb s)) (gptr (sb s)) 1) ;; ret (head_or 0 c)
  else underflow.

(** The calls of an [istream]. *)
Inductive in_call := Sgetc | Sbumpc | Sgetn (n : Z).

(** The content a call wants and the content it takes. *)
Definition in_wants (o : in_call) : Z := match o with Sgetn n => n | _ => 1 end.
Definition in_takes (o : in_call) : Z := match o with Sgetc => 0 | _ => in_wants o end.

(** A call, its characters, and whether the [istream] stays good. *)
Definition in_do (o : in_call) : M Fio (list Z * bool) :=
  match o with
  | Sgetc => c <- sgetc ;; ret (if c =? EOF then ([], false) else ([c], true))
  | Sbumpc => c <- sbumpc ;; ret (if c =? EOF then ([], false) else ([c], true))
  | Sgetn n => bs <- xsgetn n ;; ret (bs, zlen bs =? n)
  end.

(** An [istream] that is not good does not call its buffer. *)
Fixpoint in_run (ops : list in_call) : M Fio (list (list Z)) :=
  match ops with
  | [] => ret []
  | o :: ops' =>
      r <- in_do o ;;
      if snd r : bool then k <- in_run ops' ;; ret (fst r :: k) else ret [fst r]
  end.

(** What the calls give on the content [X]. *)
Fixpoint in_reads (ops : list in_call) (X : list Z) : list (list Z) :=
  match ops with
  | [] => []
  | o :: ops' =>
      sub 0 (in_wants o) X :: if in_wants o <=? zlen X then in_reads ops' (drop (Z.to_nat (in_takes o)) X) else []
  end.

(** A call with a reasonable size; without a buffer there is no peeking here. *)
Definition in_ok (size : Z) (o : in_call) : Prop :=
  match o with Sgetc => size <> 0 | Sbumpc => True | Sgetn n => 0 <= n <= INT_MAX end.

Section input.
Context `{!Source procs}.

Definition area (s : Fio) : list Z := sub (gptr (sb s)) (in_avail (sb s)) (buf (sb s)).

(** What the stream delivers after the area. *)
Definition rest (t : SS) (Y : list Z) : Prop := src_content t Y \/ (Y = [] /\ src_end t).

Record get_ok (s : Fio) : Prop := {
  get_area : 0 <= gptr (sb s) <= egptr (sb s);
  get_fits : egptr (sb s) <= bufsize (sb s);
  get_size : zlen (buf (sb s)) = bufsize (sb s)
}.

(** What is still to be read, in the get area or in the stream. *)
Definition unread (s : Fio) (X : list Z) : Prop :=
  get_ok s /\ exists Y, rest (fcgx s) Y /\ X = area s ++ Y /\ Forall is_byte X.

Lemma rest_GetStr n t Y : rest t Y -> 0 < n ->
  exists t', FCGX_GetStr n t = Ok (sub 0 n Y, t') /\ rest t' (drop (Z.to_nat n) Y).
Proof.
  intros [H|[-> H]] Hn.
  - destruct (FCGX_GetStr_spec n t Y H) as (t' & E & Ha); [lia|]. exists t'. split; [done|].
    unfold src_after in Ha. destruct (Z.leb_spec n (zlen Y)); [by left|]. right. split; [|done].
    apply drop_ge. unfold zlen in *. lia.
  - exists t. split; [|right; by rewrite drop_nil]. unfold FCGX_GetStr, bind, get. rewrite (src_closed t H).
    unfold sub. by rewrite drop_nil, take_nil.
Qed.

Lemma rest_GetChar t Y : rest t Y -> exists t', FCGX_GetChar t = Ok (head_or EOF Y, t') /\ rest t' (drop 1 Y).
Proof.
  intros [H|[-> H]].
  - destruct (FCGX_GetChar_spec t Y H) as (t' & E & Ha). exists t'. split; [done|]. destruct Y; [by right|by left].
  - exists t. split; [|right; by split]. unfold FCGX_GetChar, bind, get. by rewrite (src_closed t H).
Qed.

Lemma area_len s : get_ok s -> zlen (area s) = in_avail (sb s).
Proof. intros []. unfold area, in_avail. rewrite zlen_sub; lia. Qed.

(** Taking [m] characters out of the get area. *)
Lemma area_take s X m : unread s X -> 0 <= m <= in_avail (sb s) ->
  mem_read (buf (sb s)) (gptr (sb s)) m = Ok (sub 0 m X) /\
  unread (mkFio (setg (gptr (sb s) + m) (egptr (sb s)) (sb s)) (fcgx s)) (drop (Z.to_nat m) X).
Proof.
  intros (Hg & Y & HY & -> & Hb) Hm. pose proof (area_len s Hg) as Hl. pose proof Hg as [Ha Hf Hz]. unfold in_avail in *.
  assert (sub 0 m (area s ++ Y) = sub (gptr (sb s)) m (buf (sb s))) as ->.
  { rewrite sub_app_l by lia. unfold area, in_avail. rewrite sub_sub by lia. by rewrite Z.add_0_r. }
  split; [by apply mem_read_Ok; lia|]. split; [split; cbn; lia|]. exists Y. split; [done|]. split.
  - rewrite drop_app_le by (unfold zlen in *; lia). f_equal. unfold area, in_avail, sub. cbn.
    rewrite skipn_firstn_comm, drop_drop. f_equal; [lia|f_equal; lia].
  - by apply Forall_drop.
Qed.

(** [underflow] of a buffer: the next character is in the get area afterwards, or there is none. *)
Lemma underflow_spec s X : unread s X -> bufsize (sb s) <> 0 ->
  exists s', underflow s = Ok (head_or EOF X, s') /\ bufsize (sb s') = bufsize (sb s) /\ unread s' X /\
    (X <> [] -> 0 < in_avail (sb s')).
Proof.
  intros Hu Hn. pose proof Hu as (Hg & Y & HY & HX & Hb). pose proof (area_len s Hg) as Hl. pose proof Hg as [Ha Hf Hz].
  assert (forall s1, unread s1 X -> 0 < in_avail (sb s1) ->
    (s <- get ;; c <- lift (mem_read (buf (sb s)) (gptr (sb s)) 1) ;; ret (head_or 0 c)) s1 = Ok (head_or EOF X, s1)) as Hread.
  { intros s1 H1 Ha1. destruct (area_take s1 X 1 H1) as [E _]; [lia|]. unfold bind, get, lift, ret. rewrite E.
    destruct H1 as (Hg1 & Y1 & _ & -> & _). pose proof (area_len s1 Hg1). destruct (area s1); [rewrite zlen_nil in *; lia|done]. }
  unfold underflow, bind at 1, get at 1. rewrite (proj2 (Z.eqb_neq _ _)) by done.
  destruct (Z.eqb_spec (in_avail (sb s)) 0) as [E|E].
  - destruct (rest_GetStr (bufsize (sb s)) (fcgx s) Y HY) as (t & E1 & Ht); [lia|].
    assert (area s = []) as Hnil by (destruct (area s); [done|]; rewrite zlen_cons in Hl; pose proof (zlen_nonneg l); lia).
    rewrite Hnil in HX. cbn in HX. subst Y. pose proof (zlen_nonneg X).
    set (bs := sub 0 (bufsize (sb s)) X) in *.
    assert (zlen bs <= bufsize (sb s) /\ (zlen bs <= 0 -> X = [])) as [Hbs Hbs0].
    { unfold bs, sub, zlen. rewrite drop_0, length_take. split; [lia|]. intros. destruct X; [done|]. cbn [length] in *. lia. }
    pose proof (zlen_nonneg bs).
    unfold on_fcgx, zoom. unfold bind at 2. unfold bind at 1. rewrite E1. cbn [sb fcgx].
    unfold lift. unfold bind at 1. cbn [sb fcgx]. rewrite mem_write_Ok by lia.
    unfold on_sb, modify. unfold bind at 1. cbn [sb fcgx].
    destruct (Z.leb_spec (zlen bs) 0).
    + rewrite (Hbs0 ltac:(lia)) in *. exists (mkFio (set_buf (splice 0 bs (buf (sb s))) (sb s)) t). split; [done|]. split; [done|].
      split; [|done]. split; [split; cbn; try lia; rewrite zlen_splice; lia|]. exists []. rewrite drop_nil in Ht. split; [done|].
      split; [|done]. rewrite app_nil_r. unfold area. cbn [sb]. unfold in_avail in *. cbn. by rewrite sub_neg by lia.
    + set (s1 := mkFio (setg 0 (zlen bs) (set_buf (splice 0 bs (buf (sb s))) (sb s))) t).
      assert (unread s1 X) as Hu1.
      { split; [split; cbn; try lia; rewrite zlen_splice; lia|]. eexists. split; [exact Ht|]. split; [|done].
        unfold area, in_avail. cbn. rewrite Z.sub_0_r, sub_splice_at by lia. unfold bs, sub. by rewrite drop_0, take_drop. }
      assert (0 < in_avail (sb s1)) by (unfold in_avail; cbn; lia).
      exists s1. split; [|done]. unfold bind at 1, ret at 1. by apply Hread.
  - exists s. assert (0 < in_avail (sb s)) by (unfold in_avail in *; lia). split; [|done]. unfold bind at 1, ret at 1. by apply Hread.
Qed.

Lemma head_not_EOF X : Forall is_byte X -> (head_or EOF X =? EOF) = bool_decide (X = []).
Proof.
  intros [|c l Hc _]; [done|]. rewrite bool_decide_eq_false_2 by done. cbn. apply Z.eqb_neq. unfold is_byte, EOF in *. lia.
Qed.

Lemma unread_bytes s X : unread s X -> Forall is_byte X.
Proof. by intros (_ & Y & _ & _ & ?). Qed.

(** Without a buffer the area is empty. *)
Lemma unread_unbuffered s X : unread s X -> bufsize (sb s) = 0 -> rest (fcgx s) X.
Proof.
  intros (Hg & Y & HY & -> & _) E. pose proof (area_len s Hg) as Hl. destruct Hg.
  unfold in_avail in Hl. assert (area s = []) as ->; [|done].
  destruct (area s) as [|c l]; [done|]. rewrite zlen_cons in Hl. pose proof (zlen_nonneg l). lia.
Qed.

Lemma unread_other s t X Y : unread s X -> bufsize (sb s) = 0 -> rest t Y -> Forall is_byte Y -> unread (mkFio (sb s) t) Y.
Proof.
  intros (Hg & Y' & _ & _ & _) E HY Hb. pose proof (area_len s Hg) as Hl. destruct Hg as [Ha Hf Hz]. split; [by split|]. exists Y.
  split; [done|]. split; [|done]. unfold area, in_avail in *. cbn. by rewrite sub_neg by lia.
Qed.

(** [uflow] takes a character; a buffer is only read again while it has one. *)
Lemma uflow_spec s X : unread s X ->
  exists s', uflow s = Ok (head_or EOF X, s') /\ (X <> [] -> unread s' (drop 1 X) /\ bufsize (sb s') = bufsize (sb s)).
Proof.
  intros Hu. unfold uflow, bind at 1, get at 1. destruct (Z.eqb_spec (bufsize (sb s)) 0) as [E|E].
  - destruct (rest_GetChar (fcgx s) X) as (t & E1 & Ht); [by apply unread_unbuffered|].
    exists (mkFio (sb s) t). split; [unfold on_fcgx, zoom; by rewrite E1|]. intros _. split; [|done].
    eapply unread_other; [exact Hu|done|done|]. apply Forall_drop, (unread_bytes s X Hu).
  - destruct (underflow_spec s X Hu E) as (s1 & E1 & B1 & H1 & Ha). erewrite bind_Ok by exact E1.
    eexists. split; [done|]. intros Hn. specialize (Ha Hn). split; [|exact B1].
    apply (area_take s1 X 1 H1). lia.
Qed.

Lemma sgetc_spec s X : unread s X -> bufsize (sb s) <> 0 ->
  exists s', sgetc s = Ok (head_or EOF X, s') /\ unread s' X /\ bufsize (sb s') = bufsize (sb s).
Proof.
  intros Hu Hn. unfold sgetc, bind at 1, get at 1. destruct (Z.ltb_spec (gptr (sb s)) (egptr (sb s))).
  - assert (0 < in_avail (sb s)) as Ha by (unfold in_avail; lia). destruct (area_take s X 1 Hu) as [E _]; [lia|].
    exists s. split; [|done]. unfold bind, lift, ret. rewrite E. destruct Hu as (Hg & Y & _ & -> & _).
    pose proof (area_len s Hg). destruct (area s); [rewrite zlen_nil in *; lia|done].
  - destruct (underflow_spec s X Hu Hn) as (s' & E & B & H1 & _). by exists s'.
Qed.

Lemma sbumpc_spec s X : unread s X ->
  exists s', sbumpc s = Ok (head_or EOF X, s') /\ (X <> [] -> unread s' (drop 1 X) /\ bufsize (sb s') = bufsize (sb s)).
Proof.
  intros Hu. unfold sbumpc, bind at 1, get at 1. destruct (Z.ltb_spec (gptr (sb s)) (egptr (sb s))); [|by apply uflow_spec].
  assert (0 < in_avail (sb s)) as Ha by (unfold in_avail; lia). destruct (area_take s X 1 Hu) as [E H1]; [lia|].
  eexists. split; [|by intros _]. unfold bind, lift, ret, on_sb, modify. rewrite E.
  destruct Hu as (Hg & Y & _ & -> & _). pose proof (area_len s Hg). destruct (area s); [rewrite zlen_nil in *; lia|done].
Qed.

Lemma std_xsgetn_spec fuel : forall s X n, unread s X -> (Z.to_nat n < fuel)%nat -> 0 <= n ->
  exists s', std_xsgetn fuel n s = Ok (sub 0 n X, s') /\
    (n <= zlen X -> unread s' (drop (Z.to_nat n) X) /\ bufsize (sb s') = bufsize (sb s)).
Proof.
  induction fuel as [|fuel IH]; intros s X n Hu Hf Hn; [lia|]. cbn [std_xsgetn].
  destruct (Z.leb_spec n 0). { assert (n = 0) as -> by lia. by exists s. }
  unfold bind at 1, get at 1. pose proof (proj1 Hu) as [Ha _ _]. set (len := Z.min (in_avail (sb s)) n).
  assert (0 <= in_avail (sb s)) by (unfold in_avail; lia). destruct (Z.ltb_spec len 0); [lia|].
  destruct (area_take s X len Hu) as [E Hu1]; [lia|]. unfold lift. unfold bind at 1. rewrite E.
  set (s1 := mkFio _ _) in Hu1. assert (bufsize (sb s1) = bufsize (sb s)) as B1 by done.
  unfold on_sb, modify. unfold bind at 1. fold s1. pose proof (zlen_nonneg X).
  destruct (Z.ltb_spec len n) as [L|L].
  - remember (drop (Z.to_nat len) X) as X1 eqn:EX.
    assert (sub 0 n X = sub 0 len X ++ sub 0 (n - len) X1) as ->.
    { replace n with (len + (n - len)) at 1 by lia. rewrite sub_split by lia. f_equal. unfold sub. by rewrite Z.add_0_l, EX, drop_0. }
    assert (zlen X = Z.min (zlen X) len + zlen X1) as HX1 by (rewrite EX; unfold zlen; rewrite length_drop; lia).
    destruct (uflow_spec s1 X1 Hu1) as (s2 & E2 & Hu2). erewrite bind_Ok by exact E2.
    rewrite (head_not_EOF X1) by by eapply unread_bytes. case_bool_decide as E3.
    + rewrite E3 in *. rewrite zlen_nil in HX1. exists s2. split; [|lia]. unfold sub at 3. by rewrite drop_nil, take_nil, app_nil_r.
    + destruct (Hu2 E3) as [Hu3 B3]. destruct (IH s2 (drop 1 X1) (n - len - 1) Hu3) as (s3 & E4 & Hu4); [lia|lia|].
      erewrite bind_Ok by exact E4. exists s3. split.
      * unfold ret. do 3 f_equal. destruct X1 as [|c X2]; [done|]. cbn [head_or]. unfold sub. rewrite !drop_0. cbn [skipn].
        replace (Z.to_nat (n - len)) with (S (Z.to_nat (n - len - 1))) by lia. done.
      * intros Hx. destruct X1 as [|c X2]; [done|]. rewrite zlen_cons in HX1. destruct Hu4 as [Hu4 B4]; [cbn [drop]; rewrite drop_0; lia|].
        split; [|congruence]. rewrite drop_drop, EX in Hu4.
        replace (drop (Z.to_nat n) X) with (drop (1 + Z.to_nat (n - len - 1)) (drop (Z.to_nat len) X)); [done|].
        rewrite drop_drop. f_equal. lia.
  - assert (len = n) as Hl by lia. rewrite Hl in *. exists s1. done.
Qed.

Lemma xsgetn_spec s X n : unread s X -> 0 <= n <= INT_MAX ->
  exists s', xsgetn n s = Ok (sub 0 n X, s') /\
    (n <= zlen X -> unread s' (drop (Z.to_nat n) X) /\ bufsize (sb s') = bufsize (sb s)).
Proof.
  intros Hu Hn. unfold xsgetn. destruct (Z.gtb_spec n INT_MAX); [lia|]. unfold bind at 1, get at 1.
  destruct (Z.eqb_spec (bufsize (sb s)) 0) as [E|E]; [|apply std_xsgetn_spec; by (lia || done)].
  destruct (Z.eq_dec n 0) as [->|Hz].
  - exists s. split; [|done]. unfold on_fcgx, zoom, FCGX_GetStr, bind, get. rewrite orb_true_r. by destruct s.
  - destruct (rest_GetStr n (fcgx s) X) as (t & E1 & Ht); [by apply unread_unbuffered|lia|].
    exists (mkFio (sb s) t). split; [unfold on_fcgx, zoom; by rewrite E1|]. intros _. split; [|done].
    eapply unread_other; [exact Hu|done|done|]. apply Forall_drop, (unread_bytes s X Hu).
Qed.

(** What a call for one character answers. *)
Lemma head_answer (X : list Z) : Forall is_byte X ->
  (if head_or EOF X =? EOF then ([], false) else ([head_or EOF X], true)) = (sub 0 1 X, 1 <=? zlen X).
Proof.
  intros Hb. rewrite head_not_EOF by done. destruct X as [|c l]; [done|]. rewrite bool_decide_eq_false_2 by done.
  unfold sub. change (take (Z.to_nat 1) _) with [c]. f_equal. symmetry. apply Z.leb_le. rewrite zlen_cons. pose proof (zlen_nonneg l). lia.
Qed.

Lemma in_do_spec o s X : unread s X -> in_ok (bufsize (sb s)) o ->
  exists s', in_do o s = Ok ((sub 0 (in_wants o) X, in_wants o <=? zlen X), s') /\
    (in_wants o <= zlen X -> unread s' (drop (Z.to_nat (in_takes o)) X) /\ bufsize (sb s') = bufsize (sb s)).
Proof.
  intros Hu Ho. pose proof (unread_bytes s X Hu) as Hb. destruct o as [| |n]; cbn [in_do in_wants in_takes in_ok] in *.
  - destruct (sgetc_spec s X Hu Ho) as (s' & E & Hu' & B). exists s'. erewrite bind_Ok by exact E. unfold ret.
    rewrite head_answer by done. by rewrite drop_0.
  - destruct (sbumpc_spec s X Hu) as (s' & E & Hu'). exists s'. erewrite bind_Ok by exact E. unfold ret.
    rewrite head_answer by done. split; [done|]. intros ?. apply Hu'. by intros ->.
  - destruct (xsgetn_spec s X n Hu Ho) as (s' & E & Hu'). exists s'. erewrite bind_Ok by exact E. split; [|done].
    unfold ret. do 3 f_equal. unfold sub, zlen. rewrite drop_0, length_take.
    destruct (Z.eqb_spec (Z.of_nat (Z.to_nat n `min` length X)) n), (Z.leb_spec n (Z.of_nat (length X))); done || lia.
Qed.

Lemma in_run_spec ops : forall s X, unread s X -> Forall (in_ok (bufsize (sb s))) ops ->
  exists s', in_run ops s = Ok (in_reads ops X, s').
Proof.
  induction ops as [|o ops IH]; intros s X Hu Ho; [by exists s|]. inversion Ho as [|? ? Ho1 Ho2]; subst.
  destruct (in_do_spec o s X Hu Ho1) as (s1 & E1 & Hu1). cbn [in_run in_reads]. erewrite bind_Ok by exact E1. cbn [fst snd].
  destruct (Z.leb_spec (in_wants o) (zlen X)) as [L|L]; [|by exists s1].
  destruct (Hu1 L) as [Hu2 B]. rewrite <- B in Ho2. destruct (IH s1 _ Hu2 Ho2) as (s2 & E2). exists s2. by erewrite bind_Ok by exact E2.
Qed.


Lemma underflow_at_end b t : src_end t -> b <> [] ->
  underflow (mkFio (init b) t) = Ok (EOF, mkFio (set_buf (splice 0 [] b) (init b)) t).
Proof.
  intros Ht Hb. pose proof (zlen_nonneg b).
  unfold underflow, bind at 1, get at 1. cbn [sb]. change (bufsize (init b)) with (zlen b).
  rewrite (proj2 (Z.eqb_neq (zlen b) 0)) by (destruct b; [done|]; rewrite zlen_cons; pose proof (zlen_nonneg b); lia).
  change (in_avail (init b) =? 0) with true. change (buf (init b)) with b.
  unfold on_fcgx, zoom, FCGX_GetStr, bind, get, lift. cbn [sb fcgx]. rewrite (src_closed t Ht). cbn [orb].
  unfold ret at 1. cbn [sb fcgx]. by rewrite (mem_write_Ok b 0 []) by (change (zlen []) with 0; lia).
Qed.

Lemma uflow_at_end b t : src_end t -> b <> [] ->
  uflow (mkFio (init b) t) = Ok (EOF, mkFio (setg 1 0 (set_buf (splice 0 [] b) (init b))) t).
Proof.
  intros Ht Hb. pose proof (zlen_nonneg b).
  unfold uflow, bind at 1, get at 1. cbn [sb]. change (bufsize (init b)) with (zlen b).
  rewrite (proj2 (Z.eqb_neq (zlen b) 0)) by (destruct b; [done|]; rewrite zlen_cons; pose proof (zlen_nonneg b); lia).
  erewrite bind_Ok by by apply underflow_at_end. done.
Qed.

(** [xsgetn] with an empty get area at the end of file, and with a get pointer past the area. *)
Lemma xsgetn_drained s s' n : 0 < n <= INT_MAX -> bufsize (sb s) <> 0 -> in_avail (sb s) = 0 -> 0 <= gptr (sb s) <= zlen (buf (sb s)) ->
  uflow (mkFio (setg (gptr (sb s) + 0) (egptr (sb s)) (sb s)) (fcgx s)) = Ok (EOF, s') -> xsgetn n s = Ok ([], s').
Proof.
  intros Hn Hz Ha Hg E. unfold xsgetn. destruct (Z.gtb_spec n INT_MAX); [lia|]. unfold bind at 1, get at 1.
  rewrite (proj2 (Z.eqb_neq _ _)) by done. cbn [std_xsgetn]. destruct (Z.leb_spec n 0); [lia|].
  unfold bind at 1, get at 1. rewrite Ha, Z.min_l by lia. cbn [Z.ltb Z.compare].
  unfold lift. unfold bind at 1. rewrite mem_read_Ok, sub_0 by lia. unfold on_sb, modify. unfold bind at 1.
  destruct (Z.ltb_spec 0 n); [|lia]. by erewrite bind_Ok by exact E.
Qed.

Lemma xsgetn_past s n : 0 < n <= INT_MAX -> bufsize (sb s) <> 0 -> in_avail (sb s) < 0 -> xsgetn n s = Crash MemFault.
Proof.
  intros Hn Hz Ha. unfold xsgetn. destruct (Z.gtb_spec n INT_MAX); [lia|]. unfold bind at 1, get at 1.
  rewrite (proj2 (Z.eqb_neq _ _)) by done. cbn [std_xsgetn]. destruct (Z.leb_spec n 0); [lia|].
  unfold bind at 1, get at 1. destruct (Z.ltb_spec (Z.min (in_avail (sb s)) n) 0); [done|lia].
Qed.

(** A buffered stream that is read after its end of file, as after [clear()], does not report the end
    again: [uflow] moved the get pointer past the get area, and the next [xsgetn] copies -1 characters. *)
Theorem streambuf_after_end b t n :
  src_end t -> b <> [] -> 0 < n <= INT_MAX ->
  exists s, xsgetn n (mkFio (init b) t) = Ok ([], s) /\ xsgetn n s = Crash MemFault.
Proof.
  intros Ht Hb Hn. pose proof (uflow_at_end b t Ht Hb) as E.
  assert (bufsize (init b) <> 0) as Hz by (change (zlen b <> 0); destruct b; [done|]; rewrite zlen_cons; pose proof (zlen_nonneg b); lia).
  eexists. split; [eapply xsgetn_drained; [done|exact Hz|done| |exact E]|by apply xsgetn_past].
  split; [done|]. apply zlen_nonneg.
Qed.
End input.
End streambuf.

(** ** At concrete streams *)

Lemma streambuf_writes_witness :
  exists s', out_run [Sputc 72; Sputn [105; 10; 1; 2; 3]; Sync; Sputn []; Sputc 0] (mkFio (init [0; 0]) PrintfSample.writer) = Ok (true, s') /\
    (exists s'', sync s' = Ok (0, s'') /\
       @snk_at writer_procs (framed_sink FCGI_STDOUT (req PrintfSample.writer) [] [] []) (fcgx s'') [72; 105; 10; 1; 2; 3; 0]) /\
    (exists s'', destroy s' = Ok (0, s'') /\
       @snk_at writer_procs (framed_sink FCGI_STDOUT (req PrintfSample.writer) [] [] []) (fcgx s'') [72; 105; 10; 1; 2; 3; 0]).
Proof.
  apply (@streambuf_writes writer_procs (framed_sink FCGI_STDOUT (req PrintfSample.writer) [] [] []) [0; 0] PrintfSample.writer []
    [Sputc 72; Sputn [105; 10; 1; 2; 3]; Sync; Sputn []; Sputc 0]); [apply PrintfSample.writer_ready|].
  repeat constructor; discriminate.
Defined.

