(* ===== verification/FcgiStdio.v ===== *)
(** * The emulation of [stdio]: fcgi_stdio.c

    [libfcgi/fcgi_stdio.c] gives a program the functions of [stdio.h] on [FCGI_FILE]s, each of which
    is a [FILE] of the C library or a stream of the current request.  The C library's [stdio] is an
    interface here, [Stdio]; the streams are those of FcgiRequest.v. *)

From stdpp Require Import gmap.
From S2P Require Import Prelude CSprintf FcgiProto FcgiStream FcgiWriter FcgiParams FcgiReader FcgiRecords OsAccept FcgiRequest FcgiPrintf FcgiServe.

(** The C library on a state [L]: a [FILE *] is a number, [None] for [NULL]; [fread] and [fgets]
    return what they store in the caller's buffer. *)
Class Stdio (L Dbl : Type) := {
  c_stdin : Z; c_stdout : Z; c_stderr : Z;
  fopen : list Z -> list Z -> M L (option Z);
  fclose : Z -> M L Z;
  fflush : option Z -> M L Z;
  freopen : list Z -> list Z -> Z -> M L (option Z);
  setvbuf : Z -> Z -> Z -> Z -> M L Z;
  setbuf : Z -> Z -> M L unit;
  fseek : Z -> Z -> Z -> M L Z;
  ftell : Z -> M L Z;
  rewind : Z -> M L unit;
  fgetpos : Z -> M L (Z * Z);
  fsetpos : Z -> Z -> M L Z;
  fgetc : Z -> M L Z;
  ungetc : Z -> Z -> M L Z;
  fgets : Z -> Z -> M L (option (list Z));
  fputc : Z -> Z -> M L Z;
  fputs : list Z -> Z -> M L Z;
  vfprintf : Z -> list Z -> list (arg Dbl) -> M L Z;
  fread : Z -> Z -> Z -> M L (list Z * Z);
  fwrite : list Z -> Z -> Z -> Z -> M L Z;
  feof : Z -> M L Z;
  ferror : Z -> M L Z;
  clearerr : Z -> M L unit;
  tmpfile : M L (option Z);
  fileno : Z -> M L Z;
  fdopen : Z -> list Z -> M L (option Z);
  popen : list Z -> list Z -> M L (option Z);
  pclose : Z -> M L Z;
  strerror : Z -> list Z }.

(** [FCGI_FILE]; a stream is one of the current request's. *)
Record FCGI_FILE := mkFile { stdio_stream : option Z; fcgx_stream : option which }.

(** The process: the library's state, the C library's, the [FCGI_FILE] objects by address (the
    first three are [_fcgi_sF]), whether [malloc] has memory, and the static variables. *)
Record Process (L : Type) := mkProcess {
  world : World;
  lib : L;
  files : gmap Z FCGI_FILE;
  memory : list bool;
  acceptCalled : bool;
  isCGI : bool;
  at_exit : bool;
  environ : option (list slot) }.
Arguments mkProcess {L}.
Arguments world {L}.
Arguments lib {L}.
Arguments files {L}.
Arguments memory {L}.
Arguments acceptCalled {L}.
Arguments isCGI {L}.
Arguments at_exit {L}.
Arguments environ {L}.

Definition FCGI_stdin : Z := 0.
Definition FCGI_stdout : Z := 1.
Definition FCGI_stderr : Z := 2.
Definition ESPIPE : Z := 29.

Section Setters.
Context {L : Type}.
#[export] Instance set_world : Setter (world (L := L)) := fun g r =>
  mkProcess (g (world r)) (lib r) (files r) (memory r) (acceptCalled r) (isCGI r) (at_exit r) (environ r).
#[export] Instance set_lib : Setter (lib (L := L)) := fun g r =>
  mkProcess (world r) (g (lib r)) (files r) (memory r) (acceptCalled r) (isCGI r) (at_exit r) (environ r).
#[export] Instance set_files : Setter (files (L := L)) := fun g r =>
  mkProcess (world r) (lib r) (g (files r)) (memory r) (acceptCalled r) (isCGI r) (at_exit r) (environ r).
#[export] Instance set_memory : Setter (memory (L := L)) := fun g r =>
  mkProcess (world r) (lib r) (files r) (g (memory r)) (acceptCalled r) (isCGI r) (at_exit r) (environ r).
#[export] Instance set_acceptCalled : Setter (acceptCalled (L := L)) := fun g r =>
  mkProcess (world r) (lib r) (files r) (memory r) (g (acceptCalled r)) (isCGI r) (at_exit r) (environ r).
#[export] Instance set_isCGI : Setter (isCGI (L := L)) := fun g r =>
  mkProcess (world r) (lib r) (files r) (memory r) (acceptCalled r) (g (isCGI r)) (at_exit r) (environ r).
#[export] Instance set_at_exit : Setter (at_exit (L := L)) := fun g r =>
  mkProcess (world r) (lib r) (files r) (memory r) (acceptCalled r) (isCGI r) (g (at_exit r)) (environ r).
#[export] Instance set_environ : Setter (environ (L := L)) := fun g r =>
  mkProcess (world r) (lib r) (files r) (memory r) (acceptCalled r) (isCGI r) (at_exit r) (g (environ r)).
End Setters.

Section Emulation.
Context {L Dbl : Type} {stdio : Stdio L Dbl} {libc : Libc Dbl} {uninit : Uninit}.
Context (web_server_addrs : option (list Z)) (OS_IsFcgi : bool) (inet_addr : list Z -> Z) (use_locking : bool).
Notation P := (Process L).

Definition on_lib {A} (m : M L A) : M P A := zoom lib (fun l p => p <| lib := l |>) m.
Definition on_world {A} (m : M World A) : M P A := zoom world (fun w p => p <| world := w |>) m.

(** A call on a stream of the request: the stream knows its procedures.  A stream that was freed is
    not there. *)
Definition on_fcgx {A} (k : which) (m : StreamProcs -> M SS A) : M P A :=
  on_world (on_stream k (m (match k with In => reader_procs | _ => writer_procs end))).

(** [*fp] and an assignment to it; an object that was freed is not there. *)
Definition deref (fp : Z) : M P FCGI_FILE :=
  p <- get ;;
  match files p !! fp with Some f => ret f | None => crash MemFault end.

Definition assign (fp : Z) (f : FCGI_FILE) : M P unit :=
  deref fp ;;;
  modify (fun p => p <| files := <[fp := f]> (files p) |>).

(** [if(fp->stdio_stream) ... else if(fp->fcgx_stream) ...; ...]. *)
Definition dispatch {A} (fp : Z) (s : Z -> M P A) (x : which -> M P A) (neither : M P A) : M P A :=
  f <- deref fp ;;
  match stdio_stream f, fcgx_stream f with
  | Some h, _ => s h
  | None, Some k => x k
  | None, None => neither
  end.

Definition OS_SetErrno (e : Z) : M P unit :=
  on_world (modify (fun w => w <| os := (os w) <| errno_ := e |> |>)).

(** ** Requests *)

(** [None] when the process exits. *)
Definition FCGI_Accept : M P (option Z) :=
  p <- get ;;
  first <- (if negb (acceptCalled p) then
              r <- on_world (FCGX_IsCGI web_server_addrs OS_IsFcgi) ;;
              match r with
              | None => ret None
              | Some cgi =>
                  modify (fun p => p <| isCGI := cgi |>) ;;;
                  modify (fun p => p <| acceptCalled := true |>) ;;;
                  modify (fun p => p <| at_exit := true |>) ;;;
                  ret (Some false)
              end
            else ret (Some (isCGI p))) ;;
  match first with
  | None => ret None
  | Some true => ret (Some EOF)
  | Some false =>
      p <- get ;;
      if isCGI p then
        assign FCGI_stdin (mkFile (Some c_stdin) None) ;;;
        assign FCGI_stdout (mkFile (Some c_stdout) None) ;;;
        assign FCGI_stderr (mkFile (Some c_stderr) None) ;;;
        ret (Some 0)
      else
        acceptResult <- on_world (FCGX_Accept web_server_addrs inet_addr use_locking) ;;
        if acceptResult <? 0 then ret (Some acceptResult) else
        assign FCGI_stdin (mkFile None (Some In)) ;;;
        assign FCGI_stdout (mkFile None (Some Out)) ;;;
        assign FCGI_stderr (mkFile None (Some Err)) ;;;
        modify (fun p => p <| environ := envp (request (world p)) |>) ;;;
        ret (Some 0)
  end.

Definition FCGI_Finish : M P unit :=
  p <- get ;;
  if negb (acceptCalled p) || isCGI p then ret tt else
  on_world FCGX_Finish ;;;
  f <- deref FCGI_stdin ;; assign FCGI_stdin (mkFile (stdio_stream f) None) ;;;
  f <- deref FCGI_stdout ;; assign FCGI_stdout (mkFile (stdio_stream f) None) ;;;
  f <- deref FCGI_stderr ;; assign FCGI_stderr (mkFile (stdio_stream f) None) ;;;
  modify (fun p => p <| environ := None |>).

Definition FCGI_StartFilterData : M P Z :=
  f <- deref FCGI_stdin ;;
  match stdio_stream f, fcgx_stream f with
  | Some _, _ => ret (-1)
  | None, Some k => on_fcgx k (fun _ => FCGX_StartFilterData)
  | None, None => crash NullDeref
  end.

Definition FCGI_SetExitStatus (status : Z) : M P unit :=
  f <- deref FCGI_stdin ;;
  match fcgx_stream f with Some k => on_fcgx k (fun _ => FCGX_SetExitStatus status) | None => ret tt end.

(** ** Files *)

(** [malloc] and the new object, [None] for [NULL]. *)
Definition FCGI_OpenFromFILE (stream : option Z) : M P (option Z) :=
  match stream with
  | None => ret None
  | Some h =>
      p <- get ;;
      let '(available, rest) := match memory p with [] => (true, []) | b :: rest => (b, rest) end in
      modify (fun p => p <| memory := rest |>) ;;;
      if available : bool then
        let fp := fresh (dom (files p)) in
        modify (fun p => p <| files := <[fp := mkFile (Some h) None]> (files p) |>) ;;;
        ret (Some fp)
      else ret None
  end.

(** What [FCGI_fopen] and its kin do with a [FILE]: it is closed when there is no memory. *)
Definition open_file (close : Z -> M L Z) (file : option Z) : M P (option Z) :=
  fcgi_file <- FCGI_OpenFromFILE file ;;
  match file, fcgi_file with
  | Some h, None => on_lib (close h) ;;; ret None
  | _, _ => ret fcgi_file
  end.

Definition FCGI_fopen (path mode : list Z) : M P (option Z) :=
  file <- on_lib (fopen path mode) ;; open_file fclose file.

Definition FCGI_tmpfile : M P (option Z) := file <- on_lib tmpfile ;; open_file fclose file.
Definition FCGI_fdopen (fd : Z) (mode : list Z) : M P (option Z) := file <- on_lib (fdopen fd mode) ;; open_file fclose file.
Definition FCGI_popen (cmd type : list Z) : M P (option Z) := file <- on_lib (popen cmd type) ;; open_file pclose file.

(** [if((fp != FCGI_stdin) && ...) free(fp)]. *)
Definition free_file (fp : Z) : M P unit :=
  if (fp =? FCGI_stdin) || (fp =? FCGI_stdout) || (fp =? FCGI_stderr) then ret tt
  else deref fp ;;; modify (fun p => p <| files := delete fp (files p) |>).

Definition FCGI_fclose (fp : Z) : M P Z :=
  f <- deref fp ;;
  n <- match stdio_stream f, fcgx_stream f with
       | Some h, x => n <- on_lib (fclose h) ;; assign fp (mkFile None x) ;;; ret n
       | None, Some k => n <- on_fcgx k (fun procs => @FCGX_FClose procs) ;; assign fp (mkFile None None) ;;; ret n
       | None, None => ret EOF
       end ;;
  free_file fp ;;;
  ret n.

Definition FCGI_fflush (fp : option Z) : M P Z :=
  match fp with
  | None => on_lib (fflush None)
  | Some fp => dispatch fp (fun h => on_lib (fflush (Some h))) (fun k => on_fcgx k (fun procs => @FCGX_FFlush procs)) (ret EOF)
  end.

Definition FCGI_freopen (path mode : list Z) (fp : Z) : M P (option Z) :=
  dispatch fp
    (fun h => r <- on_lib (freopen path mode h) ;; ret (match r with None => None | Some _ => Some fp end))
    (fun k =>
       on_fcgx k (fun procs => @FCGX_FClose procs) ;;;
       h <- on_lib (fopen path mode) ;;
       match h with
       | None => ret None
       | Some h => assign fp (mkFile (Some h) None) ;;; ret (Some fp)
       end)
    (ret None).

Definition FCGI_setvbuf (fp buf bufmode size : Z) : M P Z :=
  f <- deref fp ;; match stdio_stream f with Some h => on_lib (setvbuf h buf bufmode size) | None => ret (-1) end.

Definition FCGI_setbuf (fp buf : Z) : M P unit :=
  f <- deref fp ;; match stdio_stream f with Some h => on_lib (setbuf h buf) | None => ret tt end.

(** ** Positions: a stream of a request has none. *)

Definition FCGI_fseek (fp offset whence : Z) : M P Z :=
  f <- deref fp ;;
  match stdio_stream f with Some h => on_lib (fseek h offset whence) | None => OS_SetErrno ESPIPE ;;; ret (-1) end.

(** The result is an [int]. *)
Definition FCGI_ftell (fp : Z) : M P Z :=
  f <- deref fp ;;
  match stdio_stream f with Some h => n <- on_lib (ftell h) ;; ret (to_int n) | None => OS_SetErrno ESPIPE ;;; ret (-1) end.

Definition FCGI_rewind (fp : Z) : M P unit :=
  f <- deref fp ;; match stdio_stream f with Some h => on_lib (rewind h) | None => OS_SetErrno ESPIPE end.

Definition FCGI_fgetpos (fp : Z) : M P (Z * Z) :=
  f <- deref fp ;;
  match stdio_stream f with Some h => on_lib (fgetpos h) | None => OS_SetErrno ESPIPE ;;; ret (-1, 0) end.

Definition FCGI_fsetpos (fp pos : Z) : M P Z :=
  f <- deref fp ;;
  match stdio_stream f with Some h => on_lib (fsetpos h pos) | None => OS_SetErrno ESPIPE ;;; ret (-1) end.

(** ** Reading *)

Definition FCGI_fgetc (fp : Z) : M P Z :=
  dispatch fp (fun h => on_lib (fgetc h)) (fun k => on_fcgx k (fun procs => @FCGX_GetChar procs)) (ret EOF).

Definition FCGI_getchar : M P Z := FCGI_fgetc FCGI_stdin.

Definition FCGI_ungetc (c fp : Z) : M P Z :=
  dispatch fp (fun h => on_lib (ungetc c h)) (fun k => on_fcgx k (fun _ => FCGX_UnGetChar c)) (ret EOF).

Definition FCGI_fgets (size fp : Z) : M P (option (list Z)) :=
  dispatch fp (fun h => on_lib (fgets size h)) (fun k => on_fcgx k (fun procs => @FCGX_GetLine procs size)) (ret None).

(** The loop of [FCGI_gets] into an object of [room] bytes; every turn but the last stores one. *)
Fixpoint gets_loop (fuel : nat) (room : Z) (str : list Z) : M P (option (list Z)) :=
  match fuel with
  | O => crash MemFault
  | S fuel =>
      c <- FCGI_getchar ;;
      if c =? 10 then ret (Some str)
      else if c =? EOF then ret (match str with [] => None | _ => Some str end)
      else gets_loop fuel room (str ++ [uchar c])
  end.

(** The characters and their terminating NUL are stored at [str], an object of [room] bytes: with
    as many characters as there is room for, the next store or that of the NUL is outside. *)
Definition FCGI_gets (room : Z) : M P (option (list Z)) := gets_loop (Z.to_nat room) room [].

(** [size * nmemb] of two [size_t]; the product is passed as an [int]. *)
Definition FCGI_fread (size nmemb fp : Z) : M P (list Z * Z) :=
  dispatch fp (fun h => on_lib (fread size nmemb h))
    (fun k =>
       let total := to_ulong (size * nmemb) in
       if total =? 0 then ret ([], 0) else
       bs <- on_fcgx k (fun procs => @FCGX_GetStr procs (to_int total)) ;;
       ret (bs, zlen bs / size))
    (ret ([], ULONG_MAX)).

(** ** Writing *)

Definition FCGI_fputc (c fp : Z) : M P Z :=
  dispatch fp (fun h => on_lib (fputc c h)) (fun k => on_fcgx k (fun procs => @FCGX_PutChar procs c)) (ret EOF).

Definition FCGI_putchar (c : Z) : M P Z := FCGI_fputc c FCGI_stdout.

Definition FCGI_fputs (str : list Z) (fp : Z) : M P Z :=
  dispatch fp (fun h => on_lib (fputs str h)) (fun k => on_fcgx k (fun procs => @FCGX_PutS procs str)) (ret EOF).

Definition FCGI_puts (str : list Z) : M P Z :=
  dispatch FCGI_stdout
    (fun h => n <- on_lib (fputs str h) ;; if n <? 0 then ret n else on_lib (fputc 10 h))
    (fun k => n <- on_fcgx k (fun procs => @FCGX_PutS procs str) ;;
              if n <? 0 then ret n else on_fcgx k (fun procs => @FCGX_PutChar procs 10))
    (ret EOF).

Definition FCGI_perror (str : list Z) : M P unit :=
  FCGI_fputs str FCGI_stderr ;;;
  FCGI_fputs [58; 32] FCGI_stderr ;;;
  p <- get ;;
  FCGI_fputs (strerror (errno_ (os (world p)))) FCGI_stderr ;;;
  ret tt.

Definition FCGI_vfprintf (fp : Z) (format : list Z) (ap : list (arg Dbl)) : M P Z :=
  dispatch fp (fun h => on_lib (vfprintf h format ap)) (fun k => on_fcgx k (fun procs => @FCGX_FPrintF procs Dbl libc format ap)) (ret EOF).

(** [int n = 0; ...; return n;]. *)
Definition FCGI_fprintf (fp : Z) (format : list Z) (ap : list (arg Dbl)) : M P Z :=
  dispatch fp (fun h => on_lib (vfprintf h format ap)) (fun k => on_fcgx k (fun procs => @FCGX_FPrintF procs Dbl libc format ap)) (ret 0).

Definition FCGI_printf (format : list Z) (ap : list (arg Dbl)) : M P Z := FCGI_vfprintf FCGI_stdout format ap.

Definition FCGI_vprintf (format : list Z) (ap : list (arg Dbl)) : M P Z :=
  dispatch FCGI_stdout (fun h => on_lib (vfprintf h format ap)) (fun k => on_fcgx k (fun procs => @FCGX_FPrintF procs Dbl libc format ap)) (ret EOF).

(** [n / size] for the [int] result [n]: the division is unsigned.  A negative count makes
    [FCGX_PutStr] copy with a huge length. *)
Definition FCGI_fwrite (ptr : list Z) (size nmemb fp : Z) : M P Z :=
  dispatch fp (fun h => on_lib (fwrite ptr size nmemb h))
    (fun k =>
       let total := to_ulong (size * nmemb) in
       if total =? 0 then ret 0 else
       if (to_int total <? 0) || (zlen ptr <? to_int total) then crash MemFault else
       n <- on_fcgx k (fun procs => @FCGX_PutStr procs (take (Z.to_nat (to_int total)) ptr)) ;;
       ret (to_ulong n / size))
    (ret ULONG_MAX).

(** ** The state of a file *)

Definition FCGI_feof (fp : Z) : M P Z :=
  dispatch fp (fun h => on_lib (feof h)) (fun k => on_fcgx k (fun _ => FCGX_HasSeenEOF)) (ret (-1)).

Definition FCGI_ferror (fp : Z) : M P Z :=
  dispatch fp (fun h => on_lib (ferror h)) (fun k => on_fcgx k (fun _ => FCGX_GetError)) (ret (-1)).

Definition FCGI_clearerr (fp : Z) : M P unit :=
  dispatch fp (fun h => on_lib (clearerr h)) (fun k => on_fcgx k (fun _ => FCGX_ClearError)) (ret tt).

Definition FCGI_fileno (fp : Z) : M P Z :=
  f <- deref fp ;; match stdio_stream f with Some h => on_lib (fileno h) | None => ret (-1) end.

Definition FCGI_pclose (fp : Z) : M P Z :=
  f <- deref fp ;;
  match stdio_stream f, fcgx_stream f with
  | Some h, x => n <- on_lib (pclose h) ;; assign fp (mkFile None x) ;;; free_file fp ;;; ret n
  | None, Some _ => ret EOF
  | None, None => free_file fp ;;; ret EOF
  end.
End Emulation.
