(* ===== verification/StdioServe.v ===== *)
(** * A program on fcgi_stdio.c

    What a program that uses [FCGI_Accept], the standard files and [FCGI_Finish] of
    [libfcgi/fcgi_stdio.c] sees of a request.  Under a web server that speaks FastCGI the calls
    refine the view of FcgiServe.v; under CGI they are those of the C library. *)

From stdpp Require Import gmap.
From S2P Require Import Prelude CSprintf FcgiProto FcgiStream FcgiWriter FcgiParams FcgiReader FcgiRecords OsAccept OsAsync FcgiRequest FcgiPrintf FcgiServe FcgiStdio.

(** ** The calls of a program on the standard files *)

Inductive call (Dbl : Type) :=
  | Getchar
  | Fgets (size : Z)
  | Gets (room : Z)
  | Fread (size nmemb : Z)
  | Fputc (k : which) (c : Z)
  | Fputs (k : which) (str : list Z)
  | Puts (str : list Z)
  | Fwrite (k : which) (ptr : list Z) (size nmemb : Z)
  | Fprintf (k : which) (format : list piece) (ap : list (arg Dbl))
  | Fflush (k : which)
  | SetExitStatus (status : Z).
Arguments Getchar {Dbl}.
Arguments Fgets {Dbl}.
Arguments Gets {Dbl}.
Arguments Fread {Dbl}.
Arguments Fputc {Dbl}.
Arguments Fputs {Dbl}.
Arguments Puts {Dbl}.
Arguments Fwrite {Dbl}.
Arguments Fprintf {Dbl}.
Arguments Fflush {Dbl}.
Arguments SetExitStatus {Dbl}.

Inductive result := Num (z : Z) | Line (l : option (list Z)) | Items (bs : list Z) (n : Z).

(** The standard file of a stream. *)
Definition file_of (k : which) : Z := match k with In => FCGI_stdin | Out => FCGI_stdout | Err => FCGI_stderr end.

Section View.
Context {Dbl : Type} {libc : Libc Dbl}.

Definition printed (format : list piece) (ap : list (arg Dbl)) : list Z :=
  match print format ap 0 with Some (t, _, _) => t | None => [] end.

Definition not_newline (c : Z) : bool := negb (c =? 10).

(** What a call returns and does, by ISO C. *)
Definition view_call (c : call Dbl) (v : view) : result * view :=
  match c with
  | Getchar => (Num (head_or EOF (v_in v)), read_to (drop 1 (v_in v)) v)
  | Fgets size =>
      let line := take_line (Z.to_nat (size - 1)) (v_in v) in
      (Line (if bool_decide (v_in v = []) && (1 <? size) then None else Some line), read_to (drop (length line) (v_in v)) v)
  | Gets _ =>
      let '(line, rest) := span not_newline (v_in v) in
      (Line (match v_in v with [] => None | _ => Some line end), read_to (drop 1 rest) v)
  | Fread size nmemb =>
      let bs := sub 0 (size * nmemb) (v_in v) in
      (Items bs (zlen bs / size), read_to (drop (Z.to_nat (size * nmemb)) (v_in v)) v)
  | Fputc k c => (Num (uchar c), written_to k [uchar c] v)
  | Fputs k str => (Num (zlen (c_string str)), written_to k (c_string str) v)
  | Puts str => (Num 10, written_to Out (c_string str ++ [10]) v)
  | Fwrite k ptr size nmemb => (Num nmemb, written_to k (take (Z.to_nat (size * nmemb)) ptr) v)
  | Fprintf k format ap => (Num (zlen (printed format ap)), written_to k (printed format ap) v)
  | Fflush _ => (Num 0, v)
  | SetExitStatus st => (Num 0, mkView (v_in v) (v_out v) (v_err v) st)
  end.

Fixpoint view_calls (cs : list (call Dbl)) (v : view) : list result * view :=
  match cs with
  | [] => ([], v)
  | c :: cs => let '(r, v) := view_call c v in let '(rs, v) := view_calls cs v in (r :: rs, v)
  end.

(** The calls a program may make: the line that [gets] reads fits its array, the sizes are positive and
    their products are [int]s, the array that is written is there, output goes to an output file, and the
    format and its arguments are those of [print] ([VFPrintF_prints] lists what is left out). *)
Definition call_ok (c : call Dbl) (v : view) : Prop :=
  match c with
  | Getchar | Fgets _ | SetExitStatus _ | Puts _ => True
  | Gets room => zlen (fst (span not_newline (v_in v))) < room
  | Fread size nmemb => 0 < size /\ 0 < size * nmemb <= INT_MAX
  | Fputc k _ | Fputs k _ | Fflush k => k <> In
  | Fwrite k ptr size nmemb => k <> In /\ 0 < size /\ 0 < size * nmemb <= INT_MAX /\ size * nmemb <= zlen ptr
  | Fprintf k format ap => k <> In /\ Forall piece_ok format /\ print format ap 0 <> None /\ zlen (printed format ap) <= INT_MAX
  end.

Fixpoint calls_ok (cs : list (call Dbl)) (v : view) : Prop :=
  match cs with
  | [] => True
  | c :: cs => call_ok c v /\ calls_ok cs (snd (view_call c v))
  end.
End View.

Section Emulated.
Context {L Dbl : Type} {stdio : Stdio L Dbl} {libc : Libc Dbl} {uninit : Uninit}.
Notation P := (Process L).

(** The call through fcgi_stdio.c. *)
Definition emulated (c : call Dbl) : M P result :=
  match c with
  | Getchar => n <- FCGI_getchar ;; ret (Num n)
  | Fgets size => l <- FCGI_fgets size FCGI_stdin ;; ret (Line l)
  | Gets room => l <- FCGI_gets room ;; ret (Line l)
  | Fread size nmemb => r <- FCGI_fread size nmemb FCGI_stdin ;; ret (Items (fst r) (snd r))
  | Fputc k c => n <- FCGI_fputc c (file_of k) ;; ret (Num n)
  | Fputs k str => n <- FCGI_fputs str (file_of k) ;; ret (Num n)
  | Puts str => n <- FCGI_puts str ;; ret (Num n)
  | Fwrite k ptr size nmemb => n <- FCGI_fwrite ptr size nmemb (file_of k) ;; ret (Num n)
  | Fprintf k format ap => n <- FCGI_fprintf (file_of k) (render format) ap ;; ret (Num n)
  | Fflush k => n <- FCGI_fflush (Some (file_of k)) ;; ret (Num n)
  | SetExitStatus st => FCGI_SetExitStatus st ;;; ret (Num 0)
  end.

Fixpoint emulated_run (cs : list (call Dbl)) : M P (list result) :=
  match cs with
  | [] => ret []
  | c :: cs => r <- emulated c ;; rs <- emulated_run cs ;; ret (r :: rs)
  end.

(** The standard files are the streams of the request. *)
Definition on_streams (p : P) : Prop := forall k, files p !! file_of k = Some (mkFile None (Some k)).

(** A process that serves a request of which the program has the view [v]. *)
Definition emulating (rq : ReqData) (epad tail tx0 : list Z) (rs : list rec) (v : view) (p : P) : Prop :=
  serving rq epad tail tx0 rs v (world p) /\ on_streams p.

Lemma dispatch_stream {A} k (p : P) (s : Z -> M P A) (x : which -> M P A) n : on_streams p ->
  dispatch (file_of k) s x n p = x k p.
Proof. intros H. unfold dispatch, deref, bind, get. by rewrite (H k). Qed.

Lemma on_fcgx_Ok {A} k (m : StreamProcs -> M SS A) (p : P) x w' :
  on_stream k (m (match k with In => reader_procs | _ => writer_procs end)) (world p) = Ok (x, w') ->
  on_fcgx k m p = Ok (x, p <| world := w' |>).
Proof. intros E. unfold on_fcgx, on_world, zoom. by rewrite E. Qed.

(** What a call leaves alone: the library's other data, and the process's. *)
Definition same_process (p p' : P) : Prop := same_library (world p) (world p') /\ p' = p <| world := world p' |>.

Lemma same_process_trans p1 p2 p3 : same_process p1 p2 -> same_process p2 p3 -> same_process p1 p3.
Proof.
  intros [L1 E1] [L2 E2]. split; [by apply (same_library_trans _ (world p2))|]. rewrite E2, E1. by destruct p1.
Qed.

Lemma same_process_world (p : P) w' : same_library (world p) w' -> same_process p (p <| world := w' |>).
Proof. by destruct p. Qed.

(** The call [m] returns [x] and the view becomes [v']. *)
Definition yields {A} (m : M P A) (x : A) rq epad tail tx0 rs v' p : Prop :=
  exists p' rs', m p = Ok (x, p') /\ emulating rq epad tail tx0 (rs ++ rs') v' p' /\ same_process p p'.

Lemma yields_bind {A B} (m : M P A) (f : A -> M P B) x y rq epad tail tx0 rs v' v'' p :
  yields m x rq epad tail tx0 rs v' p ->
  (forall p' rs', emulating rq epad tail tx0 rs' v' p' -> yields (f x) y rq epad tail tx0 rs' v'' p') ->
  yields (bind m f) y rq epad tail tx0 rs v'' p.
Proof.
  intros (p1 & rs1 & E1 & S1 & Q1) Hf. destruct (Hf p1 _ S1) as (p2 & rs2 & E2 & S2 & Q2).
  exists p2, (rs1 ++ rs2). rewrite (bind_Ok _ _ _ _ _ E1), app_assoc. split_and!; try done.
  by apply (same_process_trans _ p1).
Qed.

Lemma yields_ret {A} (x : A) rq epad tail tx0 rs v p : emulating rq epad tail tx0 rs v p ->
  yields (ret x) x rq epad tail tx0 rs v p.
Proof. intros S. exists p, []. rewrite app_nil_r. split_and!; try done. by destruct p. Qed.

Lemma yields_dispatch {A} k (s : Z -> M P A) (x : which -> M P A) n y rq epad tail tx0 rs v v' p :
  emulating rq epad tail tx0 rs v p -> yields (x k) y rq epad tail tx0 rs v' p ->
  yields (dispatch (file_of k) s x n) y rq epad tail tx0 rs v' p.
Proof. intros [_ Hs] (p' & rs' & E & H). exists p', rs'. by rewrite dispatch_stream. Qed.

(** A call that reads the request's input. *)
Lemma emulated_reads {A} (m : StreamProcs -> M SS A) (x : A) rq epad tail tx0 rs v (p : P) X :
  emulating rq epad tail tx0 rs v p -> Forall is_byte X ->
  (forall st, reading FCGI_STDIN epad tail rq (cn (world p)) (v_in v) st ->
    exists s', m reader_procs (mkSS st rq (cn (world p))) = Ok (x, s') /\ req s' = rq /\ accepts (wr (conn s')) /\
      (exists ds, tx (conn s') = tx (cn (world p)) ++ wire (reply_recs ds)) /\
      reading FCGI_STDIN epad tail rq (conn s') X (strm s')) ->
  yields (on_fcgx In m) x rq epad tail tx0 rs (read_to X v) p.
Proof.
  intros [S Hs] HX Hm. destruct (call_reads (m reader_procs) x rq epad tail tx0 rs v (world p) X S HX Hm) as (w' & rs' & E & S' & L').
  exists (p <| world := w' |>), rs'. split; [by apply on_fcgx_Ok|]. split; [by split|by apply same_process_world].
Qed.

(** A call that writes on one of its outputs. *)
Lemma emulated_writes {A} k (m : StreamProcs -> M SS A) (x : A) bs rq epad tail tx0 rs v (p : P) :
  emulating rq epad tail tx0 rs v p -> k <> In ->
  (forall T st W, writer_open T rq (stream_of T rs) W st -> accepts (wr (cn (world p))) ->
    exists s' rs', m writer_procs (mkSS st rq (cn (world p))) = Ok (x, s') /\ Forall (from_writer T (requestId rq)) rs' /\
      tx (conn s') = tx (cn (world p)) ++ wire rs' /\ rx (conn s') = rx (cn (world p)) /\ req s' = rq /\
      accepts (wr (conn s')) /\ writer_open T rq (stream_of T rs ++ stream_of T rs') (W ++ bs) (strm s')) ->
  yields (on_fcgx k m) x rq epad tail tx0 rs (written_to k bs v) p.
Proof.
  intros [S Hs] Hk Hm. destruct (call_writes k (m writer_procs) x bs rq epad tail tx0 rs v (world p) S Hk Hm) as (w' & rs' & E & S' & L').
  exists (p <| world := w' |>), rs'. split; [apply on_fcgx_Ok; by destruct k|]. split; [by split|by apply same_process_world].
Qed.

(** [FCGX_VFPrintF] on an output of the request. *)
Lemma open_FPrintF T rq base W st c format ap : writer_open T rq base W st -> accepts (wr c) ->
  Forall piece_ok format -> print format ap 0 <> None -> zlen (printed format ap) <= INT_MAX ->
  exists s' rs, @FCGX_FPrintF writer_procs Dbl libc (render format) ap (mkSS st rq c) = Ok (zlen (printed format ap), s') /\
    Forall (from_writer T (requestId rq)) rs /\ tx (conn s') = tx c ++ wire rs /\
    rx (conn s') = rx c /\ req s' = rq /\ accepts (wr (conn s')) /\
    writer_open T rq (base ++ stream_of T rs) (W ++ printed format ap) (strm s').
Proof.
  intros H Ha Hf Hp Hl. unfold printed in *. destruct (print format ap 0) as [[[t so] rest]|] eqn:Ep; [|done].
  destruct (@loop_spec writer_procs Dbl libc (framed_sink T rq (rx c) (tx c) base) format Hf [] (length (render format)) 0
    (mkPrintf (mkSS st rq c) ap [] 0) W t so rest ltac:(apply not_elem_of_nil)) as (s' & aux & E & H'); try done; [by apply H|].
  cbn [app] in *. destruct (framed_leave _ _ _ _ _ _ _ H') as (rs & ?). exists s', rs. split; [|done].
  unfold FCGX_FPrintF, FCGX_VFPrintF. by rewrite (bind_Ok _ _ _ _ _ E).
Qed.

Lemma emulating_bytes rq epad tail tx0 rs v p : emulating rq epad tail tx0 rs v p -> Forall is_byte (v_in v).
Proof. intros [S _]. by apply (sv_bytes _ _ _ _ _ _ _ S). Qed.

Lemma yields_getchar rq epad tail tx0 rs v p : emulating rq epad tail tx0 rs v p ->
  yields FCGI_getchar (head_or EOF (v_in v)) rq epad tail tx0 rs (read_to (drop 1 (v_in v)) v) p.
Proof.
  intros E. pose proof (emulating_bytes _ _ _ _ _ _ _ E). apply (yields_dispatch In _ _ _ _ _ _ _ _ _ v); [done|].
  apply emulated_reads; [done|by apply Forall_drop|]. intros st. apply reading_GetChar.
Qed.

(** [FCGI_gets] reads up to the newline, or to the end of the input. *)
Lemma gets_loop_spec room X : forall fuel acc rq epad tail tx0 rs v p, emulating rq epad tail tx0 rs v p ->
  v_in v = X -> (length (fst (span not_newline X)) < fuel)%nat ->
  yields (gets_loop fuel room acc) (if bool_decide (acc ++ X = []) then None else Some (acc ++ fst (span not_newline X)))
    rq epad tail tx0 rs (read_to (drop 1 (snd (span not_newline X))) v) p.
Proof.
  induction X as [|b X IH]; intros fuel acc rq epad tail tx0 rs v p E Hv Hf; (destruct fuel as [|fuel]; [lia|]); cbn [gets_loop];
    apply (yields_bind _ _ (head_or EOF (v_in v)) _ _ _ _ _ _ (read_to (drop 1 (v_in v)) v)); try (by apply yields_getchar);
    intros p1 rs1 E1; rewrite Hv in *.
  - cbn [head_or]. change (EOF =? 10) with false. change (EOF =? EOF) with true. cbv iota.
    rewrite app_nil_r. cbn [span fst snd] in *. rewrite app_nil_r. destruct acc; by apply yields_ret.
  - pose proof (emulating_bytes _ _ _ _ _ _ _ E) as Hb. rewrite Hv in Hb. inversion_clear Hb as [|? ? Hb1 Hb2]. unfold is_byte in Hb1.
    cbn [head_or span] in *. change (drop 1 (b :: X)) with X in *. change (not_newline b) with (negb (b =? 10)) in *. rewrite bool_decide_eq_false_2 by (by destruct acc).
    destruct (Z.eqb_spec b 10) as [->|Hn]; cbn [negb] in *.
    + cbn [fst snd]. rewrite app_nil_r. by apply yields_ret.
    + replace (b =? EOF) with false by (unfold EOF; lia). rewrite uchar_small by done.
      specialize (IH fuel (acc ++ [b]) rq epad tail tx0 rs1 _ p1 E1 eq_refl).
      destruct (span not_newline X) as [l r]. cbn [fst snd length] in *. rewrite <- !app_assoc in IH. cbn [app] in IH.
      rewrite bool_decide_eq_false_2 in IH by (by destruct acc). apply IH. lia.
Qed.

(** A call of which only the value is used. *)
Lemma yields_map {A B} (m : M P A) (f : A -> B) x rq epad tail tx0 rs v' p :
  yields m x rq epad tail tx0 rs v' p -> yields (a <- m ;; ret (f a)) (f x) rq epad tail tx0 rs v' p.
Proof. intros H. apply (yields_bind m _ x _ _ _ _ _ _ v'); [done|]. intros. by apply yields_ret. Qed.

Lemma yields_view {A} (m : M P A) x rq epad tail tx0 rs v1 v2 p :
  yields m x rq epad tail tx0 rs v1 p -> v1 = v2 -> yields m x rq epad tail tx0 rs v2 p.
Proof. by intros ? <-. Qed.

Lemma written_nil k v : written_to k [] v = v.
Proof. destruct v, k; cbn; by rewrite ?app_nil_r. Qed.

Lemma written_app k bs bs' v : written_to k bs' (written_to k bs v) = written_to k (bs ++ bs') v.
Proof. destruct k; cbn; by rewrite ?app_assoc. Qed.

Lemma yields_fputc k c rq epad tail tx0 rs v p : emulating rq epad tail tx0 rs v p -> k <> In ->
  yields (on_fcgx k (fun procs => @FCGX_PutChar procs c)) (uchar c) rq epad tail tx0 rs (written_to k [uchar c] v) p.
Proof. intros E Hk. apply emulated_writes; [done..|]. intros T st W. apply open_PutChar. Qed.

Lemma yields_fputs k str rq epad tail tx0 rs v p : emulating rq epad tail tx0 rs v p -> k <> In ->
  yields (on_fcgx k (fun procs => @FCGX_PutS procs str)) (zlen (c_string str)) rq epad tail tx0 rs (written_to k (c_string str) v) p.
Proof. intros E Hk. apply emulated_writes; [done..|]. intros T st W. apply open_PutStr. Qed.

(** The product of two sizes that is an [int]. *)
Lemma size_product size nmemb : 0 < size * nmemb <= INT_MAX ->
  to_ulong (size * nmemb) = size * nmemb /\ to_int (size * nmemb) = size * nmemb.
Proof. unfold INT_MAX, to_ulong, to_int. intros. rewrite !Z.mod_small by lia. split; [done|]. lia. Qed.

Lemma yields_fread size nmemb rq epad tail tx0 rs v p : emulating rq epad tail tx0 rs v p ->
  0 < size -> 0 < size * nmemb <= INT_MAX -> let bs := sub 0 (size * nmemb) (v_in v) in
  yields (FCGI_fread size nmemb FCGI_stdin) (bs, zlen bs / size) rq epad tail tx0 rs
    (read_to (drop (Z.to_nat (size * nmemb)) (v_in v)) v) p.
Proof.
  intros E Hs Ht bs. pose proof (emulating_bytes _ _ _ _ _ _ _ E). destruct (size_product _ _ Ht) as [E1 E2].
  apply (yields_dispatch In _ _ _ _ _ _ _ _ _ v); [done|]. cbv zeta. rewrite E1, E2, (proj2 (Z.eqb_neq _ _)) by lia.
  apply (yields_map _ (fun bs => (bs, zlen bs / size))), emulated_reads; [done|by apply Forall_drop|].
  intros st Hr. apply reading_GetStr; [done|lia].
Qed.

Lemma yields_fwrite k ptr size nmemb rq epad tail tx0 rs v p : emulating rq epad tail tx0 rs v p ->
  k <> In -> 0 < size -> 0 < size * nmemb <= INT_MAX -> size * nmemb <= zlen ptr ->
  yields (FCGI_fwrite ptr size nmemb (file_of k)) nmemb rq epad tail tx0 rs (written_to k (take (Z.to_nat (size * nmemb)) ptr) v) p.
Proof.
  intros E Hk Hs Ht Hp. destruct (size_product _ _ Ht) as [E1 E2].
  apply (yields_dispatch k _ _ _ _ _ _ _ _ _ v); [done|]. cbv zeta. rewrite E1, E2, (proj2 (Z.eqb_neq _ _)) by lia.
  rewrite (proj2 (Z.ltb_ge _ _)), (proj2 (Z.ltb_ge _ _)) by lia. cbn [orb]. set (bs := take _ ptr).
  assert (Hbs : zlen bs = size * nmemb) by (unfold bs, zlen in *; rewrite length_take; lia).
  assert (Hn : to_ulong (zlen bs) / size = nmemb) by (rewrite Hbs, E1, Z.mul_comm; apply Z.div_mul; lia). rewrite <- Hn.
  apply (yields_map _ (fun n => to_ulong n / size)), emulated_writes; [done..|]. intros T st W. apply open_PutStr.
Qed.

(** [FCGI_SetExitStatus] is called on the input stream and changes the request's data. *)
Lemma emulated_status st rq epad tail tx0 rs v (p : P) : emulating rq epad tail tx0 rs v p ->
  exists p' rq' rs', FCGI_SetExitStatus st p = Ok (tt, p') /\ same_reader rq rq' /\
    keepConnection rq' = keepConnection rq /\ detached rq' = detached rq /\
    emulating rq' epad tail tx0 (rs ++ rs') (mkView (v_in v) (v_out v) (v_err v) st) p' /\ same_process p p'.
Proof.
  intros [S Hs]. destruct (sv_in _ _ _ _ _ _ _ S) as (si & Ei & Hi). destruct (sv_out _ _ _ _ _ _ _ S) as (so & Eo & _).
  destruct (app_call_refines (ASetExitStatus st) rq epad tail tx0 rs v (world p) S I) as (w' & rq' & rs' & E & Hq & Hk & Hd & S' & L').
  cbn [app_call view_op fst snd] in *. set (rq1 := (rd (request (world p))) <| appStatus := st |>).
  assert (Ew : Ok (RInt 0, w') = Ok (RInt 0, put_stream Out (mkSS so rq1 (cn (world p))) (world p))).
  { rewrite <- E. by erewrite bind_Ok by (apply (on_stream_Ok Out) with (st := so); done). }
  injection Ew as ->. exists (p <| world := put_stream In (mkSS si rq1 (cn (world p))) (world p) |>), rq', rs'.
  assert (Ep : put_stream Out (mkSS so rq1 (cn (world p))) (world p) = put_stream In (mkSS si rq1 (cn (world p))) (world p)).
  { clear -Ei Eo. destruct p as [[[? ? ? ? ? ?] ? ? ? ? ? ? ? ?] ? ? ? ? ? ? ?]. cbn in *. by subst. }
  rewrite Ep in S'. split.
  - unfold FCGI_SetExitStatus, deref, bind at 1, bind at 1, get. pose proof (Hs In) as Hf. cbn [file_of] in Hf. rewrite Hf. cbn [ret fcgx_stream].
    apply on_fcgx_Ok. by apply (on_stream_Ok In) with (st := si).
  - do 3 (split; [done|]). split; [by split|by apply same_process_world].
Qed.

(** Every call refines its view. *)
Lemma emulated_refines c rq epad tail tx0 rs v (p : P) : emulating rq epad tail tx0 rs v p -> call_ok c v ->
  exists p' rq' rs', emulated c p = Ok (fst (view_call c v), p') /\ same_reader rq rq' /\
    keepConnection rq' = keepConnection rq /\ detached rq' = detached rq /\
    emulating rq' epad tail tx0 (rs ++ rs') (snd (view_call c v)) p' /\ same_process p p'.
Proof.
  intros E Hc. pose proof (emulating_bytes _ _ _ _ _ _ _ E) as HX.
  assert (Hfin : yields (emulated c) (fst (view_call c v)) rq epad tail tx0 rs (snd (view_call c v)) p ->
    exists p' rq' rs', emulated c p = Ok (fst (view_call c v), p') /\ same_reader rq rq' /\
      keepConnection rq' = keepConnection rq /\ detached rq' = detached rq /\
      emulating rq' epad tail tx0 (rs ++ rs') (snd (view_call c v)) p' /\ same_process p p').
  { intros (p' & rs' & ? & ? & ?). by exists p', rq, rs'. }
  destruct c as [|size|room|size nmemb|k c|k str|str|k ptr size nmemb|k format ap|k|st]; cbn [call_ok] in Hc.
  - apply Hfin. by apply (yields_map _ Num), yields_getchar.
  - apply Hfin, (yields_map _ Line). apply (yields_dispatch In _ _ _ _ _ _ _ _ _ v); [done|].
    apply emulated_reads; [done|by apply Forall_drop|]. intros st Hr. by apply reading_GetLine.
  - apply Hfin, (yields_bind _ _ (if bool_decide (v_in v = []) then None else Some (fst (span not_newline (v_in v)))) _ _ _ _ _ _
      (snd (view_call (Gets room) v))).
    + pose proof (gets_loop_spec room (v_in v) (Z.to_nat room) [] rq epad tail tx0 rs v p E eq_refl) as G.
      cbn [app view_call] in *. destruct (span not_newline (v_in v)) as [l r]. apply G. unfold zlen in Hc. cbn [fst] in *. lia.
    + intros p' rs' E'. cbn [view_call] in *. destruct (span not_newline (v_in v)) as [l r]. cbn [fst snd] in *.
      destruct (v_in v); by apply yields_ret.
  - apply Hfin. destruct Hc. cbn [view_call fst snd].
    by apply (yields_map _ (fun r => Items (fst r) (snd r)) (sub 0 (size * nmemb) (v_in v), zlen (sub 0 (size * nmemb) (v_in v)) / size)), yields_fread.
  - apply Hfin, (yields_map _ Num). apply (yields_dispatch k _ _ _ _ _ _ _ _ _ v); [done|]. by apply yields_fputc.
  - apply Hfin, (yields_map _ Num). apply (yields_dispatch k _ _ _ _ _ _ _ _ _ v); [done|]. by apply yields_fputs.
  - apply Hfin, (yields_map _ Num). apply (yields_dispatch Out _ _ _ _ _ _ _ _ _ v); [done|].
    apply (yields_bind _ _ (zlen (c_string str)) _ _ _ _ _ _ (written_to Out (c_string str) v)); [by apply yields_fputs|].
    intros p' rs' E'. rewrite (proj2 (Z.ltb_ge _ _)) by apply zlen_nonneg. cbn [view_call snd fst]. rewrite <- written_app.
    by apply (yields_fputc Out 10).
  - apply Hfin, (yields_map _ Num). destruct Hc as (? & ? & ? & ?). by apply yields_fwrite.
  - apply Hfin, (yields_map _ Num). destruct Hc as (? & ? & ? & ?). apply (yields_dispatch k _ _ _ _ _ _ _ _ _ v); [done|].
    apply emulated_writes; [done..|]. intros T st W ? ?. by apply open_FPrintF.
  - apply Hfin, (yields_map _ Num). apply (yields_dispatch k _ _ _ _ _ _ _ _ _ v); [done|].
    eapply yields_view; [apply (emulated_writes k _ 0 [])|apply written_nil]; [done..|]. intros T st W ? ?. rewrite app_nil_r. by apply open_FFlush.
  - destruct (emulated_status st _ _ _ _ _ _ _ E) as (p' & rq' & rs' & Es & H). exists p', rq', rs'. split; [|done].
    cbn [emulated]. by rewrite (bind_Ok _ _ _ _ _ Es).
Qed.

Lemma emulated_run_refines cs : forall rq epad tail tx0 rs v (p : P), emulating rq epad tail tx0 rs v p -> calls_ok cs v ->
  exists p' rq' rs', emulated_run cs p = Ok (fst (view_calls cs v), p') /\ same_reader rq rq' /\
    keepConnection rq' = keepConnection rq /\ detached rq' = detached rq /\
    emulating rq' epad tail tx0 (rs ++ rs') (snd (view_calls cs v)) p' /\ same_process p p'.
Proof.
  induction cs as [|c cs IH]; intros rq epad tail tx0 rs v p E Hcs.
  - exists p, rq, []. rewrite app_nil_r. split_and!; try done. by destruct p.
  - destruct Hcs as [Hc Hcs]. destruct (emulated_refines c rq epad tail tx0 rs v p E Hc) as (p1 & rq1 & rs1 & E1 & Hq1 & Hk1 & Hd1 & S1 & P1).
    cbn [view_calls emulated_run]. destruct (view_call c v) as [r v1]. cbn [fst snd] in *.
    destruct (IH rq1 epad tail tx0 _ v1 p1 S1 Hcs) as (p2 & rq2 & rs2 & E2 & Hq2 & Hk2 & Hd2 & S2 & P2).
    destruct (view_calls cs v1) as [rr v2]. cbn [fst snd] in *. exists p2, rq2, (rs1 ++ rs2). rewrite app_assoc.
    split; [by rewrite (bind_Ok _ _ _ _ _ E1), (bind_Ok _ _ _ _ _ E2)|].
    split; [unfold same_reader in *; intuition congruence|]. do 2 (split; [congruence|]). split; [done|]. by apply (same_process_trans _ p1).
Qed.
End Emulated.

(** ** From [FCGI_Accept] to [FCGI_Finish] *)

Section Served.
Context {L Dbl : Type} {stdio : Stdio L Dbl} {libc : Libc Dbl} {uninit : Uninit}.
Context (web_server_addrs : option (list Z)) (OS_IsFcgi : bool) (inet_addr : list Z -> Z) (use_locking : bool).
Notation P := (Process L).
Notation FCGI_Accept := (FCGI_Accept web_server_addrs OS_IsFcgi inet_addr use_locking).

(** What a program does for one request. *)
Definition stdio_serve (cs : list (call Dbl)) : M P (option Z * list result) :=
  rc <- FCGI_Accept ;;
  rs <- emulated_run cs ;;
  FCGI_Finish ;;;
  ret (rc, rs).

(** The web server speaks FastCGI: [FCGI_Accept] has found it so, or will. *)
Definition speaks_fastcgi (p : P) : Prop :=
  (acceptCalled p = true /\ isCGI p = false) \/
  (acceptCalled p = false /\ (isFastCGI (world p) = 1 \/ (isFastCGI (world p) = -1 /\ OS_IsFcgi = true))).

(** The standard files exist. *)
Definition has_files (p : P) : Prop := forall k, exists f, files p !! file_of k = Some f.

Lemma assign_Ok fp f (p : P) : is_Some (files p !! fp) -> assign fp f p = Ok (tt, p <| files := <[fp := f]> (files p) |>).
Proof. intros [g H]. unfold assign, deref, bind, get. by rewrite H. Qed.

(** The three assignments to the standard files. *)
Definition standard (f : which -> FCGI_FILE) (p : P) : P :=
  p <| files := <[FCGI_stderr := f Err]> (<[FCGI_stdout := f Out]> (<[FCGI_stdin := f In]> (files p))) |>.

Lemma standard_at f p k : files (standard f p) !! file_of k = Some (f k).
Proof. unfold standard. cbn. by destruct k; cbn; rewrite ?lookup_insert_ne by done; rewrite lookup_insert. Qed.

Lemma assign_standard {A} (f : which -> FCGI_FILE) (m : M P A) (p : P) : has_files p ->
  (assign FCGI_stdin (f In) ;;; assign FCGI_stdout (f Out) ;;; assign FCGI_stderr (f Err) ;;; m) p = m (standard f p).
Proof.
  intros H. destruct (H In) as [? H0], (H Out) as [? H1], (H Err) as [? H2]. cbn [file_of] in *.
  set (p1 := p <| files := <[FCGI_stdin := f In]> (files p) |>).
  set (p2 := p1 <| files := <[FCGI_stdout := f Out]> (files p1) |>).
  assert (E1 : assign FCGI_stdin (f In) p = Ok (tt, p1)) by (apply assign_Ok; by eexists).
  assert (E2 : assign FCGI_stdout (f Out) p1 = Ok (tt, p2)).
  { apply assign_Ok. cbn. rewrite lookup_insert_ne by done. by eexists. }
  assert (E3 : assign FCGI_stderr (f Err) p2 = Ok (tt, standard f p)).
  { rewrite assign_Ok; [by destruct p|]. cbn. rewrite !lookup_insert_ne by done. by eexists. }
  by rewrite (bind_Ok _ _ _ _ _ E1), (bind_Ok _ _ _ _ _ E2), (bind_Ok _ _ _ _ _ E3).
Qed.

(** The world after [FCGX_IsCGI]. *)
Definition asked (w : World) (g : Z) : World := w <| isFastCGI := g |>.

(** [FCGI_Accept] under FastCGI is [FCGX_Accept_r] and the assignments. *)
Lemma FCGI_Accept_fastcgi (p : P) : speaks_fastcgi p -> has_files p -> FcgiRequest.libInitialized (world p) = true ->
  exists g, forall w', FCGX_Accept_r inet_addr use_locking (asked (world p) g) = Ok (0, w') ->
    exists p', FCGI_Accept p = Ok (Some 0, p') /\ world p' = w' /\ on_streams p' /\ acceptCalled p' = true /\
      isCGI p' = false /\ lib p' = lib p /\ environ p' = envp (request w').
Proof.
  intros Hf Hfiles Hl. set (st := fun k : which => mkFile None (Some k)).
  assert (G : forall (q : P) w', has_files q -> isCGI q = false -> acceptCalled q = true -> FcgiRequest.libInitialized (world q) = true ->
    FCGX_Accept_r inet_addr use_locking (world q) = Ok (0, w') -> 
    exists p', (p <- get ;;
      if isCGI p then
        assign FCGI_stdin (mkFile (Some c_stdin) None) ;;;
        assign FCGI_stdout (mkFile (Some c_stdout) None) ;;;
        assign FCGI_stderr (mkFile (Some c_stderr) None) ;;;
        ret (Some 0)
      else
        acceptResult <- on_world (FCGX_Accept web_server_addrs inet_addr use_locking) ;;
        if acceptResult <? 0 then ret (Some acceptResult) else
        assign FCGI_stdin (mkFile None (Some In)) ;;;
        assign FCGI_stdout (mkFile None (Some Out)) ;;;
        assign FCGI_stderr (mkFile None (Some Err)) ;;;
        modify (fun p => p <| environ := envp (request (world p)) |>) ;;;
        ret (Some 0)) q = Ok (Some 0, p') /\ world p' = w' /\ on_streams p' /\ acceptCalled p' = true /\
      isCGI p' = false /\ lib p' = lib q /\ environ p' = envp (request w')).
  { intros q w' Hq Hc Ha Hi E. unfold bind at 1, get. rewrite Hc.
    assert (Ex : on_world (FCGX_Accept web_server_addrs inet_addr use_locking) q = Ok (0, q <| world := w' |>)).
    { unfold on_world, zoom, FCGX_Accept, bind, get. rewrite Hi. cbn [ret Z.eqb negb]. by rewrite E. }
    rewrite (bind_Ok _ _ _ _ _ Ex). cbn [Z.ltb Z.compare].
    rewrite (assign_standard st) by exact Hq. eexists. split; [reflexivity|]. cbn. split_and!; try done. intros k.
    change (files (standard st (q <| world := w' |>)) !! file_of k = Some (st k)). apply standard_at. }
  destruct Hf as [[Ha Hc]|[Ha Hg]].
  - exists (isFastCGI (world p)). intros w' E. unfold FCGI_Accept, bind at 1, get at 1. rewrite Ha. cbn [negb].
    unfold bind at 1. rewrite Hc. cbn [ret]. apply G; try done. rewrite <- E. by destruct p as [[]].
  - exists 1. intros w' E. unfold FCGI_Accept, bind at 1, get at 1. rewrite Ha. cbn [negb].
    assert (Ex : on_world (FCGX_IsCGI web_server_addrs OS_IsFcgi) p = Ok (Some false, p <| world := asked (world p) 1 |>)).
    { unfold on_world, zoom, FCGX_IsCGI, bind, get. destruct Hg as [Hg|[Hg ->]]; rewrite Hg; cbn [Z.eqb Z.opp negb].
      - destruct p as [[]]; cbn in *. by subst.
      - rewrite Hl. done. }
    unfold bind at 1. rewrite (bind_Ok _ _ _ _ _ Ex). unfold bind at 1 2 3, modify at 1 2 3. cbn [ret].
    set (q := _ <| at_exit := true |>). by apply (G q).
Qed.

Definition closed_file : FCGI_FILE := mkFile None None.

Lemma forget_stream {A} fp x (m : M P A) (p : P) : files p !! fp = Some (mkFile None x) ->
  (f <- deref fp ;; assign fp (mkFile (stdio_stream f) None) ;;; m) p = m (p <| files := <[fp := closed_file]> (files p) |>).
Proof.
  intros H. assert (E : deref fp p = Ok (mkFile None x, p)) by (unfold deref, bind, get; by rewrite H).
  rewrite (bind_Ok _ _ _ _ _ E). by rewrite (bind_Ok _ _ _ _ _ (assign_Ok fp _ p ltac:(by eexists))).
Qed.

(** [FCGI_Finish] is [FCGX_Finish_r], and the standard files are closed. *)
Lemma FCGI_Finish_fastcgi (p : P) w' : acceptCalled p = true -> isCGI p = false -> on_streams p ->
  FCGX_Finish_r (world p) = Ok (tt, w') ->
  exists p', FCGI_Finish p = Ok (tt, p') /\ world p' = w' /\ (forall k, files p' !! file_of k = Some closed_file) /\
    acceptCalled p' = true /\ isCGI p' = false /\ lib p' = lib p /\ environ p' = None.
Proof.
  intros Ha Hc Hs E. pose proof (Hs In) as H0. pose proof (Hs Out) as H1. pose proof (Hs Err) as H2. cbn [file_of] in *.
  set (p1 := p <| world := w' |>). set (p2 := standard (fun _ => closed_file) p1 <| environ := None |>).
  assert (Ex : on_world FCGX_Finish p = Ok (tt, p1)) by (unfold on_world, zoom, FCGX_Finish; by rewrite E).
  exists p2. split; [|split_and!; try done; intros k; change (files p2) with (files (standard (fun _ => closed_file) p1)); apply standard_at].
  unfold FCGI_Finish, bind at 1, get. rewrite Ha, Hc. cbn [negb orb]. rewrite (bind_Ok _ _ _ _ _ Ex).
  rewrite (forget_stream _ (Some In)) by done.
  rewrite (forget_stream _ (Some Out)) by (cbn; by rewrite lookup_insert_ne).
  rewrite (forget_stream _ (Some Err)) by (cbn; by rewrite !lookup_insert_ne). by destruct p.
Qed.
End Served.

(** ** CGI *)

Section Cgi.
Context {L Dbl : Type} {stdio : Stdio L Dbl} {libc : Libc Dbl} {uninit : Uninit}.
Context (web_server_addrs : option (list Z)) (OS_IsFcgi : bool) (inet_addr : list Z -> Z) (use_locking : bool).
Notation P := (Process L).
Notation FCGI_Accept := (FCGI_Accept web_server_addrs OS_IsFcgi inet_addr use_locking).

(** The C library's standard file. *)
Definition c_file (k : which) : Z := match k with In => c_stdin | Out => c_stdout | Err => c_stderr end.

(** The line that [gets] reads with [getchar]. *)
Fixpoint libc_gets (fuel : nat) (str : list Z) : M L (option (list Z)) :=
  match fuel with
  | O => crash MemFault
  | S fuel =>
      c <- fgetc c_stdin ;;
      if c =? 10 then ret (Some str)
      else if c =? EOF then ret (match str with [] => None | _ => Some str end)
      else libc_gets fuel (str ++ [uchar c])
  end.

(** The calls of the C library. *)
Definition libc_call (c : call Dbl) : M L result :=
  match c with
  | Getchar => n <- fgetc c_stdin ;; ret (Num n)
  | Fgets size => l <- fgets size c_stdin ;; ret (Line l)
  | Gets room => l <- libc_gets (Z.to_nat room) [] ;; ret (Line l)
  | Fread size nmemb => r <- fread size nmemb c_stdin ;; ret (Items (fst r) (snd r))
  | Fputc k c => n <- fputc c (c_file k) ;; ret (Num n)
  | Fputs k str => n <- fputs str (c_file k) ;; ret (Num n)
  | Puts str => n <- fputs str c_stdout ;; if n <? 0 then ret (Num n) else n <- fputc 10 c_stdout ;; ret (Num n)
  | Fwrite k ptr size nmemb => n <- fwrite ptr size nmemb (c_file k) ;; ret (Num n)
  | Fprintf k format ap => n <- vfprintf (c_file k) (render format) ap ;; ret (Num n)
  | Fflush k => n <- fflush (Some (c_file k)) ;; ret (Num n)
  | SetExitStatus _ => ret (Num 0)
  end.

Fixpoint libc_run (cs : list (call Dbl)) : M L (list result) :=
  match cs with
  | [] => ret []
  | c :: cs => r <- libc_call c ;; rs <- libc_run cs ;; ret (r :: rs)
  end.

(** The standard files are those of the C library. *)
Definition on_libc (p : P) : Prop := forall k, files p !! file_of k = Some (mkFile (Some (c_file k)) None).

(** [m] on the process does what [n] does on the C library. *)
Definition mirrors {A} (m : M P A) (n : M L A) : Prop := forall p, on_libc p -> m p = on_lib n p.

Lemma mirrors_bind {A B} (m : M P A) n (f : A -> M P B) g : mirrors m n -> (forall a, mirrors (f a) (g a)) ->
  mirrors (bind m f) (bind n g).
Proof.
  intros Hm Hf p Hp. unfold bind. rewrite (Hm p Hp). unfold on_lib, zoom. destruct (n (lib p)) as [[a l]|e|]; [|done..].
  rewrite (Hf a (p <| lib := l |>)) by done. unfold on_lib, zoom. cbn. by destruct (g a l) as [[]|e|].
Qed.

Lemma mirrors_ret {A} (a : A) : mirrors (ret a) (ret a).
Proof. intros p _. by destruct p. Qed.

Lemma mirrors_dispatch {A} k (s : Z -> M P A) x n m : mirrors (s (c_file k)) m -> mirrors (dispatch (file_of k) s x n) m.
Proof. intros H p Hp. rewrite <- (H p Hp). unfold dispatch, deref, bind, get. by rewrite (Hp k). Qed.

Lemma mirrors_lib {A} (m : M L A) : mirrors (on_lib m) m.
Proof. done. Qed.

Lemma mirrors_gets room fuel : forall str, mirrors (gets_loop fuel room str) (libc_gets fuel str).
Proof.
  induction fuel as [|fuel IH]; intros str; [done|]. cbn [gets_loop libc_gets]. apply mirrors_bind.
  - apply (mirrors_dispatch In), mirrors_lib.
  - intros c. destruct (c =? 10); [apply mirrors_ret|]. destruct (c =? EOF); [apply mirrors_ret|apply IH].
Qed.

Lemma mirrors_call c : mirrors (emulated c) (libc_call c).
Proof.
  destruct c; try (apply mirrors_bind; [|intros; apply mirrors_ret]).
  - apply (mirrors_dispatch In), mirrors_lib.
  - apply (mirrors_dispatch In), mirrors_lib.
  - apply mirrors_gets.
  - apply (mirrors_dispatch In), mirrors_lib.
  - apply mirrors_dispatch, mirrors_lib.
  - apply mirrors_dispatch, mirrors_lib.
  - intros p Hp. unfold emulated, FCGI_puts. unfold bind at 1. rewrite (mirrors_dispatch Out _ _ _
      (n <- fputs str c_stdout ;; if n <? 0 then ret n else fputc 10 c_stdout)); [|apply mirrors_bind; [apply mirrors_lib|]|done].
    + unfold libc_call, on_lib, zoom, bind. destruct (fputs str c_stdout (lib p)) as [[n l]|e|]; [|done..].
      destruct (n <? 0); [done|]. by destruct (fputc 10 c_stdout l) as [[]|e|].
    + intros n. destruct (n <? 0); [apply mirrors_ret|apply mirrors_lib].
  - apply mirrors_dispatch, mirrors_lib.
  - apply mirrors_dispatch, mirrors_lib.
  - apply mirrors_dispatch, mirrors_lib.
  - intros p Hp. cbn [emulated libc_call]. unfold FCGI_SetExitStatus, deref, bind, get. pose proof (Hp In) as H. cbn [file_of] in H.
    rewrite H. by destruct p.
Qed.

Lemma mirrors_run cs : mirrors (emulated_run cs) (libc_run cs).
Proof.
  induction cs as [|c cs IH]; [apply mirrors_ret|]. cbn [emulated_run libc_run].
  apply mirrors_bind; [apply mirrors_call|]. intros r. apply mirrors_bind; [done|]. intros rs. apply mirrors_ret.
Qed.
End Cgi.

(** ** The theorems *)

Section Theorems.
Context {L Dbl : Type} {stdio : Stdio L Dbl} {libc : Libc Dbl} {uninit : Uninit}.
Context (web_server_addrs : option (list Z)) (OS_IsFcgi : bool) (inet_addr : list Z -> Z) (use_locking : bool).
Notation P := (Process L).



(** on an output stream that was closed, by an error of its connection for one, [FCGI_fwrite]
    returns at least the number of items it was given, so that the program cannot see the error: the
    [-1] of [FCGX_PutStr] is converted to [size_t] before it is divided by the size. *)
Theorem fwrite_error_is_success k st ptr size nmemb (p : P) : on_streams p ->
  stream_of_request k (request (world p)) = Some st -> k <> In -> isClosed st = true -> wrNext st = stop st ->
  0 < size -> 0 < size * nmemb <= INT_MAX -> size * nmemb <= zlen ptr ->
  exists p', FCGI_fwrite ptr size nmemb (file_of k) p = Ok (ULONG_MAX / size, p') /\ nmemb <= ULONG_MAX / size /\
    received (world p') = received (world p) /\ tx (cn (world p')) = tx (cn (world p)).
Proof.
  intros Hs Est Hk Hcl Hw Hsz Ht Hp. destruct (size_product _ _ Ht) as [E1 E2]. set (bs := take (Z.to_nat (size * nmemb)) ptr).
  assert (Hbs : zlen bs = size * nmemb) by (unfold bs, zlen in *; rewrite length_take; lia).
  set (ss := mkSS st (rd (request (world p))) (cn (world p))).
  assert (E : @FCGX_PutStr writer_procs bs ss = Ok (-1, ss)).
  { unfold FCGX_PutStr, bind at 1, get. cbn [strm ss]. rewrite Hw, (proj2 (Z.leb_gt _ _)) by lia.
    rewrite Nat.add_comm. cbn [Nat.add PutStr_loop]. unfold bind at 1, get. cbn [strm ss]. rewrite Hw, Z.eqb_refl. cbn [negb].
    unfold bind at 1, ret at 1. unfold bind at 1. cbn [strm ss]. by rewrite Hcl. }
  assert (Ex : on_fcgx k (fun procs => @FCGX_PutStr procs bs) p = Ok (-1, p <| world := put_stream k ss (world p) |>)).
  { apply on_fcgx_Ok. destruct k; [done|..]; by apply (on_stream_Ok _ _ _ st). }
  exists (p <| world := put_stream k ss (world p) |>). split; [|split; [|by destruct k]].
  - unfold FCGI_fwrite. rewrite dispatch_stream by done. cbv zeta. rewrite E1, E2, (proj2 (Z.eqb_neq _ _)) by lia.
    rewrite (proj2 (Z.ltb_ge _ _)), (proj2 (Z.ltb_ge _ _)) by lia. cbn [orb]. fold bs. by rewrite (bind_Ok _ _ _ _ _ Ex).
  - apply Z.div_le_lower_bound; [lia|]. unfold ULONG_MAX, INT_MAX in *. lia.
Qed.
End Theorems.

(** A C library whose three standard files are lists, and processes that use it. *)
Module StdioSample.
Record Mem := mkMem { m_in : list Z; m_out : list Z; m_err : list Z }.

Definition write (h : Z) (bs : list Z) : M Mem unit :=
  modify (fun m => if h =? 1 then mkMem (m_in m) (m_out m ++ bs) (m_err m)
                   else if h =? 2 then mkMem (m_in m) (m_out m) (m_err m ++ bs) else m).

Definition read {A} (f : list Z -> A * list Z) : M Mem A :=
  m <- get ;; let '(a, rest) := f (m_in m) in modify (fun m => mkMem rest (m_out m) (m_err m)) ;;; ret a.

#[local] Instance mem_stdio : Stdio Mem unit := {|
  c_stdin := 0; c_stdout := 1; c_stderr := 2;
  fopen _ _ := ret None;
  fclose _ := ret EOF;
  fflush _ := ret 0;
  freopen _ _ _ := ret None;
  setvbuf _ _ _ _ := ret 0;
  setbuf _ _ := ret tt;
  fseek _ _ _ := ret (-1);
  ftell _ := ret (-1);
  rewind _ := ret tt;
  fgetpos _ := ret (-1, 0);
  fsetpos _ _ := ret (-1);
  fgetc _ := read (fun l => (head_or EOF l, drop 1 l));
  ungetc c _ := m <- get ;; modify (fun m => mkMem (c :: m_in m) (m_out m) (m_err m)) ;;; ret c;
  fgets size _ := read (fun l => let line := take_line (Z.to_nat (size - 1)) l in
                                 (match l with [] => None | _ => Some line end, drop (length line) l));
  fputc c h := write h [uchar c] ;;; ret (uchar c);
  fputs str h := write h (c_string str) ;;; ret 1;
  vfprintf h format _ := write h format ;;; ret (zlen format);
  fread size n _ := read (fun l => let bs := sub 0 (size * n) l in ((bs, zlen bs / size), drop (length bs) l));
  fwrite ptr size n h := write h (take (Z.to_nat (size * n)) ptr) ;;; ret n;
  feof _ := ret 0;
  ferror _ := ret 0;
  clearerr _ := ret tt;
  tmpfile := ret None;
  fileno h := ret h;
  fdopen _ _ := ret None;
  popen _ _ := ret None;
  pclose _ := ret (-1);
  strerror _ := [] |}.

Definition no_files : gmap Z FCGI_FILE := <[2 := closed_file]> (<[1 := closed_file]> (<[0 := closed_file]> ∅)).

Definition process : Process Mem := mkProcess Sample.world (mkMem [97; 10; 98] [] []) no_files [] false false false None.

Definition calls : list (call unit) :=
  [Puts [79; 75]; Gets 10; Fprintf Err [Lit [110; 61]; PrintfSample.conv [] WNone PNone 100] [AInt 7]; Getchar;
   Fwrite Out [1; 2; 3; 4] 2 2; Fflush Out; SetExitStatus 3].

Lemma process_files : has_files process.
Proof. intros []; by eexists. Qed.

Lemma calls_fit st : calls_ok (libc := ZeroFloat.libc) calls (mkView [104; 105; 33] [] [] st).
Proof.
  cbn -[INT_MAX]. split_and!; try done.
  - constructor; [by apply (bool_decide_unpack (37 ∉ [110; 61]))|].
    constructor; [apply PrintfSample.conv_fits; [set_solver|done..]|constructor].
Qed.
End StdioSample.

#[local] Existing Instance StdioSample.mem_stdio.



Lemma fwrite_error_is_success_witness : let uninit := Sample.zero_stack in
  let p := mkProcess (L := StdioSample.Mem) (Sample.world <| request := (request Sample.world) <| out :=
      Some ((NewWriter 0 64 FCGI_STDOUT) <| isClosed := true |> <| stop := 8 |>) |> |>) (StdioSample.mkMem [] [] [])
    (files (standard (fun k => mkFile None (Some k)) StdioSample.process)) [] true false true None in
  exists p', FCGI_fwrite (Dbl := unit) [1; 2; 3] 1 3 FCGI_stdout p = Ok (ULONG_MAX, p') /\ 3 <= ULONG_MAX.
Proof.
  intros uninit p.
  destruct (fwrite_error_is_success (Dbl := unit) Out ((NewWriter 0 64 FCGI_STDOUT) <| isClosed := true |> <| stop := 8 |>) [1; 2; 3] 1 3 p)
    as (p' & E & H & _); try done.
  - intros []; reflexivity.
  - rewrite Z.div_1_r in *. by exists p'.
Defined.
