(* ===== verification/CgiFcgi.v ===== *)
(** * The CGI bridge: [cgi-fcgi/cgi-fcgi.c]

    The program that a web server runs as a CGI script and that forwards the request to a
    FastCGI application: it sends [BEGIN_REQUEST] and its environment, feeds its standard input
    as [STDIN] records, and copies the application's records to its standard output and error.
    What it sends is what [FCGX_Accept_r] takes ([FcgiServe]), and what [FCGX_Finish_r] sends is
    what it copies. *)

From S2P Require Import Prelude FcgiProto FcgiStream FcgiWriter FcgiParams FcgiReader FcgiRecords FcgiRequest OsAccept OsAsync FcgiServe.

(** ** Sending the request *)

(** [MakeBeginRequestBody]; the assertion is that the role fits 16 bits. *)
Definition MakeBeginRequestBody (role : Z) (keepConnection : bool) : res FCGI_BeginRequestBody :=
  if negb (Z.shiftr role 16 =? 0) then Crash AssertFail else
  Ok {| roleB1 := uchar (Z.land (Z.shiftr role 8) 255);
        roleB0 := uchar (Z.land role 255);
        flags_ := uchar (if keepConnection then FCGI_KEEP_CONN else 0);
        br_reserved := [0; 0; 0; 0; 0] |}.

(** One length of [FCGIUtil_BuildNameValueHeader]; [len] is an [int]. *)
Definition build_length (len : Z) : res (list Z) :=
  if negb (0 <=? len) then Crash AssertFail else
  if len <? 128 then Ok [uchar len]
  else Ok [uchar (Z.lor (Z.shiftr len 24) 128); uchar (Z.shiftr len 16); uchar (Z.shiftr len 8); uchar len].

Definition FCGIUtil_BuildNameValueHeader (nameLen valueLen : Z) : res (list Z) :=
  rbind (build_length nameLen) (fun n => rbind (build_length valueLen) (fun v => Ok (n ++ v))).

(** [strchr( *envp, '=')]: the name and the value of a variable. *)
Fixpoint split_eq (s : list Z) : option (list Z * list Z) :=
  match s with
  | [] => None
  | c :: s => if c =? 61 then Some ([], s)
              else match split_eq s with Some (n, v) => Some (c :: n, v) | None => None end
  end.

(** One [write]: the number of bytes it took, or -1. *)
Definition OS_Write (fd : Z) (bs : list Z) : M Conn Z :=
  c <- get ;;
  if fd <? 0 then modify (fun c => c <| os_errno := EBADF |>) ;;; ret (-1) else
  match wr c with
  | [] => modify (fun c => c <| tx := tx c ++ bs |>) ;;; ret (zlen bs)
  | WrErr e :: w => modify (fun c => c <| wr := w |> <| os_errno := e |>) ;;; ret (-1)
  | WrAccept n :: w =>
      modify (fun c => c <| wr := w |> <| tx := tx c ++ take n bs |>) ;;; ret (zlen (take n bs))
  end.

(** The loop over the environment: [Some code] when the program exits. *)
Fixpoint send_env (envp : list (list Z)) : M SS (option Z) :=
  match envp with
  | [] => ret None
  | e :: envp =>
    match split_eq e with
    | None => ret (Some 1000)
    | Some (name, value) =>
        headerBuff <- lift (FCGIUtil_BuildNameValueHeader (zlen name) (zlen value)) ;;
        r1 <- @FCGX_PutStr writer_procs headerBuff ;;
        bad <- (if r1 <? 0 then ret true else
                r2 <- @FCGX_PutStr writer_procs name ;;
                if r2 <? 0 then ret true else
                r3 <- @FCGX_PutStr writer_procs value ;;
                ret (r3 <? 0)) ;;
        if bad : bool then e <- FCGX_GetError ;; ret (Some e) else send_env envp
    end
  end.

(** [main] from the connection to the end of the environment: [mBuff] is the address of the
    buffer of [paramsStream]. *)
Definition send_request (mBuff appServerSock : Z) (envp : list (list Z)) : M Conn (option Z) :=
  let requestId := 1 in
  header <- lift (MakeHeader FCGI_BEGIN_REQUEST requestId 8 0) ;;
  body <- lift (MakeBeginRequestBody FCGI_RESPONDER false) ;;
  count <- OS_Write appServerSock (header_bytes header ++ begin_body_bytes body) ;;
  if negb (count =? 16) then c <- get ;; ret (Some (os_errno c)) else
  c <- get ;;
  let paramsStream := FCGX_CreateWriter mBuff appServerSock requestId 8192 FCGI_PARAMS c in
  r <- (fun c => match send_env envp paramsStream with
                 | Ok (r, s) => Ok ((r, s), conn s) | Crash f => Crash f | NoFuel => NoFuel end) ;;
  match fst r with
  | Some code => ret (Some code)
  | None =>
      (fun c => match @FCGX_FClose writer_procs (snd r) with
                | Ok (_, s) => Ok (tt, conn s) | Crash f => Crash f | NoFuel => NoFuel end) ;;;
      ret None
  end.

Lemma build_length_Ok n : 0 <= n <= INT_MAX -> build_length n = Ok (nv_enc_len n).
Proof.
  unfold INT_MAX. intros Hn. unfold build_length, nv_enc_len. cdecide. cbn [negb].
  destruct (Z.ltb_spec n 128); [by rewrite uchar_small by (unfold is_byte; lia)|].
  assert (Hq : 0 <= n / 16777216 < 128) by (split; [apply Z.div_pos|apply Z.div_lt_upper_bound]; lia).
  rewrite shiftr_24, shiftr_16, shiftr_8, <- Z.add_nocarry_lor by (by apply land_128_low).
  rewrite (uchar_small (_ + 128)) by (unfold is_byte; lia). by rewrite Z.add_comm.
Qed.

(** The environment as name-value pairs. *)
Definition env_pairs (envp : list (list Z)) : option (list (list Z * list Z)) := mapM split_eq envp.

Lemma split_eq_spec s n v : split_eq s = Some (n, v) -> s = nv_string (n, v) /\ 61 ∉ n.
Proof.
  revert n. induction s as [|c s IH]; intros n; cbn; [done|]. destruct (Z.eqb_spec c 61) as [->|Hc].
  - intros [= <- <-]. split; [done|]. apply not_elem_of_nil.
  - destruct (split_eq s) as [[n' v']|]; [|done]. intros [= <- ->].
    destruct (IH n' eq_refl) as [-> Hn]. split; [done|]. rewrite elem_of_cons. intuition.
Qed.

Lemma nv_string_split n v : 61 ∉ n -> split_eq (nv_string (n, v)) = Some (n, v).
Proof.
  induction n as [|c n IH]; intros Hn; [done|]. rewrite elem_of_cons in Hn.
  change (nv_string (c :: n, v)) with (c :: nv_string (n, v)). cbn [split_eq].
  rewrite (proj2 (Z.eqb_neq c 61)) by intuition. by rewrite IH by tauto.
Qed.

Section Send.
Context (rq : ReqData) (rx0 : list rd_event) (tx0 base : list Z).
Local Notation at_ := (@snk_at writer_procs (framed_sink FCGI_PARAMS rq rx0 tx0 base)).

Lemma put_Ok s W bs : at_ s W -> exists s', @FCGX_PutStr writer_procs bs s = Ok (zlen bs, s') /\ at_ s' (W ++ bs).
Proof. apply (@FCGX_PutStr_spec _ (framed_sink FCGI_PARAMS rq rx0 tx0 base)). Qed.

Lemma send_env_spec envp : forall ps s W, env_pairs envp = Some ps -> Forall nv_fits ps -> at_ s W ->
  exists s', send_env envp s = Ok (None, s') /\ at_ s' (W ++ nv_encode ps).
Proof.
  induction envp as [|e envp IH]; intros ps s W He Hf H; cbn in He.
  - injection He as <-. exists s. by rewrite app_nil_r.
  - destruct (split_eq e) as [[n v]|] eqn:Es; [|done]. cbn in He.
    destruct (env_pairs envp) as [ps'|] eqn:Ep; unfold env_pairs in Ep; rewrite Ep in He; [|done]. injection He as <-.
    inversion_clear Hf as [|? ? Hnv Hf']. unfold nv_fits in Hnv. cbn [fst snd] in Hnv.
    pose proof (zlen_nonneg n) as Hn0. pose proof (zlen_nonneg v) as Hv0.
    cbn [send_env]. rewrite Es. unfold FCGIUtil_BuildNameValueHeader.
    rewrite !build_length_Ok by lia. cbn [rbind]. unfold bind at 1, lift.
    destruct (put_Ok s W (nv_enc_len (zlen n) ++ nv_enc_len (zlen v)) H) as (s1 & E1 & H1).
    destruct (put_Ok s1 _ n H1) as (s2 & E2 & H2). destruct (put_Ok s2 _ v H2) as (s3 & E3 & H3).
    pose proof (zlen_nonneg (nv_enc_len (zlen n) ++ nv_enc_len (zlen v))) as Hh0.
    erewrite bind_Ok by exact E1. erewrite (bind_Ok _ _ s1 false s3).
    2:{ cdecide. erewrite bind_Ok by exact E2. cdecide. erewrite bind_Ok by exact E3. by cdecide. }
    cbv iota. destruct (IH ps' s3 _ eq_refl Hf' H3) as (s' & E & H'). exists s'. split; [exact E|].
    rewrite <- !app_assoc in H'.
    by replace (nv_encode ((n, v) :: ps')) with (nv_enc_len (zlen n) ++ nv_enc_len (zlen v) ++ n ++ v ++ nv_encode ps')
      by (cbn; unfold nv_enc; cbn [fst snd]; by rewrite <- !app_assoc).
Qed.
End Send.

(** The begin record that the bridge sends. *)
Definition bridge_begin : rec := mkRec FCGI_BEGIN_REQUEST 1 [0; 1; 0; 0; 0; 0; 0; 0] [].

(** The first [write] of [main] is not cut short. *)
Definition begin_fits (w : list wr_event) : Prop := forall n w', w = WrAccept n :: w' -> (16 <= n)%nat.

Lemma writer_content T id prs : T <> FCGI_BEGIN_REQUEST -> Forall (from_writer T id) prs ->
  rd_content T id prs = stream_of T prs.
Proof.
  intros HT. induction 1 as [|r prs (_ & Ht & Hi & _) _ IH]; [done|].
  change (rd_content T id (r :: prs)) with ((if is_ours T id r then r_content r else []) ++ rd_content T id prs).
  change (r :: prs) with ([r] ++ prs). rewrite stream_of_app, IH, stream_of_one by done. f_equal.
  unfold is_ours. by rewrite Ht, Hi, Z.eqb_refl, (proj2 (Z.eqb_neq _ _) HT).
Qed.

Lemma writer_deliverable T id prs : T <> FCGI_BEGIN_REQUEST -> id <> 0 -> Forall (from_writer T id) prs ->
  Forall (deliverable T id) prs.
Proof.
  intros HT Hid H. eapply List.Forall_impl; [|exact H]. intros r (Hok & Ht & Hi & Hc).
  split; [done|]. split; [done|]. split; [congruence|]. by rewrite Ht, (proj2 (Z.eqb_neq _ _) HT).
Qed.

Lemma send_request_spec mBuff sock envp ps c : 0 <= sock -> accepts (wr c) -> begin_fits (wr c) ->
  env_pairs envp = Some ps -> Forall nv_fits ps ->
  exists c' prs, send_request mBuff sock envp c = Ok (None, c') /\ rx c' = rx c /\ accepts (wr c') /\
    Forall (from_writer FCGI_PARAMS 1) prs /\ stream_of FCGI_PARAMS prs = nv_encode ps /\
    tx c' = tx c ++ request_bytes bridge_begin prs [].
Proof.
  intros Hs Ha Hb He Hf. unfold send_request. unfold bind at 1, lift. cbn [MakeHeader].
  assert (Hw : exists c1, OS_Write sock (enc bridge_begin) c = Ok (16, c1) /\ tx c1 = tx c ++ enc bridge_begin /\
    rx c1 = rx c /\ accepts (wr c1)).
  { unfold OS_Write, bind at 1, get at 1. cdecide. destruct (wr c) as [|[n|e] w] eqn:Ew.
    - eexists. split; [reflexivity|]. cbn -[enc]. by rewrite Ew.
    - specialize (Hb n w eq_refl). inversion_clear Ha as [|? ? _ Ha'].
      rewrite take_ge by (cbn; lia). eexists. split; [reflexivity|]. done.
    - by inversion Ha. }
  destruct Hw as (c1 & E1 & Htx1 & Hrx1 & Ha1).
  change (MakeHeader FCGI_BEGIN_REQUEST 1 8 0) with (Ok (header_of FCGI_BEGIN_REQUEST 1 8 0)).
  cbv iota beta. change (MakeBeginRequestBody FCGI_RESPONDER false) with
    (Ok (mkFCGI_BeginRequestBody 0 1 0 [0; 0; 0; 0; 0])). unfold bind at 1. cbv iota beta.
  erewrite bind_Ok by exact E1. cbn [negb Z.eqb Pos.eqb]. unfold bind at 1, get at 1.
  set (rq := req_zero <| FcgiStream.ipcFd := sock |> <| requestId := 1 |> <| nWriters := 2 |>).
  pose proof (NewWriter_open mBuff 8192 FCGI_PARAMS rq ltac:(by vm_compute) ltac:(cbn; lia) Hs c1 Ha1) as H0.
  destruct (send_env_spec rq (rx c1) (tx c1) [] envp ps _ [] He Hf H0) as (s2 & E2 & H2).
  destruct (FClose_writer_spec _ _ _ _ _ _ _ H2) as (s3 & prs & E3 & Hprs & HW & Htx3 & _ & Hrx3 & Ha3 & _).
  exists (conn s3), prs. split.
  - unfold bind at 1. unfold FCGX_CreateWriter. fold rq. rewrite E2. cbn [fst snd].
    unfold bind. by rewrite E3.
  - split; [congruence|]. split; [done|]. split; [done|]. split; [exact HW|].
    rewrite Htx3, Htx1. unfold request_bytes, eof_recs, end_recs. cbn [rq]. rewrite wire_app, <- !app_assoc.
    done.
Qed.

Lemma nv_enc_len_bytes n : 0 <= n <= INT_MAX -> Forall is_byte (nv_enc_len n).
Proof.
  unfold INT_MAX, nv_enc_len. intros Hn. destruct (Z.ltb_spec n 128).
  - repeat constructor; lia.
  - assert (0 <= n / 16777216 < 128) by (split; [apply Z.div_pos|apply Z.div_lt_upper_bound]; lia).
    repeat (constructor; [unfold is_byte; try lia; apply Z.mod_pos_bound; lia|]). constructor.
Qed.

Lemma nv_encode_bytes ps : Forall nv_fits ps -> Forall (fun nv => Forall is_byte (fst nv ++ snd nv)) ps ->
  Forall is_byte (nv_encode ps).
Proof.
  intros Hf Hb. induction Hf as [|[n v] ps Hnv _ IH]; [constructor|]. inversion_clear Hb as [|? ? H1 H2].
  change (nv_encode ((n, v) :: ps)) with (nv_enc (n, v) ++ nv_encode ps). unfold nv_fits in Hnv. cbn [fst snd] in *.
  pose proof (zlen_nonneg n). pose proof (zlen_nonneg v).
  apply Forall_app. split; [|by apply IH]. unfold nv_enc. cbn [fst snd].
  rewrite app_assoc. apply Forall_app. split; [|done]. apply Forall_app. split; apply nv_enc_len_bytes; lia.
Qed.

Lemma env_pairs_bytes envp : forall ps, env_pairs envp = Some ps -> Forall (Forall is_byte) envp ->
  Forall (fun nv => Forall is_byte (fst nv ++ snd nv)) ps /\ Forall (fun nv => 61 ∉ fst nv) ps.
Proof.
  unfold env_pairs. induction envp as [|e envp IH]; intros ps E H; cbn in E.
  - injection E as <-. by split; constructor.
  - destruct (split_eq e) as [[n v]|] eqn:Es; [|done]. cbn in E.
    destruct (mapM split_eq envp) as [ps'|]; [|done]. injection E as <-.
    inversion_clear H as [|? ? H1 H2]. destruct (IH ps' eq_refl H2) as [IH1 IH2].
    destruct (split_eq_spec e n v Es) as [-> Hn]. unfold nv_string in H1. cbn [fst snd] in H1.
    apply Forall_app in H1 as [H1 [_ H3]%Forall_app].
    split; constructor; try done. by apply Forall_app.
Qed.

(** An environment that the program can send: variables with a [=], of bytes, that the library
    can read. *)
Definition env_ok (envp : list (list Z)) (ps : list (list Z * list Z)) : Prop :=
  env_pairs envp = Some ps /\ Forall (Forall is_byte) envp /\ Forall nv_fits ps /\ zlen (nv_encode ps) < 536870911.

Lemma bridge_request_ok prs envp ps : env_ok envp ps -> Forall (from_writer FCGI_PARAMS 1) prs ->
  stream_of FCGI_PARAMS prs = nv_encode ps -> request_ok bridge_begin prs ps.
Proof.
  intros (He & Hb & Hf & Hl) Hprs Hs. destruct (env_pairs_bytes envp ps He Hb) as [Hps _].
  pose proof (writer_content FCGI_PARAMS 1 prs ltac:(done) Hprs) as Hc. rewrite Hs in Hc.
  split; cbn [r_id bridge_begin].
  - split; [by repeat split; vm_compute|done].
  - split; [done|]. repeat (constructor; [unfold is_byte; lia|]). constructor.
  - done.
  - by apply writer_deliverable.
  - rewrite Hc. by apply nv_encode_bytes.
  - by rewrite Hc.
  - rewrite Hc. apply nv_parse_encode; [done|lia].
Qed.

(** The environment that [FCGX_Accept_r] left for the application. *)
Definition envp_of (w : World) : option (list slot) := FcgiRequest.envp (request w).

(** C12: the bridge and the library agree on the environment: what [cgi-fcgi] sends for its
    environment, in whatever pieces it reaches the application, makes [FCGX_Accept_r] succeed,
    and [FCGX_GetParam] then gives for every name what the first variable of this name in the
    bridge's environment holds. *)
Theorem bridge_environment {uninit : Uninit} mBuff sock envp ps c inet_addr use_locking srs epad tail fd cn w name :
  0 <= sock -> accepts (wr c) -> begin_fits (wr c) -> tx c = [] -> env_ok envp ps -> 61 ∉ name ->
  name <> FCGI_ROLE_name ->
  exists c', send_request mBuff sock envp c = Ok (None, c') /\
    (idle w -> next_connection inet_addr w fd cn -> 0 <= fd -> stdin_ok 1 srs epad -> accepts (wr cn) -> delivers (rx cn) ->
     rx_bytes (rx cn) = tx c' ++ stdin_bytes 1 srs epad tail ->
     exists w', FCGX_Accept_r inet_addr use_locking w = Ok (0, w') /\
       FCGX_GetParam (Some name) (envp_of w') = Ok (assoc_first name ps)).
Proof.
  intros Hs Ha Hb Ht He Hname Hrole.
  destruct (send_request_spec mBuff sock envp ps c Hs Ha Hb) as (c' & prs & E & _ & _ & Hprs & Hst & Htx); [apply He..|].
  exists c'. split; [done|]. intros Hi Hn Hfd Hin Hac Hd Hrx.
  destruct (accepted_environment_spec inet_addr use_locking bridge_begin prs ps srs epad tail fd cn w name)
    as (w' & value & Ea & _ & Hg); try done.
  - split; [by apply (bridge_request_ok prs envp)|]. split; [done|]. split; [done|]. split; [done|]. split; [done|].
    rewrite Hrx, Htx, Ht. unfold request_bytes. cbn [app]. by rewrite <- !app_assoc.
  - destruct He as (He & Hby & _). by apply (env_pairs_bytes envp ps).
  - exists w'. split; [done|]. unfold envp_of. rewrite Hg. cbn [assoc_first].
    by rewrite bool_decide_eq_false_2.
Qed.

(** The variables A=x and B= through a bridge whose socket takes 16 bytes at first, to an
    application that gets them in two pieces. *)
Module BridgeSample.
Definition envp : list (list Z) := [[65; 61; 120]; [66; 61]].
Definition pairs : list (list Z * list Z) := [([65], [120]); ([66], [])].
Definition socket : Conn := mkConn [] [] [WrAccept 16; WrAccept 5] 0.
Definition sent : list Z :=
  match send_request 0 3 envp socket with Ok (_, c) => tx c | _ => [] end ++ stdin_bytes 1 Sample.body [] [].
Definition connection : Conn := mkConn [RdData (take 20 sent); RdData (drop 20 sent)] [] [] 0.
Definition world : World :=
  Sample.world <| os := mkOs false [mkAcc (AccConn (mkPeer 5 AF_INET 9 true connection)) false] [] false [] 0 |>.
End BridgeSample.

Lemma bridge_environment_witness : let uninit := Sample.zero_stack in
  exists w', FCGX_Accept_r first_byte false BridgeSample.world = Ok (0, w') /\
    FCGX_GetParam (Some [65]) (envp_of w') = Ok (Some [120]).
Proof.
  intros uninit.
  destruct (bridge_environment 0 3 BridgeSample.envp BridgeSample.pairs BridgeSample.socket first_byte false
    Sample.body [] [] 5 BridgeSample.connection BridgeSample.world [65]) as (c' & E & H).
  - lia.
  - by repeat constructor; lia.
  - intros n w' [= <- <-]. lia.
  - reflexivity.
  - split; [reflexivity|]. split; [repeat constructor; unfold is_byte; lia|].
    split; [repeat constructor; vm_compute; discriminate|vm_compute; reflexivity].
  - rewrite elem_of_cons, elem_of_nil. lia.
  - discriminate.
  - destruct H as (w' & Ha & Hg); [..|exists w'; split; [exact Ha|rewrite Hg; reflexivity]].
    + clear E. split; [done|]. split; [done|]. by left.
    + clear E. split; [by repeat constructor|]. do 2 (split; [done|]).
      by exists (mkPeer 5 AF_INET 9 true BridgeSample.connection), [], [], 0.
    + lia.
    + clear E. split; [|split; [done|Sample.bytes]]. repeat (constructor; [repeat split; vm_compute; done|]). constructor.
    + clear E. by repeat constructor.
    + clear E. repeat constructor; vm_compute; discriminate.
    + vm_compute in E. injection E as <-. vm_compute. reflexivity.
Defined.

(** ** The application's answer *)

(** The globals that [AppServerReadHandler] works on; [header] is the valid bytes of the header
    ([headerLen] is their number).  [as_out] and [as_err] are what the web server was sent. *)
Record Reply := mkReply {
  hdr : list Z;
  contentLen : Z;
  paddingLen : Z;
  requestId : Z;
  erBody : list Z;
  readingEndRequestBody : bool;
  exitStatus : Z;
  exitStatusSet : bool;
  as_out : list Z;
  as_err : list Z;
  ws_script : list wr_event }.

#[export] Instance set_hdr : Setter hdr := fun g r =>
  mkReply (g (hdr r)) (contentLen r) (paddingLen r) (requestId r) (erBody r) (readingEndRequestBody r) (exitStatus r) (exitStatusSet r) (as_out r) (as_err r) (ws_script r).
#[export] Instance set_contentLen : Setter contentLen := fun g r =>
  mkReply (hdr r) (g (contentLen r)) (paddingLen r) (requestId r) (erBody r) (readingEndRequestBody r) (exitStatus r) (exitStatusSet r) (as_out r) (as_err r) (ws_script r).
#[export] Instance set_paddingLen : Setter paddingLen := fun g r =>
  mkReply (hdr r) (contentLen r) (g (paddingLen r)) (requestId r) (erBody r) (readingEndRequestBody r) (exitStatus r) (exitStatusSet r) (as_out r) (as_err r) (ws_script r).
#[export] Instance set_reply_id : Setter requestId := fun g r =>
  mkReply (hdr r) (contentLen r) (paddingLen r) (g (requestId r)) (erBody r) (readingEndRequestBody r) (exitStatus r) (exitStatusSet r) (as_out r) (as_err r) (ws_script r).
#[export] Instance set_erBody : Setter erBody := fun g r =>
  mkReply (hdr r) (contentLen r) (paddingLen r) (requestId r) (g (erBody r)) (readingEndRequestBody r) (exitStatus r) (exitStatusSet r) (as_out r) (as_err r) (ws_script r).
#[export] Instance set_readingEndRequestBody : Setter readingEndRequestBody := fun g r =>
  mkReply (hdr r) (contentLen r) (paddingLen r) (requestId r) (erBody r) (g (readingEndRequestBody r)) (exitStatus r) (exitStatusSet r) (as_out r) (as_err r) (ws_script r).
#[export] Instance set_exitStatus : Setter exitStatus := fun g r =>
  mkReply (hdr r) (contentLen r) (paddingLen r) (requestId r) (erBody r) (readingEndRequestBody r) (g (exitStatus r)) (exitStatusSet r) (as_out r) (as_err r) (ws_script r).
#[export] Instance set_exitStatusSet : Setter exitStatusSet := fun g r =>
  mkReply (hdr r) (contentLen r) (paddingLen r) (requestId r) (erBody r) (readingEndRequestBody r) (exitStatus r) (g (exitStatusSet r)) (as_out r) (as_err r) (ws_script r).
#[export] Instance set_as_out : Setter as_out := fun g r =>
  mkReply (hdr r) (contentLen r) (paddingLen r) (requestId r) (erBody r) (readingEndRequestBody r) (exitStatus r) (exitStatusSet r) (g (as_out r)) (as_err r) (ws_script r).
#[export] Instance set_as_err : Setter as_err := fun g r =>
  mkReply (hdr r) (contentLen r) (paddingLen r) (requestId r) (erBody r) (readingEndRequestBody r) (exitStatus r) (exitStatusSet r) (as_out r) (g (as_err r)) (ws_script r).
#[export] Instance set_ws_script : Setter ws_script := fun g r =>
  mkReply (hdr r) (contentLen r) (paddingLen r) (requestId r) (erBody r) (readingEndRequestBody r) (exitStatus r) (exitStatusSet r) (as_out r) (as_err r) (g (ws_script r)).

(** The globals as the program starts, with the id that [main] sets. *)
Definition reply_init (script : list wr_event) : Reply :=
  mkReply [] 0 0 1 (replicate 8 0) false 0 false [] [] script.

(** [GetPtr]: the characters taken, at most [n], and what is left in the buffer. *)
Definition GetPtr (n : Z) (buf : list Z) : list Z * list Z :=
  let result := Z.to_nat (Z.min n (zlen buf)) in (take result buf, drop result buf).

(** The blocking [OS_Write] to standard output or error.  A short write is not completed: the
    result is only compared with 0. *)
Definition write_out (to_out : bool) (bs : list Z) : M Reply (option Z) :=
  s <- get ;;
  match ws_script s with
  | WrErr e :: w => modify (fun s => s <| ws_script := w |>) ;;; ret (Some e)
  | w =>
      let '(n, w) := match w with WrAccept n :: w => (n, w) | _ => (length bs, []) end in
      modify (fun s => s <| ws_script := w |>) ;;;
      modify (fun s => if to_out then s <| as_out := as_out s ++ take n bs |>
                       else s <| as_err := as_err s ++ take n bs |>) ;;;
      ret None
  end.

(** "First priority is to complete the header".  The copy goes to [&header + headerLen], which is
    past the object unless [headerLen] is 0.  The result: the program exits, the loop is left, or
    it goes on with what is left in the buffer. *)
Inductive turn := Exit (code : Z) | Break | Next (buf : list Z).

Definition as_header (buf : list Z) : M Reply turn :=
  s <- get ;;
  let '(ptr, buf) := GetPtr (FCGI_HEADER_LEN - zlen (hdr s)) buf in
  c_assert (0 <? zlen ptr) ;;;
  (if zlen (hdr s) =? 0 then ret tt else crash MemFault) ;;;
  modify (fun s => s <| hdr := hdr s ++ ptr |>) ;;;
  s <- get ;;
  if zlen (hdr s) <? FCGI_HEADER_LEN then ret Break else
  let header := bytes_header (hdr s) in
  if negb (version header =? FCGI_VERSION_1) then ret (Exit FCGX_UNSUPPORTED_VERSION) else
  if negb (header_requestId header =? requestId s) then ret (Exit FCGX_PROTOCOL_ERROR) else
  modify (fun s => s <| contentLen := header_contentLength header |>) ;;;
  modify (fun s => s <| paddingLen := FcgiProto.paddingLength header |>) ;;;
  ret (Next buf).

(** The cases [FCGI_STDOUT] and [FCGI_STDERR]. *)
Definition as_stream (to_out : bool) (buf : list Z) : M Reply turn :=
  s <- get ;;
  let '(ptr, buf) := GetPtr (contentLen s) buf in
  modify (fun s => s <| contentLen := contentLen s - zlen ptr |>) ;;;
  if 0 <? zlen ptr then
    e <- write_out to_out ptr ;;
    ret (match e with Some code => Exit code | None => Next buf end)
  else ret (Next buf).

(** The exit status of an end body: [int] arithmetic, whose overflow is undefined. *)
Definition body_status (b : FCGI_EndRequestBody) : res Z :=
  rbind (int_chk (Z.shiftl (appStatusB3 b) 24)) (fun x =>
  int_chk (x + Z.shiftl (appStatusB2 b) 16 + Z.shiftl (appStatusB1 b) 8 + appStatusB0 b)).

(** The case [FCGI_END_REQUEST].  The copy goes to [&erBody + sizeof(erBody) - contentLen], which
    is the object only when the whole body is there. *)
Definition as_end (buf : list Z) : M Reply turn :=
  s <- get ;;
  if negb (readingEndRequestBody s) && negb (contentLen s =? 8) then ret (Exit FCGX_PROTOCOL_ERROR) else
  modify (fun s => s <| readingEndRequestBody := true |>) ;;;
  let '(ptr, buf) := GetPtr (contentLen s) buf in
  (if 0 <? zlen ptr then
     (if contentLen s =? 8 then ret tt else crash MemFault) ;;;
     modify (fun s => s <| erBody := splice 0 ptr (erBody s) |>) ;;;
     modify (fun s => s <| contentLen := contentLen s - zlen ptr |>)
   else ret tt) ;;;
  s <- get ;;
  if contentLen s =? 0 then
    let body := bytes_end_body (erBody s) in
    if negb (protocolStatus body =? FCGI_REQUEST_COMPLETE) then ret (Exit FCGX_PROTOCOL_ERROR) else
    st <- lift (body_status body) ;;
    modify (fun s => s <| exitStatus := st |>) ;;;
    modify (fun s => s <| exitStatusSet := true |>) ;;;
    modify (fun s => s <| readingEndRequestBody := false |>) ;;;
    ret (Next buf)
  else ret (Next buf).

(** "If we've processed all the data and skipped all the padding, discard the header". *)
Definition as_padding (buf : list Z) : M Reply turn :=
  s <- get ;;
  if negb (contentLen s =? 0) then ret (Next buf) else
  let '(ptr, buf) := if 0 <? paddingLen s then GetPtr (paddingLen s) buf else ([], buf) in
  modify (fun s => s <| paddingLen := paddingLen s - zlen ptr |>) ;;;
  s <- get ;;
  (if paddingLen s =? 0 then modify (fun s => s <| hdr := [] |>) else ret tt) ;;;
  ret (Next buf).

Definition as_turn (buf : list Z) : M Reply turn :=
  s <- get ;;
  if zlen (hdr s) <? FCGI_HEADER_LEN then as_header buf else
  t <- (let type := type (bytes_header (hdr s)) in
        if (type =? FCGI_STDOUT) || (type =? FCGI_STDERR) then as_stream (type =? FCGI_STDOUT) buf
        else if type =? FCGI_END_REQUEST then as_end buf
        else ret (Exit FCGX_PROTOCOL_ERROR)) ;;
  match t with Next buf => as_padding buf | t => ret t end.

(** [while(fromAS.next != fromAS.stop)]: [Some code] when the program exits. *)
Fixpoint as_loop (fuel : nat) (buf : list Z) : M Reply (option Z) :=
  match buf with
  | [] => ret None
  | _ =>
    match fuel with
    | O => nofuel
    | S fuel =>
      t <- as_turn buf ;;
      match t with Exit code => ret (Some code) | Break => ret None | Next buf => as_loop fuel buf end
    end
  end.

(** The loop on the bytes [buf] of a read.  Two turns take at least one of them: a turn that takes
    none resets the header. *)
Definition as_handle (buf : list Z) : M Reply (option Z) := as_loop (2 * length buf + 1) buf.

(** The exit code at the end of the file. *)
Definition as_eof (s : Reply) : Z :=
  if (0 <? zlen (hdr s)) || (0 <? paddingLen s) then FCGX_PROTOCOL_ERROR
  else if exitStatusSet s then exitStatus s else FCGX_PROTOCOL_ERROR.

(** Successive reads. *)
Fixpoint as_reads (chunks : list (list Z)) : M Reply (option Z) :=
  match chunks with
  | [] => ret None
  | b :: chunks =>
      r <- as_handle b ;;
      match r with Some code => ret (Some code) | None => as_reads chunks end
  end.

