(* ===== verification/CgiAnswer.v ===== *)
(** * The answer of the application through the bridge

    The loop of [AppServerReadHandler] ([cgi-fcgi/cgi-fcgi.c]) on the records of an answer, in whatever
    pieces they are read. *)

From S2P Require Import Prelude FcgiProto FcgiStream FcgiWriter FcgiParams FcgiReader FcgiRecords CgiFcgi.

(** ** The answer is copied *)

(** A record of the answer of request 1. *)
Definition answer_rec (r : rec) : Prop :=
  rec_ok r /\ r_id r = 1 /\ (r_type r = FCGI_STDOUT \/ r_type r = FCGI_STDERR).

Definition header_of_rec (r : rec) : FCGI_Header := header_of (r_type r) (r_id r) (zlen (r_content r)) (zlen (r_pad r)).

(** The content [c] left of a record of type [T], for the stream of type [T']. *)
Definition left_of (T' T : Z) (c : list Z) : list Z := if T =? T' then c else [].

Lemma stream_of_cons T r rs : stream_of T (r :: rs) = left_of T (r_type r) (r_content r) ++ stream_of T rs.
Proof.
  unfold stream_of, left_of. rewrite filter_cons.
  destruct (Z.eqb_spec (r_type r) T); [by rewrite decide_True|by rewrite decide_False].
Qed.

(** The bridge in the answer: of the current record (none if the header is empty) [c] and [p] are
    left, then come the records [rs]; [Out] and [Err] are the whole output. *)
Record answering (Out Err : list Z) (c p : list Z) (rs : list rec) (s : Reply) : Prop := {
  an_id : requestId s = 1;
  an_end : readingEndRequestBody s = false;
  an_set : exitStatusSet s = false;
  an_body : length (erBody s) = 8%nat;
  an_script : ws_script s = [];
  an_lens : contentLen s = zlen c /\ paddingLen s = zlen p;
  an_hdr : (hdr s = [] /\ c = [] /\ p = [] /\ as_out s ++ stream_of FCGI_STDOUT rs = Out /\ as_err s ++ stream_of FCGI_STDERR rs = Err) \/
           (exists r, answer_rec r /\ hdr s = header_bytes (header_of_rec r) /\
              as_out s ++ left_of FCGI_STDOUT (r_type r) c ++ stream_of FCGI_STDOUT rs = Out /\
              as_err s ++ left_of FCGI_STDERR (r_type r) c ++ stream_of FCGI_STDERR rs = Err);
  an_recs : Forall answer_rec rs }.

Lemma GetPtr_le n buf : 0 <= n <= zlen buf -> GetPtr n buf = (sub 0 n buf, drop (Z.to_nat n) buf).
Proof. intros. unfold GetPtr, sub. rewrite Z.min_l by lia. done. Qed.

Lemma GetPtr_ge n buf : zlen buf <= n -> GetPtr n buf = (buf, []).
Proof.
  intros. unfold GetPtr. rewrite Z.min_r by lia. unfold zlen. rewrite Nat2Z.id. by rewrite firstn_all, drop_all.
Qed.

(** Taking the next [zlen c] characters of a buffer that holds them, or all of it. *)
Lemma GetPtr_app buf rest c t : buf ++ rest = c ++ t ->
  exists got c', c = got ++ c' /\ GetPtr (zlen c) buf = (got, drop (length got) buf) /\
    drop (length got) buf ++ rest = c' ++ t /\ (c' <> [] -> drop (length got) buf = []) /\
    (length (drop (length got) buf) = length buf - length got)%nat /\ (buf <> [] -> c <> [] -> got <> []).
Proof.
  intros E. destruct (Z.leb_spec (zlen c) (zlen buf)) as [H|H].
  - pose proof (zlen_nonneg c). rewrite GetPtr_le by lia. unfold sub. cbn [drop].
    assert (Hc : take (Z.to_nat (zlen c)) buf = c).
    { unfold zlen. rewrite Nat2Z.id. apply (f_equal (take (length c))) in E.
      rewrite take_app_le in E by (unfold zlen in *; lia). by rewrite take_app_length in E. }
    exists c, []. rewrite drop_0, Hc, app_nil_r. unfold zlen. rewrite Nat2Z.id.
    split_and!; try done.
    + apply (f_equal (drop (length c))) in E. rewrite drop_app_le in E by (unfold zlen in *; lia). by rewrite drop_app_length in E.
    + by rewrite length_drop.
  - rewrite GetPtr_ge by lia. exists buf, (drop (length buf) c).
    assert (Hb : take (length buf) c = buf).
    { apply (f_equal (take (length buf))) in E. rewrite take_app_length, take_app_le in E by (unfold zlen in *; lia). done. }
    rewrite <- Hb at 1. rewrite take_drop, drop_all. split_and!; try done.
    + apply (f_equal (drop (length buf))) in E. rewrite drop_app_length, drop_app_le in E by (unfold zlen in *; lia). done.
    + cbn. lia.
Qed.

(** "Discard the header and look for the next one". *)
Lemma as_padding_eq s buf ptr buf' : contentLen s = 0 ->
  (if 0 <? paddingLen s then GetPtr (paddingLen s) buf else ([], buf)) = (ptr, buf') ->
  as_padding buf s = Ok (Next buf',
    if paddingLen s - zlen ptr =? 0 then s <| paddingLen := paddingLen s - zlen ptr |> <| hdr := [] |>
    else s <| paddingLen := paddingLen s - zlen ptr |>).
Proof.
  intros Hc Hg. unfold as_padding, bind at 1, get at 1. rewrite Hc. cbn [negb Z.eqb]. rewrite Hg.
  unfold bind, get, modify, ret. cbn -[zlen Z.eqb]. by destruct (_ =? 0).
Qed.

Lemma as_padding_spec Out Err p rs s buf rest t : answering Out Err [] p rs s -> hdr s <> [] -> buf ++ rest = p ++ t ->
  exists s' buf' p', as_padding buf s = Ok (Next buf', s') /\ answering Out Err [] p' rs s' /\
    buf' ++ rest = p' ++ t /\ (length buf' <= length buf)%nat /\ (buf' <> [] -> hdr s' = []).
Proof.
  intros [Hid He Hset Hbd Hsc [Hc Hp] Hh Hrs] Hne Hb. destruct Hh as [(? & _)|(r & Hr & Hhd & Ho & Hw)]; [done|].
  assert (Ho' : as_out s ++ stream_of FCGI_STDOUT rs = Out) by (unfold left_of in Ho; by destruct (_ =? _)).
  assert (Hw' : as_err s ++ stream_of FCGI_STDERR rs = Err) by (unfold left_of in Hw; by destruct (_ =? _)).
  destruct (GetPtr_app buf rest p t Hb) as (got & p' & -> & Eg & Hb' & Hp' & Hlen & _).
  assert (Eg' : (if 0 <? paddingLen s then GetPtr (paddingLen s) buf else ([], buf)) = (got, drop (length got) buf)).
  { rewrite Hp. destruct (Z.ltb_spec 0 (zlen (got ++ p'))) as [H|H]; [done|].
    assert (got ++ p' = []) as [-> ->]%app_nil by (apply zlen_0; pose proof (zlen_nonneg (got ++ p')); lia). done. }
  pose proof (as_padding_eq s buf _ _ Hc Eg') as E. rewrite Hp, zlen_app in E.
  replace (zlen got + zlen p' - zlen got) with (zlen p') in E by lia.
  do 2 eexists. exists p'. split; [exact E|]. destruct (Z.eqb_spec (zlen p') 0) as [Hz|Hz].
  - apply zlen_0 in Hz as ->. split; [|split; [done|split; [lia|done]]].
    split; try done. by left.
  - split; [|split; [done|split; [lia|]]].
    + split; try done. right. by exists r.
    + intros Hd. destruct p'; [done|]. by rewrite Hp' in Hd.
Qed.

Definition end_rec (st : Z) : rec :=
  mkRec FCGI_END_REQUEST 1 (end_body_bytes (MakeEndRequestBody st FCGI_REQUEST_COMPLETE)) [].

(** A record's header arrives. *)
Lemma as_turn_header s buf got buf' : hdr s = [] -> GetPtr 8 buf = (got, buf') -> got <> [] ->
  as_turn buf s =
    let s1 := s <| hdr := got |> in let h := bytes_header got in
    if zlen got <? 8 then Ok (Break, s1) else
    if negb (version h =? FCGI_VERSION_1) then Ok (Exit FCGX_UNSUPPORTED_VERSION, s1) else
    if negb (header_requestId h =? requestId s) then Ok (Exit FCGX_PROTOCOL_ERROR, s1) else
    Ok (Next buf', s1 <| contentLen := header_contentLength h |> <| paddingLen := paddingLength h |>).
Proof.
  intros Hh Hg Hn. pose proof (zlen_pos _ Hn) as Hg0. unfold as_turn.
  rewrite (bind_Ok get _ _ s s) by done. rewrite Hh. change (zlen [] <? FCGI_HEADER_LEN) with true. cbv iota.
  unfold as_header. rewrite (bind_Ok get _ _ s s) by done. rewrite Hh. change (FCGI_HEADER_LEN - zlen []) with 8.
  rewrite Hg. unfold c_assert. rewrite (proj2 (Z.ltb_lt _ _) Hg0). change (zlen [] =? 0) with true. cbv iota.
  do 2 (erewrite (bind_Ok (ret tt)) by reflexivity).
  erewrite (bind_Ok (modify _)) by reflexivity. rewrite Hh, app_nil_l.
  erewrite (bind_Ok get) by reflexivity. cbv zeta. change (hdr (s <| hdr := got |>)) with got.
  change (requestId (s <| hdr := got |>)) with (requestId s). unfold FCGI_HEADER_LEN.
  destruct (zlen got <? 8); [done|]. destruct (negb (version _ =? _)); [done|].
  destruct (negb (_ =? requestId s)); done.
Qed.

Lemma as_header_spec s r buf rest t : hdr s = [] -> rec_ok r -> r_id r = requestId s -> buf <> [] ->
  buf ++ rest = enc r ++ t ->
  (exists s', as_turn buf s = Ok (Break, s') /\ 0 < zlen (hdr s') < 8 /\ (0 < length buf < 8)%nat) \/
  (exists buf', as_turn buf s = Ok (Next buf', s <| hdr := header_bytes (header_of_rec r) |>
      <| contentLen := zlen (r_content r) |> <| paddingLen := zlen (r_pad r) |>) /\
    buf' ++ rest = r_content r ++ r_pad r ++ t /\ (length buf' + 8 = length buf)%nat).
Proof.
  intros Hh Hok Hid Hne Hb. rewrite enc_split in Hb.
  pose proof (header_fields r Hok) as (Hv & _ & Hri & Hcl & Hp).
  change (header_of (r_type r) (r_id r) (zlen (r_content r)) (zlen (r_pad r))) with (header_of_rec r) in *.
  destruct (GetPtr_app buf rest _ _ Hb) as (got & h' & Eh & Eg & Hb' & Hh' & Hlen & Hgot).
  rewrite zlen_header_bytes in Eg. pose proof (f_equal length Eh) as Hl8. rewrite length_app in Hl8. cbn [header_bytes length] in Hl8.
  specialize (Hgot Hne ltac:(done)). pose proof (zlen_pos _ Hgot) as Hg0.
  rewrite (as_turn_header s buf got _ Hh Eg Hgot). cbv zeta.
  destruct (Z.ltb_spec (zlen got) 8) as [Hs|Hs].
  - left. eexists. split; [reflexivity|]. split; [cbn; lia|].
    destruct h' as [|x h']; [cbn in Hl8; unfold zlen in Hs; lia|].
    specialize (Hh' ltac:(done)). rewrite Hh' in Hlen. cbn in Hlen. unfold zlen in Hs.
    destruct buf; [done|]. cbn in *. lia.
  - right. assert (h' = []) as -> by (destruct h'; [done|]; cbn in Hl8; unfold zlen in Hs; lia).
    rewrite app_nil_r in Eh. subst got. rewrite bytes_header_bytes, Hv, Hri, Hid, !Z.eqb_refl, Hcl, Hp.
    eexists. split; [reflexivity|]. split; [done|].
    pose proof (f_equal (fun p => length (fst p)) Eg) as Hgl. unfold GetPtr in Hgl. cbn [fst] in Hgl.
    rewrite length_take in Hgl. change (length (header_bytes (header_of_rec r))) with 8%nat in *. lia.
Qed.

(** A web server that takes everything. *)
Lemma write_out_all to_out bs s : ws_script s = [] ->
  write_out to_out bs s = Ok (None, if to_out then s <| ws_script := [] |> <| as_out := as_out s ++ bs |>
                                    else s <| ws_script := [] |> <| as_err := as_err s ++ bs |>).
Proof.
  intros Hs. unfold write_out. rewrite (bind_Ok get _ _ s s) by done. rewrite Hs, firstn_all. by destruct to_out.
Qed.

(** The content of a stream record, or the part of it that has been read. *)
Lemma as_stream_spec Out Err c p rs s buf rest t : answering Out Err c p rs s -> hdr s <> [] -> buf <> [] ->
  buf ++ rest = c ++ t ->
  exists s' buf' c', as_stream (type (bytes_header (hdr s)) =? FCGI_STDOUT) buf s = Ok (Next buf', s') /\
    answering Out Err c' p rs s' /\ hdr s' = hdr s /\ buf' ++ rest = c' ++ t /\ (c' <> [] -> buf' = []) /\
    (length c + length buf' = length buf + length c')%nat.
Proof.
  intros [Hid He Hset Hbd Hsc [Hc Hp] Hh Hrs] Hne Hbuf Hb. destruct Hh as [(? & _)|(r & Hr & Hhd & Ho & Hw)]; [done|].
  destruct (GetPtr_app buf rest c t Hb) as (got & c' & -> & Eg & Hb' & Hc' & Hlen & Hgot).
  assert (Hl : (length (got ++ c') + length (drop (length got) buf) = length buf + length c')%nat).
  { apply (f_equal (fun l => length (fst l))) in Eg. cbn [fst] in Eg. unfold GetPtr in Eg. cbn [fst] in Eg.
    rewrite length_take in Eg. rewrite length_app, length_drop. lia. }
  assert (Hty : type (bytes_header (hdr s)) = r_type r).
  { rewrite Hhd, bytes_header_bytes. by apply header_fields, Hr. }
  unfold as_stream. rewrite (bind_Ok get _ _ s s) by done. rewrite Hc, Eg.
  erewrite (bind_Ok (modify _)) by reflexivity.
  destruct (Z.ltb_spec 0 (zlen got)) as [Hg|Hg].
  - erewrite bind_Ok by (by apply write_out_all). rewrite Hty. unfold ret.
    eexists _, (drop (length got) buf), c'. split; [reflexivity|]. split; [|by destruct (_ =? _)].
    destruct Hr as (Hok & Hri & Ht). unfold left_of in *.
    destruct Ht as [Ht|Ht]; rewrite Ht in Ho, Hw |- *; cbn [Z.eqb Pos.eqb FCGI_STDOUT FCGI_STDERR] in *;
      (split; try done; cbn -[zlen]; [rewrite Hc, zlen_app; split; [lia|done]|]);
      right; exists r; unfold left_of; rewrite Ht; cbn [Z.eqb Pos.eqb FCGI_STDOUT FCGI_STDERR];
      (split; [by unfold answer_rec; auto|]); cbn -[zlen]; rewrite <- ?app_assoc in *; done.
  - assert (got = []) as -> by (apply zlen_0; pose proof (zlen_nonneg got); lia).
    eexists _, _, c'. split; [reflexivity|]. split; [|split; [done|by split_and!]].
    split; try done; [|right; by exists r]. cbn -[zlen]. rewrite Hc. cbn [app]. split; [rewrite zlen_nil; lia|done].
Qed.

(** ** Where a read may end

    The program keeps the bytes of a record's header and of the end body across reads at the wrong
    place, so that an answer comes through whole exactly when no read ends inside one of them. *)

(** The bridge is in a record with [c] and [p] left of its content and padding (or before a
    header) and the records [rs] to come, before the body of [END_REQUEST], or at the end. *)
Inductive place :=
  | InRecord (c p : list Z) (rs : list rec)
  | InEnd
  | Done.

(** A read may end [n] bytes into the records [rs] and the end of the request. *)
Fixpoint cut_ok (rs : list rec) (n : nat) : bool :=
  match rs with
  | [] => bool_decide (n = 0 \/ n = 8 \/ n = 16)%nat
  | r :: rs =>
      if bool_decide (n < 8)%nat then bool_decide (n = 0)%nat
      else if bool_decide (n < length (enc r))%nat then true
      else cut_ok rs (n - length (enc r))
  end.

Section Places.
Context (Out Err : list Z) (st : Z) (st_ok : 0 <= st <= INT_MAX).

Definition todo (pl : place) : list Z :=
  match pl with
  | InRecord c p rs => c ++ p ++ wire rs ++ enc (end_rec st)
  | InEnd => r_content (end_rec st)
  | Done => []
  end.

Definition safe (pl : place) (n : nat) : bool :=
  match pl with
  | InRecord c p rs =>
      if bool_decide (n <= length c + length p)%nat then true else cut_ok rs (n - (length c + length p))
  | InEnd => bool_decide (n = 0 \/ n = 8)%nat
  | Done => bool_decide (n = 0)%nat
  end.

Record ending (s : Reply) : Prop := {
  en_reading : readingEndRequestBody s = false;
  en_body : length (erBody s) = 8%nat;
  en_hdr : hdr s = header_bytes (header_of_rec (end_rec st));
  en_lens : contentLen s = 8 /\ paddingLen s = 0;
  en_out : as_out s = Out /\ as_err s = Err }.

Record answered (s : Reply) : Prop := {
  aw_hdr : hdr s = [];
  aw_status : exitStatusSet s = true /\ exitStatus s = st;
  aw_padding : paddingLen s = 0;
  aw_out : as_out s = Out /\ as_err s = Err }.

Definition at_place (pl : place) (s : Reply) : Prop :=
  match pl with
  | InRecord c p rs => answering Out Err c p rs s
  | InEnd => ending s
  | Done => answered s
  end.

(** A read has ended inside a header or inside the end body. *)
Definition cut_short (s : Reply) : Prop :=
  0 < zlen (hdr s) < 8 \/
  (hdr s = header_bytes (header_of_rec (end_rec st)) /\ readingEndRequestBody s = true /\ 0 < contentLen s < 8).

Lemma length_enc r : length (enc r) = (8 + length (r_content r) + length (r_pad r))%nat.
Proof. unfold enc. rewrite !length_app. change (length (header_bytes _)) with 8%nat. lia. Qed.

Lemma end_rec_ok : rec_ok (end_rec st).
Proof. by repeat split; vm_compute. Qed.

Lemma length_end : length (enc (end_rec st)) = 16%nat.
Proof. done. Qed.

Lemma cut_ok_all rs : cut_ok rs (length (wire rs) + 16) = true.
Proof.
  induction rs as [|r rs IH]; [done|]. cbn [cut_ok]. rewrite wire_cons, length_app.
  rewrite bool_decide_eq_false_2 by lia. rewrite bool_decide_eq_false_2 by lia.
  by replace (length (enc r) + length (wire rs) + 16 - length (enc r))%nat with (length (wire rs) + 16)%nat by lia.
Qed.

Lemma safe_all pl : safe pl (length (todo pl)) = true.
Proof.
  destruct pl as [c p rs| |]; [|done..]. cbn [safe todo]. rewrite !length_app, length_end.
  rewrite bool_decide_eq_false_2 by lia.
  replace (length c + (length p + (length (wire rs) + 16)) - (length c + length p))%nat with (length (wire rs) + 16)%nat by lia.
  apply cut_ok_all.
Qed.

(** One turn of the loop, on a buffer that is not empty: it goes on from a new place, or the read
    ends inside a header or the end body. *)
Definition busy (buf : list Z) (s : Reply) : nat := (2 * length buf + if bool_decide (hdr s = []) then 0 else 1)%nat.

Definition turned (pl : place) (buf rest : list Z) (s : Reply) : Prop :=
  (exists s' buf' pl', as_turn buf s = Ok (Next buf', s') /\ at_place pl' s' /\ buf' ++ rest = todo pl' /\
     (buf' <> [] -> busy buf' s' < busy buf s)%nat /\ (length buf' <= length buf)%nat /\
     forall m, safe pl' (length buf' + m) = safe pl (length buf + m)) \/
  (exists s' t, as_turn buf s = Ok (t, s') /\ (t = Break \/ t = Next []) /\ cut_short s' /\
     forall pl_n, pl_n = length buf -> safe pl pl_n = false).

Lemma safe_next r rs n : (8 <= n)%nat -> safe (InRecord [] [] (r :: rs)) n = safe (InRecord (r_content r) (r_pad r) rs) (n - 8).
Proof.
  intros Hn. cbn [safe length Nat.add]. rewrite bool_decide_eq_false_2 by lia. rewrite Nat.sub_0_r. cbn [cut_ok].
  rewrite (bool_decide_eq_false_2 (n < 8)%nat) by lia. rewrite length_enc.
  destruct (decide (n < 8 + length (r_content r) + length (r_pad r))%nat) as [H|H].
  - rewrite !bool_decide_eq_true_2 by lia. done.
  - rewrite bool_decide_eq_false_2 by lia. case_bool_decide as H2.
    + replace (n - (8 + length (r_content r) + length (r_pad r)))%nat with 0%nat by lia. by destruct rs.
    + f_equal. lia.
Qed.

Lemma turn_header rs s buf rest : answering Out Err [] [] rs s -> hdr s = [] -> buf <> [] ->
  buf ++ rest = todo (InRecord [] [] rs) -> turned (InRecord [] [] rs) buf rest s.
Proof.
  intros [Hid He Hset Hbd Hsc [Hc Hp] Hh Hrs] Hne Hbuf Hb.
  destruct Hh as [(_ & _ & _ & Ho & Hw)|(r & Hr & Hhd & _)]; [|by rewrite Hhd in Hne].
  cbn [todo app] in Hb. destruct rs as [|r rs].
  - cbn [wire map concat app] in Hb. rewrite <- (app_nil_r (enc _)) in Hb.
    destruct (as_header_spec s _ buf rest [] Hne end_rec_ok (eq_sym Hid) Hbuf Hb)
      as [(s' & E & Hs' & Hl)|(buf' & E & Hb' & Hl)].
    + right. exists s', Break. split; [done|]. split; [by left|]. split; [by left|]. intros n ->. cbn [safe length Nat.add].
      rewrite bool_decide_eq_false_2 by lia. cbn [cut_ok]. rewrite bool_decide_eq_false_2; [done|lia].
    + left. eexists _, buf', InEnd. split; [exact E|].
      split; [split; try done; by rewrite !app_nil_r in *|]. rewrite !app_nil_r in Hb'.
      split; [done|]. unfold busy. split; [intros _; case_bool_decide; case_bool_decide; lia|]. split; [lia|].
      intros m. cbn [safe length Nat.add]. rewrite (bool_decide_eq_false_2 (length buf + m <= 0)%nat) by lia. cbn [cut_ok].
      apply bool_decide_ext. lia.
  - inversion_clear Hrs as [|? ? Hr Hrs']. rewrite wire_cons, <- app_assoc in Hb.
    destruct (as_header_spec s r buf rest _ Hne (proj1 Hr) ltac:(by rewrite Hid; apply Hr) Hbuf Hb)
      as [(s' & E & Hs' & Hl)|(buf' & E & Hb' & Hl)].
    + right. exists s', Break. split; [done|]. split; [by left|]. split; [by left|]. intros n ->. cbn [safe length Nat.add].
      rewrite bool_decide_eq_false_2 by lia. cbn [cut_ok]. rewrite bool_decide_eq_true_2 by lia. apply bool_decide_eq_false_2. lia.
    + left. eexists _, buf', (InRecord (r_content r) (r_pad r) rs). split; [exact E|]. split.
      { split; try done. right. exists r. rewrite stream_of_cons in Ho, Hw. done. }
      split; [done|]. unfold busy. split; [intros _; case_bool_decide; case_bool_decide; lia|]. split; [lia|].
      intros m. rewrite safe_next by lia. f_equal. lia.
Qed.

Lemma turn_record c p rs s buf rest : answering Out Err c p rs s -> hdr s <> [] -> buf <> [] ->
  buf ++ rest = todo (InRecord c p rs) -> turned (InRecord c p rs) buf rest s.
Proof.
  intros A Hne Hbuf Hb. cbn [todo] in Hb.
  destruct (as_stream_spec Out Err c p rs s buf rest _ A Hne Hbuf Hb) as (s1 & buf1 & c1 & E1 & A1 & Hh1 & Hb1 & Hc1 & Hl1).
  assert (Et : as_turn buf s = as_padding buf1 s1).
  { unfold as_turn. rewrite (bind_Ok get _ _ s s) by done.
    destruct (an_hdr _ _ _ _ _ _ A) as [(? & _)|(r & Hr & Hhd & _)]; [done|].
    assert (Hty : type (bytes_header (hdr s)) = r_type r) by (rewrite Hhd, bytes_header_bytes; by apply header_fields, Hr).
    assert (Hl : (zlen (hdr s) <? FCGI_HEADER_LEN) = false) by (by rewrite Hhd). rewrite Hl.
    replace ((type (bytes_header (hdr s)) =? FCGI_STDOUT) || (type (bytes_header (hdr s)) =? FCGI_STDERR)) with true.
    - erewrite bind_Ok by exact E1. done.
    - rewrite Hty. by destruct Hr as (_ & _ & [-> | ->]). }
  left. destruct c1 as [|x c1].
  - destruct (as_padding_spec Out Err p rs s1 buf1 rest _ A1 ltac:(by rewrite Hh1) Hb1)
      as (s2 & buf2 & p2 & E2 & A2 & Hb2 & Hl2 & Hn2).
    exists s2, buf2, (InRecord [] p2 rs). split; [by rewrite Et|]. split; [done|]. split; [done|].
    cbn [length] in Hl1. split; [|split; [lia|]].
    + intros Hn. unfold busy. rewrite (bool_decide_eq_true_2 _ (Hn2 Hn)), (bool_decide_eq_false_2 _ Hne). lia.
    + intros m. apply (f_equal length) in Hb1, Hb2. cbn [app] in *. rewrite !length_app in Hb1, Hb2.
      cbn [safe length Nat.add]. destruct (decide (length buf + m <= length c + length p)%nat).
      * rewrite !bool_decide_eq_true_2 by lia. done.
      * rewrite !bool_decide_eq_false_2 by lia. f_equal. lia.
  - specialize (Hc1 ltac:(done)) as ->. exists s1, [], (InRecord (x :: c1) p rs).
    split; [rewrite Et; unfold as_padding; rewrite (bind_Ok get _ _ s1 s1) by done;
      rewrite (proj1 (an_lens _ _ _ _ _ _ A1)); done|].
    split; [done|]. split; [done|]. split; [done|]. split; [cbn; lia|].
    intros m. cbn [safe]. cbn [length Nat.add] in *.
    destruct (decide (length buf + m <= length c + length p)%nat).
    + rewrite !bool_decide_eq_true_2 by lia. done.
    + rewrite !bool_decide_eq_false_2 by lia. f_equal. lia.
Qed.

Lemma body_status_Ok : body_status (MakeEndRequestBody st FCGI_REQUEST_COMPLETE) = Ok st.
Proof.
  pose proof (end_body_status_eq st FCGI_REQUEST_COMPLETE) as H. unfold end_body_status in H.
  rewrite to_uint_small in H by (unfold UINT_MAX, INT_MAX in *; lia). unfold body_status, int_chk, int_fits, INT_MIN.
  assert (H3 : 0 <= Z.shiftl (appStatusB3 (MakeEndRequestBody st FCGI_REQUEST_COMPLETE)) 24 <= INT_MAX).
  { cbn -[Z.land Z.shiftr Z.shiftl]. rewrite land_255, shiftr_24, shiftl_24. unfold INT_MAX in *.
    assert (0 <= st / 16777216 < 128) by (split; [apply Z.div_pos|apply Z.div_lt_upper_bound]; lia).
    rewrite uchar_small by (rewrite Z.mod_small; unfold is_byte; lia). rewrite Z.mod_small by lia. lia. }
  cbv zeta. rewrite (proj2 (Z.leb_le (-2147483648) _)), (proj2 (Z.leb_le _ INT_MAX)) by lia. cbn [andb rbind].
  rewrite H. by rewrite (proj2 (Z.leb_le (-2147483648) st)), (proj2 (Z.leb_le st INT_MAX)) by lia.
Qed.

Lemma splice_all (bs l : list Z) : length bs = length l -> splice 0 bs l = bs.
Proof. intros H. unfold splice. rewrite H. change (Z.to_nat 0) with 0%nat. cbn [Nat.add take app]. rewrite drop_all. apply app_nil_r. Qed.

Lemma as_end_turn s buf got buf' : ending s -> buf <> [] -> GetPtr 8 buf = (got, buf') -> got <> [] ->
  as_turn buf s =
    let s1 := s <| readingEndRequestBody := true |> <| erBody := splice 0 got (erBody s) |> <| contentLen := 8 - zlen got |> in
    if 8 - zlen got =? 0 then
      let body := bytes_end_body (splice 0 got (erBody s)) in
      if negb (protocolStatus body =? FCGI_REQUEST_COMPLETE) then Ok (Exit FCGX_PROTOCOL_ERROR, s1) else
      match body_status body with
      | Ok st => Ok (Next buf', s1 <| exitStatus := st |> <| exitStatusSet := true |> <| readingEndRequestBody := false |>
                   <| paddingLen := 0 |> <| hdr := [] |>)
      | Crash f => Crash f
      | NoFuel => NoFuel
      end
    else Ok (Next buf', s1).
Proof.
  intros [Hr Hb Hh [Hc Hp] _] Hne Hg Hgot. pose proof (zlen_pos _ Hgot) as Hg0.
  unfold as_turn. rewrite (bind_Ok get _ _ s s) by done.
  assert (Hl : (zlen (hdr s) <? FCGI_HEADER_LEN) = false) by (by rewrite Hh). rewrite Hl.
  assert (Ht : type (bytes_header (hdr s)) = FCGI_END_REQUEST) by (by rewrite Hh).
  rewrite Ht. cbn [Z.eqb Pos.eqb orb FCGI_END_REQUEST FCGI_STDOUT FCGI_STDERR].
  unfold as_end, bind, get, modify, ret, lift. rewrite Hr, Hc. cbn [negb andb Z.eqb Pos.eqb]. rewrite Hg.
  rewrite (proj2 (Z.ltb_lt _ _) Hg0). cbn -[zlen splice bytes_end_body body_status as_padding Z.eqb Z.sub].
  rewrite Hc. destruct (Z.eqb_spec (8 - zlen got) 0) as [E|E].
  - destruct (negb _); [done|]. destruct (body_status _); [|done..].
    erewrite as_padding_eq; [|cbn -[zlen]; lia|cbn; rewrite Hp; reflexivity]. cbn -[zlen splice Z.sub]. by rewrite Hp.
  - unfold as_padding, bind, get. cbn -[zlen splice Z.sub Z.eqb]. by rewrite (proj2 (Z.eqb_neq _ _) E).
Qed.

Lemma turn_end s buf rest : ending s -> buf <> [] -> buf ++ rest = todo InEnd -> turned InEnd buf rest s.
Proof.
  intros A Hbuf Hb. cbn [todo] in Hb. rewrite <- (app_nil_r (r_content _)) in Hb.
  destruct (GetPtr_app buf rest _ _ Hb) as (got & c' & Ec & Eg & Hb' & Hc' & Hlen & Hgot).
  specialize (Hgot Hbuf ltac:(done)). change (zlen (r_content (end_rec st))) with 8 in Eg.
  pose proof (f_equal length Ec) as Hl. change (length (r_content (end_rec st))) with 8%nat in Hl. rewrite length_app in Hl.
  pose proof (as_end_turn s buf got _ A Hbuf Eg Hgot) as E. cbv zeta in E.
  destruct A as [_ Hbd Hh [_ Hp] [Ho Hw]]. unfold zlen in E. destruct c' as [|x c'].
  - cbn [length] in Hl. rewrite app_nil_r in Ec. subst got.
    rewrite splice_all in E by done. change (8 - Z.of_nat (length (r_content (end_rec st))) =? 0) with true in E.
    cbv iota in E. unfold end_rec in E. cbn [r_content] in E. rewrite bytes_end_body_bytes, body_status_Ok in E.
    cbn [protocolStatus MakeEndRequestBody uchar FCGI_REQUEST_COMPLETE] in E. change (negb (uchar 0 =? 0)) with false in E. cbv iota in E.
    left. eexists _, _, Done. split; [exact E|]. split; [by split|]. split; [done|].
    cbn [app] in Hb'. apply (f_equal length) in Hb'. rewrite length_app in Hb'. cbn [length] in Hb'.
    split; [intros Hn; exfalso; apply Hn, nil_length_inv; unfold end_rec in Hb'; cbn [r_content] in Hb'; lia|].
    split; [unfold end_rec in Hlen; cbn [r_content] in Hlen; lia|]. intros m.
    assert (Hbl : length buf = 8%nat).
    { apply (f_equal length) in Hb. rewrite !length_app in Hb. change (length (r_content (end_rec st))) with 8%nat in *.
      cbn [length] in Hb. unfold end_rec in *. cbn [r_content] in *. lia. }
    rewrite Hbl. replace (length _) with 0%nat by (unfold end_rec in Hb'; cbn [r_content] in Hb'; lia).
    cbn [safe Nat.add]. apply bool_decide_ext. lia.
  - rewrite (proj2 (Z.eqb_neq _ _)) in E by (cbn [length] in Hl; lia). rewrite Hc' in E by done.
    right. eexists _, (Next []). split; [exact E|]. split; [by right|]. cbn [length] in Hl. split.
    + right. split; [done|]. split; [done|]. cbn -[Z.sub Z.of_nat]. pose proof (zlen_pos _ Hgot). unfold zlen in *. lia.
    + intros n ->. rewrite Hc' in Hlen by done. cbn [length] in Hlen.
      destruct buf as [|y buf]; [done|]. assert (length (y :: buf) < 8)%nat.
      { apply (f_equal (fun l => length (fst l))) in Eg. cbn [fst] in Eg. unfold GetPtr in Eg. cbn [fst] in Eg.
        rewrite length_take in Eg. unfold zlen in Eg. lia. }
      cbn [safe]. apply bool_decide_eq_false_2. cbn [length] in *. lia.
Qed.

Lemma turn_spec pl s buf rest : at_place pl s -> buf <> [] -> buf ++ rest = todo pl -> turned pl buf rest s.
Proof.
  intros A Hbuf Hb. destruct pl as [c p rs| |].
  - destruct (decide (hdr s = [])) as [Hh|Hh]; [|by apply turn_record].
    destruct (an_hdr _ _ _ _ _ _ A) as [(_ & -> & -> & _)|(r & _ & Hhd & _)]; [by apply turn_header|by rewrite Hhd in Hh].
  - by apply turn_end.
  - by destruct buf.
Qed.

(** A whole read. *)
Lemma as_loop_spec fuel : forall pl s buf rest, at_place pl s -> buf ++ rest = todo pl -> (busy buf s <= fuel)%nat ->
  exists s', as_loop fuel buf s = Ok (None, s') /\
    if safe pl (length buf)
    then exists pl', at_place pl' s' /\ rest = todo pl' /\ forall m, safe pl' m = safe pl (length buf + m)
    else cut_short s'.
Proof.
  induction fuel as [|fuel IH]; intros pl s buf rest A Hb Hf.
  - destruct buf as [|x buf]; [|unfold busy in Hf; cbn in Hf; lia].
    exists s. split; [done|]. cbn [length]. replace (safe pl 0) with true by (by destruct pl as [c p rs| |]).
    by exists pl.
  - destruct buf as [|x buf].
    { exists s. split; [done|]. cbn [length]. replace (safe pl 0) with true by (by destruct pl as [c p rs| |]).
      by exists pl. }
    destruct (turn_spec pl s (x :: buf) rest A ltac:(done) Hb)
      as [(s1 & buf1 & pl1 & E & A1 & Hb1 & Hm & Hl & Hs)|(s1 & t & E & Ht & Hsp & Hs)].
    + cbn [as_loop]. erewrite bind_Ok by exact E.
      assert (Hf1 : (busy buf1 s1 <= fuel)%nat \/ buf1 = []).
      { destruct buf1; [by right|]. left. specialize (Hm ltac:(done)). lia. }
      assert (exists s', as_loop fuel buf1 s1 = Ok (None, s') /\
        if safe pl1 (length buf1)
        then exists pl', at_place pl' s' /\ rest = todo pl' /\ forall m, safe pl' m = safe pl1 (length buf1 + m)
        else cut_short s') as (s' & E' & H').
      { destruct Hf1 as [Hf1| ->]; [by apply IH|]. exists s1. split; [by destruct fuel|]. cbn [length].
        replace (safe pl1 0) with true by (by destruct pl1 as [c p rs| |]). by exists pl1. }
      exists s'. split; [done|]. rewrite <- (Nat.add_0_r (length (x :: buf))), <- Hs, Nat.add_0_r.
      destruct (safe pl1 (length buf1)); [|done]. destruct H' as (pl' & A' & Hr & Hs').
      exists pl'. split; [done|]. split; [done|]. intros m. rewrite Hs'. rewrite Nat.add_0_r. apply Hs.
    + exists s1. cbn [as_loop]. erewrite bind_Ok by exact E. split.
      * destruct Ht as [-> | ->]; [done|]. by destruct fuel.
      * by rewrite (Hs _ eq_refl).
Qed.

Lemma cut_short_faults s b : cut_short s -> b <> [] -> as_handle b s = Crash MemFault.
Proof.
  intros Hs Hb. destruct b as [|x b]; [done|]. unfold as_handle.
  replace (2 * length (x :: b) + 1)%nat with (S (2 * length (x :: b)))%nat by lia. cbn [as_loop].
  assert (H : as_turn (x :: b) s = Crash MemFault); [|unfold bind; by rewrite H].
  assert (Hg : forall n, 0 < n -> 0 < zlen (fst (GetPtr n (x :: b)))).
  { intros n Hn. unfold GetPtr, zlen. cbn [fst]. rewrite length_take. cbn [length]. lia. }
  unfold as_turn. rewrite (bind_Ok get _ _ s s) by done. destruct Hs as [Hh|(Hh & Hr & Hc)].
  - unfold FCGI_HEADER_LEN. rewrite (proj2 (Z.ltb_lt _ _)) by lia. unfold as_header. rewrite (bind_Ok get _ _ s s) by done.
    specialize (Hg (8 - zlen (hdr s)) ltac:(lia)). unfold FCGI_HEADER_LEN. destruct (GetPtr _ _) as [ptr buf']. cbn [fst] in Hg.
    unfold c_assert. rewrite (proj2 (Z.ltb_lt _ _) Hg). erewrite (bind_Ok (ret tt)) by reflexivity.
    rewrite (proj2 (Z.eqb_neq (zlen (hdr s)) 0)) by lia. done.
  - assert (Hl : (zlen (hdr s) <? FCGI_HEADER_LEN) = false) by (by rewrite Hh). rewrite Hl.
    assert (Ht : type (bytes_header (hdr s)) = FCGI_END_REQUEST) by (by rewrite Hh).
    rewrite Ht. cbn [Z.eqb Pos.eqb orb FCGI_END_REQUEST FCGI_STDOUT FCGI_STDERR].
    unfold as_end, bind, get, modify. rewrite Hr. cbn [negb andb]. specialize (Hg (contentLen s) ltac:(lia)).
    destruct (GetPtr _ _) as [ptr buf']. cbn [fst] in Hg. rewrite (proj2 (Z.ltb_lt _ _) Hg). cbn -[zlen splice Z.eqb Z.sub].
    rewrite (proj2 (Z.eqb_neq (contentLen s) 8)) by lia. done.
Qed.

(** No read of [chunks], the first of which starts [off] bytes into the answer, ends inside a
    header or the end body. *)
Fixpoint cuts_ok (rs : list rec) (off : nat) (chunks : list (list Z)) : bool :=
  match chunks with
  | [] => true
  | b :: chunks => cut_ok rs (off + length b) && cuts_ok rs (off + length b) chunks
  end.

Lemma as_reads_spec rs chunks : forall pl s off, at_place pl s -> concat chunks = todo pl -> Forall (fun b => b <> []) chunks ->
  (forall m, safe pl m = cut_ok rs (off + m)) ->
  if cuts_ok rs off chunks
  then exists s' pl', as_reads chunks s = Ok (None, s') /\ at_place pl' s' /\ todo pl' = []
  else as_reads chunks s = Crash MemFault.
Proof.
  induction chunks as [|b chunks IH]; intros pl s off A Hb Hne Hs.
  - by exists s, pl.
  - inversion_clear Hne as [|? ? Hbn Hne']. cbn [concat] in Hb. cbn [cuts_ok as_reads].
    destruct b as [|x b]; [done|].
    destruct (as_loop_spec (2 * length (x :: b) + 1) pl s (x :: b) (concat chunks) A Hb) as (s1 & E & H1).
    { unfold busy. case_bool_decide; lia. }
    rewrite <- Hs. erewrite bind_Ok by exact E. destruct (safe pl (length (x :: b))) eqn:Esafe.
    + destruct H1 as (pl1 & A1 & Hr & Hs1). cbn [andb]. apply IH with (pl := pl1); [done..|].
      intros m. rewrite Hs1, Hs. f_equal. lia.
    + cbn [andb]. destruct chunks as [|b2 chunks].
      * exfalso. rewrite app_nil_r in Hb. rewrite Hb, safe_all in Esafe. done.
      * inversion_clear Hne' as [|? ? Hb2 _]. cbn [as_reads]. unfold bind. by rewrite (cut_short_faults s1 b2 H1 Hb2).
Qed.
End Places.

Lemma answer_read rs st chunks : Forall answer_rec rs -> 0 <= st <= INT_MAX ->
  Forall (fun b => b <> []) chunks -> concat chunks = wire rs ++ enc (end_rec st) ->
  if cuts_ok rs 0 chunks
  then exists s', as_reads chunks (reply_init []) = Ok (None, s') /\ as_out s' = stream_of FCGI_STDOUT rs /\
         as_err s' = stream_of FCGI_STDERR rs /\ exitStatusSet s' = true /\ exitStatus s' = st
  else as_reads chunks (reply_init []) = Crash MemFault.
Proof.
  intros Hrs Hst Hne Hc.
  pose proof (as_reads_spec (stream_of FCGI_STDOUT rs) (stream_of FCGI_STDERR rs) st Hst rs chunks (InRecord [] [] rs)
    (reply_init []) 0) as H.
  assert (A : at_place (stream_of FCGI_STDOUT rs) (stream_of FCGI_STDERR rs) st (InRecord [] [] rs) (reply_init [])).
  { split; try done. by left. }
  specialize (H A Hc Hne). cbn [safe length Nat.add] in H.
  assert (Hs : forall m, (if bool_decide (m <= 0)%nat then true else cut_ok rs (m - 0)) = cut_ok rs m).
  { intros m. rewrite Nat.sub_0_r. case_bool_decide; [|done]. replace m with 0%nat by lia. by destruct rs. }
  specialize (H Hs). destruct (cuts_ok rs 0 chunks); [|done]. destruct H as (s' & pl & E & Apl & Ht).
  exists s'. split; [done|]. destruct pl as [c p rs'| |]; [|done|].
  - cbn [todo] in Ht. exfalso. apply app_nil in Ht as [_ Ht]. apply app_nil in Ht as [_ Ht]. by apply app_nil in Ht as [_ Ht].
  - destruct Apl as [_ [H1 H2] _ [H3 H4]]. done.
Qed.

(** C22: the answer of the application reaches the web server: whatever the records of [STDOUT] and
    [STDERR] and their padding, and in whatever pieces they are read, the bridge writes their
    contents to its standard output and error and ends with the application's status, exactly
    when no read ends inside a record's header or inside the body of [END_REQUEST].  A read that
    ends there makes the next one write outside the object it fills. *)
Theorem answer_reaches_web_server rs st chunks : Forall answer_rec rs -> 0 <= st <= INT_MAX ->
  Forall (fun b => b <> []) chunks -> concat chunks = wire rs ++ enc (end_rec st) ->
  if cuts_ok rs 0 chunks
  then exists s', as_reads chunks (reply_init []) = Ok (None, s') /\ as_out s' = stream_of FCGI_STDOUT rs /\
         as_err s' = stream_of FCGI_STDERR rs /\ exitStatusSet s' = true /\ exitStatus s' = st
  else as_reads chunks (reply_init []) = Crash MemFault.
Proof. apply answer_read. Qed.

(** Three records in two reads that meet inside the content of the first; and the same answer in
    reads that meet inside the header of the second. *)
Lemma answer_reaches_web_server_witness :
  let rs := [mkRec FCGI_STDOUT 1 [79; 107] [0]; mkRec FCGI_STDERR 1 [33] []; mkRec FCGI_STDOUT 1 [10] []] in
  let bytes := wire rs ++ enc (end_rec 3) in
  (exists s', as_reads [take 9 bytes; drop 9 bytes] (reply_init []) = Ok (None, s') /\
     as_out s' = [79; 107; 10] /\ as_err s' = [33] /\ exitStatus s' = 3) /\
  as_reads [take 14 bytes; drop 14 bytes] (reply_init []) = Crash MemFault.
Proof.
  intros rs bytes.
  assert (Hrs : Forall answer_rec rs).
  { repeat (constructor; [split; [by repeat split; vm_compute|]; split; [done|]; by auto|]). constructor. }
  assert (Hst : 0 <= 3 <= INT_MAX) by (unfold INT_MAX; lia).
  split.
  - destruct (answer_reaches_web_server rs 3 [take 9 bytes; drop 9 bytes] Hrs Hst) as (s' & E & Ho & He & _ & Hs).
    + by repeat constructor.
    + reflexivity.
    + exists s'. split; [exact E|]. split; [exact Ho|]. split; [exact He|exact Hs].
  - apply (answer_reaches_web_server rs 3 [take 14 bytes; drop 14 bytes] Hrs Hst); [by repeat constructor|reflexivity].
Defined.

(** ** Any bytes

    What the handler does on bytes that need not be an answer: it may exit, and it may write
    outside its objects as above, but it always ends and never fails its assertion. *)

Record reply_ok (s : Reply) : Prop := {
  rk_content : 0 <= contentLen s;
  rk_padding : 0 <= paddingLen s;
  rk_hdr : Forall is_byte (hdr s) }.

Lemma GetPtr_bytes n buf : Forall is_byte buf -> Forall is_byte (fst (GetPtr n buf)) /\ Forall is_byte (snd (GetPtr n buf)).
Proof. intros H. split; [by apply Forall_take|by apply Forall_drop]. Qed.

Lemma GetPtr_len n buf : 0 <= n -> zlen (fst (GetPtr n buf)) = Z.min n (zlen buf) /\
  (length (snd (GetPtr n buf)) = length buf - Z.to_nat (Z.min n (zlen buf)))%nat.
Proof. intros H. unfold GetPtr, zlen. cbn [fst snd]. rewrite length_take, length_drop. split; lia. Qed.

Lemma header_fields_nonneg bs : Forall is_byte bs ->
  0 <= header_contentLength (bytes_header bs) /\ 0 <= paddingLength (bytes_header bs).
Proof.
  intros H. unfold header_contentLength. rewrite shiftl_8.
  do 8 (destruct bs as [|? bs]; [done|]). destruct bs as [|? bs]; [|done]. cbn [bytes_header contentLengthB1 contentLengthB0 paddingLength].
  repeat match goal with H : Forall _ (_ :: _) |- _ => inversion_clear H end. unfold is_byte in *. lia.
Qed.

(** What a turn promises: on bytes, the state stays well formed and either the bytes or the
    header get less. *)
Definition turn_ends (buf : list Z) (s : Reply) (r : res (turn * Reply)) : Prop :=
  match r with
  | Ok (Next buf', s') => reply_ok s' /\ requestId s' = requestId s /\ Forall is_byte buf' /\ (busy buf' s' < busy buf s)%nat
  | Ok (_, s') => reply_ok s' /\ requestId s' = requestId s
  | Crash f => f <> AssertFail
  | NoFuel => False
  end.

Lemma as_padding_ends buf s buf0 s0 : reply_ok s -> hdr s0 <> [] -> Forall is_byte buf -> (length buf <= length buf0)%nat ->
  buf0 <> [] -> (contentLen s <> 0 -> (length buf < length buf0)%nat) -> requestId s = requestId s0 ->
  turn_ends buf0 s0 (as_padding buf s).
Proof.
  intros [Hc Hp Hh] Hne Hby Hl Hne0 Hlt Hid. destruct (Z.eqb_spec (contentLen s) 0) as [E|E].
  - destruct (if 0 <? paddingLen s then GetPtr (paddingLen s) buf else ([], buf)) as [ptr buf'] eqn:Eg.
    rewrite (as_padding_eq s buf ptr buf' E Eg).
    assert (H : Forall is_byte buf' /\ 0 <= zlen ptr <= paddingLen s /\ (length buf' + length ptr = length buf)%nat).
    { pose proof (GetPtr_bytes (paddingLen s) buf Hby) as [_ Hb]. pose proof (GetPtr_len (paddingLen s) buf Hp) as [Hz Hn].
      destruct (Z.ltb_spec 0 (paddingLen s)).
      - rewrite Eg in Hb, Hz, Hn. cbn [fst snd] in *. unfold zlen in *. split; [done|]. lia.
      - injection Eg as <- <-. split; [done|]. unfold zlen. cbn [length]. lia. }
    destruct H as (Hb & Hz & Hn). unfold turn_ends, busy. rewrite (bool_decide_eq_false_2 (hdr s0 = [])) by done.
    destruct (Z.eqb_spec (paddingLen s - zlen ptr) 0) as [E2|E2].
    + split; [split; cbn -[Z.sub]; [lia|lia|constructor]|]. split; [done|]. split; [done|].
      cbn. lia.
    + assert (Hb0 : (length ptr <> 0 \/ length buf = 0)%nat).
      { destruct (Z.ltb_spec 0 (paddingLen s)); [|unfold zlen in *; lia].
        pose proof (GetPtr_len (paddingLen s) buf Hp) as [Hz' _]. rewrite Eg in Hz'. cbn [fst] in Hz'. unfold zlen in *. lia. }
      split; [split; cbn -[Z.sub]; [lia|lia|done]|]. split; [done|]. split; [done|].
      destruct buf0; [done|]. cbn [length] in *. case_bool_decide; lia.
  - unfold as_padding. rewrite (bind_Ok get _ _ s s) by done. rewrite (proj2 (Z.eqb_neq _ _) E). cbn [negb].
    specialize (Hlt E). split; [done|]. split; [done|]. split; [done|]. unfold busy. rewrite (bool_decide_eq_false_2 (hdr s0 = [])) by done.
    case_bool_decide; lia.
Qed.

Lemma busy_less buf buf' s s' : hdr s <> [] -> (length buf' <= length buf)%nat -> hdr s' = [] -> (busy buf' s' < busy buf s)%nat.
Proof. intros Hn Hl Hh. unfold busy. rewrite (bool_decide_eq_true_2 _ Hh), (bool_decide_eq_false_2 _ Hn). lia. Qed.

(** The bytes [GetPtr] takes and leaves. *)
Lemma GetPtr_facts n buf : 0 <= n -> Forall is_byte buf -> exists ptr buf', GetPtr n buf = (ptr, buf') /\
  Forall is_byte ptr /\ Forall is_byte buf' /\ zlen ptr = Z.min n (zlen buf) /\ (length buf' + length ptr = length buf)%nat.
Proof.
  intros Hn Hb. pose proof (GetPtr_bytes n buf Hb) as [H1 H2]. pose proof (GetPtr_len n buf Hn) as [H3 H4].
  destruct (GetPtr n buf) as [ptr buf']. cbn [fst snd] in *. exists ptr, buf'. unfold zlen in *. split_and!; try done. lia.
Qed.

Lemma header_ends buf s : reply_ok s -> Forall is_byte buf -> buf <> [] -> zlen (hdr s) < FCGI_HEADER_LEN ->
  turn_ends buf s (as_header buf s).
Proof.
  intros [Hc Hp Hh] Hby Hne H8. unfold as_header. rewrite (bind_Ok get _ _ s s) by done.
  destruct (GetPtr_facts (FCGI_HEADER_LEN - zlen (hdr s)) buf ltac:(lia) Hby) as (ptr & buf' & -> & Hb1 & Hb2 & Hz & Hl).
  pose proof (zlen_pos _ Hne). assert (Hptr : 0 < zlen ptr) by lia.
  unfold c_assert. rewrite (proj2 (Z.ltb_lt _ _) Hptr). rewrite (bind_Ok (ret tt) _ _ tt s) by done.
  destruct (Z.eqb_spec (zlen (hdr s)) 0) as [E|E]; [|done]. apply zlen_0 in E.
  rewrite (bind_Ok (ret tt) _ _ tt s) by done. erewrite (bind_Ok (modify _)) by reflexivity.
  erewrite (bind_Ok get) by reflexivity. set (s1 := s <| hdr := hdr s ++ ptr |>).
  assert (K1 : reply_ok s1) by (split; [done..|]; cbn; by apply Forall_app).
  change (hdr s1) with (hdr s ++ ptr).
  destruct (zlen (hdr s ++ ptr) <? FCGI_HEADER_LEN); [done|]. destruct (negb _); [done|].
  destruct (negb _); [done|].
  pose proof (header_fields_nonneg _ (rk_hdr _ K1)) as [? ?]. change (hdr s1) with (hdr s ++ ptr) in *.
  split; [split; [done|done|apply K1]|]. split; [done|]. split; [done|].
  unfold busy, zlen, FCGI_HEADER_LEN in *. case_bool_decide; case_bool_decide; lia.
Qed.

(** The state after [count] bytes of content were taken. *)
Lemma content_taken (s : Reply) (ptr buf buf' : list Z) (s1 : Reply) : reply_ok s -> buf <> [] -> hdr s <> [] -> Forall is_byte buf' ->
  zlen ptr = Z.min (contentLen s) (zlen buf) -> (length buf' + length ptr = length buf)%nat ->
  contentLen s1 = contentLen s - zlen ptr -> paddingLen s1 = paddingLen s -> hdr s1 = hdr s -> requestId s1 = requestId s ->
  turn_ends buf s (as_padding buf' s1).
Proof.
  intros [Hc Hp Hh] Hne Hhne Hb Hz Hl Ec Ep Eh Er. pose proof (zlen_pos _ Hne). apply as_padding_ends; try done.
  - split; [lia|lia|by rewrite Eh].
  - lia.
  - unfold zlen in *. lia.
Qed.

Lemma body_status_calm b : faultless (body_status b).
Proof. unfold body_status, int_chk. destruct (int_fits _); [|done]. cbn [rbind]. by destruct (int_fits _). Qed.

(** What the two kinds of record do before the padding: [count] bytes are taken, or the program
    exits. *)
Definition taken (n : Z) (buf' : list Z) (s : Reply) (r : res (turn * Reply)) : Prop :=
  match r with
  | Ok (t, s1) => paddingLen s1 = paddingLen s /\ hdr s1 = hdr s /\ requestId s1 = requestId s /\
      contentLen s1 = contentLen s - n /\ (t = Next buf' \/ exists code, t = Exit code)
  | Crash f => f <> AssertFail
  | NoFuel => False
  end.

Lemma write_out_taken to_out bs s : exists e s1, write_out to_out bs s = Ok (e, s1) /\
  paddingLen s1 = paddingLen s /\ hdr s1 = hdr s /\ requestId s1 = requestId s /\ contentLen s1 = contentLen s.
Proof.
  unfold write_out. rewrite (bind_Ok get _ _ s s) by done.
  destruct (ws_script s) as [|[n|e] w]; destruct to_out; by eexists _, _.
Qed.

Lemma as_stream_taken to_out buf s ptr buf' : GetPtr (contentLen s) buf = (ptr, buf') ->
  taken (zlen ptr) buf' s (as_stream to_out buf s).
Proof.
  intros Eg. unfold as_stream. rewrite (bind_Ok get _ _ s s) by done. rewrite Eg.
  erewrite (bind_Ok (modify _)) by reflexivity. destruct (0 <? zlen ptr); [|by split_and!; auto].
  destruct (write_out_taken to_out ptr (s <| contentLen := contentLen s - zlen ptr |>)) as (e & s1 & E & ? & ? & ? & ?).
  erewrite bind_Ok by exact E. unfold ret, taken. split_and!; try done. destruct e; [right; by eexists|by left].
Qed.

Lemma as_end_taken buf s ptr buf' : GetPtr (contentLen s) buf = (ptr, buf') ->
  taken (zlen ptr) buf' s (as_end buf s) \/ exists s1, as_end buf s = Ok (Exit FCGX_PROTOCOL_ERROR, s1) /\ contentLen s1 = contentLen s /\
    paddingLen s1 = paddingLen s /\ hdr s1 = hdr s /\ requestId s1 = requestId s.
Proof.
  intros Eg. unfold as_end. rewrite (bind_Ok get _ _ s s) by done.
  destruct (negb (readingEndRequestBody s) && _); [right; by exists s|left]. rewrite Eg.
  erewrite (bind_Ok (modify _)) by reflexivity. set (s0 := s <| readingEndRequestBody := true |>).
  assert (H : (exists s1, (if 0 <? zlen ptr then (if contentLen s =? 8 then ret tt else crash MemFault) ;;;
        modify (fun s => s <| erBody := splice 0 ptr (erBody s) |>) ;;;
        modify (fun s => s <| contentLen := contentLen s - zlen ptr |>) else ret tt) s0 = Ok (tt, s1) /\
      paddingLen s1 = paddingLen s /\ hdr s1 = hdr s /\ requestId s1 = requestId s /\ contentLen s1 = contentLen s - zlen ptr) \/
    (if 0 <? zlen ptr then (if contentLen s =? 8 then ret tt else crash MemFault) ;;;
        modify (fun s => s <| erBody := splice 0 ptr (erBody s) |>) ;;;
        modify (fun s => s <| contentLen := contentLen s - zlen ptr |>) else ret tt) s0 = Crash MemFault).
  { destruct (Z.ltb_spec 0 (zlen ptr)) as [Hp|Hp].
    - destruct (contentLen s =? 8); [left|by right]. by eexists.
    - left. exists s0. pose proof (zlen_nonneg ptr). split_and!; try done. cbn -[zlen]. lia. }
  destruct H as [(s1 & E & Hp & Hh & Hr & Hc)|E]; [|by rewrite (bind_Crash _ _ _ _ E)].
  erewrite bind_Ok by exact E. rewrite (bind_Ok get _ _ s1 s1) by done.
  destruct (contentLen s1 =? 0); [|by split_and!; auto]. destruct (negb _); [by split_and!; eauto|].
  unfold bind, lift. pose proof (body_status_calm (bytes_end_body (erBody s1))) as Hst.
  destruct (body_status _) as [st|fl|]; [|by destruct fl|done]. by split_and!; auto.
Qed.

Lemma as_turn_ends buf s : reply_ok s -> Forall is_byte buf -> buf <> [] -> turn_ends buf s (as_turn buf s).
Proof.
  intros K Hby Hne. unfold as_turn. rewrite (bind_Ok get _ _ s s) by done.
  destruct (Z.ltb_spec (zlen (hdr s)) FCGI_HEADER_LEN) as [H8|H8]; [by apply header_ends|].
  assert (Hhne : hdr s <> []) by (intros E; rewrite E in H8; done).
  destruct (GetPtr_facts (contentLen s) buf (rk_content _ K) Hby) as (ptr & buf' & Eg & Hb1 & Hb2 & Hz & Hl).
  pose proof K as [Hc Hp Hh]. pose proof (zlen_nonneg buf). set (body := if _ || _ then _ else _).
  assert (Hbody : (exists s1 code, body s = Ok (Exit code, s1) /\ reply_ok s1 /\ requestId s1 = requestId s) \/
    taken (zlen ptr) buf' s (body s)).
  { unfold body. destruct (_ || _); [right; by apply as_stream_taken|]. destruct (_ =? FCGI_END_REQUEST).
    - destruct (as_end_taken buf s ptr buf' Eg) as [Ht|(s1 & E & ? & ? & Eh & ?)]; [by right|].
      left. eexists s1, _. split; [exact E|]. split; [|done]. split; [lia|lia|by rewrite Eh].
    - left. by eexists s, _. }
  destruct Hbody as [(s1 & code & E & K1 & Er)|Ht]; [by erewrite bind_Ok by exact E|].
  unfold bind. destruct (body s) as [[t s1]|fl|]; [|done|done]. destruct Ht as (Ep & Eh & Er & Ec & [-> |[code ->]]).
  - by apply (content_taken s ptr buf buf' s1).
  - split; [|done]. split; [lia|lia|by rewrite Eh].
Qed.

Lemma as_loop_ends fuel : forall buf s, reply_ok s -> Forall is_byte buf -> (busy buf s <= fuel)%nat ->
  match as_loop fuel buf s with
  | Ok (_, s') => reply_ok s' /\ requestId s' = requestId s
  | Crash f => f <> AssertFail
  | NoFuel => False
  end.
Proof.
  induction fuel as [|fuel IH]; intros buf s K Hby Hf; (destruct buf as [|x buf]; [done|]).
  - unfold busy in Hf. cbn in Hf. lia.
  - cbn [as_loop]. pose proof (as_turn_ends (x :: buf) s K Hby ltac:(done)) as H. unfold bind.
    destruct (as_turn (x :: buf) s) as [[[code| |buf'] s1]|fl|]; [done|done| |done|done].
    destruct H as (K1 & Er & Hb & Hl). specialize (IH buf' s1 K1 Hb ltac:(lia)).
    destruct (as_loop fuel buf' s1) as [[r s2]|fl|]; [|done|done]. split; [apply IH|]. rewrite <- Er. apply IH.
Qed.

(** C37: the handler of the answer ends on every input: whatever bytes the application sends, in
    whatever state of the current record, the loop takes them all or exits the program, and its
    assertion holds. *)
Theorem answer_handler_ends buf s : reply_ok s -> Forall is_byte buf ->
  match as_handle buf s with
  | Ok (_, s') => reply_ok s' /\ requestId s' = requestId s
  | Crash f => f <> AssertFail
  | NoFuel => False
  end.
Proof. intros K Hby. apply as_loop_ends; [done|done|]. unfold busy. case_bool_decide; lia. Qed.

(** A record of a type that is not expected. *)
Lemma answer_handler_ends_witness :
  as_handle (enc (mkRec FCGI_GET_VALUES_RESULT 1 [7] [])) (reply_init []) =
    Ok (Some FCGX_PROTOCOL_ERROR, (reply_init []) <| hdr := [1; 10; 0; 1; 0; 1; 0; 0] |> <| contentLen := 1 |>) /\
  reply_ok ((reply_init []) <| hdr := [1; 10; 0; 1; 0; 1; 0; 0] |> <| contentLen := 1 |>).
Proof.
  assert (K : reply_ok (reply_init [])) by (split; [done|done|constructor]).
  assert (Hb : Forall is_byte (enc (mkRec FCGI_GET_VALUES_RESULT 1 [7] []))).
  { repeat (constructor; [by vm_compute|]). constructor. }
  pose proof (answer_handler_ends _ _ K Hb) as H.
  split; [reflexivity|]. exact (proj1 H).
Defined.
