(* ===== verification/CgiLoop.v ===== *)
(** * The event loop of the bridge

    The handlers of [cgi-fcgi/cgi-fcgi.c] as the application of [OS_DoIo]: [ScheduleIo] posts the
    operations, the handlers move the request's body from the web server to the application
    and the answer back. *)

From stdpp Require Import gmap.
From S2P Require Import Prelude FcgiProto FcgiStream FcgiWriter FcgiParams FcgiReader FcgiRecords OsAsync OsDoIo FcgiServe CgiFcgi CgiAnswer.

Definition BUFFLEN : Z := 8192.

(** The static variables of the program: [fromAS] and [fromWS] with their pointers as offsets in
    [buff], the flags of the pending operations, and what the answer's handler works on. *)
Record Bridge := mkBridge {
  reply : Reply;
  as_buff : list Z;
  as_next : Z;
  ws_buff : list Z;
  ws_next : Z;
  ws_stop : Z;
  appServerSock : Z;
  bytesToRead : Z;
  webServerReadHandlerEOF : bool;
  stdin_eof_sent : bool;
  wsReadPending : bool;
  fcgiReadPending : bool;
  fcgiWritePending : bool }.

#[export] Instance set_reply : Setter reply := fun g r =>
  mkBridge (g (reply r)) (as_buff r) (as_next r) (ws_buff r) (ws_next r) (ws_stop r) (appServerSock r)
    (bytesToRead r) (webServerReadHandlerEOF r) (stdin_eof_sent r) (wsReadPending r) (fcgiReadPending r)
    (fcgiWritePending r).
#[export] Instance set_as_buff : Setter as_buff := fun g r =>
  mkBridge (reply r) (g (as_buff r)) (as_next r) (ws_buff r) (ws_next r) (ws_stop r) (appServerSock r)
    (bytesToRead r) (webServerReadHandlerEOF r) (stdin_eof_sent r) (wsReadPending r) (fcgiReadPending r)
    (fcgiWritePending r).
#[export] Instance set_as_next : Setter as_next := fun g r =>
  mkBridge (reply r) (as_buff r) (g (as_next r)) (ws_buff r) (ws_next r) (ws_stop r) (appServerSock r)
    (bytesToRead r) (webServerReadHandlerEOF r) (stdin_eof_sent r) (wsReadPending r) (fcgiReadPending r)
    (fcgiWritePending r).
#[export] Instance set_ws_buff : Setter ws_buff := fun g r =>
  mkBridge (reply r) (as_buff r) (as_next r) (g (ws_buff r)) (ws_next r) (ws_stop r) (appServerSock r)
    (bytesToRead r) (webServerReadHandlerEOF r) (stdin_eof_sent r) (wsReadPending r) (fcgiReadPending r)
    (fcgiWritePending r).
#[export] Instance set_ws_next : Setter ws_next := fun g r =>
  mkBridge (reply r) (as_buff r) (as_next r) (ws_buff r) (g (ws_next r)) (ws_stop r) (appServerSock r)
    (bytesToRead r) (webServerReadHandlerEOF r) (stdin_eof_sent r) (wsReadPending r) (fcgiReadPending r)
    (fcgiWritePending r).
#[export] Instance set_ws_stop : Setter ws_stop := fun g r =>
  mkBridge (reply r) (as_buff r) (as_next r) (ws_buff r) (ws_next r) (g (ws_stop r)) (appServerSock r)
    (bytesToRead r) (webServerReadHandlerEOF r) (stdin_eof_sent r) (wsReadPending r) (fcgiReadPending r)
    (fcgiWritePending r).
#[export] Instance set_appServerSock : Setter appServerSock := fun g r =>
  mkBridge (reply r) (as_buff r) (as_next r) (ws_buff r) (ws_next r) (ws_stop r) (g (appServerSock r))
    (bytesToRead r) (webServerReadHandlerEOF r) (stdin_eof_sent r) (wsReadPending r) (fcgiReadPending r)
    (fcgiWritePending r).
#[export] Instance set_bytesToRead : Setter bytesToRead := fun g r =>
  mkBridge (reply r) (as_buff r) (as_next r) (ws_buff r) (ws_next r) (ws_stop r) (appServerSock r)
    (g (bytesToRead r)) (webServerReadHandlerEOF r) (stdin_eof_sent r) (wsReadPending r) (fcgiReadPending r)
    (fcgiWritePending r).
#[export] Instance set_webServerReadHandlerEOF : Setter webServerReadHandlerEOF := fun g r =>
  mkBridge (reply r) (as_buff r) (as_next r) (ws_buff r) (ws_next r) (ws_stop r) (appServerSock r)
    (bytesToRead r) (g (webServerReadHandlerEOF r)) (stdin_eof_sent r) (wsReadPending r) (fcgiReadPending r)
    (fcgiWritePending r).
#[export] Instance set_stdin_eof_sent : Setter stdin_eof_sent := fun g r =>
  mkBridge (reply r) (as_buff r) (as_next r) (ws_buff r) (ws_next r) (ws_stop r) (appServerSock r)
    (bytesToRead r) (webServerReadHandlerEOF r) (g (stdin_eof_sent r)) (wsReadPending r) (fcgiReadPending r)
    (fcgiWritePending r).
#[export] Instance set_wsReadPending : Setter wsReadPending := fun g r =>
  mkBridge (reply r) (as_buff r) (as_next r) (ws_buff r) (ws_next r) (ws_stop r) (appServerSock r)
    (bytesToRead r) (webServerReadHandlerEOF r) (stdin_eof_sent r) (g (wsReadPending r)) (fcgiReadPending r)
    (fcgiWritePending r).
#[export] Instance set_fcgiReadPending : Setter fcgiReadPending := fun g r =>
  mkBridge (reply r) (as_buff r) (as_next r) (ws_buff r) (ws_next r) (ws_stop r) (appServerSock r)
    (bytesToRead r) (webServerReadHandlerEOF r) (stdin_eof_sent r) (wsReadPending r) (g (fcgiReadPending r))
    (fcgiWritePending r).
#[export] Instance set_fcgiWritePending : Setter fcgiWritePending := fun g r =>
  mkBridge (reply r) (as_buff r) (as_next r) (ws_buff r) (ws_next r) (ws_stop r) (appServerSock r)
    (bytesToRead r) (webServerReadHandlerEOF r) (stdin_eof_sent r) (wsReadPending r) (fcgiReadPending r)
    (g (fcgiWritePending r)).

(** ** Memory and procedures, as [OS_DoIo] sees them *)

(** The addresses of [fromAS.buff] and [fromWS.buff]. *)
Definition fromAS_buff : Z := 0.
Definition fromWS_buff : Z := BUFFLEN.

Definition bridge_load (b : Bridge) (addr len : Z) : list Z :=
  if addr <? fromWS_buff then sub (addr - fromAS_buff) len (as_buff b) else sub (addr - fromWS_buff) len (ws_buff b).

Definition bridge_store (addr : Z) (bs : list Z) (b : Bridge) : Bridge :=
  if addr <? fromWS_buff then b <| as_buff := splice (addr - fromAS_buff) bs (as_buff b) |>
  else b <| ws_buff := splice (addr - fromWS_buff) bs (ws_buff b) |>.

(** The procedures that are posted. *)
Definition PROC_AppServerRead : Z := 1.
Definition PROC_WebServerRead : Z := 2.
Definition PROC_AppServerWrite : Z := 3.

(** [OS_Close], [OS_LibShutdown] and so on, on the library's part of the state, and the program's
    own assignments. *)
Definition in_os {A} (m : M Aio A) : M (Aio * Bridge) A := zoom fst (fun a s => (a, snd s)) m.
Definition in_bridge {A} (m : M Bridge A) : M (Aio * Bridge) A := zoom snd (fun b s => (fst s, b)) m.
Definition on_reply {A} (m : M Reply A) : M Bridge A := zoom reply (fun r b => b <| reply := r |>) m.

Section Loop.
(** [errno] after an operation that failed, and whether [shutdown] fails. *)
Context (OS_Errno : Z) (shutdown_fails : bool).

(** The end of the process. *)
Definition FCGIexit (exitCode : Z) : M (Aio * Bridge) (option Z) :=
  s <- get ;;
  (if negb (appServerSock (snd s) =? -1) then
     in_os (OS_Close (appServerSock (snd s)) true shutdown_fails 0) ;;;
     in_bridge (modify (fun b => b <| appServerSock := -1 |>))
   else ret tt) ;;;
  in_os OS_LibShutdown ;;;
  ret (Some exitCode).

(** [if(OS_Async...(...) == -1) FCGIexit(OS_Errno); else ... = TRUE;]. *)
Definition post (async : M Aio Z) (pending : Bridge -> Bridge) : M (Aio * Bridge) (option Z) :=
  rc <- in_os async ;;
  if rc =? -1 then FCGIexit OS_Errno else in_bridge (modify pending) ;;; ret None.

(** "Move data between standard in and the FastCGI connection". *)
Definition schedule_write : M (Aio * Bridge) (option Z) :=
  s <- get ;;
  let b := snd s in
  let length := ws_stop b - ws_next b in
  if negb (fcgiWritePending b) && negb (appServerSock b =? -1) && negb (length =? 0) then
    post (OS_AsyncWrite (appServerSock b) 0 (fromWS_buff + ws_next b) length PROC_AppServerWrite (appServerSock b))
         (fun b => b <| fcgiWritePending := true |>)
  else ret None.

(** "Schedule a read from the FastCGI application". *)
Definition schedule_read : M (Aio * Bridge) (option Z) :=
  s <- get ;;
  let b := snd s in
  if negb (fcgiReadPending b) && negb (appServerSock b =? -1) then
    in_bridge (modify (fun b => b <| as_next := 0 |>)) ;;;
    post (OS_AsyncRead (appServerSock b) 0 (fromAS_buff + 0) BUFFLEN PROC_AppServerRead (appServerSock b))
         (fun b => b <| fcgiReadPending := true |>)
  else ret None.

(** "Schedule a read from standard in if necessary". *)
Definition schedule_stdin : M (Aio * Bridge) (option Z) :=
  s <- get ;;
  let b := snd s in
  if (0 <? bytesToRead b) && negb (webServerReadHandlerEOF b) && negb (wsReadPending b) &&
     negb (fcgiWritePending b) && (ws_next b =? 0) then
    post (OS_AsyncReadStdin (fromWS_buff + ws_next b + FCGI_HEADER_LEN) (BUFFLEN - FCGI_HEADER_LEN)
            PROC_WebServerRead STDIN_FILENO)
         (fun b => b <| wsReadPending := true |>)
  else ret None.

Definition ScheduleIo : M (Aio * Bridge) (option Z) :=
  unless_exit schedule_write (unless_exit schedule_read schedule_stdin).

(** The record that ends [STDIN], appended to [fromWS]; once. *)
Definition WriteStdinEof : M Bridge unit :=
  b <- get ;;
  if stdin_eof_sent b then ret tt else
  h <- lift (MakeHeader FCGI_STDIN (requestId (reply b)) 0 0) ;;
  buff <- lift (mem_write (ws_buff b) (ws_stop b) (header_bytes h)) ;;
  modify (fun b => b <| ws_buff := buff |> <| ws_stop := ws_stop b + FCGI_HEADER_LEN |> <| stdin_eof_sent := true |>).

(** What has been read from the web server becomes a record of [STDIN]. *)
Definition frame_stdin (bytesRead : Z) : M Bridge unit :=
  b <- get ;;
  h <- lift (MakeHeader FCGI_STDIN (requestId (reply b)) bytesRead 0) ;;
  buff <- lift (mem_write (ws_buff b) 0 (header_bytes h)) ;;
  left <- lift (int_chk (bytesToRead b - bytesRead)) ;;
  modify (fun b => b <| ws_buff := buff |> <| bytesToRead := left |> <| ws_stop := FCGI_HEADER_LEN + bytesRead |>
                     <| webServerReadHandlerEOF := (bytesRead =? 0) |>) ;;;
  if left <=? 0 then WriteStdinEof else ret tt.

Definition WebServerReadHandler (clientData bytesRead : Z) : M (Aio * Bridge) (option Z) :=
  s <- get ;;
  let b := snd s in
  c_assert (ws_next b =? ws_stop b) ;;;
  c_assert (ws_next b =? 0) ;;;
  c_assert (wsReadPending b) ;;;
  in_bridge (modify (fun b => b <| wsReadPending := false |>)) ;;;
  if bytesRead <? 0 then FCGIexit OS_Errno else
  in_bridge (frame_stdin bytesRead) ;;;
  ScheduleIo.

Definition AppServerWriteHandler (clientData bytesWritten : Z) : M (Aio * Bridge) (option Z) :=
  s <- get ;;
  let b := snd s in
  let length := ws_stop b - ws_next b in
  c_assert (0 <? length) ;;;
  c_assert (fcgiWritePending b) ;;;
  in_bridge (modify (fun b => b <| fcgiWritePending := false |>)) ;;;
  if bytesWritten <? 0 then FCGIexit OS_Errno else
  in_bridge (modify (fun b => if bytesWritten <? length then b <| ws_next := ws_next b + bytesWritten |>
                              else b <| ws_next := 0 |> <| ws_stop := 0 |>)) ;;;
  ScheduleIo.

Definition AppServerReadHandler (clientData bytesRead : Z) : M (Aio * Bridge) (option Z) :=
  s <- get ;;
  c_assert (fcgiReadPending (snd s)) ;;;
  in_bridge (modify (fun b => b <| fcgiReadPending := false |>)) ;;;
  if bytesRead <? 0 then FCGIexit OS_Errno else
  if bytesRead =? 0 then FCGIexit (as_eof (reply (snd s))) else
  e <- in_bridge (on_reply (as_handle (sub (as_next (snd s)) bytesRead (as_buff (snd s))))) ;;
  in_bridge (modify (fun b => b <| as_next := as_next b + bytesRead |>)) ;;;
  match e with
  | Some code => FCGIexit code
  | None => ScheduleIo
  end.

(** [( *procPtr)(clientData, len)]. *)
Definition bridge_callback (proc clientData len : Z) : M (Aio * Bridge) (option Z) :=
  if proc =? PROC_AppServerRead then AppServerReadHandler clientData len
  else if proc =? PROC_WebServerRead then WebServerReadHandler clientData len
  else if proc =? PROC_AppServerWrite then AppServerWriteHandler clientData len
  else crash MemFault.

#[export] Instance bridge_application : Application Bridge :=
  {| mem_load := bridge_load; mem_store := bridge_store; callback := bridge_callback |}.

(** The end of [main]: the first scheduling, and the loop [while(!exitStatusSet) OS_DoIo(NULL);]. *)
Definition start_loop : M (Aio * Bridge) (option Z) :=
  in_bridge (modify (fun b => b <| ws_next := 0 |> <| ws_stop := 0 |> <| webServerReadHandlerEOF := false |>)) ;;;
  in_bridge (b <- get ;; if bytesToRead b <=? 0 then WriteStdinEof else ret tt) ;;;
  ScheduleIo.

Fixpoint event_loop (fuel : nat) : M (Aio * Bridge) (option Z) :=
  match fuel with
  | O => nofuel
  | S fuel =>
      s <- get ;;
      if exitStatusSet (reply (snd s)) then FCGIexit (exitStatus (reply (snd s)))
      else unless_exit OS_DoIo (event_loop fuel)
  end.
End Loop.

(** ** The invariant of the loop *)

(** What was read from a descriptor, read by read, and what was written to it. *)
Definition reads_of (fd : Z) (tr : list io_event) : list (list Z) :=
  omap (fun e => match e with IoRead f bs => if f =? fd then Some bs else None | _ => None end) tr.

Definition writes_of (fd : Z) (tr : list io_event) : list Z :=
  concat (omap (fun e => match e with IoWrite f bs => if f =? fd then Some bs else None | _ => None end) tr).

Lemma reads_of_app fd tr tr' : reads_of fd (tr ++ tr') = reads_of fd tr ++ reads_of fd tr'.
Proof. apply omap_app. Qed.

Lemma writes_of_app fd tr tr' : writes_of fd (tr ++ tr') = writes_of fd tr ++ writes_of fd tr'.
Proof. unfold writes_of. by rewrite omap_app, concat_app. Qed.

Lemma reads_of_read fd f bs : reads_of fd [IoRead f bs] = if f =? fd then [bs] else [].
Proof. cbn. by destruct (f =? fd). Qed.

Lemma reads_of_write fd f bs : reads_of fd [IoWrite f bs] = [].
Proof. done. Qed.

Lemma writes_of_write fd f bs : writes_of fd [IoWrite f bs] = if f =? fd then bs else [].
Proof. unfold writes_of. cbn. destruct (f =? fd); [apply app_nil_r|done]. Qed.

Lemma writes_of_read fd f bs : writes_of fd [IoRead f bs] = [].
Proof. done. Qed.

(** The record of [STDIN] that carries what was read; without content it ends the stream. *)
Definition stdin_rec (bs : list Z) : rec := mkRec FCGI_STDIN 1 bs [].

(** A read as the kernel gives it. *)
Definition chunk_ok (c : list Z) : Prop := Forall is_byte c /\ zlen c <= FCGI_MAX_LENGTH.

(** What is in [fromWS] to be written. *)
Definition held (b : Bridge) : list Z := sub (ws_next b) (ws_stop b - ws_next b) (ws_buff b).

Section Invariant.
Context (sock cl : Z) (script : list wr_event).

(** The table has the operations that the flags tell, with the buffers they are for. *)
Record tied (a : Aio) (b : Bridge) : Prop := {
  td_aio : aio_inv a;
  td_sock : appServerSock b = sock;
  td_rd : readFdSet a ∪ readFdSetPost a =
    (if fcgiReadPending b then {[sock]} else ∅) ∪ (if wsReadPending b then {[STDIN_FILENO]} else ∅);
  td_wr : writeFdSet a ∪ writeFdSetPost a = (if fcgiWritePending b then {[sock]} else ∅);
  td_as : fcgiReadPending b = true -> as_next b = 0 /\
    entry a (AIO_RD_IX sock) = mkAio PROC_AppServerRead sock sock BUFFLEN 0 fromAS_buff true;
  td_ws : wsReadPending b = true -> entry a (AIO_RD_IX STDIN_FILENO) =
    mkAio PROC_WebServerRead STDIN_FILENO STDIN_FILENO (BUFFLEN - FCGI_HEADER_LEN) 0 (fromWS_buff + FCGI_HEADER_LEN) true;
  td_aw : fcgiWritePending b = true -> entry a (AIO_WR_IX sock) =
    mkAio PROC_AppServerWrite sock sock (ws_stop b - ws_next b) 0 (fromWS_buff + ws_next b) true }.

(** Every byte of standard input is in a record that was written or is held, in order, with the
    end of the stream when all of it was read. *)
Record fed (tr : list io_event) (b : Bridge) : Prop := {
  fd_buff : zlen (ws_buff b) = BUFFLEN;
  fd_bounds : 0 <= ws_next b <= ws_stop b /\ ws_stop b <= BUFFLEN;
  fd_empty : ws_next b = ws_stop b -> ws_next b = 0;
  fd_id : requestId (reply b) = 1;
  fd_bytes : writes_of sock tr ++ held b =
    wire (map stdin_rec (reads_of STDIN_FILENO tr)) ++ (if stdin_eof_sent b then enc (stdin_rec []) else []);
  fd_byte : Forall chunk_ok (reads_of STDIN_FILENO tr);
  fd_left : bytesToRead b = cl - zlen (concat (reads_of STDIN_FILENO tr));
  fd_sent : stdin_eof_sent b = (bytesToRead b <=? 0);
  fd_open : webServerReadHandlerEOF b = true -> 0 < bytesToRead b;
  fd_eof : exists cs, reads_of STDIN_FILENO tr = cs ++ (if webServerReadHandlerEOF b then [[]] else []) /\
    Forall (fun c => c <> []) cs }.

(** When an operation is pending. *)
Record waits (b : Bridge) : Prop := {
  wt_ws : wsReadPending b = true -> ws_next b = 0 /\ ws_stop b = 0 /\ fcgiWritePending b = false /\
    0 < bytesToRead b /\ webServerReadHandlerEOF b = false;
  wt_write : fcgiWritePending b = true -> ws_next b < ws_stop b }.

(** Everything that can go on is posted. *)
Record posted (b : Bridge) : Prop := {
  po_read : fcgiReadPending b = true;
  po_write : ws_next b < ws_stop b -> fcgiWritePending b = true;
  po_stdin : ws_next b = 0 -> ws_stop b = 0 -> 0 < bytesToRead b -> webServerReadHandlerEOF b = false -> wsReadPending b = true }.

(** The answer is where the reads of the socket have brought it. *)
Record replied (tr : list io_event) (b : Bridge) : Prop := {
  rp_reads : as_reads (reads_of sock tr) (reply_init script) = Ok (None, reply b);
  rp_some : Forall (fun c => c <> []) (reads_of sock tr);
  rp_ok : reply_ok (reply b);
  rp_buff : zlen (as_buff b) = BUFFLEN /\ Forall is_byte (as_buff b) }.

Record loop_inv (s : Aio * Bridge) : Prop := {
  lp_tied : tied (fst s) (snd s);
  lp_fed : fed (io_trace (fst s)) (snd s);
  lp_waits : waits (snd s);
  lp_posted : posted (snd s);
  lp_replied : replied (io_trace (fst s)) (snd s);
  lp_script : script_ok (rd_script (fst s)) }.

Context (sock_ok : 0 < sock < FD_SETSIZE) (cl_ok : INT_MIN <= cl <= INT_MAX).
Context (OS_Errno : Z) (shutdown_fails : bool).
#[local] Existing Instance bridge_application.

(** *** Scheduling *)

Lemma in_os_Ok {A} (m : M Aio A) a a' b r : m a = Ok (r, a') -> in_os m (a, b) = Ok (r, (a', b)).
Proof. intros E. unfold in_os. by erewrite zoom_Ok by exact E. Qed.

Lemma post_Ok m (f : Bridge -> Bridge) a a' b : m a = Ok (0, a') ->
  post OS_Errno shutdown_fails m f (a, b) = Ok (None, (a', f b)).
Proof. intros E. unfold post. erewrite bind_Ok by (by apply in_os_Ok). done. Qed.

(** What scheduling changes: pending flags, and where the next answer is read to. *)
Definition same_feed (b b' : Bridge) : Prop :=
  reply b' = reply b /\ as_buff b' = as_buff b /\ ws_buff b' = ws_buff b /\ ws_next b' = ws_next b /\
  ws_stop b' = ws_stop b /\ bytesToRead b' = bytesToRead b /\ stdin_eof_sent b' = stdin_eof_sent b /\
  webServerReadHandlerEOF b' = webServerReadHandlerEOF b.

Definition scheduled (a : Aio) (b : Bridge) (a' : Aio) (b' : Bridge) : Prop :=
  tied a' b' /\ waits b' /\ same_feed b b' /\ io_trace a' = io_trace a /\ rd_script a' = rd_script a.

Lemma scheduled_refl a b : tied a b -> waits b -> scheduled a b a b.
Proof. intros T W. split; [done|]. split; [done|]. by split. Qed.

Lemma schedule_write_spec a b : tied a b -> waits b -> 0 <= ws_next b <= ws_stop b ->
  exists a' b', schedule_write OS_Errno shutdown_fails (a, b) = Ok (None, (a', b')) /\ scheduled a b a' b' /\
    (fcgiWritePending b' = false -> ws_next b' = ws_stop b').
Proof.
  intros T W Hb. unfold schedule_write. rewrite (bind_Ok get _ _ (a, b) (a, b)) by done. cbn [fst snd].
  rewrite (td_sock _ _ T). rewrite (proj2 (Z.eqb_neq sock (-1))) by lia.
  destruct (fcgiWritePending b) eqn:Ew; cbn [negb andb]; [exists a, b; split; [done|split; [by apply scheduled_refl|congruence]]|].
  destruct (Z.eqb_spec (ws_stop b - ws_next b) 0) as [E|E]; cbn [negb]; [exists a, b; split; [done|split; [by apply scheduled_refl|lia]]|].
  pose proof (td_wr _ _ T) as Hwr. rewrite Ew in Hwr.
  destruct (OS_AsyncWrite_spec a sock 0 (fromWS_buff + ws_next b) (ws_stop b - ws_next b) PROC_AppServerWrite sock
    (td_aio _ _ T) ltac:(lia) ltac:(rewrite Hwr; set_solver)) as (a' & E' & I' & Hs & Hp & Hr & Hrp & Htr & Hscr & [He1 He2]).
  eexists a', _. split; [by apply post_Ok|]. split; [|done]. split; [|split; [|done]].
  - destruct T. split; try done.
    + cbn. by rewrite Hr, Hrp.
    + cbn. rewrite Hs, Hp. by rewrite <- union_assoc_L, Hwr, union_empty_r_L.
    + cbn. intros Hf. split; [by apply td_as0|]. rewrite He2 by (unfold AIO_RD_IX, AIO_WR_IX; lia). by apply td_as0.
    + cbn. intros Hf. rewrite He2 by (unfold AIO_RD_IX, AIO_WR_IX, STDIN_FILENO; lia). by apply td_ws0.
  - split; cbn.
    + intros Hf. destruct (wt_ws _ W Hf) as (? & ? & ? & ? & ?). lia.
    + intros _. lia.
Qed.

Lemma schedule_read_spec a b : tied a b -> waits b ->
  exists a' b', schedule_read OS_Errno shutdown_fails (a, b) = Ok (None, (a', b')) /\ scheduled a b a' b' /\
    fcgiWritePending b' = fcgiWritePending b /\ fcgiReadPending b' = true.
Proof.
  intros T W. unfold schedule_read. rewrite (bind_Ok get _ _ (a, b) (a, b)) by done. cbn [fst snd].
  rewrite (td_sock _ _ T). rewrite (proj2 (Z.eqb_neq sock (-1))) by lia.
  destruct (fcgiReadPending b) eqn:Er; cbn [negb andb]; [by exists a, b; split; [|split; [by apply scheduled_refl|]]|].
  pose proof (td_rd _ _ T) as Hrd. rewrite Er in Hrd.
  assert (Hni : sock ∉ readFdSet a ∪ readFdSetPost a).
  { rewrite Hrd. destruct (wsReadPending b); [|set_solver]. rewrite union_empty_l_L, elem_of_singleton. unfold STDIN_FILENO. lia. }
  destruct (OS_AsyncRead_spec a sock 0 (fromAS_buff + 0) BUFFLEN PROC_AppServerRead sock (td_aio _ _ T) ltac:(lia) Hni)
    as (a' & E' & I' & Hs & Hp & Hr & Hrp & Htr & Hscr & [He1 He2]).
  eexists a', _. split.
  { erewrite bind_Ok by reflexivity. by apply post_Ok. }
  split; [|done]. split; [|split; [|done]].
  - destruct T. split; try done.
    + cbn. rewrite Hs, Hp. by rewrite <- union_assoc_L, Hrd, union_empty_l_L.
    + cbn. by rewrite Hr, Hrp.
    + cbn. intros Hf. rewrite He2 by (unfold AIO_RD_IX, STDIN_FILENO; lia). by apply td_ws0.
    + cbn. intros Hf. rewrite He2 by (unfold AIO_RD_IX, AIO_WR_IX; lia). by apply td_aw0.
  - by destruct W.
Qed.

Lemma schedule_stdin_spec a b : tied a b -> waits b -> (fcgiWritePending b = false -> ws_next b = ws_stop b) ->
  exists a' b', schedule_stdin OS_Errno shutdown_fails (a, b) = Ok (None, (a', b')) /\ scheduled a b a' b' /\
    fcgiWritePending b' = fcgiWritePending b /\ fcgiReadPending b' = fcgiReadPending b /\
    (ws_next b = 0 -> 0 < bytesToRead b -> webServerReadHandlerEOF b = false -> fcgiWritePending b = false -> wsReadPending b' = true).
Proof.
  intros T W Hw. unfold schedule_stdin. rewrite (bind_Ok get _ _ (a, b) (a, b)) by done. cbn [fst snd].
  destruct (_ && _) eqn:Ec.
  2:{ exists a, b. split; [done|]. split; [by apply scheduled_refl|]. split; [done|]. split; [done|]. intros Hn Hl He Hp.
      rewrite Hn, He, Hp, (proj2 (Z.ltb_lt _ _) Hl) in Ec. by destruct (wsReadPending b). }
  rewrite !andb_true_iff, !negb_true_iff, Z.ltb_lt, Z.eqb_eq in Ec. destruct Ec as ((((Hl & He) & Hws) & Hwp) & Hn).
  rewrite Hn. pose proof (td_rd _ _ T) as Hrd. rewrite Hws in Hrd.
  assert (Hni : STDIN_FILENO ∉ readFdSet a ∪ readFdSetPost a).
  { rewrite Hrd. destruct (fcgiReadPending b); [|set_solver]. rewrite union_empty_r_L, elem_of_singleton. unfold STDIN_FILENO. lia. }
  destruct (OS_AsyncReadStdin_spec a (fromWS_buff + 0 + FCGI_HEADER_LEN) (BUFFLEN - FCGI_HEADER_LEN) PROC_WebServerRead STDIN_FILENO
    (td_aio _ _ T) Hni)
    as (a' & E' & I' & Hs & Hp & Hr & Hrp & Htr & Hscr & [He1 He2]).
  eexists a', _. split; [by apply post_Ok|]. split; [|done]. split; [|split; [|done]].
  - destruct T. split; try done.
    + cbn. rewrite Hs, Hp. rewrite <- union_assoc_L, Hrd, union_empty_r_L. apply union_comm_L.
    + cbn. by rewrite Hr, Hrp.
    + cbn. intros Hf. split; [by apply td_as0|]. rewrite He2 by (unfold AIO_RD_IX, STDIN_FILENO; lia). by apply td_as0.
    + cbn. intros Hf. rewrite He2 by (unfold AIO_RD_IX, AIO_WR_IX, STDIN_FILENO; lia). by apply td_aw0.
  - specialize (Hw Hwp). split; cbn; [|by destruct W]. intros _. split_and!; try done. lia.
Qed.

Lemma scheduled_trans a b a1 b1 a2 b2 : scheduled a b a1 b1 -> scheduled a1 b1 a2 b2 -> scheduled a b a2 b2.
Proof.
  intros (_ & _ & (? & ? & ? & ? & ? & ? & ? & ?) & ? & ?) (? & ? & (? & ? & ? & ? & ? & ? & ? & ?) & ? & ?).
  split; [done|]. split; [done|]. split; [|split; congruence]. unfold same_feed. split_and!; congruence.
Qed.

Lemma ScheduleIo_spec a b : tied a b -> waits b -> 0 <= ws_next b <= ws_stop b ->
  exists a' b', ScheduleIo OS_Errno shutdown_fails (a, b) = Ok (None, (a', b')) /\ scheduled a b a' b' /\ posted b'.
Proof.
  intros T W Hb. unfold ScheduleIo.
  destruct (schedule_write_spec a b T W Hb) as (a1 & b1 & E1 & S1 & H1). rewrite (unless_exit_None _ _ _ _ E1).
  destruct (schedule_read_spec a1 b1 ltac:(apply S1) ltac:(apply S1)) as (a2 & b2 & E2 & S2 & H2 & H2'). rewrite (unless_exit_None _ _ _ _ E2).
  pose proof S2 as (_ & W2 & (_ & _ & _ & En2 & Es2 & _) & _).
  destruct (schedule_stdin_spec a2 b2 ltac:(apply S2) ltac:(apply S2)) as (a3 & b3 & E3 & S3 & H3 & H3' & H3s).
  { rewrite H2, En2, Es2. exact H1. }
  exists a3, b3. split; [done|]. pose proof S3 as (_ & _ & (_ & _ & _ & En3 & Es3 & El3 & _ & Ee3) & _).
  split; [eapply scheduled_trans; [|exact S3]; by eapply scheduled_trans|]. split.
  - congruence.
  - rewrite En3, Es3, H3, En2, Es2, H2. intros Hlt. destruct (fcgiWritePending b1); [done|]. specialize (H1 eq_refl). lia.
  - rewrite En3, Es3, El3, Ee3. intros Hn Hst Hl He. apply H3s; try done.
    destruct (fcgiWritePending b2) eqn:Ew; [|done]. pose proof (wt_write _ W2 Ew). lia.
Qed.

(** *** The end of the process *)

Definition unbroken (f : fault) : Prop := f <> AssertFail.

Lemma calm_fd_clr fd s : faultless (fd_clr fd s).
Proof. unfold fd_clr. by destruct (_ && _). Qed.

Lemma calm_aio_get i : calm (aio_get i).
Proof. unfold aio_get. calm. Qed.

Lemma calm_aio_put i x : calm (aio_put i x).
Proof. unfold aio_put. calm. Qed.
#[local] Hint Resolve calm_fd_clr calm_aio_get calm_aio_put : calm.

Lemma calm_OS_Close fd x y rc : calm (OS_Close fd x y rc).
Proof. unfold OS_Close, clear_inUse. calm. Qed.

Lemma calm_OS_LibShutdown : calm OS_LibShutdown.
Proof. unfold OS_LibShutdown. calm. Qed.
#[local] Hint Resolve calm_OS_Close calm_OS_LibShutdown : calm.

Lemma FCGIexit_kept code s : kept loop_inv unbroken (FCGIexit shutdown_fails code s).
Proof.
  assert (H : calm (S := Aio * Bridge) (s <- get ;;
    (if negb (appServerSock (snd s) =? -1) then
       in_os (OS_Close (appServerSock (snd s)) true shutdown_fails 0) ;;;
       in_bridge (modify (fun b => b <| appServerSock := -1 |>))
     else ret tt) ;;; in_os OS_LibShutdown)).
  { unfold in_os, in_bridge. calm. }
  specialize (H s). unfold FCGIexit. unfold bind, get in H |- *.
  destruct (_ (s)) as [[u s1]|fl|]; [|by destruct fl|done].
  destruct (in_os OS_LibShutdown s1) as [[u2 s2]|fl|]; [done|by destruct fl|done].
Qed.

(** *** The handlers *)

Lemma fed_same tr b b' : same_feed b b' -> fed tr b -> fed tr b'.
Proof.
  intros (Er & Ea & Eb & En & Es & El & Ee & Ef) [? ? ? ? ? ? ? ? ? ?].
  split; unfold held in *; rewrite ?Er, ?Eb, ?En, ?Es, ?El, ?Ee, ?Ef; done.
Qed.

Lemma replied_same tr b b' : same_feed b b' -> replied tr b -> replied tr b'.
Proof. intros (Er & Ea & _) [? ? ? ?]. split; rewrite ?Er, ?Ea; done. Qed.

(** Scheduling ends a handler. *)
Lemma ScheduleIo_kept tr a b : tied a b -> waits b -> fed tr b -> replied tr b -> io_trace a = tr -> script_ok (rd_script a) ->
  kept loop_inv unbroken (ScheduleIo OS_Errno shutdown_fails (a, b)).
Proof.
  intros T W F R Et Hs. destruct (ScheduleIo_spec a b T W (proj1 (fd_bounds _ _ F))) as (a' & b' & E & (T' & W' & Sf & Etr & Escr) & P').
  rewrite E. cbn [kept]. split; cbn [fst snd]; rewrite ?Etr, ?Escr, ?Et; try done.
  - by apply (fed_same tr b).
  - by apply (replied_same tr b).
Qed.

Lemma zlen_held b : zlen (ws_buff b) = BUFFLEN -> 0 <= ws_next b <= ws_stop b -> ws_stop b <= BUFFLEN ->
  zlen (held b) = ws_stop b - ws_next b.
Proof. intros. unfold held. apply zlen_sub; lia. Qed.

(** What is held when a part [bs] of it has been written. *)
Lemma held_advance b bs n : zlen (ws_buff b) = BUFFLEN -> 0 <= ws_next b <= ws_stop b -> ws_stop b <= BUFFLEN ->
  bs = take n (held b) -> zlen bs <= ws_stop b - ws_next b /\
  held b = bs ++ sub (ws_next b + zlen bs) (ws_stop b - (ws_next b + zlen bs)) (ws_buff b).
Proof.
  intros Hl H1 H2 Hbs. pose proof (zlen_held b Hl H1 H2) as Hh. pose proof (zlen_nonneg bs).
  assert (Hle : zlen bs <= ws_stop b - ws_next b) by (rewrite <- Hh, Hbs; unfold zlen; rewrite length_take; lia).
  split; [done|]. set (X := sub (ws_next b) (zlen bs) (ws_buff b)). set (Y := sub _ _ _).
  assert (Hs : held b = X ++ Y).
  { unfold held, X, Y. rewrite <- sub_split by lia. f_equal. lia. }
  assert (Hx : length X = length bs) by (pose proof (zlen_sub (ws_next b) (zlen bs) (ws_buff b)); unfold X, zlen in *; lia).
  rewrite Hs. f_equal. rewrite Hs in Hbs. 
  assert (Hn : (length bs <= n)%nat) by (rewrite Hbs, length_take; lia).
  assert (bs = take (length bs) bs) as -> by (by rewrite firstn_all). rewrite Hbs at 2. rewrite take_take, Nat.min_l by done.
  by rewrite <- Hx, take_app_length.
Qed.

Lemma app_write_kept tr a b (r : option (list Z)) cd : tied a (b <| fcgiWritePending := false |>) -> fcgiWritePending b = true ->
  waits b -> fed tr b -> replied tr b -> script_ok (rd_script a) ->
  (forall bs, r = Some bs -> exists n, bs = take n (held b)) ->
  io_trace a = tr ++ (match r with Some bs => [IoWrite sock bs] | None => [] end) ->
  kept loop_inv unbroken (AppServerWriteHandler OS_Errno shutdown_fails cd (write_len r) (a, b)).
Proof.
  intros T Hp W F R Hscr Hr Et. pose proof (wt_write _ W Hp) as Hlt.
  unfold AppServerWriteHandler. rewrite (bind_Ok get _ _ (a, b) (a, b)) by done. cbn [snd]. cbv zeta.
  unfold c_assert. rewrite (proj2 (Z.ltb_lt _ _)) by lia. rewrite Hp.
  do 2 (rewrite (bind_Ok (ret tt) _ _ tt (a, b)) by done). set (b1 := b <| fcgiWritePending := false |>) in *.
  rewrite (bind_Ok _ _ _ tt (a, b1)) by done.
  destruct r as [bs|]; [|apply FCGIexit_kept]. destruct (Hr bs eq_refl) as (n & Hbs). cbn [write_len got_len].
  rewrite (proj2 (Z.ltb_ge _ _)) by (apply zlen_nonneg).
  pose proof (fd_buff _ _ F) as Hbuf. pose proof (fd_bounds _ _ F) as [Hb1 Hb2]. destruct (held_advance b bs n Hbuf Hb1 Hb2 Hbs) as [Hle Hsp].
  set (b2 := if zlen bs <? ws_stop b - ws_next b then b1 <| ws_next := ws_next b + zlen bs |> else b1 <| ws_next := 0 |> <| ws_stop := 0 |>).
  rewrite (bind_Ok _ _ _ tt (a, b2)) by (unfold b2; done).
  assert (Hsplit : held b = bs ++ held b2 /\ 0 <= ws_next b2 <= ws_stop b2 /\ ws_stop b2 <= BUFFLEN /\ (ws_next b2 = ws_stop b2 -> ws_next b2 = 0)).
  { pose proof (zlen_nonneg bs). unfold b2. destruct (Z.ltb_spec (zlen bs) (ws_stop b - ws_next b)).
    - split; [exact Hsp|cbn -[zlen]; unfold BUFFLEN in *; lia].
    - split; [|cbn; unfold BUFFLEN; lia]. rewrite Hsp at 1. f_equal. unfold held. cbn -[sub]. rewrite !sub_neg by lia. done. }
  clear Hsp. destruct Hsplit as (Hsp & Hn1 & Hn2 & Hn3).
  assert (Es : reply b2 = reply b /\ as_buff b2 = as_buff b /\ ws_buff b2 = ws_buff b /\ bytesToRead b2 = bytesToRead b /\
    stdin_eof_sent b2 = stdin_eof_sent b /\ webServerReadHandlerEOF b2 = webServerReadHandlerEOF b /\
    wsReadPending b2 = wsReadPending b /\ fcgiWritePending b2 = false /\ fcgiReadPending b2 = fcgiReadPending b /\
    appServerSock b2 = appServerSock b /\ as_next b2 = as_next b)
    by (unfold b2; by destruct (_ <? _)).
  clearbody b2. destruct Es as (E1 & E2 & E3 & E4 & E5 & E6 & E7 & E8 & E9 & E10 & E11).
  assert (Hnows : wsReadPending b = false).
  { destruct (wsReadPending b) eqn:Ews; [|done]. destruct (wt_ws _ W Ews) as (_ & _ & ? & _). congruence. }
  apply (ScheduleIo_kept (io_trace a)); try done.
  - destruct T. split; rewrite ?E7, ?E8, ?E9, ?E10, ?E11; try done. 
  - split; [congruence|]. rewrite E8. done.
  - rewrite Et. destruct F. split; rewrite ?E1, ?E3, ?E4, ?E5, ?E6, ?reads_of_app, ?writes_of_app, ?reads_of_write, ?app_nil_r; try done.
    by rewrite <- fd_bytes0, Hsp, <- app_assoc, writes_of_write, Z.eqb_refl.
  - rewrite Et. destruct R. split; rewrite ?E1, ?E2, ?reads_of_app, ?reads_of_write, ?app_nil_r; done.
Qed.

(** The header of a record of [STDIN] in front of what was read, and the end of the stream behind
    it. *)
Lemma framed_bytes h bs (l : list Z) : zlen l = BUFFLEN -> zlen h = 8 -> 8 + zlen bs <= BUFFLEN ->
  sub 0 (8 + zlen bs) (splice 0 h (splice 8 bs l)) = h ++ bs.
Proof.
  intros Hl Hh Hb. pose proof (zlen_nonneg bs). rewrite sub_split by lia. rewrite <- Hh at 1. f_equal.
  - apply sub_splice_at. rewrite zlen_splice by lia. lia.
  - cbn [Z.add]. rewrite sub_splice_after by (rewrite ?zlen_splice; lia). apply sub_splice_at. lia.
Qed.

Lemma framed_eof h bs h' (l : list Z) : zlen l = BUFFLEN -> zlen h = 8 -> zlen h' = 8 -> 16 + zlen bs <= BUFFLEN ->
  sub 0 (8 + zlen bs + 8) (splice (8 + zlen bs) h' (splice 0 h (splice 8 bs l))) = h ++ bs ++ h'.
Proof.
  intros Hl Hh Hh' Hb. pose proof (zlen_nonneg bs).
  assert (Hl1 : zlen (splice 0 h (splice 8 bs l)) = BUFFLEN) by (rewrite !zlen_splice by (rewrite ?zlen_splice; lia); done).
  rewrite sub_split by lia. rewrite sub_splice_before by lia. rewrite framed_bytes by lia. rewrite <- app_assoc. do 2 f_equal.
  cbn [Z.add]. pose proof (sub_splice_at (8 + zlen bs) h' (splice 0 h (splice 8 bs l)) ltac:(lia)) as E. rewrite Hh' in E. exact E.
Qed.

Lemma frame_stdin_spec b bs (l : list Z) : zlen l = BUFFLEN -> ws_buff b = splice 8 bs l -> zlen bs <= BUFFLEN - 8 ->
  requestId (reply b) = 1 -> 0 < bytesToRead b <= INT_MAX -> stdin_eof_sent b = false ->
  let left := bytesToRead b - zlen bs in
  let b1 := b <| ws_buff := splice 0 (header_bytes (header_of FCGI_STDIN 1 (zlen bs) 0)) (splice 8 bs l) |> <| bytesToRead := left |>
              <| ws_stop := 8 + zlen bs |> <| webServerReadHandlerEOF := (zlen bs =? 0) |> in
  frame_stdin (zlen bs) b =
    if left <=? 0 then
      if zlen bs <=? BUFFLEN - 16
      then Ok (tt, b1 <| ws_buff := splice (8 + zlen bs) (header_bytes (header_of FCGI_STDIN 1 0 0)) (ws_buff b1) |>
                      <| ws_stop := 8 + zlen bs + 8 |> <| stdin_eof_sent := true |>)
      else Crash MemFault
    else Ok (tt, b1).
Proof.
  intros Hl Hb Hbs Hid Hleft Hsent left b1. pose proof (zlen_nonneg bs). unfold BUFFLEN in *. unfold frame_stdin.
  rewrite (bind_Ok get _ _ b b) by done. rewrite Hid, MakeHeader_Ok by (unfold FCGI_MAX_LENGTH; lia).
  rewrite (bind_Ok (lift _) _ _ (header_of FCGI_STDIN 1 (zlen bs) 0) b) by done.
  rewrite Hb, mem_write_Ok by (rewrite ?zlen_splice, ?zlen_header_bytes; lia).
  erewrite (bind_Ok (lift _)) by reflexivity.
  assert (Hint : int_chk (bytesToRead b - zlen bs) = Ok left).
  { unfold int_chk, int_fits, INT_MIN, left. rewrite (proj2 (Z.leb_le _ _)), (proj2 (Z.leb_le _ INT_MAX)) by lia. done. }
  rewrite Hint. erewrite (bind_Ok (lift _)) by reflexivity. rewrite (bind_Ok _ _ _ tt b1) by done.
  destruct (Z.leb_spec left 0); [|done]. unfold WriteStdinEof. rewrite (bind_Ok get _ _ b1 b1) by done.
  change (stdin_eof_sent b1) with (stdin_eof_sent b). rewrite Hsent. change (reply b1) with (reply b).
  rewrite Hid, MakeHeader_Ok by (unfold FCGI_MAX_LENGTH; lia).
  rewrite (bind_Ok (lift _) _ _ (header_of FCGI_STDIN 1 0 0) b1) by done.
  change (ws_stop b1) with (8 + zlen bs).
  assert (Hl1 : zlen (ws_buff b1) = 8192) by (cbn -[zlen splice header_bytes]; rewrite !zlen_splice by (rewrite ?zlen_splice, ?zlen_header_bytes; lia); done).
  destruct (Z.leb_spec (zlen bs) (8192 - 16)).
  - rewrite mem_write_Ok by (rewrite ?zlen_header_bytes; lia). done.
  - rewrite mem_write_Crash by (rewrite zlen_header_bytes; lia). done.
Qed.

(** What the dispatcher stored of a read. *)
Definition stored (addr : Z) (r : option (list Z)) (b : Bridge) : Bridge :=
  match r with Some bs => bridge_store addr bs b | None => b end.

Definition read_event (fd : Z) (r : option (list Z)) : list io_event :=
  match r with Some bs => [IoRead fd bs] | None => [] end.

(** Framing keeps everything but the request's side of the state. *)
Definition same_rest (b b' : Bridge) : Prop :=
  reply b' = reply b /\ as_buff b' = as_buff b /\ as_next b' = as_next b /\ appServerSock b' = appServerSock b /\
  wsReadPending b' = wsReadPending b /\ fcgiReadPending b' = fcgiReadPending b /\ fcgiWritePending b' = fcgiWritePending b.

Lemma tied_rest a b b' : tied a b -> same_rest b b' -> fcgiWritePending b = false -> tied a b'.
Proof. intros [? ? ? ? ? ? ?] (_ & _ & En & Es & Ew & Er & Ep) Hp. split; rewrite ?En, ?Es, ?Ew, ?Er, ?Ep, ?Hp in *; done. Qed.

Lemma wire_stdin cs bs : wire (map stdin_rec (cs ++ [bs])) =
  wire (map stdin_rec cs) ++ header_bytes (header_of FCGI_STDIN 1 (zlen bs) 0) ++ bs.
Proof.
  rewrite map_app, wire_app. f_equal. cbn [map]. unfold wire. cbn [map concat]. unfold enc. cbn [stdin_rec r_type r_id r_content r_pad].
  by rewrite !app_nil_r.
Qed.

Lemma zlen_framed h bs (l : list Z) : zlen l = BUFFLEN -> zlen h = 8 -> 8 + zlen bs <= BUFFLEN ->
  zlen (splice 0 h (splice 8 bs l)) = BUFFLEN.
Proof. intros Hl Hh Hb. pose proof (zlen_nonneg bs). rewrite !zlen_splice by (rewrite ?zlen_splice by lia; lia). done. Qed.

(** A read from the web server, framed: its record is what is held, and when all of the body has been
    read the end of the stream follows. *)
Lemma frame_stdin_fed tr b b1 bs : fed tr b -> ws_next b = 0 -> ws_stop b = 0 -> 0 < bytesToRead b ->
  webServerReadHandlerEOF b = false -> zlen bs <= BUFFLEN - 8 -> Forall is_byte bs ->
  b1 = (bridge_store (fromWS_buff + FCGI_HEADER_LEN) bs b) <| wsReadPending := false |> ->
  frame_stdin (zlen bs) b1 = Crash MemFault \/
  exists b2, frame_stdin (zlen bs) b1 = Ok (tt, b2) /\ fed (tr ++ [IoRead STDIN_FILENO bs]) b2 /\ same_rest b1 b2.
Proof.
  intros F Hn Hst Hl He Hr Hbs E1. pose proof F as [Fbuf _ _ Fid Fby Fbyte Fl Fs _ (cs & Ecs & Hcs)].
  rewrite (proj2 (Z.leb_gt _ _) Hl) in Fs. rewrite Fs, app_nil_r in Fby. rewrite He, app_nil_r in Ecs.
  unfold held in Fby. rewrite Hn, Hst, app_nil_r in Fby.
  assert (Eb : ws_buff b1 = splice 8 bs (ws_buff b) /\ reply b1 = reply b /\ bytesToRead b1 = bytesToRead b /\ ws_next b1 = 0 /\ stdin_eof_sent b1 = false)
    by (subst b1; done).
  destruct Eb as (Eb & Ere & El & En & Es). clear E1. pose proof (zlen_nonneg bs). pose proof (zlen_nonneg (concat (reads_of STDIN_FILENO tr))).
  pose proof (frame_stdin_spec b1 bs (ws_buff b) Fbuf Eb Hr ltac:(congruence) ltac:(lia) Es) as E. cbv zeta in E.
  rewrite El in E. set (left := bytesToRead b - zlen bs) in *.
  assert (Heof : exists cs, reads_of STDIN_FILENO tr ++ [bs] = cs ++ (if zlen bs =? 0 then [[]] else []) /\ Forall (fun c => c <> []) cs).
  { destruct (Z.eqb_spec (zlen bs) 0) as [E1|E1].
    - exists cs. rewrite Ecs. split; [|done]. by destruct bs.
    - exists (cs ++ [bs]). rewrite Ecs, app_nil_r. split; [done|]. rewrite Forall_app. split; [done|]. constructor; [|done]. by intros ->. }
  assert (Hcl : left = cl - zlen (concat (reads_of STDIN_FILENO tr ++ [bs]))).
  { rewrite concat_app, zlen_app. cbn [concat]. rewrite app_nil_r. lia. }
  destruct (Z.leb_spec left 0) as [Hz|Hz]; [destruct (Z.leb_spec (zlen bs) (BUFFLEN - 16)) as [Hf|Hf]|]; [right|by left|right];
    (eexists; split; [exact E|]; split; [|done]); clear E;
    (split; unfold held; cbn -[zlen splice header_bytes enc sub Z.add];
      rewrite ?reads_of_app, ?writes_of_app, ?reads_of_read, ?writes_of_read, ?app_nil_r, ?En, ?Z.sub_0_r, ?Ere, ?Es; cbn [Z.eqb STDIN_FILENO]; try done; try lia; try (apply Forall_app; split; [done|]; repeat constructor; [done|unfold FCGI_MAX_LENGTH, BUFFLEN in *; lia]);
      try (apply zlen_framed; rewrite ?zlen_header_bytes; lia)).
  - rewrite zlen_splice; rewrite ?zlen_framed; rewrite ?zlen_header_bytes; lia.
  - rewrite framed_eof by (rewrite ?zlen_header_bytes; lia). rewrite wire_stdin, Fby, <- !app_assoc. done.
  - rewrite framed_bytes by (rewrite ?zlen_header_bytes; lia). by rewrite wire_stdin, Fby, app_nil_r.
Qed.

Lemma web_read_kept tr a b r cd : tied a (b <| wsReadPending := false |>) -> wsReadPending b = true ->
  waits b -> fed tr b -> replied tr b -> script_ok (rd_script a) -> got_len r <= BUFFLEN - FCGI_HEADER_LEN ->
  (forall bs, r = Some bs -> Forall is_byte bs) ->
  io_trace a = tr ++ read_event STDIN_FILENO r ->
  kept loop_inv unbroken
    (WebServerReadHandler OS_Errno shutdown_fails cd (got_len r) (a, stored (fromWS_buff + FCGI_HEADER_LEN) r b)).
Proof.
  intros T Hp W F R Hscr Hr Hby Et. destruct (wt_ws _ W Hp) as (Hn & Hst & Hw & Hl & He).
  set (b0 := stored _ r b). assert (E0 : ws_next b0 = 0 /\ ws_stop b0 = 0 /\ wsReadPending b0 = true) by (unfold b0; by destruct r).
  unfold WebServerReadHandler. rewrite (bind_Ok get _ _ (a, b0) (a, b0)) by done. cbn [snd]. cbv zeta.
  destruct E0 as (-> & -> & ->). unfold c_assert. do 3 (rewrite (bind_Ok (ret tt) _ _ tt (a, b0)) by done).
  set (b1 := b0 <| wsReadPending := false |>). rewrite (bind_Ok _ _ _ tt (a, b1)) by done.
  destruct r as [bs|]; [|apply FCGIexit_kept]. cbn [got_len read_event] in *.
  rewrite (proj2 (Z.ltb_ge _ _)) by (apply zlen_nonneg).
  unfold bind at 1, in_bridge, zoom. cbn [fst snd].
  destruct (frame_stdin_fed tr b b1 bs F Hn Hst Hl He Hr (Hby bs eq_refl) eq_refl) as [E|(b2 & E & F2 & S)]; rewrite E; [done|].
  apply (ScheduleIo_kept (tr ++ [IoRead STDIN_FILENO bs])); try done.
  - apply (tied_rest a b1); [|done|done]. by destruct T.
  - destruct S as (_ & _ & _ & _ & Ews & _ & Ew). split; rewrite ?Ews, ?Ew; [done|].
    change (fcgiWritePending b1) with (fcgiWritePending b). by rewrite Hw.
  - destruct S as (Er & Ea & _), R. split; rewrite ?Er, ?Ea, ?reads_of_app, ?reads_of_read; try done.
    all: rewrite (proj2 (Z.eqb_neq STDIN_FILENO sock)) by (unfold STDIN_FILENO; lia); by rewrite app_nil_r.
Qed.

Lemma as_reads_snoc cs c s s' : as_reads cs s = Ok (None, s') -> as_reads (cs ++ [c]) s = as_handle c s'.
Proof.
  revert s. induction cs as [|b cs IH]; intros s E.
  - injection E as <-. cbn [app as_reads]. unfold bind. by destruct (as_handle c s) as [[[code|] s1]| |].
  - cbn [app as_reads] in *. unfold bind in *. destruct (as_handle b s) as [[[code|] s1]|fl|]; try done. by apply IH.
Qed.

Lemma app_read_kept tr a b r cd : tied a (b <| fcgiReadPending := false |>) -> fcgiReadPending b = true -> as_next b = 0 ->
  waits b -> fed tr b -> replied tr b -> script_ok (rd_script a) -> got_len r <= BUFFLEN ->
  (forall bs, r = Some bs -> Forall is_byte bs) -> io_trace a = tr ++ read_event sock r ->
  kept loop_inv unbroken (AppServerReadHandler OS_Errno shutdown_fails cd (got_len r) (a, stored fromAS_buff r b)).
Proof.
  intros T Hp Hn W F R Hscr Hr Hby Et.
  set (b0 := stored _ r b). assert (E0 : as_next b0 = 0 /\ fcgiReadPending b0 = true /\ reply b0 = reply b) by (unfold b0; by destruct r).
  unfold AppServerReadHandler. rewrite (bind_Ok get _ _ (a, b0) (a, b0)) by done. cbn [snd].
  destruct E0 as (-> & -> & ->). unfold c_assert. rewrite (bind_Ok (ret tt) _ _ tt (a, b0)) by done.
  set (b1 := b0 <| fcgiReadPending := false |>). rewrite (bind_Ok _ _ _ tt (a, b1)) by done.
  destruct r as [bs|]; [|apply FCGIexit_kept]. cbn [got_len read_event] in *. specialize (Hby bs eq_refl).
  rewrite (proj2 (Z.ltb_ge _ _)) by (apply zlen_nonneg). destruct (Z.eqb_spec (zlen bs) 0); [apply FCGIexit_kept|].
  destruct R as [Rr Rsome Rok [Rb Rby]].
  assert (Ebs : sub 0 (zlen bs) (as_buff b0) = bs).
  { apply (sub_splice_at 0 bs (as_buff b)). pose proof (zlen_nonneg (as_buff b)). lia. }
  rewrite Ebs. unfold bind at 1, in_bridge at 1, on_reply, zoom at 1 2. cbn [fst snd]. change (reply b1) with (reply b).
  pose proof (as_loop_ends (2 * length bs + 1) bs (reply b) Rok Hby ltac:(unfold busy; case_bool_decide; lia)) as H.
  fold (as_handle bs) in H. pose proof (as_reads_snoc _ bs _ _ Rr) as Es.
  destruct (as_handle bs (reply b)) as [[e rp]|fl|]; [|done|done]. destruct H as [Rok' Eid].
  set (b2 := b1 <| reply := rp |> <| as_next := as_next b1 + zlen bs |>).
  rewrite (bind_Ok _ _ _ tt (a, b2)) by done. destruct e as [code|]; [apply FCGIexit_kept|].
  apply (ScheduleIo_kept (tr ++ [IoRead sock bs])); try done.
  - by destruct T.
  - by destruct W.
  - destruct F. split; rewrite ?reads_of_app, ?writes_of_app, ?reads_of_read, ?writes_of_read, ?app_nil_r; 
      change (held b2) with (held b); cbn -[enc] in *; rewrite ?(proj2 (Z.eqb_neq sock STDIN_FILENO)), ?app_nil_r by (unfold STDIN_FILENO; lia); try done.
    congruence.
  - split; cbn -[zlen splice sub]; [| |done|].
    + by rewrite reads_of_app, reads_of_read, Z.eqb_refl.
    + rewrite reads_of_app, reads_of_read, Z.eqb_refl. apply Forall_app. split; [done|]. constructor; [|done]. by intros ->.
    + pose proof (zlen_nonneg bs). rewrite zlen_splice by lia. split; [done|]. 
      unfold splice. repeat (apply Forall_app; split); [by apply Forall_take|done|by apply Forall_drop].
Qed.

(** *** The dispatcher *)

Lemma loop_inv_moved a a' b : loop_inv (a, b) -> moved a a' -> loop_inv (a', b).
Proof.
  intros [T F W P R S] [Mi Mt Mm Mr Mw Mtr Ms]. cbn [fst snd] in *.
  assert (Ee : forall i, entry a' i = entry a i) by (intros; unfold entry; by rewrite Mt).
  destruct T. split; cbn [fst snd]; rewrite ?Mtr, ?Ms; try done. split; rewrite ?Ee, ?Mr, ?Mw; done.
Qed.

Lemma is_pending (p q : bool) (x y fd : Z) : fd ∈ (if p then {[x]} else ∅ : gset Z) ∪ (if q then {[y]} else ∅) ->
  (p = true /\ fd = x) \/ (q = true /\ fd = y).
Proof. destruct p, q; set_solver. Qed.

Lemma taken_off (A B C : gset Z) fd : A ∪ B = C -> A ## B -> fd ∈ B -> A ∪ B ∖ {[fd]} = C ∖ {[fd]}.
Proof. set_solver. Qed.

(** The state after a dispatch, without the flag of the operation that was completed. *)
Lemma tied_read_done a a1 b fd : tied a b -> dispatched a a1 (AIO_RD_IX fd) -> fd ∈ readFdSetPost a ->
  readFdSetPost a1 = readFdSetPost a ∖ {[fd]} -> writeFdSetPost a1 = writeFdSetPost a ->
  (fd = sock -> tied a1 (b <| fcgiReadPending := false |>)) /\
  (fd = STDIN_FILENO -> tied a1 (b <| wsReadPending := false |>)).
Proof.
  intros [Ta Ts Tr Tw Tas Tws Taw] [Di Dm [De1 De2] [Dr Dw]] Hin Hp Hpw.
  pose proof (sd_disj _ _ _ _ _ (ai_read _ Ta)) as Hd.
  assert (Hset : readFdSet a1 ∪ readFdSetPost a1 = (readFdSet a ∪ readFdSetPost a) ∖ {[fd]}) by (rewrite Dr, Hp; by apply taken_off).
  rewrite Tr in Hset. unfold STDIN_FILENO in *.
  split; intros ->; (split; [done|done|..]; cbn; rewrite ?Dw, ?Hpw; try done).
  - rewrite Hset. destruct (fcgiReadPending b), (wsReadPending b); apply set_eq; intros x; unfold STDIN_FILENO; set_unfold; lia.
  - intros Hf. rewrite De2 by (unfold AIO_RD_IX, STDIN_FILENO; lia). by apply Tws.
  - intros Hf. rewrite De2 by (unfold AIO_RD_IX, AIO_WR_IX; lia). by apply Taw.
  - rewrite Hset. destruct (fcgiReadPending b), (wsReadPending b); apply set_eq; intros x; unfold STDIN_FILENO; set_unfold; lia.
  - intros Hf. rewrite De2 by (unfold AIO_RD_IX, STDIN_FILENO; lia). by apply Tas.
  - intros Hf. rewrite De2 by (unfold AIO_RD_IX, AIO_WR_IX, STDIN_FILENO; lia). by apply Taw.
Qed.

Lemma dispatch_read_kept fd s : loop_inv s -> fd ∈ readFdSetPost (fst s) ->
  kept loop_inv unbroken (@dispatch_read _ (bridge_application OS_Errno shutdown_fails) fd s).
Proof.
  destruct s as [a b]. intros [T F W P R S] Hin. cbn [fst snd] in *.
  assert (Hfd : fd ∈ readFdSet a ∪ readFdSetPost a) by set_solver. rewrite (td_rd _ _ T) in Hfd.
  apply is_pending in Hfd. pose proof (td_as _ _ T) as Tas. pose proof (td_ws _ _ T) as Tws.
  destruct Hfd as [[Hp ->]|[Hp ->]].
  - destruct (Tas Hp) as [Hn He].
    destruct (dispatch_read_spec (app := bridge_application OS_Errno shutdown_fails) sock (a, b) (td_aio _ _ T) Hin)
      as (r & scr & [a1 b1] & E & Hl & Hby & Hm & Htr & D & Hr & Hw); cbn [fst snd] in *; rewrite He in *; [done|].
    rewrite E. destruct (Hby S) as [Hby1 Hscr].
    assert (b1 = stored fromAS_buff r b) as -> by (rewrite Hm; by destruct r).
    apply (app_read_kept (io_trace a)); try done.
    + by apply (tied_read_done a a1 b sock).
    + rewrite Htr. destruct r; [done|by rewrite app_nil_r].
  - assert (He := Tws Hp).
    destruct (dispatch_read_spec (app := bridge_application OS_Errno shutdown_fails) STDIN_FILENO (a, b) (td_aio _ _ T) Hin)
      as (r & scr & [a1 b1] & E & Hl & Hby & Hm & Htr & D & Hr & Hw); cbn [fst snd] in *; rewrite He in *; [done|].
    rewrite E. destruct (Hby S) as [Hby1 Hscr].
    assert (b1 = stored (fromWS_buff + FCGI_HEADER_LEN) r b) as -> by (rewrite Hm; by destruct r).
    apply (web_read_kept (io_trace a)); try done.
    + by apply (tied_read_done a a1 b STDIN_FILENO).
    + rewrite Htr. destruct r; [done|by rewrite app_nil_r].
Qed.

Lemma dispatch_write_kept fd s : loop_inv s -> fd ∈ writeFdSetPost (fst s) ->
  kept loop_inv unbroken (@dispatch_write _ (bridge_application OS_Errno shutdown_fails) fd s).
Proof.
  destruct s as [a b]. intros [T F W P R S] Hin. cbn [fst snd] in *.
  assert (Hfd : fd ∈ writeFdSet a ∪ writeFdSetPost a) by set_solver. rewrite (td_wr _ _ T) in Hfd.
  destruct (fcgiWritePending b) eqn:Hp; [|set_solver]. apply elem_of_singleton in Hfd as ->.
  assert (He := td_aw _ _ T Hp).
  destruct (dispatch_write_spec (app := bridge_application OS_Errno shutdown_fails) sock (a, b) (td_aio _ _ T) Hin)
    as (r & scr & [a1 b1] & E & Hby & Hm & Htr & D & Hw & Hr & Hscr); cbn [fst snd] in *; rewrite He in *.
  rewrite E, Hm. apply (app_write_kept (io_trace a)); try done.
  - destruct T as [Ta Ts Tr Tw Tas Tws Taw], D as [Di Dm [De1 De2] [Dr Dw]].
    pose proof (sd_disj _ _ _ _ _ (ai_write _ Ta)) as Hd.
    split; [done|done|..]; cbn; rewrite ?Dr, ?Hr; try done.
    + rewrite Dw, Hw, (taken_off _ _ {[sock]}); [clear; set_solver|by rewrite Tw, Hp|done|done].
    + intros Hf. rewrite De2 by (unfold AIO_RD_IX, AIO_WR_IX; lia). by apply Tas.
    + intros Hf. rewrite De2 by (unfold AIO_RD_IX, AIO_WR_IX, STDIN_FILENO; lia). by apply Tws.
  - by rewrite Hscr.
  - intros bs Hbs. destruct (Hby bs Hbs) as (n & ->). exists n. f_equal. cbn [aio_buf aio_len].
    cbn [mem_load bridge_application]. unfold bridge_load, held, fromWS_buff. pose proof (proj1 (fd_bounds _ _ F)).
    rewrite (proj2 (Z.ltb_ge _ _)) by lia. f_equal. lia.
  - rewrite Htr. destruct r; [done|by rewrite app_nil_r].
Qed.

(** What [OS_DoIo] makes of a state of the loop: a state of the loop, or the end of the process;
    no assertion fails. *)
Lemma OS_DoIo_loop s : loop_inv s ->
  let r := @OS_DoIo _ (bridge_application OS_Errno shutdown_fails) s in
  (r = NoFuel /\ sel_script (fst s) = []) \/ kept loop_inv unbroken r.
Proof.
  intros I. apply OS_DoIo_kept; [..|exact I]; clear s I.
  - intros s1 I. apply (td_aio _ _ (lp_tied _ I)).
  - intros a a' m. apply loop_inv_moved.
  - apply dispatch_read_kept.
  - apply dispatch_write_kept.
Qed.

(** *** Where the loop starts, and what it reaches *)

(** [main] at the end of its setup: nothing is posted, the body's length is [cl]. *)
Record ready (s : Aio * Bridge) : Prop := {
  rd_aio : aio_inv (fst s);
  rd_idle : readFdSet (fst s) ∪ readFdSetPost (fst s) = ∅ /\ writeFdSet (fst s) ∪ writeFdSetPost (fst s) = ∅;
  rd_trace : io_trace (fst s) = [];
  rd_scripted : script_ok (rd_script (fst s));
  rd_reply : reply (snd s) = reply_init script;
  rd_buffs : zlen (as_buff (snd s)) = BUFFLEN /\ Forall is_byte (as_buff (snd s)) /\ zlen (ws_buff (snd s)) = BUFFLEN;
  rd_main : appServerSock (snd s) = sock /\ bytesToRead (snd s) = cl /\ stdin_eof_sent (snd s) = false;
  rd_flags : wsReadPending (snd s) = false /\ fcgiReadPending (snd s) = false /\ fcgiWritePending (snd s) = false }.

Lemma WriteStdinEof_first b : stdin_eof_sent b = false -> requestId (reply b) = 1 -> ws_stop b = 0 -> zlen (ws_buff b) = BUFFLEN ->
  WriteStdinEof b = Ok (tt, b <| ws_buff := splice 0 (header_bytes (header_of FCGI_STDIN 1 0 0)) (ws_buff b) |>
                              <| ws_stop := 0 + FCGI_HEADER_LEN |> <| stdin_eof_sent := true |>).
Proof.
  intros Hs Hid Hst Hl. unfold WriteStdinEof. rewrite (bind_Ok get _ _ b b) by done. rewrite Hs, Hid, MakeHeader_Ok by (unfold FCGI_MAX_LENGTH; lia).
  rewrite (bind_Ok (lift _) _ _ (header_of FCGI_STDIN 1 0 0) b) by done. rewrite Hst.
  rewrite mem_write_Ok; [|lia|change (zlen (header_bytes _)) with 8; unfold BUFFLEN in *; lia].
  unfold bind, lift, modify. by rewrite Hst.
Qed.

Lemma start_loop_spec s0 : ready s0 -> exists s, start_loop OS_Errno shutdown_fails s0 = Ok (None, s) /\ loop_inv s.
Proof.
  destruct s0 as [a b0]. intros [Ra [Rr Rw] Rt Rs Rrep (Rb1 & Rb2 & Rb3) (Rsock & Rcl & Rsent) (Rf1 & Rf2 & Rf3)]. cbn [fst snd] in *.
  unfold start_loop. set (b1 := b0 <| ws_next := 0 |> <| ws_stop := 0 |> <| webServerReadHandlerEOF := false |>).
  rewrite (bind_Ok _ _ _ tt (a, b1)) by done.
  assert (H : exists b2, in_bridge (b <- get ;; if bytesToRead b <=? 0 then WriteStdinEof else ret tt) (a, b1) = Ok (tt, (a, b2)) /\
    fed [] b2 /\ same_rest b1 b2).
  { unfold in_bridge, zoom, bind, get. cbn [fst snd]. change (bytesToRead b1) with (bytesToRead b0).
    assert (Hn : exists cs, reads_of STDIN_FILENO [] = cs ++ [] /\ Forall (fun c : list Z => c <> []) cs) by (by exists []).
    destruct (Z.leb_spec (bytesToRead b0) 0) as [Hz|Hz].
    - rewrite WriteStdinEof_first by (done || (cbn; by rewrite Rrep)). eexists. split; [reflexivity|]. split; [|done].
      split; cbn -[splice zlen enc header_bytes sub]; rewrite ?Rrep; try done; try (change (zlen (@nil Z)) with 0; unfold BUFFLEN; lia).
      rewrite zlen_splice; rewrite ?zlen_header_bytes; unfold BUFFLEN in *; lia.
    - eexists. split; [reflexivity|]. split; [|done]. split; cbn -[zlen]; rewrite ?Rrep, ?Rsent; try done; try (change (zlen (@nil Z)) with 0; unfold BUFFLEN; lia). }
  destruct H as (b2 & E & F & S). rewrite (bind_Ok _ _ _ _ _ E).
  destruct S as (S1 & S2 & S3 & S4 & S5 & S6 & S7). cbn in S1, S2, S3, S4, S5, S6, S7.
  destruct (ScheduleIo_spec a b2) as (a' & b' & E' & (T' & W' & Sf & Etr & Escr) & P'); [| |apply (fd_bounds _ _ F)|].
  - split; rewrite ?S4, ?S5, ?S6, ?S7, ?Rf1, ?Rf2, ?Rf3; done.
  - split; rewrite ?S5, ?S7, ?Rf1, ?Rf3; done.
  - exists (a', b'). split; [done|]. split; cbn [fst snd]; rewrite ?Etr, ?Escr, ?Rt; try done.
    + by apply (fed_same [] b2).
    + apply (replied_same [] b2); [done|]. split; rewrite ?S1, ?S2, ?Rrep; done.
Qed.

(** The states of the loop of [main], from the state [s0] before it. *)
Inductive loop_state (s0 : Aio * Bridge) : Aio * Bridge -> Prop :=
| at_start s : start_loop OS_Errno shutdown_fails s0 = Ok (None, s) -> loop_state s0 s
| after_turn s s' : loop_state s0 s -> exitStatusSet (reply (snd s)) = false ->
    @OS_DoIo _ (bridge_application OS_Errno shutdown_fails) s = Ok (None, s') -> loop_state s0 s'.

Lemma loop_state_inv s0 s : ready s0 -> loop_state s0 s -> loop_inv s.
Proof.
  intros R. induction 1 as [s E|s s' _ I _ E].
  - destruct (start_loop_spec s0 R) as (s1 & E1 & I1). congruence.
  - destruct (OS_DoIo_loop s I) as [[E1 _]|H]; [congruence|]. by rewrite E in H.
Qed.

(** The records the body was cut into are what the library's reader takes. *)
Lemma stdin_recs_ok cs : Forall (fun c => c <> []) cs -> Forall chunk_ok cs ->
  stdin_ok 1 (map stdin_rec cs) [] /\ stream_of FCGI_STDIN (map stdin_rec cs) = concat cs.
Proof.
  intros Hne Hby.
  assert (Hs : stream_of FCGI_STDIN (map stdin_rec cs) = concat cs /\ rd_content FCGI_STDIN 1 (map stdin_rec cs) = concat cs).
  { clear. induction cs as [|c cs [IH1 IH2]]; [done|]. cbn [map concat]. rewrite stream_of_cons. cbn. unfold left_of. cbn.
    split; [by rewrite IH1|]. unfold rd_content in *. cbn. by rewrite IH2. }
  destruct Hs as [Hs1 Hs2]. split; [|done]. split; [|split; [done|]].
  - clear Hs1 Hs2. induction Hne as [|c cs Hc Hne IH]; [constructor|]. inversion_clear Hby as [|? ? [Hb Hl] Hby'].
    cbn [map]. constructor; [|by apply IH]. by repeat split.
  - rewrite Hs2. apply Forall_concat. eapply Forall_impl; [|exact Hby]. by intros c [? _].
Qed.

(** C14: in every state that the loop reaches, the bridge has relayed faithfully.  To the
    application: what was written to the socket and what is still held are, byte for byte, one
    [STDIN] record for every read from the web server, in order, and then, exactly when
    CONTENT_LENGTH bytes were read, the record that ends the stream.  To the web server: the state
    of the answer is what the bytes read from the socket make of it, read by read. *)
Theorem relay_invariant s0 s : ready s0 -> loop_state s0 s ->
  writes_of sock (io_trace (fst s)) ++ held (snd s) =
    wire (map stdin_rec (reads_of STDIN_FILENO (io_trace (fst s)))) ++
      (if cl <=? zlen (concat (reads_of STDIN_FILENO (io_trace (fst s)))) then enc (stdin_rec []) else []) /\
  as_reads (reads_of sock (io_trace (fst s))) (reply_init script) = Ok (None, reply (snd s)).
Proof.
  intros R L. pose proof (loop_state_inv s0 s R L) as [_ F _ _ P _]. split; [|apply (rp_reads _ _ P)].
  rewrite (fd_bytes _ _ F), (fd_sent _ _ F), (fd_left _ _ F). f_equal.
  destruct (Z.leb_spec (cl - zlen (concat (reads_of STDIN_FILENO (io_trace (fst s))))) 0), (Z.leb_spec cl (zlen (concat (reads_of STDIN_FILENO (io_trace (fst s)))))); done || lia.
Qed.

(** C15: the request's body arrives: when the web server has sent all of it (CONTENT_LENGTH bytes,
    or the end of its input) and the bridge holds nothing back, the bytes on the socket are what the
    library of the application reads as a [STDIN] stream with the body as its content, ended once. *)
Theorem body_forwarded s0 s : ready s0 -> loop_state s0 s -> ws_next (snd s) = ws_stop (snd s) ->
  bytesToRead (snd s) <= 0 \/ webServerReadHandlerEOF (snd s) = true ->
  exists srs, stdin_ok 1 srs [] /\ stream_of FCGI_STDIN srs = concat (reads_of STDIN_FILENO (io_trace (fst s))) /\
    writes_of sock (io_trace (fst s)) = stdin_bytes 1 srs [] [].
Proof.
  intros R L Hh Hd. pose proof (loop_state_inv s0 s R L) as [_ F _ _ P _]. destruct F.
  unfold held in fd_bytes0. rewrite Hh, Z.sub_diag, sub_neg, app_nil_r in fd_bytes0 by lia.
  destruct fd_eof0 as (cs & Ecs & Hcs). pose proof fd_byte0 as Hby. rewrite Ecs in Hby. apply Forall_app in Hby as [Hby _].
  destruct (stdin_recs_ok cs Hcs Hby) as [H1 H2]. exists (map stdin_rec cs). split; [done|].
  rewrite fd_bytes0, fd_sent0, Ecs. unfold stdin_bytes. rewrite H2.
  destruct (webServerReadHandlerEOF (snd s)) eqn:Ee.
  - specialize (fd_open0 eq_refl). rewrite (proj2 (Z.leb_gt _ _) fd_open0), !app_nil_r, map_app, wire_app. f_equal.
    rewrite concat_app. cbn [concat]. by rewrite !app_nil_r.
  - destruct Hd as [Hd|]; [|done]. rewrite (proj2 (Z.leb_le _ _) Hd), !app_nil_r. done.
Qed.

(** C18: the answer arrives: when the bytes read from the socket are an answer of the application,
    the web server has been sent its [STDOUT] and [STDERR] streams and the loop of [main] ends, with
    the application's status for the exit. *)
Theorem answer_relayed s0 s rs st : ready s0 -> loop_state s0 s -> script = [] -> Forall answer_rec rs -> 0 <= st <= INT_MAX ->
  concat (reads_of sock (io_trace (fst s))) = wire rs ++ enc (end_rec st) ->
  as_out (reply (snd s)) = stream_of FCGI_STDOUT rs /\ as_err (reply (snd s)) = stream_of FCGI_STDERR rs /\
  forall fuel, event_loop OS_Errno shutdown_fails (S fuel) s = FCGIexit shutdown_fails st s.
Proof.
  intros R L Hscr Hrs Hst Hc. pose proof (loop_state_inv s0 s R L) as [_ _ _ _ [Er Hne _ _] _]. rewrite Hscr in Er.
  pose proof (answer_read rs st _ Hrs Hst Hne Hc) as H. rewrite Er in H.
  destruct (cuts_ok _ _ _); [|done]. destruct H as (s' & [= <-] & Ho & He & Hs & Hx). split; [done|]. split; [done|].
  intros fuel. cbn [event_loop]. rewrite (bind_Ok get _ _ s s) by done. by rewrite Hs, Hx.
Qed.

(** C19: in every state that the loop reaches, [OS_DoIo] performs the completed operations and
    their callbacks without failing an assertion, and it ends unless [select] has no answer left;
    what it leaves is again a state where everything that can go on is posted: the read of the
    answer always, the write of what is held, and the read of what the web server still has to
    send. *)
Theorem loop_goes_on s0 s : ready s0 -> loop_state s0 s ->
  match @OS_DoIo _ (bridge_application OS_Errno shutdown_fails) s with
  | Ok (None, s') =>
      sock ∈ readFdSet (fst s') ∪ readFdSetPost (fst s') /\
      (held (snd s') <> [] -> sock ∈ writeFdSet (fst s') ∪ writeFdSetPost (fst s')) /\
      (held (snd s') = [] -> 0 < bytesToRead (snd s') -> webServerReadHandlerEOF (snd s') = false ->
       STDIN_FILENO ∈ readFdSet (fst s') ∪ readFdSetPost (fst s'))
  | Ok (Some _, _) => True
  | Crash f => f <> AssertFail
  | NoFuel => sel_script (fst s) = []
  end.
Proof.
  intros R L. pose proof (loop_state_inv s0 s R L) as I. destruct (OS_DoIo_loop s I) as [[E Hs]|K].
  - by rewrite E.
  - destruct (@OS_DoIo _ _ s) as [[[code|] s']|f|]; [done| |done|done]. destruct K as [T F W P _ _]. destruct P.
    rewrite (td_rd _ _ T), (td_wr _ _ T), po_read0.
    pose proof (zlen_held (snd s') (fd_buff _ _ F) (proj1 (fd_bounds _ _ F)) (proj2 (fd_bounds _ _ F))) as Hl.
    pose proof (proj1 (fd_bounds _ _ F)). split; [set_solver|]. split.
    + intros Hh. rewrite po_write0; [set_solver|]. assert (zlen (held (snd s')) <> 0) by (by destruct (held (snd s'))). lia.
    + intros Hh Hle He. rewrite Hh in Hl. change (zlen (@nil Z)) with 0 in Hl.
      assert (Hn : ws_next (snd s') = 0) by (apply (fd_empty _ _ F); lia).
      rewrite po_stdin0 by (done || lia). set_solver.
Qed.

(** The last part of the body overflows the buffer when it is large: the handler reads up to
    8184 bytes behind the space for their header, and then appends the record that ends the
    stream; after a last read of more than 8176 bytes that record is written past the end of
    [fromWS.buff]. *)
Theorem long_last_read_overflows a b bs cd : zlen (ws_buff b) = BUFFLEN -> ws_next b = 0 -> ws_stop b = 0 ->
  wsReadPending b = true -> requestId (reply b) = 1 -> stdin_eof_sent b = false -> bytesToRead b = zlen bs ->
  BUFFLEN - 16 < zlen bs <= BUFFLEN - FCGI_HEADER_LEN ->
  WebServerReadHandler OS_Errno shutdown_fails cd (zlen bs)
    (a, bridge_store (fromWS_buff + FCGI_HEADER_LEN) bs b) = Crash MemFault.
Proof.
  intros Hl Hn Hs Hw Hid He Hb Hbs. unfold FCGI_HEADER_LEN in *. set (b0 := bridge_store _ bs b).
  assert (E0 : ws_next b0 = 0 /\ ws_stop b0 = 0 /\ wsReadPending b0 = true) by done.
  unfold WebServerReadHandler. rewrite (bind_Ok get _ _ (a, b0) (a, b0)) by done. cbn [snd]. cbv zeta.
  destruct E0 as (-> & -> & ->). unfold c_assert. do 3 (rewrite (bind_Ok (ret tt) _ _ tt (a, b0)) by done).
  set (b1 := b0 <| wsReadPending := false |>). rewrite (bind_Ok _ _ _ tt (a, b1)) by done.
  unfold BUFFLEN in *. rewrite (proj2 (Z.ltb_ge _ _)) by lia. unfold bind at 1, in_bridge, zoom. cbn [fst snd].
  pose proof (frame_stdin_spec b1 bs (ws_buff b) Hl eq_refl ltac:(unfold BUFFLEN; lia) Hid
    ltac:(change (bytesToRead b1) with (bytesToRead b); unfold INT_MAX; lia) He) as E. cbv zeta in E.
  rewrite E. change (bytesToRead b1) with (bytesToRead b). unfold BUFFLEN.
  by rewrite (proj2 (Z.leb_le _ 0)), (proj2 (Z.leb_gt _ _)) by lia.
Qed.

End Invariant.

(** ** A request of three bytes

    The web server sends [1;2;3] in one piece; the application's answer comes in two, and the
    socket takes the request's body in two. *)
Module LoopSample.
Definition rs : list rec := [mkRec FCGI_STDOUT 1 [79; 107] [0]; mkRec FCGI_STDERR 1 [33] []].
Definition answer : list Z := wire rs ++ enc (end_rec 3).
Definition aio : Aio := aio_fresh
  <| sel_script := [SelReady {[STDIN_FILENO]} ∅; SelReady ∅ {[3]}; SelReady {[3]} {[3]}; SelReady {[3]} ∅] |>
  <| rd_script := [Some [1; 2; 3]; Some (take 9 answer); Some (drop 9 answer)] |>
  <| wr_script := [Some 4%nat] |>.
Definition bridge : Bridge :=
  mkBridge (reply_init []) (replicate 8192 0) 0 (replicate 8192 0) 0 0 3 3 false false false false false.

Definition step (m : M (Aio * Bridge) (option Z)) (s : Aio * Bridge) : Aio * Bridge :=
  match m s with Ok (_, s') => s' | _ => s end.
Definition turn (s : Aio * Bridge) : Aio * Bridge := step (@OS_DoIo _ (bridge_application 5 false)) s.
Definition s0 : Aio * Bridge := (aio, bridge).
Definition s1 : Aio * Bridge := step (start_loop 5 false) s0.
Definition s2 : Aio * Bridge := turn s1.
Definition s3 : Aio * Bridge := turn s2.
Definition s4 : Aio * Bridge := turn s3.
Definition s5 : Aio * Bridge := turn s4.

Lemma s0_ready : ready 3 3 [] s0.
Proof.
  split.
  - destruct aio_fresh_inv. split; try done; by apply (side_same aio_fresh).
  - done.
  - done.
  - repeat constructor; intros bs [= <-]; repeat (constructor; [by vm_compute|]); constructor.
  - done.
  - split; [done|]. split; [|done]. apply Forall_replicate. by vm_compute.
  - done.
  - done.
Qed.

Lemma after_step m (s : Aio * Bridge) : (match m s with Ok (None, _) => true | _ => false end) = true -> m s = Ok (None, step m s).
Proof. unfold step. by destruct (m s) as [[[c|] s']|f|]. Qed.

Lemma next_state s : loop_state 5 false s0 s -> exitStatusSet (reply (snd s)) = false ->
  (match @OS_DoIo _ (bridge_application 5 false) s with Ok (None, _) => true | _ => false end) = true ->
  loop_state 5 false s0 (turn s).
Proof. intros L He H. apply (after_turn _ _ _ s); [done|done|]. by apply after_step. Qed.

Lemma s1_reached : loop_state 5 false s0 s1.
Proof. apply at_start, after_step. vm_compute. reflexivity. Qed.

Lemma s5_reached : loop_state 5 false s0 s5.
Proof. do 4 (apply next_state; [|vm_compute; reflexivity..]). apply s1_reached. Qed.
End LoopSample.

Lemma relay_invariant_witness : let tr := io_trace (fst LoopSample.s5) in
  reads_of 0 tr = [[1; 2; 3]] /\
  writes_of 3 tr ++ held (snd LoopSample.s5) = wire (map stdin_rec (reads_of 0 tr)) ++ enc (stdin_rec []).
Proof.
  intros tr. split; [vm_compute; reflexivity|].
  etransitivity; [apply (relay_invariant 3 3 [] ltac:(unfold FD_SETSIZE; lia) ltac:(unfold INT_MIN, INT_MAX; lia) 5 false
    LoopSample.s0 LoopSample.s5 LoopSample.s0_ready LoopSample.s5_reached)|].
  vm_compute. reflexivity.
Defined.

Lemma body_forwarded_witness : exists srs, stream_of FCGI_STDIN srs = [1; 2; 3] /\
  writes_of 3 (io_trace (fst LoopSample.s5)) = stdin_bytes 1 srs [] [].
Proof.
  destruct (body_forwarded 3 3 [] ltac:(unfold FD_SETSIZE; lia) ltac:(unfold INT_MIN, INT_MAX; lia) 5 false
    LoopSample.s0 LoopSample.s5 LoopSample.s0_ready LoopSample.s5_reached) as (srs & _ & Hs & Hw).
  - vm_compute. reflexivity.
  - left. vm_compute. discriminate.
  - exists srs. split; [|exact Hw]. etransitivity; [exact Hs|]. vm_compute. reflexivity.
Defined.

Lemma answer_relayed_witness : as_out (reply (snd LoopSample.s5)) = [79; 107] /\ as_err (reply (snd LoopSample.s5)) = [33] /\
  event_loop 5 false 1 LoopSample.s5 = FCGIexit false 3 LoopSample.s5.
Proof.
  destruct (answer_relayed 3 3 [] ltac:(unfold FD_SETSIZE; lia) ltac:(unfold INT_MIN, INT_MAX; lia) 5 false
    LoopSample.s0 LoopSample.s5 LoopSample.rs 3 LoopSample.s0_ready LoopSample.s5_reached) as (Ho & He & Hx).
  - reflexivity.
  - repeat (constructor; [split; [by repeat split; vm_compute|]; split; [done|]; by auto|]). constructor.
  - unfold INT_MAX. lia.
  - vm_compute. reflexivity.
  - split; [exact Ho|]. split; [exact He|exact (Hx 0%nat)].
Defined.

Lemma loop_goes_on_witness : exists s', @OS_DoIo _ (bridge_application 5 false) LoopSample.s1 = Ok (None, s') /\
  held (snd s') = wire [stdin_rec [1; 2; 3]] ++ enc (stdin_rec []) /\ 3 ∈ writeFdSet (fst s') ∪ writeFdSetPost (fst s').
Proof.
  pose proof (loop_goes_on 3 3 [] ltac:(unfold FD_SETSIZE; lia) ltac:(unfold INT_MIN, INT_MAX; lia) 5 false
    LoopSample.s0 LoopSample.s1 LoopSample.s0_ready LoopSample.s1_reached) as H.
  exists LoopSample.s2. assert (E : @OS_DoIo _ (bridge_application 5 false) LoopSample.s1 = Ok (None, LoopSample.s2))
    by (apply LoopSample.after_step; vm_compute; reflexivity).
  rewrite E in H. split; [exact E|]. split; [vm_compute; reflexivity|]. apply H. vm_compute. discriminate.
Defined.

Lemma long_last_read_overflows_witness : let bs := replicate 8180 7 in
  let b := LoopSample.bridge <| wsReadPending := true |> <| bytesToRead := 8180 |> in
  WebServerReadHandler 5 false 0 8180 (aio_fresh, bridge_store 8200 bs b) = Crash MemFault.
Proof.
  intros bs b. apply (long_last_read_overflows 5 false aio_fresh b bs 0); try reflexivity; vm_compute; split; congruence.
Defined.
