(* ===== verification/CgiMain.v ===== *)
(** * The bridge's command line and [main]

    [ParseArgs], [FCGI_Start] and [main] of [cgi-fcgi/cgi-fcgi.c]: from the arguments to the event
    loop of CgiLoop.v. *)

From stdpp Require Import gmap.
From S2P Require Import Prelude FcgiProto FcgiStream FcgiWriter FcgiParams FcgiReader FcgiRecords OsAccept OsAsync FcgiRequest OsProcess OsDoIo FcgiServe CgiFcgi CgiAnswer CgiLoop.

(** ** The command line *)

Local Notation Exit := OsAccept.Exit.

Definition MAXARGS : Z := 16.
Definition BUFSIZ : Z := 8192.

(** What [ParseArgs] stores for its caller. *)
Record Options := mkOptions { doBind : bool; doStart : bool; connectPath : list Z; appPath : list Z; nServers : Z }.

#[export] Instance set_doBind : Setter doBind := fun g r => mkOptions (g (doBind r)) (doStart r) (connectPath r) (appPath r) (nServers r).
#[export] Instance set_doStart : Setter doStart := fun g r => mkOptions (doBind r) (g (doStart r)) (connectPath r) (appPath r) (nServers r).
#[export] Instance set_connectPath : Setter connectPath := fun g r => mkOptions (doBind r) (doStart r) (g (connectPath r)) (appPath r) (nServers r).
#[export] Instance set_appPath : Setter appPath := fun g r => mkOptions (doBind r) (doStart r) (connectPath r) (g (appPath r)) (nServers r).
#[export] Instance set_nServers : Setter nServers := fun g r => mkOptions (doBind r) (doStart r) (connectPath r) (appPath r) (g (nServers r)).

Definition no_options : Options := mkOptions true true [] [] 0.

(** The strings that are compared with: [-f], [-start], [-bind] and [-connect]. *)
Definition opt_f : list Z := [45; 102].
Definition opt_start : list Z := [45; 115; 116; 97; 114; 116].
Definition opt_bind : list Z := [45; 98; 105; 110; 100].
Definition opt_connect : list Z := [45; 99; 111; 110; 110; 101; 99; 116].

Definition is_blank (c : Z) : bool := (c =? 32) || (c =? 9).

(** [while( *tp1 == ' ' || *tp1 == '\t') *tp1-- = 0;] from the end of the line, which is given in
    reverse: in front of the line the read is outside the array. *)
Fixpoint trim_blanks (rev_line : list Z) : res (list Z) :=
  match rev_line with
  | [] => Crash MemFault
  | c :: rest => if is_blank c then trim_blanks rest else Ok rev_line
  end.

(** The line without its newline and the blanks before it; [None] when there is no newline. *)
Definition trim_line (line : list Z) : res (option (list Z)) :=
  match rev line with
  | c :: rest => if c =? 10 then rbind (trim_blanks rest) (fun r => Ok (Some (rev r))) else Ok None
  | [] => Ok None
  end.

(** The pieces between the spaces of a line. *)
Fixpoint split_spaces (s : list Z) : list (list Z) :=
  match s with
  | [] => [[]]
  | c :: s' =>
      if c =? 32 then [] :: split_spaces s'
      else match split_spaces s' with w :: ws => (c :: w) :: ws | [] => [[c]] end
  end.

(** [av[ac++] = ...] for the pieces of a line; [ac] is one more than the length of [av]. *)
Fixpoint add_args (pieces av : list (list Z)) : outcome (list (list Z)) :=
  match pieces with
  | [] => Ret av
  | p :: ps => if MAXARGS <=? zlen av + 1 then Exit (-1) else add_args ps (av ++ [p])
  end.

(** The loop over the lines that [fgets] reads from a command file with the content [X]: the
    arguments after [av[0]], or [None] for "Line to long". *)
Fixpoint read_lines (fuel : nat) (X : list Z) (av : list (list Z)) : res (outcome (option (list (list Z)))) :=
  match X with
  | [] => Ok (Ret (Some av))
  | _ :: _ =>
    match fuel with
    | O => NoFuel
    | S fuel =>
        let got := take_line (Z.to_nat (BUFSIZ - 1)) X in
        let X := drop (length got) X in
        let line := c_string got in
        if nth 0 line 0 =? 35 then read_lines fuel X av else
        rbind (trim_line line) (fun t =>
          match t with
          | None => Ok (Ret None)
          | Some text =>
              match add_args (split_spaces text) av with
              | Exit c => Ok (Exit c)
              | Ret av => read_lines fuel X av
              end
          end)
    end
  end.

(** Every line has a byte. *)
Definition read_command_file (X : list Z) : res (outcome (option (list (list Z)))) := read_lines (length X) X [].

Section ParseArgs.
(** The files: [fopen] and their content. *)
Context (read_file : list Z -> option (list Z)).

(** The end of [ParseArgs]: [err] and the options. *)
Definition finish_args (err : Z) (o : Options) : Z * Options :=
  let err := if doStart o && bool_decide (appPath o = []) then err + 1 else err in
  let err := if bool_decide (connectPath o = []) then err + 1 else err in
  (err, if nServers o =? 0 then o <| nServers := 1 |> else o).

(** The loop over [argv[i]], [argv[i + 1]], ...; [recur] is the recursive call. *)
Fixpoint parse_loop (recur : list (list Z) -> res (outcome (Z * Options))) (args : list (list Z)) (err : Z) (o : Options)
  : res (outcome (Z * Options)) :=
  match args with
  | [] => Ok (Ret (finish_args err o))
  | a :: rest =>
    if nth 0 a 0 =? 45 then
      if bool_decide (a = opt_f) then
        match rest with
        | [] => Ok (Ret (1, o))
        | f :: _ =>
          match read_file f with
          | None => Ok (Ret (1, o))
          | Some X =>
              rbind (read_command_file X) (fun r =>
                match r with
                | Exit c => Ok (Exit c)
                | Ret None => Ok (Ret (1, o))
                | Ret (Some av) => recur av
                end)
          end
        end
      else if bool_decide (a = opt_start) then parse_loop recur rest err (o <| doBind := false |>)
      else if bool_decide (a = opt_bind) then parse_loop recur rest err (o <| doStart := false |>)
      else if bool_decide (a = opt_connect) then
        match rest with
        | [] => parse_loop recur rest (err + 1) o
        | p :: rest =>
            if zlen p <? MAXPATHLEN then parse_loop recur rest err (o <| connectPath := p |>)
            else parse_loop recur rest (err + 1) o
        end
      else parse_loop recur rest (err + 1) o
    else if bool_decide (appPath o = []) then
      if zlen a <? MAXPATHLEN then parse_loop recur rest err (o <| appPath := a |>)
      else parse_loop recur rest (err + 1) o
    else if is_digit (nth 0 a 0) && (nServers o =? 0) then
      parse_loop recur rest (if int_atoi a <=? 0 then err + 1 else err) (o <| nServers := int_atoi a |>)
    else parse_loop recur rest (err + 1) o
  end.

(** [fuel] bounds the nesting of the command files; [args] are the arguments after [argv[0]]. *)
Fixpoint ParseArgs (fuel : nat) (args : list (list Z)) : res (outcome (Z * Options)) :=
  match fuel with
  | O => NoFuel
  | S fuel => parse_loop (ParseArgs fuel) args 0 no_options
  end.
End ParseArgs.

(** ** [main] *)

(** The program: the library's and its own state, the connection to the application, the open
    descriptors with their files and flags, and what [fork] will return. *)
Record Cgi := mkCgi {
  c_aio : Aio;
  c_bridge : Bridge;
  c_conn : Conn;
  c_fds : gmap Z Z;
  c_flags : gmap Z Z;
  c_forks : list Z }.

#[export] Instance set_c_aio : Setter c_aio := fun g r => mkCgi (g (c_aio r)) (c_bridge r) (c_conn r) (c_fds r) (c_flags r) (c_forks r).
#[export] Instance set_c_bridge : Setter c_bridge := fun g r => mkCgi (c_aio r) (g (c_bridge r)) (c_conn r) (c_fds r) (c_flags r) (c_forks r).
#[export] Instance set_c_conn : Setter c_conn := fun g r => mkCgi (c_aio r) (c_bridge r) (g (c_conn r)) (c_fds r) (c_flags r) (c_forks r).
#[export] Instance set_c_fds : Setter c_fds := fun g r => mkCgi (c_aio r) (c_bridge r) (c_conn r) (g (c_fds r)) (c_flags r) (c_forks r).
#[export] Instance set_c_flags : Setter c_flags := fun g r => mkCgi (c_aio r) (c_bridge r) (c_conn r) (c_fds r) (g (c_flags r)) (c_forks r).
#[export] Instance set_c_forks : Setter c_forks := fun g r => mkCgi (c_aio r) (c_bridge r) (c_conn r) (c_fds r) (c_flags r) (g (c_forks r)).

Definition on_aio {A} (m : M Aio A) : M Cgi A := zoom c_aio (fun a s => s <| c_aio := a |>) m.
Definition on_bridge {A} (m : M Bridge A) : M Cgi A := zoom c_bridge (fun b s => s <| c_bridge := b |>) m.
Definition on_conn {A} (m : M Conn A) : M Cgi A := zoom c_conn (fun c s => s <| c_conn := c |>) m.
Definition on_fds {A} (m : M (gmap Z Z) A) : M Cgi A := zoom c_fds (fun f s => s <| c_fds := f |>) m.
Definition on_flags {A} (m : M (gmap Z Z) A) : M Cgi A := zoom c_flags (fun f s => s <| c_flags := f |>) m.
Definition on_loop {A} (m : M (Aio * Bridge) A) : M Cgi A :=
  zoom (fun s => (c_aio s, c_bridge s)) (fun ab s => s <| c_aio := fst ab |> <| c_bridge := snd ab |>) m.

(** How the process ends: with a status, or as the application that it executes. *)
Inductive ending := Exited (code : Z) | Executes (path : list Z).

(** The characters of CONTENT_LENGTH. *)
Definition CONTENT_LENGTH : list Z := [67; 79; 78; 84; 69; 78; 84; 95; 76; 69; 78; 71; 84; 72].

(** [getenv]. *)
Fixpoint getenv (name : list Z) (envp : list (list Z)) : option (list Z) :=
  match envp with
  | [] => None
  | e :: envp =>
      match split_eq e with
      | Some (n, v) => if bool_decide (n = name) then Some v else getenv name envp
      | None => getenv name envp
      end
  end.

(** [bytesToRead]. *)
Definition content_length (envp : list (list Z)) : Z :=
  match getenv CONTENT_LENGTH envp with Some v => int_atoi v | None => 0 end.

Definition O_NONBLOCK : Z := 2048.

Section Main.
(** The files, the resolver and the kernel; [sys_socket] and [sys_connect] are told how many times
    they were called, since an application may have started in between. *)
Context (read_file : list Z -> option (list Z)).
Context (inet_addr : list Z -> Z) (gethostbyname : list Z -> option (Z * list Z)).
Context (sys_socket : nat -> Z -> Z) (sys_setsockopt : Z -> Z) (sys_bind_listen : Z -> sockaddr -> Z -> bool).
Context (sys_connect : nat -> Z -> sockaddr -> bool) (OS_Errno : Z) (shutdown_fails setfl_fails : bool).
Context (executable : list Z -> bool) (exec_errno : option Z) (mBuff : Z).

(** The children that [FCGI_Start] makes; every one goes on as the application. *)
Fixpoint spawn_loop (n : nat) (appPath : list Z) (listenFd : Z) : M Cgi (option ending) :=
  match n with
  | O => ret None
  | S n =>
      s <- get ;;
      let forkResult := match c_forks s with [] => 1 | f :: _ => f end in
      modify (fun s => s <| c_forks := drop 1 (c_forks s) |>) ;;;
      r <- on_fds (OS_SpawnChild forkResult OS_Errno exec_errno appPath listenFd) ;;
      match r with
      | Ended code => ret (Some (Exited code))
      | Child path => ret (Some (Executes path))
      | Parent rc => if rc =? -1 then ret (Some (Exited OS_Errno)) else spawn_loop n appPath listenFd
      end
  end.

Definition FCGI_Start (bindPath appPath : list Z) (nServers : Z) : M Cgi (option ending) :=
  match OS_CreateLocalIpcFd inet_addr gethostbyname (sys_socket 1) sys_setsockopt sys_bind_listen OS_Errno bindPath 5 with
  | Exit c => ret (Some (Exited c))
  | Ret listenFd =>
      if listenFd =? -1 then ret (Some (Exited OS_Errno)) else
      if negb (executable appPath) then ret (Some (Exited 1)) else
      r <- spawn_loop (Z.to_nat nServers) appPath listenFd ;;
      match r with
      | Some e => ret (Some e)
      | None => on_aio (OS_Close listenFd true shutdown_fails 0) ;;; ret None
      end
  end.

(** [appServerSock = OS_FcgiConnect(bindPath)]. *)
Definition connect_to (attempt : nat) (bindPath : list Z) : M Cgi (option ending) :=
  r <- lift (OS_FcgiConnect gethostbyname (sys_socket attempt) (sys_connect attempt) bindPath) ;;
  match r with
  | Exit c => ret (Some (Exited c))
  | Ret sock => on_bridge (modify (fun b => b <| appServerSock := sock |>)) ;;; ret None
  end.

Definition unless_ended (m k : M Cgi (option ending)) : M Cgi (option ending) :=
  r <- m ;; match r with Some e => ret (Some e) | None => k end.

(** From the options to a connection. *)
Definition find_server (o : Options) : M Cgi (option ending) :=
  unless_ended (if doBind o then connect_to 0 (connectPath o) else ret None) (
  s <- get ;;
  if doStart o && (negb (doBind o) || (appServerSock (c_bridge s) <? 0)) then
    unless_ended (FCGI_Start (connectPath o) (appPath o) (nServers o))
      (if negb (doBind o) then ret (Some (Exited 0)) else connect_to 2 (connectPath o))
  else ret None).

(** From the start of [main] to its loop. *)
Definition main_setup (fuel : nat) (args envp : list (list Z)) : M Cgi (option ending) :=
  r <- lift (ParseArgs read_file fuel args) ;;
  match r with
  | Exit c => ret (Some (Exited c))
  | Ret (err, o) =>
      if negb (err =? 0) then ret (Some (Exited 1)) else
      rc <- on_aio OS_LibInit ;;
      if negb (rc =? 0) then ret (Some (Exited 0)) else
      on_bridge (modify (fun b => b <| bytesToRead := content_length envp |>)) ;;;
      unless_ended (find_server o) (
      s <- get ;;
      let sock := appServerSock (c_bridge s) in
      if sock <? 0 then ret (Some (Exited OS_Errno)) else
      on_bridge (modify (fun b => b <| reply := (reply b) <| requestId := 1 |> |>)) ;;;
      e <- on_conn (send_request mBuff sock envp) ;;
      match e with
      | Some code => ret (Some (Exited code))
      | None =>
          e <- on_flags (OS_SetFlags OS_Errno setfl_fails sock O_NONBLOCK) ;;
          match e with
          | Some code => ret (Some (Exited code))
          | None => e <- on_loop (start_loop OS_Errno shutdown_fails) ;; ret (Exited <$> e)
          end
      end)
  end.

(** [main]; [fuel] bounds the turns of its loop. *)
Definition main (nesting fuel : nat) (args envp : list (list Z)) : M Cgi ending :=
  r <- main_setup nesting args envp ;;
  match r with
  | Some e => ret e
  | None =>
      code <- on_loop (event_loop OS_Errno shutdown_fails fuel) ;;
      match code with Some c => ret (Exited c) | None => nofuel end
  end.
End Main.

(** ** Command lines *)

(** The command line for some options, as the usage message has it; [servers] is the text of the
    number of servers. *)
Definition usage (o : Options) (servers : option (list Z)) : list (list Z) :=
  (if doBind o then [] else [opt_start]) ++ (if doStart o then [] else [opt_bind]) ++ [opt_connect; connectPath o] ++
  (if bool_decide (appPath o = []) then [] else appPath o :: match servers with None => [] | Some ds => [ds] end).

(** Options that a command line can give. *)
Record usable (o : Options) (servers : option (list Z)) : Prop := {
  us_connect : connectPath o <> [] /\ zlen (connectPath o) < MAXPATHLEN;
  us_app : zlen (appPath o) < MAXPATHLEN /\ nth 0 (appPath o) 0 <> 45 /\ (doStart o = true -> appPath o <> []);
  us_servers : match servers with
               | None => nServers o = 1
               | Some ds => appPath o <> [] /\ is_digit (nth 0 ds 0) = true /\ 0 < int_atoi ds /\ nServers o = int_atoi ds
               end }.

Section ParseSpec.
Context (read_file : list Z -> option (list Z)) (recur : list (list Z) -> res (OsAccept.outcome (Z * Options))).

Lemma parse_start rest err o : parse_loop read_file recur (opt_start :: rest) err o = parse_loop read_file recur rest err (o <| doBind := false |>).
Proof. done. Qed.

Lemma parse_bind rest err o : parse_loop read_file recur (opt_bind :: rest) err o = parse_loop read_file recur rest err (o <| doStart := false |>).
Proof. done. Qed.

Lemma parse_connect path rest err o : zlen path < MAXPATHLEN ->
  parse_loop read_file recur (opt_connect :: path :: rest) err o = parse_loop read_file recur rest err (o <| connectPath := path |>).
Proof.
  intros H. cbn [parse_loop]. change (nth 0 opt_connect 0 =? 45) with true. cbv iota.
  change (bool_decide (opt_connect = opt_f)) with false. change (bool_decide (opt_connect = opt_start)) with false.
  change (bool_decide (opt_connect = opt_bind)) with false. change (bool_decide (opt_connect = opt_connect)) with true. cbv iota.
  by rewrite (proj2 (Z.ltb_lt _ _)).
Qed.

Lemma parse_app app rest err o : nth 0 app 0 <> 45 -> zlen app < MAXPATHLEN -> appPath o = [] ->
  parse_loop read_file recur (app :: rest) err o = parse_loop read_file recur rest err (o <| appPath := app |>).
Proof.
  intros H Hl Ho. cbn [parse_loop]. by rewrite (proj2 (Z.eqb_neq _ _) H), Ho, bool_decide_eq_true_2, (proj2 (Z.ltb_lt _ _) Hl) by done.
Qed.

Lemma parse_servers ds rest err o : is_digit (nth 0 ds 0) = true -> 0 < int_atoi ds -> appPath o <> [] -> nServers o = 0 ->
  parse_loop read_file recur (ds :: rest) err o = parse_loop read_file recur rest err (o <| nServers := int_atoi ds |>).
Proof.
  intros Hd Hn Ha Ho. cbn [parse_loop]. rewrite (proj2 (Z.eqb_neq _ 45)) by (intros E; rewrite E in Hd; done).
  rewrite bool_decide_eq_false_2 by done. by rewrite Hd, Ho, (proj2 (Z.leb_gt _ _) Hn).
Qed.
End ParseSpec.

(** [ParseArgs] reads back every command line of the usage message: the options are those the
    line was written for, without errors. *)
Theorem ParseArgs_usage read_file fuel o servers : usable o servers ->
  ParseArgs read_file (S fuel) (usage o servers) = Ok (Ret (0, o)).
Proof.
  destruct o as [b st cp ap n]. intros [[Hc Hcl] (Hal & Ha & Has) Hs]. unfold usage. cbn [doBind doStart connectPath appPath nServers] in *.
  cbn [ParseArgs]. set (recur := ParseArgs read_file fuel).
  assert (G : forall b0 st0, parse_loop read_file recur ([opt_connect; cp] ++ (if bool_decide (ap = []) then [] else ap :: match servers with None => [] | Some ds => [ds] end))
      0 (mkOptions b0 st0 [] [] 0) = Ok (Ret (finish_args 0 (mkOptions b0 st0 cp ap (match servers with None => 0 | Some ds => int_atoi ds end))))).
  { intros b0 st0. change ([opt_connect; cp] ++ ?r) with (opt_connect :: cp :: r). rewrite parse_connect by done.
    destruct ap as [|c ap].
    - destruct servers; [by destruct Hs|done].
    - rewrite bool_decide_eq_false_2, parse_app by done. destruct servers as [ds|]; [|done]. destruct Hs as (_ & Hd & Hn & _). by rewrite parse_servers. }
  assert (F : finish_args 0 (mkOptions b st cp ap (match servers with None => 0 | Some ds => int_atoi ds end)) = (0, mkOptions b st cp ap n)).
  { unfold finish_args. cbn [doStart appPath connectPath nServers]. rewrite (bool_decide_eq_false_2 (cp = [])) by done.
    assert (st && bool_decide (ap = []) = false) as ->.
    { destruct st; [|done]. cbn [andb]. apply bool_decide_eq_false_2. by apply Has. }
    destruct servers as [ds|]; [destruct Hs as (_ & _ & Hn & ->)|by rewrite Hs]. by rewrite (proj2 (Z.eqb_neq _ _)) by lia. }
  rewrite <- F. destruct b, st; cbn [app]; rewrite ?parse_start, ?parse_bind; apply G.
Qed.

(** ** Command files *)

(** The words of a line with a space between two of them. *)
Fixpoint join (ws : list (list Z)) : list Z :=
  match ws with
  | [] => []
  | [w] => w
  | w :: ws => w ++ 32 :: join ws
  end.

(** A line of a command file: a comment, or words and then blanks. *)
Inductive file_line := Comment (text : list Z) | Words (ws : list (list Z)) (blanks : list Z).

Definition line_text (l : file_line) : list Z :=
  match l with Comment t => 35 :: t | Words ws blanks => join ws ++ blanks end.

Definition words_of (l : file_line) : list (list Z) := match l with Comment _ => [] | Words ws _ => ws end.

Definition file_of_lines (ls : list file_line) : list Z := concat (map (fun l => line_text l ++ [10]) ls).

(** A word has characters, and none that ends it. *)
Definition word_ok (w : list Z) : Prop := w <> [] /\ Forall (fun c => c <> 32 /\ c <> 9 /\ c <> 10 /\ c <> 0) w.

(** A line that [fgets] reads at once, of words of which the first does not start a comment. *)
Definition line_ok (l : file_line) : Prop :=
  zlen (line_text l) < BUFSIZ - 2 /\
  match l with
  | Comment t => Forall (fun c => c <> 10) t
  | Words ws blanks => ws <> [] /\ Forall word_ok ws /\ nth 0 (join ws) 0 <> 35 /\ Forall (fun c => is_blank c = true) blanks
  end.

Lemma take_line_newline k l X : 10 ∉ l -> (length l < k)%nat -> take_line k (l ++ 10 :: X) = l ++ [10].
Proof.
  revert k. induction l as [|c l IH]; intros k Hl Hk; (destruct k as [|k]; [cbn in Hk; lia|]).
  - done.
  - rewrite elem_of_cons in Hl. cbn [take_line app]. rewrite (proj2 (Z.eqb_neq c 10)) by intuition. f_equal.
    apply IH; [tauto|cbn in Hk; lia].
Qed.

Lemma join_cons w w' ws : join (w :: w' :: ws) = w ++ 32 :: join (w' :: ws).
Proof. done. Qed.

Lemma join_chars (P : Z -> Prop) ws : Forall (Forall P) ws -> P 32 -> Forall P (join ws).
Proof.
  intros H H32. induction H as [|w ws Hw Hws IH]; [constructor|]. destruct ws as [|w' ws]; [done|].
  rewrite join_cons. apply Forall_app. split; [done|]. by constructor.
Qed.

Lemma split_spaces_app w s : Forall (fun c => c <> 32) w ->
  split_spaces (w ++ s) = match split_spaces s with x :: xs => (w ++ x) :: xs | [] => [w] end.
Proof.
  induction 1 as [|c w Hc _ IH]; cbn [split_spaces app]; [destruct s as [|x s]; cbn; [done|]; destruct (x =? 32); [done|]; by destruct (split_spaces s)|].
  rewrite (proj2 (Z.eqb_neq _ _) Hc), IH. by destruct (split_spaces s).
Qed.

Lemma split_join ws : ws <> [] -> Forall word_ok ws -> split_spaces (join ws) = ws.
Proof.
  intros Hne H. induction H as [|w ws [Hw Hc] Hws IH]; [done|].
  assert (Hs : Forall (fun c => c <> 32) w) by (eapply List.Forall_impl; [|exact Hc]; by intros c (? & _)).
  destruct ws as [|w' ws].
  - cbn [join]. rewrite <- (app_nil_r w) at 1. rewrite split_spaces_app by done. cbn. by rewrite app_nil_r.
  - rewrite join_cons, split_spaces_app by done. cbn [split_spaces Z.eqb Pos.eqb]. rewrite IH by done. by rewrite app_nil_r.
Qed.

Lemma join_last ws : ws <> [] -> Forall word_ok ws -> exists l c, join ws = l ++ [c] /\ is_blank c = false.
Proof.
  intros Hne H. induction H as [|w ws [Hw Hc] Hws IH]; [done|]. destruct ws as [|w' ws].
  - destruct (exists_last Hw) as (l & c & ->). exists l, c. split; [done|]. apply Forall_app in Hc as [_ Hc].
    inversion_clear Hc as [|? ? Hc' _]. unfold is_blank. lia.
  - destruct IH as (l & c & E & Hb); [done|]. exists (w ++ 32 :: l), c. rewrite join_cons, E. split; [|done].
    by rewrite <- app_assoc.
Qed.

Lemma trim_blanks_app bl s : Forall (fun c => is_blank c = true) bl -> trim_blanks (bl ++ s) = trim_blanks s.
Proof. induction 1 as [|b bl Hb _ IH]; [done|]. cbn [app trim_blanks]. by rewrite Hb. Qed.

Lemma trim_line_words ws bl : ws <> [] -> Forall word_ok ws -> Forall (fun c => is_blank c = true) bl ->
  trim_line ((join ws ++ bl) ++ [10]) = Ok (Some (join ws)).
Proof.
  intros Hne Hws Hb. unfold trim_line. rewrite rev_app_distr. cbn [rev app]. change (10 =? 10) with true. cbv iota.
  rewrite rev_app_distr, trim_blanks_app by (by apply List.Forall_rev).
  destruct (join_last ws Hne Hws) as (l & c & -> & Hc). rewrite rev_app_distr. cbn [rev app trim_blanks]. rewrite Hc. cbn [rbind].
  do 2 f_equal. change (c :: rev l) with ([c] ++ rev l). by rewrite rev_app_distr, rev_involutive.
Qed.

Lemma add_args_fit ps av : zlen av + zlen ps < MAXARGS -> add_args ps av = Ret (av ++ ps).
Proof.
  revert av. induction ps as [|p ps IH]; intros av H; cbn [add_args]; [by rewrite app_nil_r|].
  rewrite zlen_cons in H. pose proof (zlen_nonneg ps). rewrite (proj2 (Z.leb_gt _ _)) by lia.
  rewrite IH by (rewrite zlen_app, zlen_cons; change (zlen (@nil (list Z))) with 0; lia). by rewrite <- app_assoc.
Qed.

Lemma avoids (x : Z) l : Forall (fun c => c <> x) l -> x ∉ l.
Proof. induction 1 as [|c l Hc _ IH]; [apply not_elem_of_nil|]. rewrite elem_of_cons. intros [->|?]; tauto. Qed.

Lemma blanks_avoid x bl : is_blank x = false -> Forall (fun c => is_blank c = true) bl -> Forall (fun c => c <> x) bl.
Proof. intros Hx Hb. eapply List.Forall_impl; [|exact Hb]. intros c Hc ->. congruence. Qed.

Lemma line_no_newline l : line_ok l -> 10 ∉ line_text l.
Proof.
  intros [_ H] Hin. destruct l as [t|ws bl]; cbn [line_text] in *.
  - apply elem_of_cons in Hin as [E|Hin]; [done|]. by apply (avoids 10 t).
  - destruct H as (_ & Hws & _ & Hb). apply elem_of_app in Hin as [Hin|Hin].
    + assert (Hj : Forall (fun c => c <> 10) (join ws)).
      { apply join_chars; [|done]. eapply List.Forall_impl; [|exact Hws]. intros w [_ Hc]. eapply List.Forall_impl; [|exact Hc]. by intros c (_ & _ & ? & _). }
      by apply (avoids 10 (join ws)).
    + by apply (avoids 10 bl); [apply blanks_avoid|].
Qed.

Lemma words_no_nul ws bl : Forall word_ok ws -> Forall (fun c => is_blank c = true) bl -> c_string ((join ws ++ bl) ++ [10]) = (join ws ++ bl) ++ [10].
Proof.
  intros Hws Hb. apply c_string_all. apply Forall_app. split; [|by constructor]. apply Forall_app. split.
  - apply join_chars; [|done]. eapply List.Forall_impl; [|exact Hws]. intros w [_ Hc]. eapply List.Forall_impl; [|exact Hc]. by intros c (_ & _ & _ & ?).
  - by apply blanks_avoid.
Qed.

(** The words of the lines, in order, are the arguments. *)
Lemma read_lines_words ls : Forall line_ok ls -> forall fuel av, (length (file_of_lines ls) <= fuel)%nat ->
  zlen av + zlen (concat (map words_of ls)) < MAXARGS ->
  read_lines fuel (file_of_lines ls) av = Ok (Ret (Some (av ++ concat (map words_of ls)))).
Proof.
  induction 1 as [|l ls Hl _ IH]; intros fuel av Hf Hn; [by destruct fuel; cbn; rewrite app_nil_r|].
  change (file_of_lines (l :: ls)) with ((line_text l ++ [10]) ++ file_of_lines ls) in *. rewrite <- app_assoc in *. cbn [app] in *.
  change (concat (map words_of (l :: ls))) with (words_of l ++ concat (map words_of ls)) in *. rewrite zlen_app in Hn.
  rewrite length_app in Hf. cbn [length] in Hf. pose proof (zlen_nonneg (concat (map words_of ls))) as Hw0.
  destruct fuel as [|fuel]; [lia|]. set (X := file_of_lines ls) in *.
  assert (Et : take_line (Z.to_nat (BUFSIZ - 1)) (line_text l ++ 10 :: X) = line_text l ++ [10]).
  { apply take_line_newline; [by apply line_no_newline|]. destruct Hl as [Hl _]. unfold zlen, BUFSIZ in *. lia. }
  assert (Ed : drop (length (line_text l ++ [10])) (line_text l ++ 10 :: X) = X).
  { change (10 :: X) with ([10] ++ X). rewrite app_assoc. apply drop_app_length. }
  assert (Hx : exists b Y, line_text l ++ 10 :: X = b :: Y) by (destruct (line_text l); by eexists _, _). destruct Hx as (b & Y & Ex).
  cbn [read_lines]. rewrite Ex. cbv iota. rewrite <- Ex, Et, Ed. destruct l as [t|ws bl]; cbn [line_text words_of] in *.
  - cbn [app c_string Z.eqb Pos.eqb nth]. apply IH; [lia|]. change (zlen (@nil (list Z))) with 0 in Hn. lia.
  - destruct Hl as (_ & Hne & Hws & Hc & Hb). rewrite words_no_nul by done.
    destruct (join_last ws Hne Hws) as (jl & jc & Ej & _).
    assert (Hnth : nth 0 ((join ws ++ bl) ++ [10]) 0 = nth 0 (join ws) 0) by (rewrite Ej; by destruct jl).
    rewrite Hnth, (proj2 (Z.eqb_neq _ _) Hc), trim_line_words by done. cbn [rbind].
    rewrite split_join, add_args_fit by (done || lia). rewrite IH, <- app_assoc; [done|lia|rewrite zlen_app; lia].
Qed.

(** A command file stands for its words: [-f] with a file of comments and of lines of words is the
    command line with these words, when there are at most fifteen and every line fits [fgets]'s
    buffer. *)
Theorem command_file_is_arguments read_file fuel f rest ls : read_file f = Some (file_of_lines ls) -> Forall line_ok ls ->
  zlen (concat (map words_of ls)) < MAXARGS ->
  ParseArgs read_file (S fuel) (opt_f :: f :: rest) = ParseArgs read_file fuel (concat (map words_of ls)).
Proof.
  intros Hf Hls Hn. cbn [ParseArgs parse_loop]. change (nth 0 opt_f 0 =? 45) with true. cbv iota.
  change (bool_decide (opt_f = opt_f)) with true. cbv iota. rewrite Hf. unfold read_command_file.
  rewrite read_lines_words by (done || (change (zlen (@nil (list Z))) with 0; lia)). done.
Qed.

(** an empty line of a command file, or one of blanks, is not ignored: blanks are removed from its
    end backwards and the read in front of the array is undefined behaviour. *)
Theorem blank_line_underflows read_file fuel f rest blanks X : Forall (fun c => is_blank c = true) blanks -> zlen blanks < BUFSIZ - 2 ->
  read_file f = Some (blanks ++ 10 :: X) -> ParseArgs read_file (S fuel) (opt_f :: f :: rest) = Crash MemFault.
Proof.
  intros Hb Hl Hf. cbn [ParseArgs parse_loop]. change (nth 0 opt_f 0 =? 45) with true. cbv iota.
  change (bool_decide (opt_f = opt_f)) with true. cbv iota. rewrite Hf. unfold read_command_file.
  assert (E : forall n, read_lines (S n) (blanks ++ 10 :: X) [] = Crash MemFault).
  { intros n. assert (Hx : exists b Y, blanks ++ 10 :: X = b :: Y) by (destruct blanks; by eexists _, _). destruct Hx as (b & Y & Ex).
    cbn [read_lines]. rewrite Ex. cbv iota. rewrite <- Ex. rewrite take_line_newline.
    - rewrite c_string_all. 2:{ apply Forall_app. split; [by apply blanks_avoid|by constructor]. }
      assert (nth 0 (blanks ++ [10]) 0 =? 35 = false) as ->.
      { destruct Hb as [|c bl Hc _]; [done|]. cbn. unfold is_blank in Hc. lia. }
      unfold trim_line. rewrite rev_app_distr. cbn [rev app]. change (10 =? 10) with true. cbv iota.
      rewrite <- (app_nil_r (rev blanks)), trim_blanks_app by (by apply List.Forall_rev). done.
    - by apply avoids, blanks_avoid.
    - unfold zlen, BUFSIZ in *. lia. }
  destruct (length (blanks ++ 10 :: X)) as [|n] eqn:En; [rewrite length_app in En; cbn in En; lia|]. by rewrite E.
Qed.

(** ** To the loop *)

(** The static variables as the program starts. *)
Definition fresh_bridge (script : list wr_event) : Bridge :=
  mkBridge ((reply_init script) <| requestId := 0 |>) (replicate (Z.to_nat BUFFLEN) 0) 0 (replicate (Z.to_nat BUFFLEN) 0) 0 0 (-1) 0
    false false false false false.

Record boot (script : list wr_event) (s : Cgi) : Prop := {
  bt_idle : asyncIoInUse (c_aio s) = false /\ OsAsync.libInitialized (c_aio s) = false;
  bt_size : asyncIoTableSize (c_aio s) = 16 /\ maxFd (c_aio s) = -1;
  bt_posted : numRdPosted (c_aio s) = 0 /\ numWrPosted (c_aio s) = 0;
  bt_trace : io_trace (c_aio s) = [];
  bt_script : script_ok (rd_script (c_aio s));
  bt_bridge : c_bridge s = fresh_bridge script }.

(** The library is initialised and nothing is posted. *)
Record rested (a : Aio) : Prop := {
  rs_inv : aio_inv a;
  rs_idle : asyncIoInUse a = false;
  rs_sets : readFdSet a ∪ readFdSetPost a = ∅ /\ writeFdSet a ∪ writeFdSetPost a = ∅;
  rs_trace : io_trace a = [];
  rs_script : script_ok (rd_script a) }.

Lemma replicate_zero_nth n i : nth i (replicate n aio_zero) aio_zero = aio_zero.
Proof. revert i. induction n as [|n IH]; intros [|i]; cbn; try done. Qed.

Lemma LibInit_rested a : asyncIoInUse a = false -> OsAsync.libInitialized a = false -> asyncIoTableSize a = 16 -> maxFd a = -1 ->
  numRdPosted a = 0 -> numWrPosted a = 0 -> io_trace a = [] -> script_ok (rd_script a) ->
  exists a', OS_LibInit a = Ok (0, a') /\ rested a'.
Proof.
  intros Hu Hl Hs Hm Hr Hw Ht Hsc. destruct (OS_LibInit_spec a Hl) as (h & E & _). rewrite Hs in E.
  revert E. set (a' := _ <| OsAsync.libInitialized := true |>). intros E. exists a'. split; [exact E|].
  assert (Et : asyncIoTable a' = Some (replicate 16 aio_zero)) by reflexivity.
  assert (Es : asyncIoTableSize a' = 16) by (rewrite <- Hs; reflexivity).
  assert (Em : maxFd a' = -1) by (rewrite <- Hm; reflexivity).
  assert (Er : readFdSet a' = ∅ /\ readFdSetPost a' = ∅ /\ numRdPosted a' = 0) by (rewrite <- Hr; repeat split).
  assert (Ew : writeFdSet a' = ∅ /\ writeFdSetPost a' = ∅ /\ numWrPosted a' = 0) by (rewrite <- Hw; repeat split).
  assert (Eu : asyncIoInUse a' = false /\ io_trace a' = [] /\ script_ok (rd_script a')) by (split; [exact Hu|split; [exact Ht|exact Hsc]]).
  clearbody a'. destruct Er as (Er1 & Er2 & Er3), Ew as (Ew1 & Ew2 & Ew3), Eu as (Eu1 & Eu2 & Eu3).
  assert (Hside : forall ix, side_ok a' ix ∅ ∅ 0).
  { intros ix. split; [|set_solver|set_solver|done]. intros fd _ _. unfold entry. rewrite Et. cbn [default from_option id].
    rewrite replicate_zero_nth. by rewrite bool_decide_eq_false_2 by set_solver. }
  split; [|done|rewrite Er1, Er2, Ew1, Ew2; split; set_solver|done|done].
  split; rewrite ?Es, ?Em, ?Er1, ?Er2, ?Er3, ?Ew1, ?Ew2, ?Ew3; try done; by eexists.
Qed.

Section Setup.
Context (read_file : list Z -> option (list Z)).
Context (inet_addr : list Z -> Z) (gethostbyname : list Z -> option (Z * list Z)).
Context (sys_socket : nat -> Z -> Z) (sys_setsockopt : Z -> Z) (sys_bind_listen : Z -> sockaddr -> Z -> bool).
Context (sys_connect : nat -> Z -> sockaddr -> bool) (OS_Errno : Z) (shutdown_fails : bool).
Context (executable : list Z -> bool) (mBuff : Z).
Notation connects attempt path := (OS_FcgiConnect gethostbyname (sys_socket attempt) (sys_connect attempt) path).
Notation find_server := (find_server inet_addr gethostbyname sys_socket sys_setsockopt sys_bind_listen sys_connect OS_Errno shutdown_fails executable None).
Notation main_setup := (main_setup read_file inet_addr gethostbyname sys_socket sys_setsockopt sys_bind_listen sys_connect OS_Errno shutdown_fails false executable None mBuff).

(** The application is running, or it is started: [FCGI_Start] makes its socket, the children and
    closes the socket, and the second [OS_FcgiConnect] reaches it. *)
Definition finds (sock : Z) (o : Options) (forks : list Z) : Prop :=
  doBind o = true /\
  (connects 0%nat (connectPath o) = Ok (Ret sock) \/
   connects 0%nat (connectPath o) = Ok (Ret (-1)) /\ doStart o = true /\ executable (appPath o) = true /\ Forall (fun pid => 0 < pid) forks /\
   (exists listenFd, OS_CreateLocalIpcFd inet_addr gethostbyname (sys_socket 1%nat) sys_setsockopt sys_bind_listen OS_Errno (connectPath o) 5 = Ret listenFd /\
      listenFd <> -1) /\
   connects 2%nat (connectPath o) = Ok (Ret sock)).

Lemma spawn_loop_Ok n app fd : forall (s : Cgi), Forall (fun pid => 0 < pid) (c_forks s) ->
  spawn_loop OS_Errno None n app fd s = Ok (None, s <| c_forks := drop n (c_forks s) |>).
Proof.
  induction n as [|n IH]; intros s H; [by destruct s|]. cbn [spawn_loop]. unfold bind at 1, get.
  set (f := match c_forks s with [] => 1 | f :: _ => f end).
  assert (Hf : 0 < f) by (unfold f; inversion H; [lia|done]).
  erewrite bind_Ok by reflexivity. set (s1 := s <| c_forks := drop 1 (c_forks s) |>).
  assert (E : on_fds (OS_SpawnChild f OS_Errno None app fd) s1 = Ok (Parent 0, s1)).
  { unfold on_fds, zoom, OS_SpawnChild. rewrite (proj2 (Z.ltb_ge _ _)), (proj2 (Z.eqb_neq _ _)) by lia. by destruct s. }
  rewrite (bind_Ok _ _ _ _ _ E). change (0 =? -1) with false. cbv iota.
  rewrite IH by (by apply Forall_drop). do 2 f_equal. destruct s as [? ? ? ? ? [|fk forks]]; cbn; [by rewrite drop_nil|done].
Qed.

(** What finding the application changes. *)
Definition found (sock : Z) (s s' : Cgi) : Prop :=
  c_bridge s' = (c_bridge s) <| appServerSock := sock |> /\ c_conn s' = c_conn s /\ c_flags s' = c_flags s /\
  (rested (c_aio s) -> rested (c_aio s')).

Lemma connect_to_Ok attempt path sock (s : Cgi) : connects attempt path = Ok (Ret sock) ->
  connect_to gethostbyname sys_socket sys_connect attempt path s = Ok (None, s <| c_bridge := (c_bridge s) <| appServerSock := sock |> |>).
Proof. intros E. unfold connect_to, bind at 1, lift. by rewrite E. Qed.

Lemma Close_rested fd a : rested a -> fd <> -1 -> exists a', OS_Close fd true shutdown_fails 0 a = Ok (0, a') /\ rested a'.
Proof.
  intros [[It Is Im Ir Iw] Hu Hs Ht Hsc] Hfd. unfold OS_Close. rewrite (proj2 (Z.eqb_neq _ _) Hfd). unfold bind at 1, get. rewrite Hu.
  destruct shutdown_fails; cbn [negb andb]; unfold bind, modify, ret; eexists; (split; [reflexivity|]);
    (split; [split; try done; by apply (side_same a)|done..]).
Qed.

Lemma find_server_Ok sock o (s : Cgi) : finds sock o (c_forks s) -> rested (c_aio s) -> 0 <= sock ->
  exists s', find_server o s = Ok (None, s') /\ found sock s s'.
Proof.
  intros [Hb H] Hr Hs. unfold find_server, unless_ended. rewrite Hb. destruct H as [E|(E0 & Hst & Hx & Hf & (lfd & El & Hl) & E2)].
  - rewrite (bind_Ok _ _ _ _ _ (connect_to_Ok 0 _ _ s E)). cbv iota. set (s1 := s <| c_bridge := _ |>).
    unfold bind at 1, get. change (appServerSock (c_bridge s1)) with sock. rewrite (proj2 (Z.ltb_ge _ _) Hs). cbn [negb orb].
    rewrite andb_false_r. by exists s1.
  - rewrite (bind_Ok _ _ _ _ _ (connect_to_Ok 0 _ _ s E0)). cbv iota. set (s1 := s <| c_bridge := _ |>).
    unfold bind at 1, get. change (appServerSock (c_bridge s1)) with (-1). rewrite Hst. change (-1 <? 0) with true. cbn [negb orb andb].
    destruct (Close_rested lfd (c_aio s) Hr Hl) as (a' & Ea & Ha').
    set (s2 := s1 <| c_forks := drop (Z.to_nat (nServers o)) (c_forks s1) |>).
    assert (ES : FCGI_Start inet_addr gethostbyname sys_socket sys_setsockopt sys_bind_listen OS_Errno shutdown_fails executable None
        (connectPath o) (appPath o) (nServers o) s1 = Ok (None, s2 <| c_aio := a' |>)).
    { unfold FCGI_Start. rewrite El, (proj2 (Z.eqb_neq _ _) Hl), Hx. cbn [negb].
      rewrite (bind_Ok _ _ _ _ _ (spawn_loop_Ok (Z.to_nat (nServers o)) (appPath o) lfd s1 Hf)). cbv iota. fold s2.
      unfold bind at 1, on_aio, zoom. change (c_aio s2) with (c_aio s). by rewrite Ea. }
    rewrite (bind_Ok _ _ _ _ _ ES). cbv iota. rewrite (connect_to_Ok 2 _ _ _ E2).
    eexists. split; [reflexivity|]. split; [done|]. split; [done|]. split; [done|]. by intros _.
Qed.

Lemma content_length_int envp : INT_MIN <= content_length envp <= INT_MAX.
Proof.
  unfold content_length. destruct (getenv _ _); [|unfold INT_MIN, INT_MAX; lia]. unfold int_atoi.
  set (z := Z.max _ _). unfold to_int. pose proof (Z.mod_pos_bound (z + 2147483648) 4294967296 ltac:(lia)). unfold INT_MIN, INT_MAX. lia.
Qed.

(** C21: from the command line to the loop: when the options are without errors and the application
    runs, or can be started, [main] sends it [BEGIN_REQUEST] and the whole environment and enters its
    loop in a state from which the theorems of the loop hold, with CONTENT_LENGTH bytes to relay and
    the socket non-blocking. *)
Theorem main_enters_loop nesting args envp o ps script sock fl (s : Cgi) : boot script s ->
  ParseArgs read_file nesting args = Ok (Ret (0, o)) -> finds sock o (c_forks s) -> 0 < sock < FD_SETSIZE ->
  env_ok envp ps -> accepts (wr (c_conn s)) -> begin_fits (wr (c_conn s)) -> tx (c_conn s) = [] -> c_flags s !! sock = Some fl ->
  exists s' prs s0, main_setup nesting args envp s = Ok (None, s') /\
    Forall (from_writer FCGI_PARAMS 1) prs /\ stream_of FCGI_PARAMS prs = nv_encode ps /\ tx (c_conn s') = request_bytes bridge_begin prs [] /\
    ready sock (content_length envp) script s0 /\ start_loop OS_Errno shutdown_fails s0 = Ok (None, (c_aio s', c_bridge s')) /\
    c_flags s' !! sock = Some (Z.lor fl O_NONBLOCK).
Proof.
  intros [[Bu Bl] [Bs Bm] [Br Bw] Bt Bsc Bb] Ep Hf Hsock Henv Ha Hbf Htx Hfl.
  destruct (LibInit_rested (c_aio s) Bu Bl Bs Bm Br Bw Bt Bsc) as (a1 & E1 & R1).
  set (s1 := s <| c_aio := a1 |> <| c_bridge := (fresh_bridge script) <| bytesToRead := content_length envp |> |>).
  destruct (find_server_Ok sock o s1 Hf R1 ltac:(lia)) as (s2 & E2 & (F1 & F2 & F3 & F4)).
  specialize (F4 R1). destruct F4 as [I2 _ Sets2 Tr2 Sc2].
  set (b2 := (c_bridge s2) <| reply := (reply (c_bridge s2)) <| requestId := 1 |> |>).
  destruct (send_request_spec mBuff sock envp ps (c_conn s2)) as (c' & prs & E3 & _ & _ & Hprs & Hst & Htx');
    [lia|rewrite F2; done..|apply Henv|apply Henv|].
  assert (Rd : ready sock (content_length envp) script (c_aio s2, b2)).
  { assert (Hb2 : b2 = (fresh_bridge script) <| bytesToRead := content_length envp |> <| appServerSock := sock |> <| reply := reply_init script |>).
    { unfold b2. rewrite F1. done. }
    split; cbn [fst snd]; try done; rewrite Hb2; try done.
    cbn [setter set_reply set_appServerSock set_bytesToRead as_buff ws_buff fresh_bridge]. split; [apply zlen_replicate; done|].
    split; [apply Forall_replicate; by vm_compute|by apply zlen_replicate]. }
  destruct (start_loop_spec sock (content_length envp) script Hsock (content_length_int envp) OS_Errno shutdown_fails _ Rd) as ([a4 b4] & E4 & _).
  set (s3 := s2 <| c_bridge := b2 |> <| c_conn := c' |> <| c_flags := <[sock := Z.lor fl O_NONBLOCK]> (c_flags s2) |>).
  exists (s3 <| c_aio := a4 |> <| c_bridge := b4 |>), prs, (c_aio s2, b2). split.
  - unfold main_setup. rewrite (bind_Ok (lift _) _ s (Ret (0, o)) s) by (unfold lift; by rewrite Ep). change (negb (0 =? 0)) with false. cbv iota.
    rewrite (bind_Ok (on_aio OS_LibInit) _ s 0 (s <| c_aio := a1 |>)) by (unfold on_aio, zoom; by rewrite E1). change (negb (0 =? 0)) with false. cbv iota.
    rewrite (bind_Ok (on_bridge _) _ _ tt s1) by (unfold on_bridge, zoom, modify, s1; by rewrite <- Bb).
    unfold unless_ended. rewrite (bind_Ok _ _ _ _ _ E2). cbv iota. unfold bind at 1, get.
    assert (Fs : appServerSock (c_bridge s2) = sock) by (by rewrite F1). cbv zeta. rewrite Fs, (proj2 (Z.ltb_ge _ _)) by lia.
    rewrite (bind_Ok (on_bridge _) _ s2 tt (s2 <| c_bridge := b2 |>)) by done.
    rewrite (bind_Ok (on_conn _) _ _ None (s2 <| c_bridge := b2 |> <| c_conn := c' |>)).
    2:{ unfold on_conn, zoom. change (c_conn (s2 <| c_bridge := b2 |>)) with (c_conn s2). by rewrite E3. }
    cbv iota. rewrite (bind_Ok (on_flags _) _ _ None s3).
    2:{ unfold on_flags, zoom, OS_SetFlags, bind, get. cbn [c_flags setter set_c_conn set_c_bridge].
        rewrite F3. change (c_flags s1) with (c_flags s). rewrite Hfl. unfold s3. by rewrite F3. }
    cbv iota. rewrite (bind_Ok (on_loop _) _ _ None (s3 <| c_aio := a4 |> <| c_bridge := b4 |>)) by (unfold on_loop, zoom; change (c_aio s3, c_bridge s3) with (c_aio s2, b2); by rewrite E4). done.
  - split; [done|]. split; [done|]. split; [cbn; rewrite Htx', F2; by cbn [c_conn s1 setter set_c_aio set_c_bridge]; rewrite Htx|].
    split; [done|]. split; [exact E4|]. cbn. by rewrite lookup_insert_eq.
Qed.
End Setup.

(** a CONTENT_LENGTH of two gigabytes or more (below four) is negative as an [int]: the bridge ends
    [STDIN] at once and never reads the body, although the application is told its length. *)
Theorem large_body_dropped OS_Errno shutdown_fails sock script envp v s0 s : 0 < sock < FD_SETSIZE ->
  getenv CONTENT_LENGTH envp = Some v -> 2 ^ 31 <= atoi v < 2 ^ 32 ->
  ready sock (content_length envp) script s0 -> loop_state OS_Errno shutdown_fails s0 s ->
  content_length envp = atoi v - 2 ^ 32 /\ stdin_eof_sent (snd s) = true /\ wsReadPending (snd s) = false.
Proof.
  intros Hs Hg Hv R Hl.
  assert (Hc : content_length envp = atoi v - 2 ^ 32).
  { unfold content_length, int_atoi. rewrite Hg, Z.min_r, Z.max_r by lia. unfold to_int. symmetry.
    pose proof (Z.mod_unique_pos (atoi v + 2147483648) 4294967296 1 (atoi v - 2147483648) ltac:(lia) ltac:(lia)) as Hm. rewrite <- Hm. lia. }
  split; [done|]. pose proof (loop_state_inv sock (content_length envp) script Hs (content_length_int envp) OS_Errno shutdown_fails s0 s R Hl)
    as [_ F W _ _ _].
  pose proof (fd_left _ _ _ _ F) as Hleft. pose proof (zlen_nonneg (concat (reads_of STDIN_FILENO (io_trace (fst s))))) as H0.
  split; [rewrite (fd_sent _ _ _ _ F), Hleft; apply Z.leb_le; lia|].
  destruct (wsReadPending (snd s)) eqn:Ew; [|done]. destruct (wt_ws _ W Ew) as (_ & _ & _ & Hb & _). lia.
Qed.

(** An application at [/s] that [cgi-fcgi] has to start, with the arguments in a command file. *)
Module MainSample.
Definition file : list Z := [47; 99].
Definition lines : list file_line :=
  [Comment [32; 33]; Words [opt_connect; [47; 115]] [32; 9]; Words [[47; 97]; [50]] []].
Definition read_file (f : list Z) : option (list Z) := if bool_decide (f = file) then Some (file_of_lines lines) else None.
Definition options : Options := mkOptions true true [47; 115] [47; 97] 2.
Definition envp : list (list Z) := [CONTENT_LENGTH ++ [61; 51]; [65; 61; 120]].
Definition big_envp : list (list Z) := [CONTENT_LENGTH ++ [61; 50; 49; 52; 55; 52; 56; 51; 54; 52; 56]].
Definition pairs : list (list Z * list Z) := [(CONTENT_LENGTH, [51]); ([65], [120])].
Definition resolve (_ : list Z) : option (Z * list Z) := None.
Definition sys_socket (n : nat) (_ : Z) : Z := if (n =? 1)%nat then 4 else 3.
Definition sys_connect (n : nat) (_ : Z) (_ : sockaddr) : bool := (n =? 2)%nat.
Definition start : Cgi :=
  mkCgi (aio_init <| sel_script := [SelReady ∅ {[3]}] |>) (fresh_bridge []) (mkConn [] [] [] 0) {[0 := 10]} {[3 := 2]} [100; 101].

Lemma lines_ok : Forall line_ok lines.
Proof.
  assert (W : forall w, w <> [] -> forallb (fun c => negb (c =? 32) && negb (c =? 9) && negb (c =? 10) && negb (c =? 0)) w = true -> word_ok w).
  { intros w Hw H. split; [done|]. apply List.Forall_forall. intros c Hc. pose proof (proj1 (forallb_forall _ _) H c Hc) as Hb. cbv beta in Hb. lia. }
  unfold lines. constructor; [split; [by vm_compute|repeat constructor; lia]|].
  constructor; [split; [by vm_compute|]; split; [done|]; split; [repeat (constructor; [by apply W|]); constructor|]; split; [done|by repeat constructor]|].
  constructor; [split; [by vm_compute|]; split; [done|]; split; [repeat (constructor; [by apply W|]); constructor|]; split; [done|constructor]|].
  constructor.
Qed.

Lemma start_boots : boot [] start.
Proof. split; try done. constructor. Qed.
End MainSample.

Lemma ParseArgs_usage_witness :
  ParseArgs MainSample.read_file 1 [opt_start; opt_connect; [58; 56; 48]; [47; 97]; [55]] = Ok (Ret (0, mkOptions false true [58; 56; 48] [47; 97] 7)).
Proof.
  apply (ParseArgs_usage MainSample.read_file 0 (mkOptions false true [58; 56; 48] [47; 97] 7) (Some [55])).
  split; [by split|split; [done|by split]|by split_and!].
Defined.

Lemma command_file_is_arguments_witness :
  ParseArgs MainSample.read_file 2 [opt_f; MainSample.file] = Ok (Ret (0, MainSample.options)).
Proof.
  rewrite (command_file_is_arguments MainSample.read_file 1 MainSample.file [] MainSample.lines); [reflexivity|reflexivity|apply MainSample.lines_ok|by vm_compute].
Defined.

Lemma blank_line_underflows_witness :
  ParseArgs (fun _ => Some ([32; 10] ++ MainSample.file)) 1 [opt_f; MainSample.file] = Crash MemFault.
Proof.
  apply (blank_line_underflows (fun _ => Some ([32; 10] ++ MainSample.file)) 0 MainSample.file [] [32] MainSample.file); [by repeat constructor|by vm_compute|reflexivity].
Defined.

Lemma main_enters_loop_witness : exists s' prs s0,
  main_setup MainSample.read_file (fun _ => 0) MainSample.resolve MainSample.sys_socket (fun _ => 0) (fun _ _ _ => true) MainSample.sys_connect
    5 false false (fun _ => true) None 0 2 [opt_f; MainSample.file] MainSample.envp MainSample.start = Ok (None, s') /\
  stream_of FCGI_PARAMS prs = nv_encode MainSample.pairs /\ tx (c_conn s') = request_bytes bridge_begin prs [] /\ ready 3 3 [] s0 /\
  start_loop 5 false s0 = Ok (None, (c_aio s', c_bridge s')).
Proof.
  destruct (main_enters_loop MainSample.read_file (fun _ => 0) MainSample.resolve MainSample.sys_socket (fun _ => 0) (fun _ _ _ => true) MainSample.sys_connect
    5 false (fun _ => true) 0 2 [opt_f; MainSample.file] MainSample.envp MainSample.options MainSample.pairs [] 3 2 MainSample.start)
    as (s' & prs & s0 & E & _ & Hs & Ht & R & Es & _).
  - apply MainSample.start_boots.
  - vm_compute. reflexivity.
  - split; [done|]. right. split; [reflexivity|]. split; [done|]. split; [done|]. split; [by repeat constructor|].
    split; [exists 4; by split|reflexivity].
  - unfold FD_SETSIZE. lia.
  - split; [reflexivity|]. split; [repeat constructor; unfold is_byte; lia|].
    split; [repeat constructor; vm_compute; discriminate|vm_compute; reflexivity].
  - constructor.
  - intros n w' H. discriminate H.
  - reflexivity.
  - vm_compute. reflexivity.
  - exists s', prs, s0. split; [exact E|]. split; [exact Hs|]. split; [exact Ht|]. split; [exact R|exact Es].
Defined.

Lemma large_body_dropped_witness : let s0 := (LoopSample.aio, LoopSample.bridge <| bytesToRead := - 2 ^ 31 |>) in
  exists s, start_loop 5 false s0 = Ok (None, s) /\ content_length MainSample.big_envp = - 2 ^ 31 /\
    stdin_eof_sent (snd s) = true /\ wsReadPending (snd s) = false.
Proof.
  intros s0. assert (R : ready 3 (content_length MainSample.big_envp) [] s0).
  { destruct LoopSample.s0_ready. split; done. }
  destruct (start_loop_spec 3 _ [] ltac:(unfold FD_SETSIZE; lia) (content_length_int MainSample.big_envp) 5 false s0 R) as (s & E & _).
  exists s. split; [exact E|].
  destruct (large_body_dropped 5 false 3 [] MainSample.big_envp [50; 49; 52; 55; 52; 56; 51; 54; 52; 56] s0 s) as (H1 & H2 & H3).
  - unfold FD_SETSIZE. lia.
  - reflexivity.
  - vm_compute. split; [discriminate|reflexivity].
  - exact R.
  - by apply at_start.
  - split; [rewrite H1; reflexivity|]. by split.
Defined.
