(* ===== verification/DbLang.v ===== *)
(** * The C++ side of dbPager: strings, doubles, exceptions and output streams

    Shared by the files that model the interpreter of dbPager ([libdbpager] and [dbpager]).
    - Characters and [std::string] as far as the code uses them (C locale).
    - [double] as the binary64 format of the Standard Library's [SpecFloat]; [fmod] is exact.
    - [exn], the exception classes that the code throws, and [what].
    - [X W A], a computation on a state [W] that writes to an output stream and returns or throws;
      [catch], [finally], [capture] (an [ostringstream] in place of [out]).  It ends in a fault or
      without fuel as in the Prelude.
    - [refines], the order "the same result, or no fuel", with the lemmas that make open recursive
      definitions monotone.
    - [Dcl], [Platform]: the external code (the DCL library, the C library's [pow]) and the choices
      that C++ leaves open (order of evaluation of operands, order of an [unordered_map]). *)

From S2P Require Import Prelude.
From stdpp Require Export strings gmap pretty.
From Stdlib Require Export SpecFloat Ascii.
From Stdlib Require Import String.

#[global] Open Scope Z_scope.
#[global] Open Scope stdpp_scope.

(** ** Characters and strings *)

Definition code (c : ascii) : nat := nat_of_ascii c.
Definition in_range (lo hi : nat) (c : ascii) : bool :=
  (Nat.leb lo (code c) && Nat.leb (code c) hi)%nat.

(** [isspace], [isdigit], [isalpha], [isalnum] and [toupper] in the C locale. *)
Definition isspace (c : ascii) : bool := in_range 9 13 c || in_range 32 32 c.
Definition isdigit (c : ascii) : bool := in_range 48 57 c.
Definition isalpha (c : ascii) : bool := in_range 65 90 c || in_range 97 122 c.
Definition isalnum (c : ascii) : bool := isalpha c || isdigit c.
Definition to_upper (c : ascii) : ascii := if in_range 97 122 c then ascii_of_nat (code c - 32) else c.
Definition to_lower (c : ascii) : ascii := if in_range 65 90 c then ascii_of_nat (code c + 32) else c.

Definition is_char (c d : ascii) : bool := bool_decide (c = d).
Definition chr (n : nat) : ascii := ascii_of_nat n.
Definition str1 (c : ascii) : string := String c "".

(** [std::transform] of a string in place. *)
Fixpoint smap (f : ascii -> ascii) (s : string) : string :=
  match s with "" => "" | String c s' => String (f c) (smap f s') end.

Definition is_empty (s : string) : bool := match s with "" => true | _ => false end.
Definition slen (s : string) : nat := String.length s.
Definition seqb (s t : string) : bool := bool_decide (s = t).

(** The lexicographic order of [std::string]. *)
Definition slt (s t : string) : bool := String.ltb s t.

(** [s.find(needle, from)]; [None] is [npos]. *)
Definition sfind (s needle : string) (from : nat) : option nat := String.index from needle s.
(** [s.substr(from, n)] for [from <= s.length()]. *)
Definition ssub (s : string) (from n : nat) : string := String.substring from n s.
Definition sdrop (s : string) (from : nat) : string := String.substring from (slen s - from) s.

Definition starts_with (prefix s : string) : bool := String.prefix prefix s.

Fixpoint schars (s : string) : list ascii :=
  match s with "" => [] | String c s' => c :: schars s' end.
Fixpoint of_chars (l : list ascii) : string :=
  match l with [] => "" | c :: l' => String c (of_chars l') end.

Lemma sapp_nil_l s : "" +:+ s = s.
Proof. done. Qed.

Lemma sapp_cons c s t : String c s +:+ t = String c (s +:+ t).
Proof. done. Qed.

Lemma sapp_nil_r s : s +:+ "" = s.
Proof. induction s as [|c s IH]; [done|]. by rewrite sapp_cons, IH. Qed.

Lemma sapp_assoc s t u : s +:+ (t +:+ u) = (s +:+ t) +:+ u.
Proof. induction s as [|c s IH]; [done|]. by rewrite !sapp_cons, IH. Qed.

#[global] Arguments slen s : simpl never.

Lemma slen_nil : slen "" = 0%nat.
Proof. done. Qed.

Lemma slen_cons c s : slen (String c s) = S (slen s).
Proof. done. Qed.

Lemma slen_app s t : slen (s +:+ t) = (slen s + slen t)%nat.
Proof. unfold slen. induction s as [|c s IH]; [done|]. by rewrite sapp_cons; cbn; rewrite IH. Qed.

Lemma smap_app f s t : smap f (s +:+ t) = smap f s +:+ smap f t.
Proof. induction s as [|c s IH]; [done|]. by rewrite sapp_cons; cbn; rewrite IH, sapp_cons. Qed.

Lemma smap_slen f s : slen (smap f s) = slen s.
Proof. unfold slen. induction s as [|c s IH]; [done|]. by cbn; rewrite IH. Qed.

Lemma of_chars_schars s : of_chars (schars s) = s.
Proof. induction s as [|c s IH]; [done|]. by cbn; rewrite IH. Qed.

Lemma schars_of_chars l : schars (of_chars l) = l.
Proof. induction l as [|c l IH]; [done|]. by cbn; rewrite IH. Qed.

(** Arithmetic on lengths of strings. *)
Ltac slen := unfold str1 in *; repeat (progress rewrite ?slen_cons, ?slen_nil, ?slen_app in * ); lia.

Lemma is_empty_spec s : is_empty s = true <-> s = "".
Proof. by destruct s. Qed.

Lemma seqb_spec s t : seqb s t = true <-> s = t.
Proof. unfold seqb. by rewrite bool_decide_eq_true. Qed.

Lemma seqb_refl s : seqb s s = true.
Proof. by apply seqb_spec. Qed.

(** A property of all characters, checked one by one. *)
Lemma ascii_all (P : ascii -> bool) :
  forallb (fun n => P (chr n)) (seq 0 256) = true -> forall c, P c = true.
Proof.
  rewrite forallb_forall. intros H c. rewrite <- (ascii_nat_embedding c). apply H. apply in_seq.
  pose proof (nat_ascii_bounded c). lia.
Qed.

Lemma to_upper_idemp c : to_upper (to_upper c) = to_upper c.
Proof.
  apply (bool_decide_eq_true_1 (to_upper (to_upper c) = to_upper c)). revert c.
  apply ascii_all. vm_compute. done.
Qed.

(** ** Doubles *)

Definition double := spec_float.
Definition prec : Z := 53.
Definition emax : Z := 1024.
Definition dadd (x y : double) : double := SFadd prec emax x y.
Definition dsub (x y : double) : double := SFsub prec emax x y.
Definition dmul (x y : double) : double := SFmul prec emax x y.
Definition ddiv (x y : double) : double := SFdiv prec emax x y.
Definition of_Z (z : Z) : double := binary_normalize prec emax z 0 false.

(** [fmod]: the remainder of the division with the quotient rounded towards zero, with the sign of
    the dividend; it is exact. *)
Definition fmod (x y : double) : double :=
  match x, y with
  | S754_nan, _ | _, S754_nan | S754_infinity _, _ | _, S754_zero _ => S754_nan
  | _, S754_infinity _ | S754_zero _, _ => x
  | S754_finite sx mx ex, S754_finite _ my ey =>
      let e := Z.min ex ey in
      let r := (Zpos mx * 2 ^ (ex - e)) mod (Zpos my * 2 ^ (ey - e)) in
      if r =? 0 then S754_zero sx else binary_normalize prec emax (if sx then - r else r) e sx
  end.

Definition dlt (x y : double) : bool := SFltb x y.
Definition dle (x y : double) : bool := SFleb x y.
Definition deq (x y : double) : bool := SFeqb x y.

Example fmod_7_4 : fmod (of_Z 7) (of_Z (-4)) = of_Z 3.
Proof. reflexivity. Qed.
Example fmod_neg : fmod (of_Z (-7)) (of_Z 4) = of_Z (-3).
Proof. reflexivity. Qed.
Example dmul_6_7 : dmul (of_Z 6) (of_Z 7) = of_Z 42.
Proof. reflexivity. Qed.

(** ** Exceptions *)

(** The exception classes that the code throws; all derive from [dbp::exception] but the last, an
    exception of the standard library. *)
Inductive exn :=
  | dbp_exception (msg : string)
  | app_exception (msg : string) (code : Z)
  | context_exception (msg : string)
  | tag_exception (msg : string)
  | tag_case_exception (msg : string)
  | tag_list_exception (msg : string)
  | tag_map_exception (msg : string)
  | tag_locale_exception (msg : string)
  | evaluator_exception (msg : string)
  | function_exception (msg : string)
  | parser_exception (err_code : Z) (msg : string)
  | type_conversion_exception (msg : string)
  | std_exception (msg : string).

(** [e.what()]. *)
Definition what (e : exn) : string :=
  match e with
  | app_exception m _ | parser_exception _ m => m
  | dbp_exception m | context_exception m | tag_exception m | tag_case_exception m
  | tag_list_exception m | tag_map_exception m | tag_locale_exception m | evaluator_exception m
  | function_exception m | type_conversion_exception m | std_exception m => m
  end.

Definition is_case_exception (e : exn) : bool :=
  match e with tag_case_exception _ => true | _ => false end.
Definition is_conversion_exception (e : exn) : bool :=
  match e with type_conversion_exception _ => true | _ => false end.

(** ** Computations with exceptions and an output stream *)

Inductive outcome (A : Type) :=
  | Val (a : A)
  | Exc (e : exn).
Arguments Val {A} a.
Arguments Exc {A} e.

(** From a state to a fault, to no fuel, or to an outcome, the new state and the text that was
    written to [out].  What was written before an exception stays written. *)
Definition X (W A : Type) := W -> res (outcome A * W * string).

Section combinators.
Context {W : Type}.

Definition xret {A} (a : A) : X W A := fun w => Ok (Val a, w, "").
Definition throw {A} (e : exn) : X W A := fun w => Ok (Exc e, w, "").
Definition xcrash {A} (f : fault) : X W A := fun _ => Crash f.
Definition xnofuel {A} : X W A := fun _ => NoFuel.
Definition xget : X W W := fun w => Ok (Val w, w, "").
Definition xmodify (f : W -> W) : X W unit := fun w => Ok (Val tt, f w, "").
(** [out << s]. *)
Definition emit (s : string) : X W unit := fun w => Ok (Val tt, w, s).

(** Adds [s] in front of what a computation writes. *)
Definition after {A} (s : string) (r : res (outcome A * W * string)) : res (outcome A * W * string) :=
  match r with Ok (o, w, t) => Ok (o, w, s +:+ t) | r => r end.

Definition xbind {A B} (m : X W A) (k : A -> X W B) : X W B := fun w =>
  match m w with
  | Ok (Val a, w', s) => after s (k a w')
  | Ok (Exc e, w', s) => Ok (Exc e, w', s)
  | Crash f => Crash f
  | NoFuel => NoFuel
  end.

(** [try { m } catch (...) { h e }]. *)
Definition catch {A} (m : X W A) (h : exn -> X W A) : X W A := fun w =>
  match m w with
  | Ok (Exc e, w', s) => after s (h e w')
  | r => r
  end.

(** Runs [m] with a fresh [ostringstream s] as its output and gives [s.str()]. *)
Definition capture (m : X W unit) : X W string := fun w =>
  match m w with
  | Ok (Val _, w', s) => Ok (Val s, w', "")
  | Ok (Exc e, w', s) => Ok (Exc e, w', "")
  | Crash f => Crash f
  | NoFuel => NoFuel
  end.

Definition xlift {A} (r : res A) : X W A := fun w =>
  match r with Ok a => Ok (Val a, w, "") | Crash f => Crash f | NoFuel => NoFuel end.

Definition of_option {A} (e : exn) (o : option A) : X W A :=
  match o with Some a => xret a | None => throw e end.

End combinators.

(** A computation on a part of the state, for instance on an object that is passed by reference. *)
Definition xzoom {S T A} (view : S -> T) (upd : T -> S -> S) (m : X T A) : X S A := fun s =>
  match m (view s) with
  | Ok (o, t, out) => Ok (o, upd t s, out)
  | Crash f => Crash f
  | NoFuel => NoFuel
  end.

Declare Scope x_scope.
Delimit Scope x_scope with X.
Notation "x <- m ;; k" := (xbind m (fun x => k))
  (at level 100, m at next level, right associativity) : x_scope.
Notation "m ;;; k" := (xbind m (fun _ => k))
  (at level 100, right associativity) : x_scope.
#[global] Open Scope x_scope.

(** [try { m } catch (...) { fin; throw; } fin;]: the source's way to clean up on every exit. *)
Definition finally {W A} (m : X W A) (fin : X W unit) : X W A :=
  x <- catch m (fun e => fin ;;; throw e) ;; fin ;;; xret x.

(** [for (i = l.begin(); i != l.end(); ++i) f( *i);] *)
Fixpoint for_each {W A} (f : A -> X W unit) (l : list A) : X W unit :=
  match l with
  | [] => xret tt
  | x :: l' => f x ;;; for_each f l'
  end.

(** ** Laws of the combinators *)

Lemma after_app {W A} s t (r : res (outcome A * W * string)) : after s (after t r) = after (s +:+ t) r.
Proof. destruct r as [[[o w] u]| |]; cbn; by rewrite ?sapp_assoc. Qed.

Lemma after_nil {W A} (r : res (outcome A * W * string)) : after "" r = r.
Proof. by destruct r as [[[o w] u]| |]. Qed.

Lemma xbind_ret {W A B} (a : A) (k : A -> X W B) w : xbind (xret a) k w = k a w.
Proof. unfold xbind, xret. by rewrite after_nil. Qed.

Lemma xbind_ret_r {W A} (m : X W A) w : xbind m xret w = m w.
Proof. unfold xbind, xret. destruct (m w) as [[[[a|e] w1] s]| |]; cbn; by rewrite ?sapp_nil_r. Qed.

Lemma xbind_assoc {W A B C} (m : X W A) (k : A -> X W B) (l : B -> X W C) w :
  xbind (xbind m k) l w = xbind m (fun a => xbind (k a) l) w.
Proof.
  unfold xbind. destruct (m w) as [[[[a|e] w1] s]| |]; try done.
  destruct (k a w1) as [[[[b|e] w2] t]| |]; try done. cbn. by rewrite after_app.
Qed.

(** Equal continuations. *)
Lemma xbind_ext {W A B} (m : X W A) (k l : A -> X W B) w :
  (forall a w', k a w' = l a w') -> xbind m k w = xbind m l w.
Proof. intros E. unfold xbind. destruct (m w) as [[[[a|e] w1] s]| |]; by rewrite ?E. Qed.

Lemma xbind_eq {W A B} (m m' : X W A) (k : A -> X W B) w : m w = m' w -> xbind m k w = xbind m' k w.
Proof. intros E. unfold xbind. by rewrite E. Qed.

Lemma xbind_Val {W A B} (m : X W A) (k : A -> X W B) w a w' s :
  m w = Ok (Val a, w', s) -> xbind m k w = after s (k a w').
Proof. intros H. unfold xbind. by rewrite H. Qed.

Lemma xbind_Exc {W A B} (m : X W A) (k : A -> X W B) w e w' s :
  m w = Ok (Exc e, w', s) -> xbind m k w = Ok (Exc e, w', s).
Proof. intros H. unfold xbind. by rewrite H. Qed.

Lemma xbind_Ok {W A B} (m : X W A) (k : A -> X W B) w o w2 out :
  xbind m k w = Ok (o, w2, out) ->
  (exists e, o = Exc e /\ m w = Ok (Exc e, w2, out)) \/
  (exists a w1 s t, m w = Ok (Val a, w1, s) /\ k a w1 = Ok (o, w2, t) /\ out = s +:+ t).
Proof.
  unfold xbind. destruct (m w) as [[[[a|e] w1] s]| |] eqn:E; [|naive_solver..].
  destruct (k a w1) as [[[o' w2'] t]| |] eqn:E2; cbn; intros [= -> -> <-]. right. by exists a, w1, s, t.
Qed.

Lemma catch_Ok {W A} (m : X W A) h w o w2 out :
  catch m h w = Ok (o, w2, out) ->
  (exists a, o = Val a /\ m w = Ok (Val a, w2, out)) \/
  (exists e w1 s t, m w = Ok (Exc e, w1, s) /\ h e w1 = Ok (o, w2, t) /\ out = s +:+ t).
Proof.
  unfold catch. destruct (m w) as [[[[a|e] w1] s]| |] eqn:E; [naive_solver| |naive_solver..].
  destruct (h e w1) as [[[o' w2'] t]| |] eqn:E2; cbn; intros [= -> -> <-]. right. by exists e, w1, s, t.
Qed.

Lemma xzoom_Ok {S T A} (view : S -> T) upd (m : X T A) s o t out :
  m (view s) = Ok (o, t, out) -> xzoom view upd m s = Ok (o, upd t s, out).
Proof. intros H. unfold xzoom. by rewrite H. Qed.

(** ** Fuel

    [refines m m']: [m'] gives what [m] gives, unless [m] ran out of fuel.  An open recursive
    definition whose body respects it does not change its results when it gets more fuel. *)

Definition refines {W A} (m m' : X W A) : Prop := forall w, m w = NoFuel \/ m' w = m w.

#[export] Instance refines_preorder {W A} : PreOrder (@refines W A).
Proof.
  split; [intros m w; by right|]. intros m1 m2 m3 H1 H2 w.
  destruct (H1 w) as [|E]; [by left|]. destruct (H2 w) as [E2|E2]; [left|right]; congruence.
Qed.

Lemma refines_nofuel {W A} (m : X W A) : refines xnofuel m.
Proof. by left. Qed.

Lemma refines_bind {W A B} (m m' : X W A) (k k' : A -> X W B) :
  refines m m' -> (forall a, refines (k a) (k' a)) -> refines (xbind m k) (xbind m' k').
Proof.
  intros Hm Hk w. unfold xbind. destruct (Hm w) as [->| ->]; [by left|].
  destruct (m w) as [[[[a|e] w1] s]| |]; [|by right..]. destruct (Hk a w1) as [->| ->]; [by left|by right].
Qed.

Lemma refines_catch {W A} (m m' : X W A) h h' :
  refines m m' -> (forall e, refines (h e) (h' e)) -> refines (catch m h) (catch m' h').
Proof.
  intros Hm Hk w. unfold catch. destruct (Hm w) as [->| ->]; [by left|].
  destruct (m w) as [[[[a|e] w1] s]| |]; try by right. destruct (Hk e w1) as [->| ->]; [by left|by right].
Qed.

Lemma refines_capture {W} (m m' : X W unit) : refines m m' -> refines (capture m) (capture m').
Proof. intros Hm w. unfold capture. destruct (Hm w) as [->| ->]; [by left|by right]. Qed.

Lemma refines_zoom {S T A} (view : S -> T) upd (m m' : X T A) :
  refines m m' -> refines (xzoom view upd m) (xzoom view upd m').
Proof. intros Hm s. unfold xzoom. destruct (Hm (view s)) as [->| ->]; [by left|by right]. Qed.

Lemma refines_finally {W A} (m m' : X W A) fin : refines m m' -> refines (finally m fin) (finally m' fin).
Proof. intros Hm. by apply refines_bind; [apply refines_catch|]. Qed.

Lemma refines_for_each {W A} (f f' : A -> X W unit) l :
  (forall a, refines (f a) (f' a)) -> refines (for_each f l) (for_each f' l).
Proof. intros Hf. induction l as [|a l IH]; [done|]. by apply refines_bind. Qed.

Create HintDb refines.
#[export] Hint Constants Opaque : refines.
#[export] Hint Resolve refines_nofuel refines_capture refines_zoom refines_finally refines_for_each : refines.

Lemma refines_Ok {W A} (m m' : X W A) w r : refines m m' -> m w = Ok r -> m' w = Ok r.
Proof. intros H E. destruct (H w) as [E2|E2]; congruence. Qed.

Lemma refines_Crash {W A} (m m' : X W A) w f : refines m m' -> m w = Crash f -> m' w = Crash f.
Proof. intros H E. destruct (H w) as [E2|E2]; congruence. Qed.

(** ** Unspecified behaviour *)

(** What C++ and its library leave open: whether the left operand of an arithmetic or relational
    operator is evaluated first, the order of the elements of an [unordered_map] that were inserted
    in a given order, and the value of [pow]. *)
Class Platform := {
  lhs_first : bool;
  map_order : forall {A}, list (string * A) -> list (string * A);
  pow : double -> double -> double
}.

Class PlatformLaws `{Platform} := {
  map_order_perm A (l : list (string * A)) : Permutation (map_order l) l
}.

(** The two operands of an operator, in the order the compiler chose. *)
Definition operands `{Platform} {W A B} (l : X W A) (r : X W B) : X W (A * B) :=
  if lhs_first then (x <- l ;; y <- r ;; xret (x, y)) else (y <- r ;; x <- l ;; xret (x, y)).

(** ** Frames

    What a computation does whatever its result: in a state where [f_inv] holds, an execution that ends
    relates the state before and the state after by [f_rel], and one that fails has a fault of [f_fault]. *)

Record frame (W : Type) := Frame {
  f_inv : W -> Prop;
  f_rel : W -> W -> Prop;
  f_fault : fault -> Prop
}.
Arguments Frame {W} _ _ _.
Arguments f_inv {W} _ _.
Arguments f_rel {W} _ _ _.
Arguments f_fault {W} _ _.

Class FrameLaws {W} (F : frame W) := {
  f_rel_preorder :: PreOrder (f_rel F);
  f_inv_rel w w' : f_inv F w -> f_rel F w w' -> f_inv F w'
}.

(** A relation alone. *)
Definition relates {W} (R : W -> W -> Prop) : frame W := Frame (fun _ => True) R (fun _ => True).

#[export] Instance relates_laws {W} (R : W -> W -> Prop) `{!PreOrder R} : FrameLaws (relates R).
Proof. by split. Qed.

Definition keeps {W A} (F : frame W) (m : X W A) : Prop := forall w, f_inv F w ->
  match m w with
  | Ok (_, w', _) => f_rel F w w'
  | Crash f => f_fault F f
  | NoFuel => True
  end.

Lemma keeps_relates {W A} (R : W -> W -> Prop) (m : X W A) :
  keeps (relates R) m <-> (forall w o w' s, m w = Ok (o, w', s) -> R w w').
Proof.
  split; intros H w.
  - intros o w' s E. specialize (H w I). by rewrite E in H.
  - intros _. specialize (H w). destruct (m w) as [[[o w'] s]| |]; [by eapply H|done..].
Qed.

Section keeps.
Context {W : Type} (F : frame W) `{!FrameLaws F}.

Lemma keeps_ret {A} (a : A) : keeps F (xret a).
Proof. intros w _. cbn. reflexivity. Qed.
Lemma keeps_throw {A} e : keeps F (throw e : X W A).
Proof. intros w _. cbn. reflexivity. Qed.
Lemma keeps_crash {A} f : f_fault F f -> keeps F (xcrash f : X W A).
Proof. by intros Hf w _. Qed.
Lemma keeps_nofuel {A} : keeps F (xnofuel : X W A).
Proof. by intros w _. Qed.
Lemma keeps_get : keeps F xget.
Proof. intros w _. cbn. reflexivity. Qed.
Lemma keeps_emit t : keeps F (emit t).
Proof. intros w _. cbn. reflexivity. Qed.
Lemma keeps_lift {A} (r : res A) : (forall f, r = Crash f -> f_fault F f) -> keeps F (xlift r).
Proof. intros Hf w _. unfold xlift. destruct r; [reflexivity|by apply Hf|done]. Qed.
Lemma keeps_of_option {A} e (o : option A) : keeps F (of_option e o).
Proof. destruct o; [apply keeps_ret|apply keeps_throw]. Qed.

Lemma keeps_after (w w1 : W) {A} s (r : res (outcome A * W * string)) :
  f_rel F w w1 ->
  match r with Ok (_, w', _) => f_rel F w1 w' | Crash f => f_fault F f | NoFuel => True end ->
  match after s r with Ok (_, w', _) => f_rel F w w' | Crash f => f_fault F f | NoFuel => True end.
Proof. intros H1. destruct r as [[[o w'] u]| |]; cbn; [|done..]. intros H2. by etrans. Qed.

Lemma keeps_bind {A B} (m : X W A) (k : A -> X W B) :
  keeps F m -> (forall a, keeps F (k a)) -> keeps F (xbind m k).
Proof.
  intros Hm Hk w Hw. specialize (Hm w Hw). unfold xbind. destruct (m w) as [[[[a|e] w1] s]| |]; try done.
  apply (keeps_after w w1); [done|]. apply Hk. by eapply f_inv_rel.
Qed.

Lemma keeps_bind_lift {A B} (r : res A) (k : A -> X W B) :
  keeps F (xlift r : X W A) -> (forall a, r = Ok a -> keeps F (k a)) -> keeps F (xbind (xlift r) k).
Proof.
  intros Hr Hk w Hw. specialize (Hr w Hw). unfold xbind, xlift in *. destruct r as [a| |]; [|done..].
  rewrite after_nil. by apply Hk.
Qed.

Lemma keeps_bind_ret {A B} (a : A) (k : A -> X W B) : keeps F (k a) -> keeps F (xbind (xret a) k).
Proof. intros Hk w Hw. rewrite xbind_ret. by apply Hk. Qed.

Lemma keeps_catch {A} (m : X W A) h : keeps F m -> (forall e, keeps F (h e)) -> keeps F (catch m h).
Proof.
  intros Hm Hk w Hw. specialize (Hm w Hw). unfold catch. destruct (m w) as [[[[a|e] w1] s]| |]; try done.
  apply (keeps_after w w1); [done|]. apply Hk. by eapply f_inv_rel.
Qed.

Lemma keeps_capture (m : X W unit) : keeps F m -> keeps F (capture m).
Proof.
  intros Hm w Hw. specialize (Hm w Hw). unfold capture. by destruct (m w) as [[[[a|e] w1] t]| |].
Qed.

Lemma keeps_for_each {A} (f : A -> X W unit) l : (forall a, a ∈ l -> keeps F (f a)) -> keeps F (for_each f l).
Proof.
  intros Hf. induction l as [|a l IH]; [apply keeps_ret|]. apply keeps_bind; [apply Hf; by left|].
  intros _. apply IH. intros b Hb. apply Hf. by right.
Qed.

Lemma keeps_operands `{Platform} {A B} (l : X W A) (r : X W B) : keeps F l -> keeps F r -> keeps F (operands l r).
Proof.
  intros Hl Hr. unfold operands. destruct lhs_first; apply keeps_bind; try done; intros; apply keeps_bind;
    try done; intros; apply keeps_ret.
Qed.
End keeps.

(** A weaker frame: fewer states, more pairs, more faults. *)
Record weaker {W} (F G : frame W) : Prop := {
  weaker_inv w : f_inv G w -> f_inv F w;
  weaker_rel w w' : f_rel F w w' -> f_rel G w w';
  weaker_fault f : f_fault F f -> f_fault G f
}.

Lemma keeps_weaken {W A} (F G : frame W) (m : X W A) : weaker F G -> keeps F m -> keeps G m.
Proof.
  intros [Hi Hr Hf] Hm w Hw. specialize (Hm w (Hi w Hw)). destruct (m w) as [[[o w'] s]| |]; auto.
Qed.

(** Clean-up [fin] that undoes what [pre] did: [F] holds around a block, and another frame [G] inside. *)
Definition brackets {W} (F G : frame W) (pre fin : X W unit) : Prop := forall w, f_inv F w ->
  match pre w with
  | Ok (o, w1, _) =>
      o = Val tt /\ f_inv G w1 /\ forall w2, f_rel G w1 w2 ->
        match fin w2 with
        | Ok (o, w3, _) => o = Val tt /\ f_rel F w w3
        | Crash f => f_fault F f
        | NoFuel => True
        end
  | Crash f => f_fault F f
  | NoFuel => True
  end.

Lemma keeps_scoped {W A} (F G : frame W) (pre fin : X W unit) (m : X W A) :
  (forall f, f_fault G f -> f_fault F f) -> brackets F G pre fin ->
  keeps G m -> keeps F (pre ;;; finally m fin).
Proof.
  intros Hf Hpre Hm w Hw. specialize (Hpre w Hw). unfold xbind at 1.
  destruct (pre w) as [[[o w1] s]| |]; [|done..]. destruct Hpre as (-> & Hi & Hfin). specialize (Hm w1 Hi).
  unfold finally, xbind, catch, throw, xret. destruct (m w1) as [[[[v|e] w2] u]| |]; cbn; [| |by apply Hf|done];
    (specialize (Hfin w2 Hm); destruct (fin w2) as [[[o w3] t]| |]; [|done..]; destruct Hfin as [-> HF]; done).
Qed.

(** Declarations that do not throw may follow [pre]. *)
Lemma brackets_bind {W} (F G : frame W) `{!FrameLaws G} (pre mid fin : X W unit) :
  (forall f, f_fault G f -> f_fault F f) -> brackets F G pre fin -> keeps G mid ->
  (forall w o w1 s, mid w = Ok (o, w1, s) -> o = Val tt) -> brackets F G (pre ;;; mid) fin.
Proof.
  intros Hf Hpre Hmid Hval w Hw. specialize (Hpre w Hw). unfold xbind.
  destruct (pre w) as [[[o w1] s]| |]; [|done..]. destruct Hpre as (-> & Hi & Hfin). specialize (Hmid w1 Hi).
  destruct (mid w1) as [[[o w2] t]| |] eqn:E; cbn; [|by apply Hf|done]. apply Hval in E. split_and!; [done| |].
  - by eapply f_inv_rel.
  - intros w3 H3. apply Hfin. by etrans.
Qed.

Create HintDb keeps.
#[export] Hint Constants Opaque : keeps.
#[export] Hint Resolve keeps_ret keeps_throw keeps_nofuel keeps_get keeps_emit keeps_of_option keeps_capture : keeps.

(** Through the combinators and case distinctions, with the equations of the values that are read from
    the heap. *)
Ltac keeps :=
  repeat first
    [ assumption
    | progress intros
    | solve [auto with keeps typeclass_instances]
    | apply keeps_bind_ret
    | apply keeps_bind_lift
    | apply keeps_bind; [exact _| |]
    | apply keeps_catch; [exact _| |]
    | apply keeps_for_each; [exact _|]
    | apply keeps_operands; [exact _| |]
    | apply keeps_capture
    | match goal with |- keeps _ (match ?x with _ => _ end) => destruct x eqn:? end ].

(** ** External code *)

(** What the code uses of DCL ([dcl/strutils.h] and others), which is not part of the repository. *)
Class Dcl := {
  trim : string -> string;
  tokenize : string -> list string;
  tokenize_by : string -> string -> list string;
  compare : string -> string -> bool;
  from_string_double : string -> option double;
  to_string_double : double -> string;
  from_string_int : string -> option Z;
  to_string_int : Z -> string;
  conversion_error : string -> string;
  format : string -> list string -> string
}.

(** [compare()] is a comparison of equal strings. *)
Class DclLaws `{Dcl} := {
  compare_refl s : compare s s = true
}.

Lemma refines_operands `{Platform} {W A B} (l l' : X W A) (r r' : X W B) :
  refines l l' -> refines r r' -> refines (operands l r) (operands l' r').
Proof.
  intros. unfold operands. destruct lhs_first; apply refines_bind; try done; intros; by apply refines_bind.
Qed.

(** Through the combinators and case distinctions to the recursive calls. *)
Ltac refines :=
  repeat first
    [ match goal with |- refines ?m ?m => reflexivity end
    | assumption
    | progress intros
    | solve [auto with refines]
    | apply refines_bind | apply refines_catch
    | apply refines_capture | apply refines_zoom | apply refines_finally | apply refines_for_each
    | apply refines_operands
    | match goal with |- refines (match ?x with _ => _ end) _ => destruct x end ].

Definition double_of `{Dcl} {W} (s : string) : X W double :=
  of_option (type_conversion_exception (conversion_error s)) (from_string_double s).
Definition int_of `{Dcl} {W} (s : string) : X W Z :=
  of_option (type_conversion_exception (conversion_error s)) (from_string_int s).
