(* ===== verification/DbContext.v ===== *)
(** * Variables: [libdbpager/context.cpp]

    A [context] is a stack of layers of variables with the call stack of user tags; contexts are
    chained by [_parent].  A chain is a list of contexts, [this] first; the back of a [std::deque] is
    the head of a list.  The operations are computations on the chain of [this].
    - [get_value], [set_value], [add_value], [enter], [leave], [push], [pop], [empty], [get_values].
    - The specification: [binding] is what a chain means, a partial map from names in upper case;
      the operations read and change it ([get_value_binding], [set_value_binding],
      [add_value_binding]).
    - [scoped], [inner]: what executing a tag may do to the layers of its context, used by the
      interpreter. *)

From S2P Require Import Prelude DbLang.

Notation variables := (gmap string string) (only parsing).

(** Names and values; [exec] holds the user tags that are being called. *)
Record context := Context {
  stack : list variables;
  exec : list positive;
  _type : string;
  _services : bool
}.

#[export] Instance set_stack : Setter stack := fun f c => Context (f (stack c)) (exec c) (_type c) (_services c).
#[export] Instance set_exec : Setter exec := fun f c => Context (stack c) (f (exec c)) (_type c) (_services c).
#[export] Instance set__services : Setter _services :=
  fun f c => Context (stack c) (exec c) (_type c) (f (_services c)).

(** The constructors: every context starts with one layer and without a services provider ([_services]
    says whether there is one). *)
Definition new_context (type : string) (parents : list context) : list context :=
  Context [∅] [] type false :: parents.
Definition local_context := new_context "local".
Definition user_context := new_context "user".
Definition global_context := new_context "global".
Definition system_context := new_context "system".

Definition upname (name : string) : string := smap to_upper name.

(** A method that works on [this] only. *)
Definition on_this {A} (f : context -> res (A * context)) : X (list context) A := fun ch =>
  match ch with
  | [] => Crash NullDeref
  | c :: parents =>
      match f c with
      | Ok (a, c') => Ok (Val a, c' :: parents, "")
      | Crash e => Crash e
      | NoFuel => NoFuel
      end
  end.

Definition enter : X (list context) unit := on_this (fun c => Ok (tt, c <| stack := ∅ :: stack c |>)).

Definition leave : X (list context) unit := on_this (fun c =>
  match stack c with
  | [] => Crash MemFault
  | _ :: st => Ok (tt, c <| stack := st |>)
  end).

Definition push (t : positive) : X (list context) unit := on_this (fun c => Ok (tt, c <| exec := t :: exec c |>)).

Definition pop : X (list context) (option positive) := on_this (fun c =>
  match exec c with
  | [] => Ok (None, c)
  | t :: ts => Ok (Some t, c <| exec := ts |>)
  end).

(** The layers from the innermost one. *)
Fixpoint find_layer (up : string) (st : list variables) : option string :=
  match st with
  | [] => None
  | vs :: st' => match vs !! up with Some v => Some v | None => find_layer up st' end
  end.

Fixpoint assign_layer (up value : string) (st : list variables) : option (list variables) :=
  match st with
  | [] => None
  | vs :: st' =>
      match vs !! up with
      | Some _ => Some (<[up := value]> vs :: st')
      | None => match assign_layer up value st' with Some st'' => Some (vs :: st'') | None => None end
      end
  end.

Fixpoint get_value (ch : list context) (name : string) : string :=
  match ch with
  | [] => ""
  | c :: parents =>
      match find_layer (upname name) (stack c) with
      | Some v => v
      | None => get_value parents name
      end
  end.

(** The later (inner) layer wins. *)
Definition get_values (c : context) : variables :=
  foldr (fun vs acc => vs ∪ acc) ∅ (stack c).

Definition empty (c : context) : bool :=
  match stack c with
  | [] => true
  | vs :: _ => bool_decide (vs = ∅)
  end.

Section context.
Context `{Dcl}.

(** The answer of a parent, with [this] in front of the chain again. *)
Definition on_parent {A} (c : context) (r : res (outcome A * list context * string)) :
  res (outcome A * list context * string) :=
  match r with Ok (o, ps, out) => Ok (o, c :: ps, out) | r => r end.

Fixpoint set_value (name value : string) (ch : list context) : res (outcome unit * list context * string) :=
  match ch with
  | [] => Crash NullDeref
  | c :: parents =>
      match assign_layer (upname name) value (stack c) with
      | Some st => Ok (Val tt, c <| stack := st |> :: parents, "")
      | None =>
          match parents with
          | [] => throw (context_exception (format "variable {0} is not defined" [name])) ch
          | _ => on_parent c (set_value name value parents)
          end
      end
  end.

Fixpoint add_value (name value type : string) (ch : list context) :
  res (outcome unit * list context * string) :=
  match ch with
  | [] => Crash NullDeref
  | c :: parents =>
      let vtype := if is_empty type then _type c else type in
      if compare vtype (_type c) then
        match stack c with
        | [] => Crash MemFault
        | vs :: st => Ok (Val tt, c <| stack := <[upname name := value]> vs :: st |> :: parents, "")
        end
      else
        match parents with
        | [] => throw (context_exception (format "unknown variable type {0}" [type])) ch
        | _ => on_parent c (add_value name value vtype parents)
        end
  end.
End context.

(** ** What a chain means *)

Fixpoint binding (ch : list context) (up : string) : option string :=
  match ch with
  | [] => None
  | c :: parents =>
      match find_layer up (stack c) with
      | Some v => Some v
      | None => binding parents up
      end
  end.

Lemma get_value_binding ch name : get_value ch name = default "" (binding ch (upname name)).
Proof. induction ch as [|c ps IH]; [done|]. cbn. by destruct (find_layer _ _). Qed.

Lemma upname_idemp name : upname (upname name) = upname name.
Proof. unfold upname. induction name as [|c s IH]; [done|]. cbn. by rewrite to_upper_idemp, IH. Qed.

Lemma find_assign_layer up value st st' :
  assign_layer up value st = Some st' ->
  forall up', find_layer up' st' = if bool_decide (up' = up) then Some value else find_layer up' st.
Proof.
  revert st'. induction st as [|vs st IH]; intros st' H up'; [done|]. cbn in H.
  destruct (vs !! up) as [v|] eqn:E.
  - injection H as <-. cbn. destruct (bool_decide_reflect (up' = up)) as [->|Hn].
    + by rewrite lookup_insert_eq.
    + by rewrite lookup_insert_ne by done.
  - destruct (assign_layer up value st) as [st2|]; [|done]. injection H as <-. cbn. rewrite (IH st2 eq_refl).
    destruct (bool_decide_reflect (up' = up)) as [->|Hn]; [by rewrite E|done].
Qed.

Lemma assign_layer_None up value st : assign_layer up value st = None <-> find_layer up st = None.
Proof.
  induction st as [|vs st IH]; [done|]. cbn. destruct (vs !! up); [done|].
  destruct (assign_layer up value st); [|tauto]. split; [done|]. intros H. by apply IH in H.
Qed.

Section meaning.
Context `{Dcl}.

(** [set_value] changes the binding of the name, wherever it is, and nothing else. *)
Lemma set_value_binding name value ch :
  binding ch (upname name) <> None ->
  exists ch', set_value name value ch = Ok (Val tt, ch', "") /\
    forall up, binding ch' up = if bool_decide (up = upname name) then Some value else binding ch up.
Proof.
  induction ch as [|c ps IH]; [done|]. cbn [binding set_value].
  destruct (assign_layer (upname name) value (stack c)) as [st|] eqn:E.
  - intros _. eexists; split; [done|]. intros up. cbn [binding setter set_stack stack].
    rewrite (find_assign_layer _ _ _ _ E). by case_bool_decide.
  - pose proof (proj1 (assign_layer_None _ _ _) E) as E'. rewrite E'. intros Hb.
    destruct ps as [|p ps]; [done|]. destruct (IH Hb) as (ch' & -> & Hch'). eexists; split; [done|].
    intros up. cbn [binding]. rewrite Hch'. destruct (find_layer up (stack c)) eqn:E2; [|done].
    case_bool_decide; [congruence|done].
Qed.

(** On a name without a binding it throws and changes nothing. *)
Lemma set_value_unbound name value c ps :
  binding (c :: ps) (upname name) = None ->
  set_value name value (c :: ps) =
    Ok (Exc (context_exception (format "variable {0} is not defined" [name])), c :: ps, "").
Proof.
  revert c. induction ps as [|p ps IH]; intros c Hb; cbn [binding] in Hb;
    destruct (find_layer (upname name) (stack c)) eqn:E; try done;
    apply (assign_layer_None _ value) in E; cbn [set_value]; rewrite E; [done|].
  pose proof (IH p Hb) as IHp. cbn [set_value] in IHp. by rewrite IHp.
Qed.

(** [set_value] assigns a variable, whose name is taken in upper or lower case, where it is declared:
    after it [get_value] gives the new value for the name and what it gave before for every other; a
    name that is declared nowhere is an exception and nothing changes. *)
Theorem set_value_assigns name value c ps :
  let ch := c :: ps in
  match binding ch (upname name) with
  | Some _ => exists ch', set_value name value ch = Ok (Val tt, ch', "") /\
      forall n, get_value ch' n = if bool_decide (upname n = upname name) then value else get_value ch n
  | None => set_value name value ch =
      Ok (Exc (context_exception (format "variable {0} is not defined" [name])), ch, "")
  end.
Proof.
  intros ch. destruct (binding ch (upname name)) as [v|] eqn:E; [|by apply set_value_unbound].
  destruct (set_value_binding name value ch) as (ch' & Hs & Hb); [by rewrite E|]. exists ch'. split; [done|].
  intros n. rewrite !get_value_binding, Hb. by case_bool_decide.
Qed.

Lemma add_value_own `{!DclLaws} name value c vs st ps :
  stack c = vs :: st ->
  add_value name value "" (c :: ps) =
    Ok (Val tt, c <| stack := <[upname name := value]> vs :: st |> :: ps, "").
Proof. intros E. cbn. by rewrite compare_refl, E. Qed.

(** Without a type [add_value] binds the name in the innermost layer of [this]. *)
Lemma add_value_binding `{!DclLaws} name value c ps :
  stack c <> [] ->
  exists ch', add_value name value "" (c :: ps) = Ok (Val tt, ch', "") /\
    forall up, binding ch' up = if bool_decide (up = upname name) then Some value else binding (c :: ps) up.
Proof.
  intros Hs. destruct (stack c) as [|vs st] eqn:E; [done|]. rewrite (add_value_own _ _ _ vs st) by done.
  eexists; split; [done|]. intros up. cbn [binding setter set_stack stack find_layer]. rewrite E. cbn.
  case_bool_decide; simplify_eq; [by rewrite lookup_insert_eq|by rewrite lookup_insert_ne].
Qed.
End meaning.

(** ** What executing a tag does to the layers of its context *)

Definition same_names (vs vs' : variables) : Prop := dom vs = dom vs'.
Definition more_names (vs vs' : variables) : Prop := dom vs ⊆ dom vs'.

#[export] Instance same_names_equivalence : Equivalence same_names.
Proof. split; unfold same_names; [intros ?|intros ???|intros ?????]; congruence. Qed.
#[export] Instance more_names_preorder : PreOrder more_names.
Proof. split; unfold more_names; [intros ?|intros ?????]; set_solver. Qed.

(** A parent keeps its layers; variables may be declared in its innermost one. *)
Definition parent_step (c c' : context) : Prop :=
  _type c = _type c' /\ Forall2 more_names (stack c) (stack c').

(** [this] keeps its layers and which names each declares. *)
Definition scoped (ch ch' : list context) : Prop :=
  match ch, ch' with
  | c :: ps, c' :: ps' =>
      _type c = _type c' /\ Forall2 same_names (stack c) (stack c') /\ Forall2 parent_step ps ps'
  | [], [] => True
  | _, _ => False
  end.

#[export] Instance parent_step_preorder : PreOrder parent_step.
Proof.
  split; [by intros c|]. intros c1 c2 c3 [H1 H2] [H3 H4]. split; [congruence|by etrans].
Qed.

#[export] Instance scoped_preorder : PreOrder scoped.
Proof.
  split; [by intros [|c ps]|]. intros [|c1 p1] [|c2 p2] [|c3 p3]; cbn; try tauto.
  intros (?&?&?) (?&?&?). split_and!; [congruence|by etrans|by etrans].
Qed.

(** The same, but names may have been declared in the innermost layer. *)
Definition inner_stack (st st' : list variables) : Prop :=
  match st, st' with
  | vs :: st, vs' :: st' => more_names vs vs' /\ Forall2 same_names st st'
  | [], [] => True
  | _, _ => False
  end.

#[export] Instance inner_stack_preorder : PreOrder inner_stack.
Proof.
  split; [by intros [|vs st]|]. intros [|v1 s1] [|v2 s2] [|v3 s3]; cbn; try tauto.
  intros [??] [??]. split; by etrans.
Qed.

Definition inner (ch ch' : list context) : Prop :=
  match ch, ch' with
  | c :: ps, c' :: ps' => _type c = _type c' /\ inner_stack (stack c) (stack c') /\ Forall2 parent_step ps ps'
  | [], [] => True
  | _, _ => False
  end.

#[export] Instance inner_preorder : PreOrder inner.
Proof.
  split; [by intros [|c ps]|]. intros [|c1 p1] [|c2 p2] [|c3 p3]; cbn; try tauto.
  intros (?&?&?) (?&?&?). split_and!; [congruence|by etrans|by etrans].
Qed.

Lemma same_more vs vs' : same_names vs vs' -> more_names vs vs'.
Proof. unfold same_names, more_names. by intros ->. Qed.

Lemma scoped_inner ch ch' : scoped ch ch' -> inner ch ch'.
Proof.
  destruct ch as [|[st e t sv] ps], ch' as [|[st' e' t' sv'] ps']; cbn; try done. intros (?&Hst&?). split_and!; try done.
  destruct Hst; [done|]. split; [by apply same_more|done].
Qed.

Lemma more_names_insert (vs : variables) k v : more_names vs (<[k := v]> vs).
Proof. unfold more_names. rewrite dom_insert_L. set_solver. Qed.

Lemma assign_layer_same up value st st' : assign_layer up value st = Some st' -> Forall2 same_names st st'.
Proof.
  revert st'. induction st as [|vs st IH]; intros st' H; [done|]. cbn in H. destruct (vs !! up) as [v|] eqn:E.
  - injection H as <-. constructor; [|done]. unfold same_names. by rewrite dom_insert_lookup_L.
  - destruct (assign_layer up value st); [|done]. injection H as <-. constructor; [done|auto].
Qed.

Lemma parent_step_scoped c c' ps ps' : scoped (c :: ps) (c' :: ps') -> Forall2 parent_step (c :: ps) (c' :: ps').
Proof.
  intros (?&Hst&?). constructor; [|done]. split; [done|]. by eapply Forall2_impl; [exact Hst|apply same_more].
Qed.

Section steps.
Context `{Dcl}.

Lemma on_parent_Ok {A} c (r : res (outcome A * list context * string)) o ch s :
  on_parent c r = Ok (o, ch, s) -> exists ps, r = Ok (o, ps, s) /\ ch = c :: ps.
Proof. destruct r as [[[o' ps] s']| |]; [|done..]. cbn. intros [= -> <- ->]. eauto. Qed.

Lemma set_value_scoped name value : keeps (relates scoped) (set_value name value).
Proof.
  apply keeps_relates. intros ch. induction ch as [|c ps IH]; intros o ch' s; [done|]. cbn [set_value].
  destruct (assign_layer _ _ _) as [st|] eqn:E.
  - intros [= <- <- <-]. apply assign_layer_same in E. done.
  - destruct ps as [|p ps]; [by intros [= <- <- <-]|]. intros Hr. apply on_parent_Ok in Hr as (ps' & Hr & ->).
    apply IH in Hr. destruct ps' as [|p' ps']; [done|]. split_and!; [done..|]. by apply parent_step_scoped.
Qed.

Lemma add_value_inner name value type : keeps (relates inner) (add_value name value type).
Proof.
  apply keeps_relates. intros ch. revert type. induction ch as [|c ps IH]; intros type o ch' s; [done|]. cbn [add_value].
  destruct (compare _ _).
  - destruct (stack c) as [|vs st] eqn:E; [done|]. intros [= <- <- <-]. cbn. rewrite E.
    split_and!; [done|split; [apply more_names_insert|done]|done].
  - destruct ps as [|p ps]; [by intros [= <- <- <-]|]. intros Hr. apply on_parent_Ok in Hr as (ps' & Hr & ->).
    apply IH in Hr. destruct ps' as [|p' ps']; [done|]. cbn in Hr. destruct Hr as (Ht & Hst & Hps). cbn.
    split_and!; [done|by destruct (stack c)|]. constructor; [|done]. split; [done|].
    destruct (stack p), (stack p'); try done. destruct Hst as [? Hst]. constructor; [done|].
    by eapply Forall2_impl; [exact Hst|apply same_more].
Qed.

Lemma enter_leave ch :
  ch <> [] ->
  exists ch1, enter ch = Ok (Val tt, ch1, "") /\
    forall ch2, inner ch1 ch2 -> exists ch3, leave ch2 = Ok (Val tt, ch3, "") /\ scoped ch ch3.
Proof.
  destruct ch as [|c ps]; [done|]. intros _. eexists; split; [done|].
  intros [|[[|vs st] e t sv] ps2]; cbn; [tauto..|]. intros (?&[? ?]&?). by eexists.
Qed.
End steps.

Lemma push_scoped t : keeps (relates scoped) (push t).
Proof. apply keeps_relates. by intros [|c ps] o ch' s; [done|]; intros [= <- <- <-]. Qed.

Lemma pop_scoped : keeps (relates scoped) pop.
Proof.
  apply keeps_relates. intros [|c ps] o ch' s; [done|]. unfold pop, on_this. destruct (exec c); by intros [= <- <- <-].
Qed.
