(* ===== verification/DbTag.v ===== *)
(** * The tag tree: [libdbpager/tag_impl.cpp], [tag_tag.cpp], [tag_usr.cpp]

    Tags are objects that point at each other (parent, children, parameters), so a program is a
    [heap] of [tag] records at addresses; the class of an object, which decides what its virtual
    [execute] does, is a field.
    - Building: [set_parent], [add_child], [add_parameter], [move_childs_to], [set_text].
    - [world], the state of an execution: the chain of contexts, the vectors and maps of [dbp:list]
      and [dbp:map], the state of the operating system.
    - Executing, with the recursive call [exec] as a parameter (an [exec_fn]): the base class
      [tag_impl_execute], [get_parameter], user tags [tag_usr_execute] and their bodies
      [tag_tag_execute].  DbExecute.v closes the recursion. *)

From S2P Require Import Prelude DbLang DbContext.

(** The dynamic classes of tags, as [tag_factory] and the parser create them. *)
Inductive tag_class :=
  | tag_impl | tag_tag | tag_usr | tag_call | tag_execute | tag_expression | tag_cdata | tag_unknown
  | tag_var | tag_set | tag_while | tag_switch | tag_case | tag_try | tag_catch | tag_throw
  | tag_split | tag_substr
  | tag_list | tag_list_add | tag_list_remove | tag_list_element | tag_list_elements | tag_list_from_json
  | tag_map | tag_map_set | tag_map_unset | tag_map_element | tag_map_elements | tag_map_values
  | tag_map_from_json | tag_map_to_json
  | tag_read | tag_write | tag_delete | tag_rename | tag_log | tag_locale | tag_regexp | tag_async
  | tag_http | tag_system
  | function_iif | function_byte | function_length | function_trim | function_concatenate | function_pos
  | function_encode_base64 | function_decode_base64 | function_md5 | function_sha256 | function_crypt
  | function_uuid | function_urlencode | function_urldecode | function_translate | function_upper
  | function_lower | function_rnd | function_date_utc | function_date_from | function_date_fmt
  | function_now | function_env.

#[export] Instance tag_class_eq_dec : EqDecision tag_class.
Proof. solve_decision. Defined.

Record tag := Tag {
  cls : tag_class;
  name : string;
  depth : Z;
  parent : option positive;
  childs : list positive;
  params : list (string * positive);
  text : string;
  user_tag : option positive
}.

#[export] Instance set_name : Setter name :=
  fun f t => Tag (cls t) (f (name t)) (depth t) (parent t) (childs t) (params t) (text t) (user_tag t).
#[export] Instance set_depth : Setter depth :=
  fun f t => Tag (cls t) (name t) (f (depth t)) (parent t) (childs t) (params t) (text t) (user_tag t).
#[export] Instance set_parent_ : Setter parent :=
  fun f t => Tag (cls t) (name t) (depth t) (f (parent t)) (childs t) (params t) (text t) (user_tag t).
#[export] Instance set_childs : Setter childs :=
  fun f t => Tag (cls t) (name t) (depth t) (parent t) (f (childs t)) (params t) (text t) (user_tag t).
#[export] Instance set_params : Setter params :=
  fun f t => Tag (cls t) (name t) (depth t) (parent t) (childs t) (f (params t)) (text t) (user_tag t).
#[export] Instance set_text_ : Setter text :=
  fun f t => Tag (cls t) (name t) (depth t) (parent t) (childs t) (params t) (f (text t)) (user_tag t).
#[export] Instance set_user_tag : Setter user_tag :=
  fun f t => Tag (cls t) (name t) (depth t) (parent t) (childs t) (params t) (text t) (f (user_tag t)).

Notation heap := (gmap positive tag) (only parsing).

(** [new C(name)]. *)
Definition new_tag (c : tag_class) (nm : string) : tag := Tag c nm 0 None [] [] "" None.

(** The methods that build a tree read and write the heap; a pointer to no object is a fault. *)
Definition deref (t : positive) : X heap tag := fun h =>
  match h !! t with Some o => Ok (Val o, h, "") | None => Crash NullDeref end.
Definition update (t : positive) (f : tag -> tag) : X heap unit :=
  o <- deref t ;; xmodify (fun h => <[t := f o]> h).

Definition set_parent (t tag_parent : positive) : X heap unit :=
  p <- deref tag_parent ;; update t (fun o => o <| parent := Some tag_parent |> <| depth := depth p + 1 |>).

Definition add_child (self node : positive) : X heap unit :=
  set_parent node self ;;; update self (fun o => o <| childs := childs o ++ [node] |>).

(** [std::unordered_map::insert]: a name that is there keeps its value. *)
Definition map_insert {A} (k : string) (v : A) (l : list (string * A)) : list (string * A) :=
  if existsb (fun kv => seqb (fst kv) k) l then l else l ++ [(k, v)].
Fixpoint map_find {A} (k : string) (l : list (string * A)) : option A :=
  match l with
  | [] => None
  | (k', v) :: l' => if seqb k' k then Some v else map_find k l'
  end.

Lemma map_find_elem {A} k (l : list (string * A)) v : map_find k l = Some v -> (k, v) ∈ l.
Proof.
  induction l as [|[k' v'] l IH]; cbn; [done|]. destruct (seqb k' k) eqn:E; [|right; by apply IH].
  apply seqb_spec in E as ->. intros [= ->]. by left.
Qed.

Definition map_erase {A} (k : string) (l : list (string * A)) : list (string * A) :=
  List.filter (fun kv => negb (seqb (fst kv) k)) l.

Definition tag_impl_add_parameter (self : positive) (nm : string) (value : positive) : X heap unit :=
  update self (fun o => o <| params := map_insert nm value (params o) |>).

Definition move_childs_to (self dest : positive) : X heap unit :=
  o <- deref self ;; for_each (add_child dest) (childs o) ;;; update self (fun o => o <| childs := [] |>).

(** [set_text]: every run of characters up to the blank becomes one blank. *)
Fixpoint collapse (was_space : bool) (value : string) : string :=
  match value with
  | "" => ""
  | String c s =>
      if Nat.leb (code c) 32 then (if was_space then collapse true s else String " " (collapse true s))
      else String c (collapse false s)
  end.

Definition set_text (t : positive) (value : string) : X heap unit :=
  update t (fun o => o <| text := collapse false value |>).

(** [get_child]: the first child of that name. *)
Fixpoint first_named (h : heap) (nm : string) (l : list positive) : res (option positive) :=
  match l with
  | [] => Ok None
  | c :: l' =>
      match h !! c with
      | Some o => if seqb (name o) nm then Ok (Some c) else first_named h nm l'
      | None => Crash Dangling
      end
  end.
Definition get_child (h : heap) (o : tag) (nm : string) : res (option positive) := first_named h nm (childs o).

(** [while (p && !(c = p->get_child(nm))) p = p->get_parent();] *)
Fixpoint search_up (fuel : nat) (h : heap) (nm : string) (p : option positive) : res (option positive) :=
  match fuel, p with
  | O, _ => NoFuel
  | _, None => Ok None
  | S fuel, Some t =>
      match h !! t with
      | None => Crash Dangling
      | Some o => rbind (get_child h o nm) (fun c =>
          match c with Some c => Ok (Some c) | None => search_up fuel h nm (parent o) end)
      end
  end.

(** [link] looks a user tag up once, when the program is parsed. *)
Definition link (fuel : nat) (self : positive) : X heap unit :=
  o <- deref self ;; h <- xget ;;
  c <- xlift (search_up fuel h ("@" +:+ name o) (parent o)) ;;
  update self (fun o => o <| user_tag := c |>).

(** ** The state of an execution *)

(** What [tag_http] gives to cURL, and its answer. *)
Inductive curl_opt :=
  | CURLOPT_NOSIGNAL | CURLOPT_URL (s : string) | CURLOPT_USERAGENT (s : string) | CURLOPT_FOLLOWLOCATION
  | CURLOPT_SSLCERT (s : string) | CURLOPT_SSLKEY (s : string)
  | CURLOPT_SSLCERT_BLOB (s : string) | CURLOPT_SSLKEY_BLOB (s : string) | CURLOPT_SSLCERTTYPE (s : string)
  | CURLOPT_CAINFO (s : string) | CURLOPT_CAINFO_BLOB (s : string) | CURLOPT_SSL_VERIFYPEER
  | CURLOPT_USERPWD (s : string) | CURLOPT_HTTPAUTH_BASIC
  | CURLOPT_XOAUTH2_BEARER (s : string) | CURLOPT_HTTPAUTH_BEARER
  | CURLOPT_POSTFIELDS (s : string) | CURLOPT_POST | CURLOPT_CUSTOMREQUEST (s : string)
  | CURLOPT_HTTPHEADER (l : list string).

Inductive curl_result :=
  | curl_failed (error : string)
  | curl_answer (http_code : Z) (body : string).

(** The operating system and the libraries that act outside the program, on a state of their own:
    files, the logger, message catalogues, cURL, processes (what it wrote to standard output and
    error, and the exception that [process::execute] threw), the regular expressions of pcrecpp, JSON
    values, and the clock, random numbers and digests of the functions. *)
Class Services := {
  sys : Type;
  sys_remove : string -> sys -> bool * sys;
  sys_rename : string -> string -> sys -> bool * sys;
  sys_read : string -> sys -> option string;
  sys_write : string -> string -> sys -> bool * sys;
  sys_log : string -> sys -> sys;
  sys_catalog : string -> string -> sys -> sys;
  sys_http : list curl_opt -> sys -> curl_result * sys;
  sys_process : string -> string -> string -> sys -> (string * string * option exn) * sys;
  app_full_name : string;
  re_global_replace : string -> string -> string -> Z * string;
  re_find_and_consume : string -> string -> option (string * string);
  json : Type;
  json_parse : string -> option json;
  json_write : json -> string;
  json_elements : json -> option (list json);
  json_members : json -> option (list (string * json));
  json_is_null : json -> bool;
  json_as_string : json -> option string;
  json_of_int : Z -> json;
  json_of_double : double -> json;
  json_of_bool : bool -> json;
  json_of_string : string -> json;
  json_object : list (string * json) -> json;
  stod : string -> option double;
  sys_rand : sys -> Z * sys;
  sys_time : sys -> Z;
  sys_uuid : sys -> string * sys;
  sys_getenv : string -> sys -> option string;
  encode_base64 : string -> string;
  decode_base64 : string -> string;
  encode_md5 : string -> string;
  sha256 : string -> list Z;
  crypt_r : string -> string -> option string;
  url_encode : string -> string;
  url_decode : string -> string;
  translate : string -> string -> string -> string;
  datetime : Type;
  datetime_parse : string -> string -> outcome datetime;
  datetime_as_gmt : datetime -> string;
  datetime_str : datetime -> string -> string;
  pointer_str : positive -> string;
  str_pointer : string -> option positive
}.

(** A pointer printed by DCL's [to_string] is not empty and is read back. *)
Class ServicesLaws `{Services} := {
  str_pointer_str p : str_pointer (pointer_str p) = Some p;
  pointer_str_nonempty p : pointer_str p <> ""
}.

Section execution.
Context `{Dcl, Platform, Services}.

Record world := World {
  chain : list context;
  lists : gmap positive (list string);
  maps : gmap positive (list (string * string));
  os : sys
}.

#[export] Instance set_chain : Setter chain := fun f w => World (f (chain w)) (lists w) (maps w) (os w).
#[export] Instance set_lists : Setter lists := fun f w => World (chain w) (f (lists w)) (maps w) (os w).
#[export] Instance set_maps : Setter maps := fun f w => World (chain w) (lists w) (f (maps w)) (os w).
#[export] Instance set_os : Setter os := fun f w => World (chain w) (lists w) (maps w) (f (os w)).

(** A method of the context that is passed to [execute]. *)
Definition ctx {A} (m : X (list context) A) : X world A := xzoom chain (fun ch w => w <| chain := ch |>) m.

Definition ctx_get (nm : string) : X world string := w <- xget ;; xret (get_value (chain w) nm).

(** A layer of the context around [m], given back on every exit. *)
Definition scope (m : X world unit) : X world unit := ctx enter ;;; finally m (ctx leave).

(** [execute] of the object at an address, for a caller (possibly null). *)
Definition exec_fn := heap -> positive -> option positive -> X world unit.

Definition with_tag (h : heap) (t : positive) {A} (k : tag -> X world A) : X world A :=
  match h !! t with Some o => k o | None => xcrash Dangling end.

Section open.
Context (exec : exec_fn) (fuel : nat).

(** [tag_impl::execute]. *)
Definition tag_impl_execute (h : heap) (o : tag) (caller : option positive) : X world unit :=
  for_each (fun c => exec h c caller) (childs o) ;;; emit (text o).

(** [get_parameter]: the parameter is executed with a stream of its own. *)
Definition get_parameter (h : heap) (self : positive) (o : tag) (nm : string) : X world string :=
  match map_find nm (params o) with
  | Some p => capture (exec h p (Some self))
  | None => xret ""
  end.

(** Declares the parameters as variables, all or all but [name]. *)
Definition declare_parameters (h : heap) (self : positive) (o : tag) (skip : string -> bool) : X world unit :=
  for_each (fun i =>
    if skip (fst i) then xret tt
    else s <- capture (exec h (snd i) (Some self)) ;; ctx (add_value (fst i) s ""))
    (map_order (params o)).

Definition custom_tag_exception (nm : string) : exn :=
  tag_exception (format "custom tag '{0}' is not defined at this scope" [nm]).

(** [static_cast<tag_tag*>(t)->execute(ctx, out, caller)]: the cast is undefined when the object
    is not of class [tag_tag]. *)
Definition execute_as_tag_tag (h : heap) (t caller : positive) : X world unit :=
  with_tag h t (fun o => if bool_decide (cls o = tag_tag) then exec h t (Some caller) else xcrash BadCast).

(** The call of a custom tag, with [this] on the call stack. *)
Definition call_tag (h : heap) (self t : positive) : X world unit :=
  ctx (push self) ;;; finally (execute_as_tag_tag h t self) (ctx pop ;;; xret tt).

Definition tag_usr_execute (h : heap) (self : positive) (o : tag) : X world unit :=
  scope (
    declare_parameters h self o (fun _ => false) ;;;
    t <- (match user_tag o with
          | Some t => xret (Some t)
          | None => xlift (search_up fuel h ("@" +:+ name o) (parent o))
          end) ;;
    match t with
    | None => throw (custom_tag_exception (name o))
    | Some t => call_tag h self t
    end).

(** [tag_call]: the same with the tag's name in the parameter [name]. *)
Definition tag_call_execute (h : heap) (self : positive) (o : tag) : X world unit :=
  nm <- get_parameter h self o "name" ;;
  scope (
    declare_parameters h self o (fun k => seqb k "name") ;;;
    t <- xlift (search_up fuel h ("@" +:+ nm) (parent o)) ;;
    match t with
    | None => throw (custom_tag_exception nm)
    | Some t => call_tag h self t
    end).

(** [dynamic_cast<const tag_usr*>(caller)]: [tag_call] derives from [tag_usr]. *)
Definition is_usr (h : heap) (caller : option positive) : bool :=
  match caller with
  | Some c =>
      match h !! c with Some o => bool_decide (cls o = tag_usr) || bool_decide (cls o = tag_call) | None => false end
  | None => false
  end.

Definition tag_tag_execute (h : heap) (o : tag) (caller : option positive) : X world unit :=
  if is_usr h caller then tag_impl_execute h o caller else xret tt.

(** [dbp:execute]: runs the children of the user tag that is being called, or one of the tags
    declared in it. *)
Definition tag_execute_execute (h : heap) (self : positive) (o : tag) : X world unit :=
  c <- ctx pop ;;
  match c with
  | None => xret tt
  | Some c =>
      nm <- get_parameter h self o "name" ;;
      with_tag h c (fun co =>
        if negb (is_empty nm) then
          t <- xlift (get_child h co ("@" +:+ nm)) ;;
          match t with
          | Some t => execute_as_tag_tag h t c
          | None => xret tt
          end ;;;
          ctx (push c)
        else if is_usr h (Some c) then
          tag_impl_execute h co (Some self) ;;; ctx (push c)
        else xcrash BadCast)
  end.

End open.
End execution.
