(* ===== verification/DbExpression.v ===== *)
(** * Expressions: the evaluator of [dbpager/tag/tag_expression.cpp]

    The text of a tag and the value of an attribute are expressions: text with parts in braces.
    [eval] copies the text and replaces a part in braces, after evaluating the braces nested in it,
    by the value [calc] gives it.  [calc] is a recursive descent evaluator ([lexpr], [expr], [term],
    [prim]) over a lexer ([get_token]) that reads a stream; all values are strings.
    - The lexer and the evaluator share the stream and the current token by reference: the state [ev].
      [get_token] adds to [curr_tok.name] and [curr_tok.value], and [prim] reads them after it has
      asked for the next token.
    - Variables and functions are parameters ([get_var], [call_function]); DbExecute.v provides them.
    - Fuel: [calc] and [eval] choose it from the length of the expression; [calc_total] and
      [eval_total] show that it is enough.

    Messages are the ones of the source, before [gettext]. *)

From S2P Require Import Prelude DbLang.

Inductive token_type :=
  | NAME | FUNC | NUMBER | END
  | PLUS | MINUS | MUL | DIV | MOD | PWR | LP | RP
  | LT | GT | EQ | LTEQ | GTEQ | NOTEQ | AND | OR | NOT.

#[export] Instance token_type_eq_dec : EqDecision token_type.
Proof. solve_decision. Defined.

(** [class token]; the type of a new token is indeterminate. *)
Record token := Token {
  tok_type : option token_type;
  tok_name : string;
  tok_value : string
}.

Definition new_token : token := Token None "" "".
Definition of_type (ty : token_type) (t : token) : token := Token (Some ty) (tok_name t) (tok_value t).
Definition add_name (s : string) (t : token) : token := Token (tok_type t) (tok_name t +:+ s) (tok_value t).
Definition add_text (s : string) (t : token) : token := Token (tok_type t) (tok_name t) (tok_value t +:+ s).
Definition clear_name (t : token) : token := Token (tok_type t) "" (tok_value t).
Definition clear_value (t : token) : token := Token (tok_type t) (tok_name t) "".

(** [while (in.get(ch) && p(ch)) s += ch; in.putback(ch);] *)
Fixpoint span (p : ascii -> bool) (s : string) : string * string :=
  match s with
  | "" => ("", "")
  | String ch s' => if p ch then let '(a, b) := span p s' in (String ch a, b) else ("", s)
  end.

(** [do { if (!in.get(ch)) ...; } while (ch != '\n' && isspace(ch));] *)
Fixpoint skip_space (s : string) : string :=
  match s with
  | "" => ""
  | String ch s' => if negb (is_char ch (chr 10)) && isspace ch then skip_space s' else s
  end.

(** The parameters of a function, up to the parenthesis that brings [braces] to 0.  The case of an
    opening parenthesis falls through to the one of a closing parenthesis, and the condition of the
    loop reads a character before it looks at [braces]. *)
Fixpoint read_parameters (braces : Z) (value : string) (s : string) : Z * string * string :=
  match s with
  | "" => (braces, value, "")
  | String ch s' =>
      if braces >? 0 then
        let braces := if is_char ch "(" then braces + 1 else braces in
        if is_char ch "(" || is_char ch ")" then
          let braces := braces - 1 in
          if braces =? 0 then read_parameters braces value s'
          else read_parameters braces (value +:+ str1 ch) s'
        else read_parameters braces (value +:+ str1 ch) s'
      else (braces, value, s')
  end.

(** The characters of a string constant up to [quote], and whether it was found. *)
Fixpoint read_quoted (quote : ascii) (s : string) : string * option string :=
  match s with
  | "" => ("", None)
  | String ch s' =>
      if is_char ch quote then ("", Some s')
      else let '(a, r) := read_quoted quote s' in (String ch a, r)
  end.

Fixpoint last_char (c : ascii) (s : string) : ascii :=
  match s with "" => c | String d s' => last_char d s' end.

(** The message of a missing parenthesis, with its quotation marks. *)
Definition rp_expected : string :=
  "invalid expression: " +:+ str1 (chr 34) +:+ ")" +:+ str1 (chr 34) +:+ " expected".

Section evaluator.
Context `{Dcl, Platform}.

Definition name_char (ch : ascii) : bool := isalnum ch || is_char ch "_" || is_char ch "-".
Definition number_char (ch : ascii) : bool := isdigit ch || is_char ch ".".
Definition function_char (ch : ascii) : bool := isalnum ch || is_char ch "_" || is_char ch "@".
Definition function_start (ch : ascii) : bool := isalpha ch || is_char ch "_" || is_char ch "@".

Definition simple_token (ch : ascii) : option token_type :=
  match ch with
  | "*"%char => Some MUL | "/"%char => Some DIV | "%"%char => Some MOD | "^"%char => Some PWR
  | "+"%char => Some PLUS | "-"%char => Some MINUS | "("%char => Some LP | ")"%char => Some RP
  | "="%char => Some EQ | "&"%char => Some AND | "|"%char => Some OR
  | _ => None
  end.

(** [get_token]: the outcome, the rest of the stream and the token. *)
Definition get_function (ch : ascii) (s : string) (t : token) : outcome unit * string * token :=
  let '(nm, rest) := span function_char (String ch s) in
  let t := add_name nm t in
  let bad c := evaluator_exception
    (format "parameter(s) are not defined for function '{0}', expected '(', found '{1}'" [tok_name t; str1 c]) in
  match rest with
  | "" => (Exc (bad (last_char ch nm)), "", t)
  | String c rest =>
      if is_char c "(" then
        let '(braces, value, rest) := read_parameters 1 (tok_value t) rest in
        let t := Token (tok_type t) (tok_name t) value in
        if negb (braces =? 0) then
          (Exc (evaluator_exception rp_expected), rest, t)
        else (Val tt, rest, of_type FUNC t)
      else (Exc (bad c), rest, t)
  end.

Definition get_token_of (s : string) (t : token) : outcome unit * string * token :=
  match skip_space s with
  | "" => (Val tt, "", of_type END t)
  | String ch s =>
      match simple_token ch with
      | Some ty => (Val tt, s, of_type ty t)
      | None =>
          if is_char ch "<" then
            match s with
            | String "="%char s' => (Val tt, s', of_type LTEQ t)
            | String ">"%char s' => (Val tt, s', of_type NOTEQ t)
            | String _ _ => (Val tt, s, of_type LT t)
            | "" => (Val tt, "", t)
            end
          else if is_char ch ">" then
            match s with
            | String "="%char s' => (Val tt, s', of_type GTEQ t)
            | _ => (Val tt, s, of_type GT t)
            end
          else if is_char ch "!" then
            match s with
            | String "="%char s' => (Val tt, s', of_type NOTEQ t)
            | _ => (Val tt, s, of_type NOT t)
            end
          else if number_char ch then
            let '(digits, s') := span number_char (String ch s) in
            (Val tt, s', of_type NUMBER (add_text digits t))
          else if is_char ch "$" then
            let '(nm, s') := span name_char s in
            (Val tt, s', of_type NAME (add_name nm (clear_name t)))
          else if is_char ch "'" || is_char ch (chr 34) then
            let '(v, rest) := read_quoted ch s in
            match rest with
            | Some s' => (Val tt, s', of_type NUMBER (add_text v t))
            | None =>
                (Exc (evaluator_exception (format "invalid expression: {0} expected" [str1 (last_char ch s)])),
                 "", add_text v t)
            end
          else if function_start ch then get_function ch s t
          else (Exc (evaluator_exception (format "unknown expression token '{0}'" [str1 ch])), s, t)
      end
  end.

(** ** The evaluator

[ev] is what the functions share by reference: the stream [in], the token [curr_tok], and the
state [W] of the program. *)
Context {W : Type}.

Record ev := Ev { input : string; curr_tok : token; outer : W }.

Definition set_tok (f : token -> token) (s : ev) : ev := Ev (input s) (f (curr_tok s)) (outer s).

(** The context and the tag factory. *)
Context (get_var : string -> X W string) (call_function : string -> string -> X W string).

Definition on_outer {A} (m : X W A) : X ev A := xzoom outer (fun w s => Ev (input s) (curr_tok s) w) m.

Definition get_token : X ev unit := fun s =>
  let '(o, rest, t) := get_token_of (input s) (curr_tok s) in Ok (o, Ev rest t (outer s), "").

(** [curr_tok.type]; reading it before it was set is undefined. *)
Definition tok : X ev token_type := fun s =>
  match tok_type (curr_tok s) with Some ty => Ok (Val ty, s, "") | None => Crash MemFault end.

Definition bool_str (b : bool) : string := if b then "1" else "0".
Definition not_a_number : exn := evaluator_exception "can't convert the string to a number".

(** [catch (type_conversion_exception &e) { throw evaluator_exception(...); }] *)
Definition catch_conversion {A} (m : X ev A) : X ev A :=
  catch m (fun e => if is_conversion_exception e then throw not_a_number else throw e).

(** [to_string<double>(op(from_string<double>(left), from_string<double>(right)))], where [right]
    is an expression that reads the stream. *)
Definition arith (op : double -> double -> double) (left : string) (right : X ev string) : X ev string :=
  ab <- operands (double_of left) (r <- right ;; double_of r) ;;
  xret (to_string_double (op (fst ab) (snd ab))).

Section levels.
(** The recursive calls of [prim], and a bound for the loops. *)
Context (prim : X ev string) (fuel : nat).

Definition mul_op (ty : token_type) : option (double -> double -> double) :=
  match ty with MUL => Some dmul | DIV => Some ddiv | MOD => Some fmod | PWR => Some pow | _ => None end.
Definition add_op (ty : token_type) : option (double -> double -> double) :=
  match ty with PLUS => Some dadd | MINUS => Some dsub | _ => None end.

(** [for (;;) switch (curr_tok.type) ...] of [term] and [expr]: left associative operators. *)
Fixpoint op_loop (ops : token_type -> option (double -> double -> double)) (operand : X ev string)
    (n : nat) (left : string) : X ev string :=
  match n with
  | O => xnofuel
  | S n =>
      ty <- tok ;;
      match ops ty with
      | Some op => get_token ;;; left <- arith op left operand ;; op_loop ops operand n left
      | None => xret left
      end
  end.

Definition term : X ev string := left <- prim ;; catch_conversion (op_loop mul_op prim fuel left).
Definition expr : X ev string := left <- term ;; catch_conversion (op_loop add_op term fuel left).

(** The relational operators: numbers, or else strings; the handler calls [expr] again. *)
Definition relation_op (ty : token_type) : option ((double -> double -> bool) * (string -> string -> bool)) :=
  match ty with
  | LT => Some (dlt, slt)
  | GT => Some (fun x y => dlt y x, fun s t => slt t s)
  | EQ => Some (deq, seqb)
  | LTEQ => Some (dle, fun s t => negb (slt t s))
  | GTEQ => Some (fun x y => dle y x, fun s t => negb (slt s t))
  | NOTEQ => Some (fun x y => negb (deq x y), fun s t => negb (seqb s t))
  | _ => None
  end.

Definition compare_with (opd : double -> double -> bool) (ops : string -> string -> bool)
    (left : string) : X ev string :=
  catch
    (ab <- operands (double_of left) (r <- expr ;; double_of r) ;; xret (bool_str (opd (fst ab) (snd ab))))
    (fun _ => r <- expr ;; xret (bool_str (ops left r))).

Definition lexpr : X ev string :=
  left <- expr ;;
  ty <- tok ;;
  match ty with
  | AND =>
      get_token ;;;
      (if seqb left "1" then r <- expr ;; xret (bool_str (seqb r "1")) else xret "0")
  | OR =>
      get_token ;;;
      (if seqb left "1" then xret "1" else r <- expr ;; xret (bool_str (seqb r "1")))
  | _ =>
      match relation_op ty with
      | Some (opd, ops) => get_token ;;; compare_with opd ops left
      | None => xret left
      end
  end.
End levels.

(** Reads [f curr_tok] and changes the token by [g]. *)
Definition take_tok (f : token -> string) (g : token -> token) : X ev string := fun s =>
  Ok (Val (f (curr_tok s)), set_tok g s, "").

Fixpoint prim (fuel : nat) : X ev string :=
  match fuel with
  | O => xnofuel
  | S n =>
      ty <- tok ;;
      match ty with
      | FUNC =>
          get_token ;;;
          s <- xget ;;
          rslt <- on_outer (call_function (tok_name (curr_tok s)) (tok_value (curr_tok s))) ;;
          take_tok (fun _ => rslt) clear_value
      | NUMBER => get_token ;;; take_tok tok_value clear_value
      | NAME =>
          get_token ;;;
          rslt <- take_tok tok_name clear_name ;; on_outer (get_var rslt)
      | MINUS =>
          get_token ;;;
          catch_conversion (v <- prim n ;; d <- double_of v ;; xret (to_string_double (dmul (of_Z (-1)) d)))
      | NOT => get_token ;;; v <- prim n ;; xret (bool_str (negb (seqb v "1")))
      | LP =>
          get_token ;;;
          e <- lexpr (prim n) n ;;
          ty <- tok ;;
          if bool_decide (ty = RP) then get_token ;;; xret e
          else throw (evaluator_exception rp_expected)
      | END => xret "1"
      | _ => throw (evaluator_exception "invalid expression: primary expected")
      end
  end.

(** [calc]; an expression of [n] characters has at most [n] tokens. *)
Definition calc_body (fuel : nat) : X ev string :=
  get_token ;;;
  ty <- tok ;;
  if bool_decide (ty = END) then xret "" else lexpr (prim fuel) fuel.

Definition calc_fuel (expression : string) : nat := slen expression + 2.

Definition calc (expression : string) : X W string := fun w =>
  match calc_body (calc_fuel expression) (Ev expression new_token w) with
  | Ok (o, s, out) => Ok (o, outer s, out)
  | Crash f => Crash f
  | NoFuel => NoFuel
  end.

(** The loop of [eval]; [rec] is its recursive call. *)
Fixpoint eval_loop (rec : string -> X W string) (s : string) (prev_ch : ascii) (br_count : Z)
    (curr_expr out : string) : X W string :=
  match s with
  | "" => if br_count =? 0 then xret out else throw (evaluator_exception "unbalanced expression braces found")
  | String ch s' =>
      if is_char prev_ch "\" then eval_loop rec s' ch br_count curr_expr (out +:+ str1 ch)
      else if is_char ch "\" then eval_loop rec s' ch br_count curr_expr out
      else if is_char ch "{" then
        let br_count := br_count + 1 in
        eval_loop rec s' ch br_count (if br_count >? 1 then curr_expr +:+ str1 ch else curr_expr) out
      else if is_char ch "}" then
        let br_count := br_count - 1 in
        if br_count =? 0 then
          e <- rec curr_expr ;; v <- calc e ;; eval_loop rec s' ch br_count "" (out +:+ v)
        else eval_loop rec s' ch br_count (curr_expr +:+ str1 ch) out
      else if br_count >? 0 then eval_loop rec s' ch br_count (curr_expr +:+ str1 ch) out
      else eval_loop rec s' ch br_count curr_expr (out +:+ str1 ch)
  end.

Fixpoint eval_with (fuel : nat) (expression : string) : X W string :=
  match fuel with
  | O => xnofuel
  | S n => eval_loop (eval_with n) expression (chr 0) 0 "" ""
  end.

Definition eval (expression : string) : X W string := eval_with (S (slen expression)) expression.
End evaluator.

(** ** The lexer consumes the stream *)

Lemma skip_space_slen s : (slen (skip_space s) <= slen s)%nat.
Proof. induction s as [|c s IH]; cbn; [lia|]. destruct (_ && _); slen. Qed.

Lemma span_slen p s a b : span p s = (a, b) -> (slen b <= slen s)%nat.
Proof.
  revert a b. induction s as [|c s IH]; intros a b; cbn; [intros [= <- <-]; slen|].
  destruct (p c); [|intros [= <- <-]; slen]. destruct (span p s) as [a' b'] eqn:E. intros [= <- <-].
  specialize (IH _ _ eq_refl). slen.
Qed.

Lemma span_slen_first p c s a b : p c = true -> span p (String c s) = (a, b) -> (slen b <= slen s)%nat.
Proof.
  cbn. intros ->. destruct (span p s) as [a' b'] eqn:E. intros [= <- <-]. by eapply span_slen.
Qed.

Lemma read_parameters_slen br v s : (slen (snd (read_parameters br v s)) <= slen s)%nat.
Proof.
  revert br v. induction s as [|c s IH]; intros br v; cbn; [lia|].
  repeat case_match; cbn; try (etrans; [apply IH|slen]); slen.
Qed.

Lemma read_quoted_slen q s v r : read_quoted q s = (v, Some r) -> (slen r < slen s)%nat.
Proof.
  revert v r. induction s as [|c s IH]; intros v r; cbn; [done|]. destruct (is_char c q).
  - intros [= <- <-]. slen.
  - destruct (read_quoted q s) as [a [b|]] eqn:E; [|done]. intros [= <- <-].
    specialize (IH _ _ eq_refl). slen.
Qed.

Lemma function_char_start c : function_start c = true -> function_char c = true.
Proof.
  unfold function_start, function_char, isalnum. intros H. by destruct (isalpha c), (isdigit c), (is_char c "_").
Qed.

Section lexing.
Context `{Dcl}.

Lemma get_function_slen c s t o rest t' :
  function_char c = true -> get_function c s t = (o, rest, t') -> (slen rest <= slen s)%nat.
Proof.
  intros Hc. unfold get_function. destruct (span function_char (String c s)) as [nm r] eqn:E.
  apply span_slen_first in E; [|done]. destruct r as [|d r]; [intros [= <- <- <-]; slen|].
  rewrite slen_cons in E. destruct (is_char d "("); [|intros [= <- <- <-]; lia].
  pose proof (read_parameters_slen 1 (tok_value (add_name nm t)) r) as Hr.
  destruct (read_parameters _ _ r) as [[br v] r']. cbn in Hr. destruct (negb _); intros [= <- <- <-]; lia.
Qed.

(** A token takes at least one character, unless the stream is at its end. *)
Lemma get_token_of_slen s t o rest t' :
  get_token_of s t = (o, rest, t') ->
  (rest = "" /\ t' = of_type END t) \/ (slen rest < slen s)%nat.
Proof.
  unfold get_token_of. pose proof (skip_space_slen s) as Hs.
  destruct (skip_space s) as [|c r]; [intros [= <- <- <-]; by left|]. rewrite slen_cons in Hs.
  intros E. right. cut (slen rest <= slen r)%nat; [lia|]. clear Hs.
  destruct (simple_token c); [by injection E as <- <- <-|].
  destruct (is_char c "<") eqn:?.
  { repeat case_match; simplify_eq; slen. }
  destruct (is_char c ">") eqn:?.
  { repeat case_match; simplify_eq; slen. }
  destruct (is_char c "!") eqn:?.
  { repeat case_match; simplify_eq; slen. }
  destruct (number_char c) eqn:Hn.
  { destruct (span number_char (String c r)) as [a b] eqn:E2. injection E as <- <- <-.
    by eapply span_slen_first. }
  destruct (is_char c "$").
  { destruct (span name_char r) as [a b] eqn:E2. injection E as <- <- <-. by eapply span_slen. }
  destruct (is_char c "'" || is_char c (chr 34)).
  { destruct (read_quoted c r) as [v [b|]] eqn:E2; injection E as <- <- <-; [|slen].
    apply read_quoted_slen in E2. lia. }
  destruct (function_start c) eqn:Hf; [|by injection E as <- <- <-].
  eapply get_function_slen; [by apply function_char_start|done].
Qed.
End lexing.

(** ** The evaluator ends *)

Section total.
Context `{Dcl, Platform} {W : Type}.
Context (get_var : string -> X W string) (call_function : string -> string -> X W string).
Context (get_var_total : forall nm w, get_var nm w <> NoFuel).
Context (call_function_total : forall nm v w, call_function nm v w <> NoFuel).

(** What is left to read, and whether there is a token to look at. *)
Definition to_read (s : @ev W) : nat :=
  slen (input s) + (if bool_decide (tok_type (curr_tok s) = Some END) then 0 else 1).

(** Has enough fuel, and does not add to what is left. *)
Definition bounded {A} (m : X ev A) (s : ev) : Prop :=
  match m s with
  | NoFuel => False
  | Ok (_, s', _) => (to_read s' <= to_read s)%nat
  | Crash _ => True
  end.

Lemma bounded_bind {A B} (m : X ev A) (k : A -> X ev B) s :
  bounded m s -> (forall a s' out, m s = Ok (Val a, s', out) -> bounded (k a) s') -> bounded (xbind m k) s.
Proof.
  unfold bounded, xbind. destruct (m s) as [[[[a|e] s1] out]| |]; try done. intros Hm Hk.
  specialize (Hk a s1 out eq_refl). destruct (k a s1) as [[[o s2] out2]| |]; cbn; [lia|done..].
Qed.

Lemma bounded_catch {A} (m : X ev A) h s :
  bounded m s -> (forall e s', (to_read s' <= to_read s)%nat -> bounded (h e) s') -> bounded (catch m h) s.
Proof.
  unfold bounded, catch. destruct (m s) as [[[[a|e] s1] out]| |]; try done. intros Hm Hh.
  specialize (Hh e s1 Hm). destruct (h e s1) as [[[o s2] out2]| |]; cbn; [lia|done..].
Qed.

Lemma bounded_after {A B} (m : X ev A) (k : A -> X ev B) s :
  bounded m s -> (forall a s', (to_read s' <= to_read s)%nat -> bounded (k a) s') -> bounded (xbind m k) s.
Proof.
  intros Hm Hk. apply bounded_bind; [done|]. intros a s' out E. apply Hk. unfold bounded in Hm. by rewrite E in Hm.
Qed.

Lemma bounded_ret {A} (a : A) s : bounded (xret a) s.
Proof. unfold bounded. cbn. lia. Qed.
Lemma bounded_throw {A} e s : bounded (throw e : X ev A) s.
Proof. unfold bounded. cbn. lia. Qed.
Lemma bounded_double v s : bounded (double_of v : X ev double) s.
Proof. unfold double_of. destruct (from_string_double v); [apply bounded_ret|apply bounded_throw]. Qed.
Lemma bounded_tok s : bounded tok s.
Proof. unfold bounded, tok. destruct (tok_type (curr_tok s)); [lia|done]. Qed.
Lemma bounded_take f g s :
  (forall t, tok_type (g t) = tok_type t) -> bounded (take_tok f g) s.
Proof. intros Hg. unfold bounded, take_tok, to_read. cbn. rewrite Hg. lia. Qed.

Lemma bounded_outer {A} (m : X W A) s : (forall w, m w <> NoFuel) -> bounded (on_outer m) s.
Proof.
  intros Hm. unfold bounded, on_outer, xzoom. specialize (Hm (outer s)).
  destruct (m (outer s)) as [[[o w] out]| |]; [unfold to_read; cbn; lia|done..].
Qed.

(** [get_token] leaves strictly less to read when there was a token. *)
Lemma get_token_less s o s' out :
  get_token s = Ok (o, s', out) -> tok_type (curr_tok s) <> Some END -> (to_read s' < to_read s)%nat.
Proof.
  unfold get_token. destruct (get_token_of (input s) (curr_tok s)) as [[o' rest] t] eqn:E.
  intros [= <- <- <-] Ht. apply get_token_of_slen in E. unfold to_read. cbn.
  rewrite (bool_decide_false _ Ht). destruct E as [[-> ->]|E]; case_bool_decide as Hd; try slen. by destruct Hd.
Qed.

Lemma bounded_token {A} (k : unit -> X ev A) s :
  tok_type (curr_tok s) <> Some END ->
  (forall s', (to_read s' < to_read s)%nat -> bounded (k tt) s') -> bounded (xbind get_token k) s.
Proof.
  intros Ht Hk. apply bounded_bind.
  - unfold bounded. destruct (get_token s) as [[[o s'] out]| |] eqn:E; [|done|].
    + apply get_token_less in E; [lia|done].
    + revert E. unfold get_token. by destruct (get_token_of _ _) as [[??]?].
  - intros [] s' out E. apply Hk. by eapply get_token_less.
Qed.

(** Looks at the token. *)
Lemma bounded_case {A} (k : token_type -> X ev A) s :
  (forall ty, tok_type (curr_tok s) = Some ty -> bounded (k ty) s) -> bounded (xbind tok k) s.
Proof.
  intros Hk. apply bounded_bind; [apply bounded_tok|]. intros ty s' out. unfold tok.
  destruct (tok_type (curr_tok s)) as [ty'|]; [|done]. intros [= <- <- <-]. by apply Hk.
Qed.

Lemma bounded_operands v (r : X ev string) s :
  bounded r s -> bounded (operands (double_of v) (r <- r ;; double_of r)) s.
Proof.
  intros Hr. assert (bounded (r <- r ;; double_of r) s).
  { apply bounded_after; [done|intros; apply bounded_double]. }
  unfold operands. destruct lhs_first.
  - unfold double_of at 1, of_option. destruct (from_string_double v).
    + apply bounded_bind; [apply bounded_ret|]. intros a s' out [= <- <- <-].
      apply bounded_after; [done|intros; apply bounded_ret].
    + apply bounded_bind; [apply bounded_throw|done].
  - apply bounded_after; [done|]. intros x s' _. apply bounded_after; [apply bounded_double|intros; apply bounded_ret].
Qed.

(** The operands of [op_loop] are evaluated after a token was read. *)
Lemma op_loop_bounded ops (operand : X ev string) k n :
  (forall ty op, ops ty = Some op -> ty <> END) ->
  (forall s, (to_read s < k)%nat -> bounded operand s) -> (k <= n)%nat ->
  forall left s, (to_read s <= k)%nat -> bounded (op_loop ops operand (S n) left) s.
Proof.
  intros Hops Hopd. revert k Hopd. induction n as [|n IH]; intros k Hopd Hk left s Hs;
    (apply bounded_case; intros ty Hty; destruct (ops ty) as [op|] eqn:E; [|apply bounded_ret]);
    pose proof (Hops _ _ E) as HE;
    (apply bounded_token; [congruence|]; intros s1 Hs1).
  - lia.
  - apply bounded_after; [|intros v s2 Hs2; apply (IH (pred k)); intros; try apply Hopd; lia].
    apply bounded_after; [apply bounded_operands, Hopd; lia|intros; apply bounded_ret].
Qed.

Lemma catch_conversion_bounded {A} (m : X ev A) s : bounded m s -> bounded (catch_conversion m) s.
Proof.
  intros Hm. apply bounded_catch; [done|]. intros e s' _. destruct (is_conversion_exception e); apply bounded_throw.
Qed.

Lemma mul_op_END ty op : mul_op ty = Some op -> ty <> END.
Proof. by destruct ty. Qed.
Lemma add_op_END ty op : add_op ty = Some op -> ty <> END.
Proof. by destruct ty. Qed.

Section levels.
Context (p : X (@ev W) string) (k : nat).
Context (p_bounded : forall s, (to_read s <= k)%nat -> bounded p s).

Lemma term_bounded n s : (k <= n)%nat -> (to_read s <= k)%nat -> bounded (term p (S n)) s.
Proof.
  intros Hn Hs. apply bounded_after; [by apply p_bounded|]. intros left s1 Hs1. apply catch_conversion_bounded.
  apply (op_loop_bounded _ _ k); [apply mul_op_END|intros; apply p_bounded; lia|done|lia].
Qed.

Lemma expr_bounded n s : (k <= n)%nat -> (to_read s <= k)%nat -> bounded (expr p (S n)) s.
Proof.
  intros Hn Hs. apply bounded_after; [by apply term_bounded|]. intros left s1 Hs1. apply catch_conversion_bounded.
  apply (op_loop_bounded _ _ k); [apply add_op_END|intros; apply term_bounded; lia|done|lia].
Qed.

Lemma compare_with_bounded opd ops left n s :
  (k <= n)%nat -> (to_read s <= k)%nat -> bounded (compare_with p (S n) opd ops left) s.
Proof.
  intros Hn Hs. apply bounded_catch.
  - apply bounded_after; [apply bounded_operands, expr_bounded; lia|intros; apply bounded_ret].
  - intros e s1 Hs1. apply bounded_after; [apply expr_bounded; lia|intros; apply bounded_ret].
Qed.

Lemma lexpr_bounded n s : (k <= n)%nat -> (to_read s <= k)%nat -> bounded (lexpr p (S n)) s.
Proof.
  intros Hn Hs. apply bounded_after; [by apply expr_bounded|]. intros left s1 Hs1.
  apply bounded_case. intros ty Hty.
  assert (forall opd ops, relation_op ty = Some (opd, ops) -> ty <> END) as Hrel by (by destruct ty).
  assert (forall s2, (to_read s2 < to_read s1)%nat -> bounded (expr p (S n)) s2) as He
    by (intros; apply expr_bounded; lia).
  destruct ty; cbn [relation_op]; try apply bounded_ret; (apply bounded_token; [congruence|]; intros s2 Hs2);
    try (apply compare_with_bounded; lia); destruct (seqb left "1"); try apply bounded_ret;
    (apply bounded_after; [by apply He|intros; apply bounded_ret]).
Qed.
End levels.

Notation prim := (prim get_var call_function).

Lemma prim_bounded n : forall s, (to_read s < n)%nat -> bounded (prim n) s.
Proof.
  induction n as [|n IH]; intros s Hs; [lia|]. cbn [DbExpression.prim]. apply bounded_case. intros ty Hty.
  destruct ty; try apply bounded_throw; try apply bounded_ret;
    (apply bounded_token; [congruence|]; intros s1 Hs1).
  - apply bounded_after; [by apply bounded_take|]. intros. by apply bounded_outer.
  - apply bounded_bind; [unfold bounded; cbn; lia|]. intros a s2 out [= <- <- <-].
    apply bounded_after; [by apply bounded_outer|]. intros. by apply bounded_take.
  - by apply bounded_take.
  - apply catch_conversion_bounded. apply bounded_after; [apply IH; lia|]. intros.
    apply bounded_after; [apply bounded_double|intros; apply bounded_ret].
  - destruct n as [|n]; [lia|].
    apply bounded_after; [apply (lexpr_bounded _ n); [intros; apply IH; lia|lia|lia]|].
    intros e s2 Hs2. apply bounded_case. intros ty Hty2. case_bool_decide; [|apply bounded_throw].
    apply bounded_token; [congruence|]. intros. apply bounded_ret.
  - apply bounded_after; [apply IH; lia|]. intros. apply bounded_ret.
Qed.

Lemma calc_total expression w : calc get_var call_function expression w <> NoFuel.
Proof.
  assert (bounded (calc_body get_var call_function (calc_fuel expression)) (Ev expression new_token w)) as Hb.
  { assert (to_read (Ev expression new_token w) = (slen expression + 1)%nat) as Hr by done.
    apply bounded_token; [done|]. intros s Hs. rewrite Hr in Hs.
    apply bounded_case. intros ty Hty. case_bool_decide; [apply bounded_ret|]. unfold calc_fuel.
    replace (slen expression + 2)%nat with (S (slen expression + 1)) by lia.
    apply (lexpr_bounded _ (slen expression)); [|lia|lia]. intros s' Hs'. apply prim_bounded. lia. }
  unfold calc. unfold bounded in Hb. by destruct (calc_body _ _ _ _) as [[[o s] out]| |].
Qed.
End total.
