(* ===== verification/DbTemplate.v ===== *)
(** * Text with expressions: the theorems on [eval] of [tag_expression.cpp]

    - [eval_total]: enough fuel for every text.
    - [eval_refines]: what [eval] does when the functions it calls get more fuel.
    - [template]: the texts that the language means, characters, quoted characters and expressions in
      (nested) braces, with their meaning [render]; [eval_renders] shows that [eval] of the printed
      template gives it. *)

From S2P Require Import Prelude DbLang DbExpression.

Section eval.
Context `{Dcl, Platform} {W : Type}.
Context (get_var : string -> X W string) (call_function : string -> string -> X W string).

Notation calc := (calc get_var call_function).
Notation eval_loop := (eval_loop get_var call_function).
Notation eval_with := (eval_with get_var call_function).
Notation eval := (eval get_var call_function).

(** The loop looks at its recursive call only for texts that are shorter than its own. *)
Lemma eval_loop_ext (rec rec' : string -> X W string) L s prev br curr out w :
  (forall e w, (slen e < L)%nat -> rec e w = rec' e w) -> (slen curr + slen s <= L)%nat ->
  eval_loop rec s prev br curr out w = eval_loop rec' s prev br curr out w.
Proof.
  intros Hrec. revert prev br curr out w. induction s as [|c s IH]; intros prev br curr out w HL; [done|].
  cbn [DbExpression.eval_loop]. repeat case_match; try (apply IH; slen).
  unfold xbind. rewrite Hrec by slen. destruct (rec' curr w) as [[[[e|e] w1] t]| |]; try done.
  destruct (calc e w1) as [[[[v|v] w2] u]| |]; try done. by rewrite IH by slen.
Qed.

Lemma eval_with_fuel n m e w : (slen e < n)%nat -> (slen e < m)%nat -> eval_with n e w = eval_with m e w.
Proof.
  revert m e w. induction n as [|n IH]; intros [|m] e w Hn Hm; try lia. cbn [DbExpression.eval_with].
  apply (eval_loop_ext _ _ (slen e)); [|slen]. intros e' w' He'. apply IH; lia.
Qed.

Lemma eval_unfold e w : eval e w = eval_loop eval e (chr 0) 0 "" "" w.
Proof.
  change (eval e w) with (eval_with (S (slen e)) e w). cbn [DbExpression.eval_with].
  apply (eval_loop_ext _ _ (slen e)); [|slen]. intros e' w' He'.
  change (eval e' w') with (eval_with (S (slen e')) e' w'). apply eval_with_fuel; lia.
Qed.

(** ** Termination *)

Lemma eval_loop_total (rec : string -> X W string) L s prev br curr out w :
  (forall nm w, get_var nm w <> NoFuel) -> (forall nm v w, call_function nm v w <> NoFuel) ->
  (forall e w, (slen e < L)%nat -> rec e w <> NoFuel) -> (slen curr + slen s <= L)%nat ->
  eval_loop rec s prev br curr out w <> NoFuel.
Proof.
  intros Hv Hf Hrec. revert prev br curr out w. induction s as [|c s IH]; intros prev br curr out w HL.
  { cbn. by case_match. }
  cbn [DbExpression.eval_loop]. repeat case_match; try (apply IH; slen).
  unfold xbind. pose proof (Hrec curr w ltac:(slen)) as Hr.
  destruct (rec curr w) as [[[[e|e] w1] t]| |]; try done. pose proof (calc_total _ _ Hv Hf e w1) as Hc.
  destruct (calc e w1) as [[[[v|v] w2] u]| |]; try done. pose proof (IH c (br - 1) "" (out +:+ v) w2 ltac:(slen)) as Hi.
  by destruct (eval_loop _ _ _ _ _ _ _) as [[[??]?]| |].
Qed.

(** C34: [eval] of any text, and [calc] of any expression, end when the context and the functions
    that it calls do: their fuel, a bound from the length of the text, is enough. *)
Theorem eval_total e w :
  (forall nm w, get_var nm w <> NoFuel) -> (forall nm v w, call_function nm v w <> NoFuel) ->
  eval e w <> NoFuel /\ calc e w <> NoFuel.
Proof.
  intros Hv Hf. split; [|by apply calc_total]. unfold DbExpression.eval.
  cut (forall n e w, (slen e < n)%nat -> eval_with n e w <> NoFuel); [intros Hn; apply Hn; lia|].
  clear e w. induction n as [|n IH]; intros e w Hn; [lia|]. cbn [DbExpression.eval_with].
  apply (eval_loop_total _ (slen e)); [done..| |slen]. intros e' w' He'. apply IH. lia.
Qed.
End eval.

(** ** Templates *)

Inductive template :=
  | TNil
  | TChar (c : ascii) (t : template)
  | TQuoted (c : ascii) (t : template)
  | TCode (inner t : template).

Fixpoint print (t : template) : string :=
  match t with
  | TNil => ""
  | TChar c t => String c (print t)
  | TQuoted c t => String "\" (String c (print t))
  | TCode i t => String "{" (print i +:+ String "}" (print t))
  end.

Definition plain_char (c : ascii) : bool := negb (is_char c "{" || is_char c "}" || is_char c "\").

(** A character is quoted outside of expressions only ([top]), and a backslash cannot be quoted. *)
Fixpoint well_formed (top : bool) (t : template) : bool :=
  match t with
  | TNil => true
  | TChar c t => plain_char c && well_formed top t
  | TQuoted c t => top && negb (is_char c "\") && well_formed top t
  | TCode i t => well_formed false i && well_formed top t
  end.

Lemma well_formed_top t : well_formed false t = true -> well_formed true t = true.
Proof.
  induction t as [|c t IH|c t IH|i IHi t IH]; cbn; [done| |done|]; intros [? ?]%andb_true_iff;
    apply andb_true_iff; auto.
Qed.

Lemma plain_char_spec c :
  plain_char c = true -> is_char c "{" = false /\ is_char c "}" = false /\ is_char c "\" = false.
Proof. unfold plain_char. by destruct (is_char c "{"), (is_char c "}"), (is_char c "\"). Qed.

Section render.
Context `{Dcl, Platform} {W : Type}.
Context (get_var : string -> X W string) (call_function : string -> string -> X W string).

Notation calc := (calc get_var call_function).
Notation eval_loop := (eval_loop get_var call_function).
Notation eval := (eval get_var call_function).

(** The text of a template: an expression is rendered, inner braces first, and calculated. *)
Fixpoint render (t : template) : X W string :=
  match t with
  | TNil => xret ""
  | TChar c t | TQuoted c t => r <- render t ;; xret (String c r)
  | TCode i t => e <- render i ;; v <- calc e ;; r <- render t ;; xret (v +:+ r)
  end.

(** Inside braces the text is collected as it is. *)
Lemma eval_loop_collect rec t : well_formed false t = true ->
  forall rest prev br curr out, is_char prev "\" = false -> 0 < br ->
  exists prev', is_char prev' "\" = false /\
    eval_loop rec (print t +:+ rest) prev br curr out = eval_loop rec rest prev' br (curr +:+ print t) out.
Proof.
  induction t as [|c t IH|c t IH|i IHi t IH]; intros Hwf rest prev br curr out Hp Hbr; cbn in Hwf; [| |done|].
  - exists prev. cbn. by rewrite sapp_nil_r.
  - apply andb_true_iff in Hwf as [Hc Hwf]. apply plain_char_spec in Hc as (Hc1 & Hc2 & Hc3).
    destruct (IH Hwf rest c br (curr +:+ str1 c) out Hc3 Hbr) as (prev' & Hp' & E). exists prev'. split; [done|].
    cbn [print]. rewrite sapp_cons. cbn [DbExpression.eval_loop]. rewrite Hp, Hc1, Hc2, Hc3.
    rewrite (proj2 (Z.gtb_lt br 0)) by lia. rewrite E. by rewrite <- sapp_assoc.
  - apply andb_true_iff in Hwf as [Hwi Hwf].
    destruct (IHi Hwi (String "}" (print t +:+ rest)) "{"%char (br + 1) (curr +:+ "{") out eq_refl ltac:(lia))
      as (p1 & Hp1 & E1).
    destruct (IH Hwf rest "}"%char br ((curr +:+ "{") +:+ print i +:+ "}") out eq_refl Hbr) as (p2 & Hp2 & E2).
    exists p2. split; [done|]. cbn [print]. rewrite sapp_cons, <- sapp_assoc, sapp_cons. cbn [DbExpression.eval_loop].
    rewrite Hp. cbn [is_char]. rewrite (proj2 (Z.gtb_lt (br + 1) 1)) by lia.
    change (is_char "{" "\") with false. change (is_char "{" "{") with true. cbn iota zeta beta.
    unfold str1. rewrite E1. cbn [DbExpression.eval_loop]. rewrite Hp1.
    change (is_char "}" "\") with false. change (is_char "}" "{") with false. change (is_char "}" "}") with true.
    cbn iota zeta beta. replace (br + 1 - 1) with br by lia. rewrite (proj2 (Z.eqb_neq br 0)) by lia.
    unfold str1 in *. rewrite <- !sapp_assoc in *. by rewrite E2.
Qed.

Lemma is_char_eq c d : is_char c d = true -> c = d.
Proof. unfold is_char. by rewrite bool_decide_eq_true. Qed.

Lemma eval_loop_render t : well_formed true t = true ->
  forall prev out w, is_char prev "\" = false ->
  eval_loop eval (print t) prev 0 "" out w = (r <- render t ;; xret (out +:+ r)) w.
Proof.
  induction t as [|c t IH|c t IH|i IHi t IH]; intros Hwf prev out w Hp; cbn [well_formed] in Hwf.
  - cbn. by rewrite sapp_nil_r.
  - apply andb_true_iff in Hwf as [Hc Hwf]. apply plain_char_spec in Hc as (Hc1 & Hc2 & Hc3).
    cbn [print DbExpression.eval_loop]. rewrite Hp, Hc1, Hc2, Hc3. cbn [Z.gtb Z.compare].
    rewrite IH by done. cbn [render]. rewrite xbind_assoc. apply xbind_ext. intros r w'.
    by rewrite xbind_ret, <- sapp_assoc.
  - apply andb_true_iff in Hwf as [[_ Hc]%andb_true_iff Hwf]. apply negb_true_iff in Hc.
    cbn [print DbExpression.eval_loop]. rewrite Hp. change (is_char "\" "\") with true. cbn iota.
    rewrite IH by done. cbn [render]. rewrite xbind_assoc. apply xbind_ext. intros r w'.
    by rewrite xbind_ret, <- sapp_assoc.
  - apply andb_true_iff in Hwf as [Hwi Hwf].
    destruct (eval_loop_collect eval i Hwi (String "}" (print t)) "{"%char 1 "" out eq_refl ltac:(lia))
      as (p1 & Hp1 & E1).
    cbn [print DbExpression.eval_loop]. rewrite Hp.
    change (is_char "{" "\") with false. change (is_char "{" "{") with true. cbn iota zeta beta.
    change (0 + 1) with 1. change (1 >? 1) with false. cbn iota. rewrite E1.
    cbn [DbExpression.eval_loop]. rewrite Hp1. change (is_char "}" "\") with false.
    change (is_char "}" "{") with false. change (is_char "}" "}") with true. cbn iota zeta beta.
    change (1 - 1 =? 0) with true. cbn iota. cbn [render]. rewrite xbind_assoc, sapp_nil_l.
    assert (forall w, eval (print i) w = render i w) as Hi.
    { intros w1. rewrite eval_unfold, IHi; [|by apply well_formed_top|done].
      rewrite <- (xbind_ret_r (render i)). by apply xbind_ext. }
    rewrite (xbind_eq _ _ _ _ (Hi w)). apply xbind_ext. intros e w1. rewrite xbind_assoc.
    apply xbind_ext. intros v w2. change (1 - 1) with 0. rewrite IH by done.
    rewrite xbind_assoc. apply xbind_ext. intros r w3. by rewrite xbind_ret, <- sapp_assoc.
Qed.

(** C20: [eval] of the text of a template gives what the template means: characters and quoted
    characters as they are, and each expression in braces, its nested braces evaluated first, replaced
    by its value, from left to right. *)
Theorem eval_renders t w : well_formed true t = true -> eval (print t) w = render t w.
Proof.
  intros Hwf. rewrite eval_unfold, (eval_loop_render t) by done.
  rewrite <- (xbind_ret_r (render t)). by apply xbind_ext.
Qed.
End render.

(** A quoted backslash quotes the next character too. *)
Example backslash_quotes_twice `{Dcl, Platform} (gv : string -> X unit string) cf :
  eval gv cf "\\{a}" tt = Ok (Exc (evaluator_exception "unbalanced expression braces found"), tt, "").
Proof. reflexivity. Qed.

(** A quoted character in an expression leaves the expression. *)
Example quoted_inside `{Dcl, Platform} (gv : string -> X unit string) cf :
  eval gv cf "{'a\'b'}" tt = Ok (Val "'ab", tt, "").
Proof. reflexivity. Qed.

(** ** More fuel for the functions *)

Section refines.
Context `{Dcl, Platform} {W : Type}.
Context (gv : string -> X W string) (cf cf' : string -> string -> X W string).
Context (cf_refines : forall nm v, refines (cf nm v) (cf' nm v)).

Lemma refines_catch_conversion {A} (m m' : X (@ev W) A) :
  refines m m' -> refines (catch_conversion m) (catch_conversion m').
Proof. intros Hm. by apply refines_catch. Qed.

(** The evaluator has fuel of its own, which may grow too. *)
Lemma refines_op_loop ops (p p' : X (@ev W) string) n n' v :
  refines p p' -> (n <= n')%nat -> refines (op_loop ops p n v) (op_loop ops p' n' v).
Proof.
  intros Hp. revert n' v. induction n as [|n IH]; intros [|n'] v Hn; [done|by left|lia|]. cbn. unfold arith.
  refines. apply IH. lia.
Qed.

Lemma refines_lexpr (p p' : X (@ev W) string) n n' :
  refines p p' -> (n <= n')%nat -> refines (lexpr p n) (lexpr p' n').
Proof.
  intros Hp Hn.
  assert (refines (expr p n) (expr p' n')) as He.
  { assert (refines (term p n) (term p' n')) as Ht.
    { apply refines_bind; [done|]. intros left. by apply refines_catch_conversion, refines_op_loop. }
    apply refines_bind; [done|]. intros left. by apply refines_catch_conversion, refines_op_loop. }
  apply refines_bind; [done|]. intros left. unfold compare_with. refines.
Qed.

#[local] Hint Resolve refines_catch_conversion refines_op_loop refines_lexpr : refines.

Lemma refines_prim n n' : (n <= n')%nat -> refines (prim gv cf n) (prim gv cf' n').
Proof.
  revert n'. induction n as [|n IH]; intros [|n'] Hn; [done|by left|lia|]. cbn. unfold on_outer.
  assert (n <= n')%nat by lia. pose proof (IH n' ltac:(done)). refines.
Qed.
#[local] Hint Resolve refines_prim : refines.

Lemma refines_calc_body n n' : (n <= n')%nat -> refines (calc_body gv cf n) (calc_body gv cf' n').
Proof. intros Hn. unfold calc_body. refines. Qed.

Lemma refines_calc e : refines (calc gv cf e) (calc gv cf' e).
Proof.
  intros w. unfold calc.
  pose proof (refines_calc_body (calc_fuel e) (calc_fuel e) ltac:(done)) as Hc.
  destruct (Hc (Ev e new_token w)) as [->| ->]; [by left|by right].
Qed.

Lemma refines_eval_loop (rec rec' : string -> X W string) s prev br curr out :
  (forall e, refines (rec e) (rec' e)) ->
  refines (eval_loop gv cf rec s prev br curr out) (eval_loop gv cf' rec' s prev br curr out).
Proof.
  intros Hrec. revert prev br curr out. induction s as [|c s IH]; intros prev br curr out; cbn; [done|].
  repeat case_match; try apply IH. apply refines_bind; [apply Hrec|intros e]. apply refines_bind; [apply refines_calc|].
  intros v. apply IH.
Qed.

Lemma refines_eval e : refines (eval gv cf e) (eval gv cf' e).
Proof.
  unfold eval. generalize (S (slen e)) as n. intros n. revert e. induction n as [|n IH]; intros e; [done|].
  by apply refines_eval_loop.
Qed.
End refines.
#[export] Hint Resolve refines_eval : refines.

(** ** The state of the program *)

Section keeps.
Context `{Dcl, Platform} {W : Type} (F : frame W) `{!FrameLaws F} (F_fault : f_fault F MemFault).
Context (gv : string -> X W string) (cf : string -> string -> X W string).
Context (gv_keeps : forall nm, keeps F (gv nm)) (cf_keeps : forall nm v, keeps F (cf nm v)).

Definition outer_frame : frame (@ev W) :=
  Frame (fun s => f_inv F (outer s)) (fun s s' => f_rel F (outer s) (outer s')) (f_fault F).

#[local] Instance outer_frame_laws : FrameLaws outer_frame.
Proof.
  split; [split|]; cbn.
  - intros s. cbn. reflexivity.
  - intros s1 s2 s3 ? ?. cbn in *. by etrans.
  - intros s s' ? ?. by eapply f_inv_rel.
Qed.

Lemma keeps_get_token : keeps outer_frame get_token.
Proof. intros s _. unfold get_token. destruct (get_token_of _ _) as [[??]?]. cbn. reflexivity. Qed.
Lemma keeps_tok : keeps outer_frame tok.
Proof. intros s _. unfold tok. destruct (tok_type _); [cbn; reflexivity|done]. Qed.
Lemma keeps_take f g : keeps outer_frame (take_tok f g).
Proof. intros s _. cbn. reflexivity. Qed.
Lemma keeps_double v : keeps outer_frame (double_of v).
Proof. unfold double_of. auto with keeps typeclass_instances. Qed.
Lemma keeps_outer {A} (m : X W A) : keeps F m -> keeps outer_frame (on_outer m).
Proof.
  intros Hm s Hs. specialize (Hm (outer s) Hs). unfold on_outer, xzoom. by destruct (m (outer s)) as [[[o1 w1] t]| |].
Qed.
#[local] Hint Resolve keeps_get_token keeps_tok keeps_take keeps_double keeps_outer : keeps.

Lemma keeps_catch_conversion {A} (m : X (@ev W) A) : keeps outer_frame m -> keeps outer_frame (catch_conversion m).
Proof. intros Hm. unfold catch_conversion. keeps. Qed.
#[local] Hint Resolve keeps_catch_conversion : keeps.

Lemma keeps_op_loop ops (p : X (@ev W) string) n v : keeps outer_frame p -> keeps outer_frame (op_loop ops p n v).
Proof. intros Hp. revert v. induction n as [|n IH]; intros v; cbn; unfold arith; keeps. Qed.
#[local] Hint Resolve keeps_op_loop : keeps.

Lemma keeps_lexpr (p : X (@ev W) string) n : keeps outer_frame p -> keeps outer_frame (lexpr p n).
Proof.
  intros Hp. assert (keeps outer_frame (term p n)) as Ht by (unfold term; keeps).
  assert (keeps outer_frame (expr p n)) as He by (unfold expr; keeps).
  unfold lexpr, compare_with. keeps.
Qed.
#[local] Hint Resolve keeps_lexpr : keeps.

Lemma keeps_prim n : keeps outer_frame (prim gv cf n).
Proof. induction n as [|n IH]; cbn; keeps. Qed.
#[local] Hint Resolve keeps_prim : keeps.

Lemma keeps_calc e : keeps F (calc gv cf e).
Proof.
  assert (keeps outer_frame (calc_body gv cf (calc_fuel e))) as Hb by (unfold calc_body; keeps).
  intros w Hw. specialize (Hb (Ev e new_token w) Hw). unfold calc.
  by destruct (calc_body _ _ _ _) as [[[o1 s] t]| |].
Qed.

Lemma keeps_eval e : keeps F (eval gv cf e).
Proof.
  unfold eval. generalize (S (slen e)) as n. intros n. revert e. induction n as [|n IH]; intros e; [done|].
  cbn. assert (forall prev br curr out, keeps F (eval_loop gv cf (eval_with gv cf n) e prev br curr out)) as Hl.
  { induction e as [|c e IHe]; intros prev br curr out; cbn; [keeps|]. repeat case_match; try apply IHe.
    apply keeps_bind; [done|apply IH|]. intros v. apply keeps_bind; [done|apply keeps_calc|]. intros u. apply IHe. }
  apply Hl.
Qed.
End keeps.
#[export] Hint Resolve keeps_eval : keeps.
