(* ===== verification/DbGrammar.v ===== *)
(** * A reference semantics for expressions

    The language of expressions as a grammar with a compositional meaning, and the theorem that [calc]
    of DbExpression.v gives it.
    - Tokens: [lexes s ts] says that the text [s] spells the tokens [ts], with blanks between them, and
      characters that end a number, a name or an operator where one could go on.
    - Syntax: primaries, products ([mul_e], left associative; [^] is one of its operators), sums
      ([add_e]), one comparison at most ([rel_e]), and at the top one [&] or [|] ([top_e]).
    - What the evaluator computes ([top_den]): a value, or a failed conversion to a number ([NotNumber]).
      The rest is [Unspecified] here: it depends on the compiler's order of evaluation, or the handler
      of a comparison evaluates the right operand a second time, on what follows it.
    - What the documentation says ([documented]), in doc/guide/users_guide/lang_vars.ru.xml: the value of
      an expression, where the evaluator does not depart from it, as it does for logical operands that
      are not written 0 or 1. *)

From S2P Require Import Prelude DbLang DbExpression DbTemplate.

(** ** Tokens *)

Inductive tk :=
  | TNum (v : string)
  | TStr (v : string)
  | TVar (nm : string)
  | TOp (ty : token_type).

Definition digit_or_point (c : ascii) : bool := isdigit c || is_char c ".".
Definition name_letter (c : ascii) : bool := isalnum c || is_char c "_" || is_char c "-".

Fixpoint sall (p : ascii -> bool) (s : string) : bool :=
  match s with "" => true | String c s' => p c && sall p s' end.

Definition first_not (p : ascii -> bool) (s : string) : bool :=
  match s with "" => true | String c _ => negb (p c) end.

Definition blank (s : string) : bool := sall (fun c => isspace c && negb (is_char c (chr 10))) s.

(** The ways to write an operator. *)
Definition symbols (ty : token_type) : list string :=
  match ty with
  | PLUS => ["+"] | MINUS => ["-"] | MUL => ["*"] | DIV => ["/"] | MOD => ["%"] | PWR => ["^"]
  | LP => ["("] | RP => [")"] | LT => ["<"] | GT => [">"] | EQ => ["="] | LTEQ => ["<="] | GTEQ => [">="]
  | NOTEQ => ["<>"; "!="] | AND => ["&"] | OR => ["|"] | NOT => ["!"]
  | NAME | FUNC | NUMBER | END => []
  end.

Definition spells (t : tk) (s : string) : Prop :=
  match t with
  | TNum v => s = v /\ v <> "" /\ sall digit_or_point v = true
  | TStr v => exists q, (q = "'"%char \/ q = chr 34) /\ s = String q (v +:+ str1 q) /\
                sall (fun c => negb (is_char c q)) v = true
  | TVar nm => s = String "$" nm /\ sall name_letter nm = true
  | TOp ty => s ∈ symbols ty
  end.

(** What may follow the token without a blank. *)
Definition ends (t : tk) (rest : string) : bool :=
  match t with
  | TNum _ => first_not digit_or_point rest
  | TVar _ => first_not name_letter rest
  | TOp LT => negb (is_empty rest) && first_not (fun c => is_char c "=" || is_char c ">") rest
  | TOp GT | TOp NOT => first_not (fun c => is_char c "=") rest
  | _ => true
  end.

Inductive lexes : string -> list tk -> Prop :=
  | lexes_end s : blank s = true -> lexes s []
  | lexes_token b t s rest ts :
      blank b = true -> spells t s -> ends t rest = true -> lexes rest ts -> lexes (b +:+ s +:+ rest) (t :: ts).

(** The token that the lexer makes of it. *)
Definition load (t : tk) (tok : token) : token :=
  match t with
  | TNum v | TStr v => of_type NUMBER (add_text v tok)
  | TVar nm => of_type NAME (add_name nm (clear_name tok))
  | TOp ty => of_type ty tok
  end.

Lemma skip_space_blank b s : blank b = true -> skip_space (b +:+ s) = skip_space s.
Proof.
  unfold blank. induction b as [|c b IH]; [done|]. cbn [sall]. intros [Hc Hb]%andb_true_iff.
  rewrite sapp_cons. cbn [skip_space]. apply andb_true_iff in Hc as [-> ->]. by apply IH.
Qed.

Lemma blank_skip b : blank b = true -> skip_space b = "".
Proof. intros Hb. rewrite <- (sapp_nil_r b). by rewrite skip_space_blank. Qed.

Lemma span_all p v rest : sall p v = true -> first_not p rest = true -> span p (v +:+ rest) = (v, rest).
Proof.
  induction v as [|c v IH]; cbn [sall].
  - intros _ Hr. destruct rest as [|d rest]; [done|]. cbn in Hr. rewrite sapp_nil_l. cbn. by destruct (p d).
  - intros [Hc Hv]%andb_true_iff Hr. rewrite sapp_cons. cbn [span]. rewrite Hc. by rewrite IH.
Qed.

Lemma read_quoted_all q v rest :
  sall (fun c => negb (is_char c q)) v = true -> read_quoted q (v +:+ String q rest) = (v, Some rest).
Proof.
  induction v as [|c v IH]; cbn [sall].
  - intros _. rewrite sapp_nil_l. cbn. unfold is_char. by rewrite bool_decide_true.
  - intros [Hc Hv]%andb_true_iff. rewrite sapp_cons. cbn [read_quoted]. apply negb_true_iff in Hc as ->.
    by rewrite IH.
Qed.

(** A first character of a number goes past the other cases of the lexer. *)
Lemma number_char_other c : number_char c = true ->
  simple_token c = None /\ is_char c "<" = false /\ is_char c ">" = false /\ is_char c "!" = false /\
  isspace c = false.
Proof.
  intros Hc.
  assert ((negb (number_char c) || (bool_decide (simple_token c = None) && negb (is_char c "<") && negb (is_char c ">")
            && negb (is_char c "!") && negb (isspace c))) = true) as H.
  { clear Hc. revert c. apply ascii_all. vm_compute. done. }
  rewrite Hc in H. cbn in H. rewrite !andb_true_iff, !negb_true_iff, bool_decide_eq_true in H. tauto.
Qed.

Section lexer.
Context `{Dcl}.

Lemma get_token_end s t : blank s = true -> get_token_of s t = (Val tt, "", of_type END t).
Proof. intros Hs. unfold get_token_of. by rewrite blank_skip. Qed.

(** The lexer reads what the tokens spell. *)
Lemma get_token_lexes s t tok ts :
  lexes s (t :: ts) -> exists rest, get_token_of s tok = (Val tt, rest, load t tok) /\ lexes rest ts.
Proof.
  inversion 1 as [|b t' txt rest ts' Hb Hs He Hl]; subst. exists rest. split; [|done].
  unfold get_token_of. rewrite skip_space_blank by done.
  destruct t as [v|v|nm|ty]; cbn [spells ends] in *; change digit_or_point with number_char in *; change name_letter with name_char in *.
  - destruct Hs as (-> & Hne & Hv). destruct v as [|c v]; [done|].
    assert (number_char c = true) as Hc by (by apply andb_true_iff in Hv as [? _]).
    apply number_char_other in Hc as Hcs. destruct Hcs as (Hc1 & Hc2 & Hc3 & Hc4 & Hc5).
    pose proof (span_all _ _ _ Hv He) as Hsp. rewrite sapp_cons in *. cbn [skip_space].
    by rewrite Hc5, andb_false_r, Hc1, Hc2, Hc3, Hc4, Hc, Hsp.
  - destruct Hs as (q & Hq & -> & Hv). pose proof (read_quoted_all q v rest Hv) as Hr.
    rewrite sapp_cons, <- sapp_assoc. change (str1 q +:+ rest) with (String q rest).
    revert Hr. generalize (v +:+ String q rest) as u. intros u Hr.
    destruct Hq as [-> | ->]; lazy -[read_quoted of_type add_text] in Hr |- *; by rewrite Hr.
  - destruct Hs as [-> Hv]. pose proof (span_all _ _ _ Hv He) as Hsp. rewrite sapp_cons.
    revert Hsp. generalize (nm +:+ rest) as u. intros u Hsp. lazy -[span name_char of_type add_name clear_name] in Hsp |- *. by rewrite Hsp.
  - destruct ty; cbn in Hs; rewrite ?list_elem_of_singleton in Hs; try (by set_solver); try (subst; done).
    + subst. destruct rest as [|c rest]; [done|]. cbn in He |- *. apply negb_true_iff, orb_false_iff in He as [H1 H2].
      destruct c as [[] [] [] [] [] [] [] []]; try done.
    + subst. destruct rest as [|c rest]; [done|]. cbn in He |- *. apply negb_true_iff in He.
      destruct c as [[] [] [] [] [] [] [] []]; try done.
    + subst. destruct rest as [|c rest]; [done|]. cbn in He |- *. apply negb_true_iff in He.
      destruct c as [[] [] [] [] [] [] [] []]; try done.
Qed.
End lexer.

(** ** Syntax *)

Inductive prim_e :=
  | PNum (v : string)
  | PStr (v : string)
  | PVar (nm : string)
  | PNeg (p : prim_e)
  | PNot (p : prim_e)
  | PParen (r : rel_e)
with mul_e :=
  | MPrim (p : prim_e)
  | MOp (l : mul_e) (ty : token_type) (p : prim_e)
with add_e :=
  | AMul (m : mul_e)
  | AOp (l : add_e) (ty : token_type) (m : mul_e)
with rel_e :=
  | RAdd (a : add_e)
  | ROp (l : add_e) (ty : token_type) (r : add_e).

Inductive top_e :=
  | ERel (r : rel_e)
  | EAnd (l r : add_e)
  | EOr (l r : add_e).

Scheme prim_ind' := Induction for prim_e Sort Prop
  with mul_ind' := Induction for mul_e Sort Prop
  with add_ind' := Induction for add_e Sort Prop
  with rel_ind' := Induction for rel_e Sort Prop.
Combined Scheme grammar_ind from prim_ind', mul_ind', add_ind', rel_ind'.

Fixpoint prim_toks (p : prim_e) : list tk :=
  match p with
  | PNum v => [TNum v]
  | PStr v => [TStr v]
  | PVar nm => [TVar nm]
  | PNeg p => TOp MINUS :: prim_toks p
  | PNot p => TOp NOT :: prim_toks p
  | PParen r => TOp LP :: rel_toks r ++ [TOp RP]
  end
with mul_toks (m : mul_e) : list tk :=
  match m with
  | MPrim p => prim_toks p
  | MOp l ty p => mul_toks l ++ TOp ty :: prim_toks p
  end
with add_toks (a : add_e) : list tk :=
  match a with
  | AMul m => mul_toks m
  | AOp l ty m => add_toks l ++ TOp ty :: mul_toks m
  end
with rel_toks (r : rel_e) : list tk :=
  match r with
  | RAdd a => add_toks a
  | ROp l ty r => add_toks l ++ TOp ty :: add_toks r
  end.

Definition top_toks (e : top_e) : list tk :=
  match e with
  | ERel r => rel_toks r
  | EAnd l r => add_toks l ++ TOp AND :: add_toks r
  | EOr l r => add_toks l ++ TOp OR :: add_toks r
  end.

(** ** What the evaluator computes *)

Inductive meaning :=
  | Value (v : string)
  | NotNumber
  | Unspecified.

Definition digit (b : bool) : string := if b then "1" else "0".

(** What [f] makes of a value. *)
Definition then_value (r : meaning) (f : string -> meaning) : meaning :=
  match r with Value v => f v | m => m end.

Lemma then_value_Value r : then_value r Value = r.
Proof. by destruct r. Qed.

Section meaning.
Context `{Dcl, Platform}.
Context (vars : string -> string).

(** An operation on two numbers. *)
Definition arith_meaning (op : option (double -> double -> double)) (l r : meaning) : meaning :=
  match op, l, r with
  | None, _, _ | _, Unspecified, _ | _, _, Unspecified => Unspecified
  | Some op, Value a, Value b =>
      match from_string_double a, from_string_double b with
      | Some x, Some y => Value (to_string_double (op x y))
      | _, _ => NotNumber
      end
  | _, _, _ => NotNumber
  end.

(** A comparison of two numbers, or of two strings when the left one is not a number and is looked at
    first. *)
Definition compare_meaning (op : option ((double -> double -> bool) * (string -> string -> bool)))
    (l r : meaning) : meaning :=
  match op, l, r with
  | None, _, _ => Unspecified
  | Some _, NotNumber, _ => NotNumber
  | Some (opd, ops), Value a, Value b =>
      match from_string_double a, from_string_double b with
      | Some x, Some y => Value (digit (opd x y))
      | None, _ => if lhs_first then Value (digit (ops a b)) else Unspecified
      | Some _, None => Unspecified
      end
  | _, _, _ => Unspecified
  end.

Fixpoint prim_den (p : prim_e) : meaning :=
  match p with
  | PNum v | PStr v => Value v
  | PVar nm => Value (vars nm)
  | PNeg p =>
      then_value (prim_den p) (fun v =>
        match from_string_double v with
        | Some d => Value (to_string_double (dmul (of_Z (-1)) d))
        | None => NotNumber
        end)
  | PNot p => then_value (prim_den p) (fun v => Value (bool_str (negb (seqb v "1"))))
  | PParen r => rel_den r
  end
with mul_den (m : mul_e) : meaning :=
  match m with
  | MPrim p => prim_den p
  | MOp l ty p => arith_meaning (mul_op ty) (mul_den l) (prim_den p)
  end
with add_den (a : add_e) : meaning :=
  match a with
  | AMul m => mul_den m
  | AOp l ty m => arith_meaning (add_op ty) (add_den l) (mul_den m)
  end
with rel_den (r : rel_e) : meaning :=
  match r with
  | RAdd a => add_den a
  | ROp l ty r => compare_meaning (relation_op ty) (add_den l) (add_den r)
  end.

Lemma mul_den_op l ty p : mul_den (MOp l ty p) = arith_meaning (mul_op ty) (mul_den l) (prim_den p).
Proof. done. Qed.
Lemma add_den_op l ty m : add_den (AOp l ty m) = arith_meaning (add_op ty) (add_den l) (mul_den m).
Proof. done. Qed.
Lemma rel_den_op l ty r : rel_den (ROp l ty r) = compare_meaning (relation_op ty) (add_den l) (add_den r).
Proof. done. Qed.
Lemma not_den p :
  prim_den (PNot p) = then_value (prim_den p) (fun v => Value (bool_str (negb (seqb v "1")))).
Proof. done. Qed.

(** The right operand of [&] and [|] is evaluated when the left one does not decide. *)
Definition top_den (e : top_e) : meaning :=
  match e with
  | ERel r => rel_den r
  | EAnd l r =>
      then_value (add_den l) (fun a =>
        if seqb a "1" then then_value (add_den r) (fun b => Value (bool_str (seqb b "1"))) else Value "0")
  | EOr l r =>
      then_value (add_den l) (fun a =>
        if seqb a "1" then Value "1" else then_value (add_den r) (fun b => Value (bool_str (seqb b "1"))))
  end.
End meaning.

(** ** The evaluator gives the meaning *)

Section correct.
Context `{Dcl, Platform} {W : Type}.
Context (gv : string -> X W string) (cf : string -> string -> X W string) (w0 : W) (vars : string -> string).
Context (gv_vars : forall nm, gv nm w0 = Ok (Val (vars nm), w0, "")).

Definition tk_type (t : tk) : token_type :=
  match t with TNum _ | TStr _ => NUMBER | TVar _ => NAME | TOp ty => ty end.
Definition tk_val (t : tk) : string := match t with TNum v | TStr v => v | _ => "" end.
Definition head_type (ts : list tk) : token_type := match ts with [] => END | t :: _ => tk_type t end.

(** The current token is the first of [ts], and the stream spells the others. *)
Definition ready (s : @ev W) (ts : list tk) : Prop :=
  outer s = w0 /\ tok_type (curr_tok s) = Some (head_type ts) /\
  match ts with
  | [] => tok_value (curr_tok s) = ""
  | t :: ts => tok_value (curr_tok s) = tk_val t /\ (forall nm, t = TVar nm -> tok_name (curr_tok s) = nm) /\
               lexes (input s) ts
  end.

(** After an operand comes an operator, or the end. *)
Definition operator_next (ts : list tk) : Prop := match ts with [] | TOp _ :: _ => True | _ => False end.

Lemma tok_ready s ts : ready s ts -> tok s = Ok (Val (head_type ts), s, "").
Proof. intros (_ & Ht & _). unfold tok. by rewrite Ht. Qed.

Lemma get_token_ready s t ts :
  ready s (t :: ts) -> exists s1, get_token s = Ok (Val tt, s1, "") /\ outer s1 = w0 /\
    curr_tok s1 = match ts with [] => of_type END (curr_tok s) | t' :: _ => load t' (curr_tok s) end /\
    match ts with [] => True | _ :: ts' => lexes (input s1) ts' end.
Proof.
  intros (Hw & _ & _ & _ & Hl). unfold get_token. destruct ts as [|t' ts].
  - assert (blank (input s) = true) as Hb by (by inversion Hl). rewrite get_token_end by done. by eexists.
  - destruct (get_token_lexes _ _ (curr_tok s) _ Hl) as (rest & -> & Hr). by eexists.
Qed.

Lemma operator_read s ty ts :
  ready s (TOp ty :: ts) -> exists s1, get_token s = Ok (Val tt, s1, "") /\ ready s1 ts.
Proof.
  intros Hr. destruct (get_token_ready _ _ _ Hr) as (s1 & E & Hw & Hc & Hl). exists s1. split; [done|].
  destruct Hr as (_ & _ & Hv & _). cbn in Hv. unfold ready. rewrite Hc.
  destruct ts as [|[v|v|nm|ty'] ts]; cbn; rewrite ?Hv; split_and!; try done; by intros ? [= ->].
Qed.

Lemma operand_read s t ts :
  ready s (t :: ts) -> operator_next ts -> exists s1, get_token s = Ok (Val tt, s1, "") /\
    tok_value (curr_tok s1) = tk_val t /\ (forall nm, t = TVar nm -> tok_name (curr_tok s1) = nm) /\
    ready (set_tok clear_value s1) ts /\ (tk_val t = "" -> ready (set_tok clear_name s1) ts).
Proof.
  intros Hr Hn. destruct (get_token_ready _ _ _ Hr) as (s1 & E & Hw & Hc & Hl). exists s1. split; [done|].
  destruct Hr as (_ & _ & Hv & Hnm & _). unfold ready, set_tok. cbn. rewrite Hc.
  destruct ts as [|[v|v|nm|ty'] ts]; cbn in Hn |- *; try done; split_and!; try done; try congruence.
  all: intros; split_and!; try done; congruence.
Qed.

(** Enough fuel, and what [m] does then. *)
Definition gives (m : nat -> X (@ev W) string) (s : ev) (ts : list tk) (r : meaning) : Prop :=
  match r with
  | Value v => exists s', ready s' ts /\ exists N, forall n, (N <= n)%nat -> m n s = Ok (Val v, s', "")
  | NotNumber => exists s', outer s' = w0 /\ exists N, forall n, (N <= n)%nat -> m n s = Ok (Exc not_a_number, s', "")
  | Unspecified => True
  end.

Lemma xbind_run {S A B} (m : X S A) (k : A -> X S B) s a s1 :
  m s = Ok (Val a, s1, "") -> xbind m k s = k a s1.
Proof. intros E. by rewrite (xbind_Val _ _ _ _ _ _ E), after_nil. Qed.

Lemma catch_conversion_Val {A} (m : X (@ev W) A) s a s1 o :
  m s = Ok (Val a, s1, o) -> catch_conversion m s = Ok (Val a, s1, o).
Proof. intros E. unfold catch_conversion, catch. by rewrite E. Qed.

Lemma catch_conversion_Exc {A} (m : X (@ev W) A) s e s1 :
  m s = Ok (Exc e, s1, "") -> is_conversion_exception e = true \/ e = not_a_number ->
  catch_conversion m s = Ok (Exc not_a_number, s1, "").
Proof. intros E He. unfold catch_conversion, catch. rewrite E. by destruct He as [He| ->]; [rewrite He|]. Qed.

Definition conversion (v : string) : exn := type_conversion_exception (conversion_error v).

Lemma double_of_run v (s : @ev W) :
  double_of v s = match from_string_double v with
                  | Some d => Ok (Val d, s, "")
                  | None => Ok (Exc (conversion v), s, "")
                  end.
Proof. unfold double_of. by destruct (from_string_double v). Qed.

(** The operands of an operator whose right one gives [o]. *)
Lemma operands_run a (m : X (@ev W) string) s o s2 :
  m s = Ok (o, s2, "") ->
  operands (double_of a) (r <- m ;; double_of r) s =
    match from_string_double a with
    | None => if lhs_first then Ok (Exc (conversion a), s, "")
              else match o with
                   | Exc e => Ok (Exc e, s2, "")
                   | Val b => match from_string_double b with
                              | Some _ => Ok (Exc (conversion a), s2, "")
                              | None => Ok (Exc (conversion b), s2, "")
                              end
                   end
    | Some x =>
        match o with
        | Exc e => Ok (Exc e, s2, "")
        | Val b => match from_string_double b with
                   | Some y => Ok (Val (x, y), s2, "")
                   | None => Ok (Exc (conversion b), s2, "")
                   end
        end
    end.
Proof.
  intros Hm. unfold operands.
  assert ((r <- m ;; double_of r) s = match o with
            | Exc e => Ok (Exc e, s2, "")
            | Val b => match from_string_double b with
                       | Some y => Ok (Val y, s2, "")
                       | None => Ok (Exc (conversion b), s2, "")
                       end
            end) as Hr.
  { unfold xbind. rewrite Hm. destruct o as [b|e]; [|done]. rewrite double_of_run. by destruct (from_string_double b). }
  destruct lhs_first.
  - unfold xbind at 1. rewrite double_of_run. destruct (from_string_double a) as [x|]; [|done]. cbn.
    unfold xbind at 1. rewrite Hr. destruct o as [b|e]; [|done]. by destruct (from_string_double b).
  - unfold xbind at 1. rewrite Hr. destruct o as [b|e]; [|by destruct (from_string_double a)].
    destruct (from_string_double b) as [y|]; [|by destruct (from_string_double a)].
    unfold xbind. rewrite double_of_run. by destruct (from_string_double a).
Qed.

Definition number_error (e : exn) : Prop := is_conversion_exception e = true \/ e = not_a_number.

Lemma arith_gives op a (operand : nat -> X ev string) s ts r :
  outer s = w0 -> gives operand s ts r ->
  match arith_meaning (Some op) (Value a) r with
  | Value v => exists s2, ready s2 ts /\ exists N, forall n, (N <= n)%nat -> arith op a (operand n) s = Ok (Val v, s2, "")
  | NotNumber => exists s2 e, outer s2 = w0 /\ number_error e /\
      exists N, forall n, (N <= n)%nat -> arith op a (operand n) s = Ok (Exc e, s2, "")
  | Unspecified => True
  end.
Proof.
  intros Hw. destruct r as [b| |]; cbn; [| |done].
  - intros (s2 & Hr & N & Hm). assert (outer s2 = w0) as Hw2 by apply Hr.
    assert (forall n, (N <= n)%nat -> arith op a (operand n) s =
      xbind (fun s => operands (double_of a) (r <- operand n ;; double_of r) s)
            (fun ab => xret (to_string_double (op (fst ab) (snd ab)))) s) as Ha by done.
    destruct (from_string_double a) as [x|] eqn:Ea, (from_string_double b) as [y|] eqn:Eb.
    + exists s2. split; [done|]. exists N. intros n Hn. rewrite Ha by done. unfold xbind at 1.
      rewrite (operands_run _ _ _ _ _ (Hm n Hn)), Ea, Eb. done.
    + exists s2, (conversion b). split_and!; [done|by left|]. exists N. intros n Hn. rewrite Ha by done.
      unfold xbind at 1. by rewrite (operands_run _ _ _ _ _ (Hm n Hn)), Ea, Eb.
    + exists (if lhs_first then s else s2), (conversion a). split_and!; [by destruct lhs_first|by left|].
      exists N. intros n Hn. rewrite Ha by done. unfold xbind at 1.
      rewrite (operands_run _ _ _ _ _ (Hm n Hn)), Ea, Eb. by destruct lhs_first.
    + exists (if lhs_first then s else s2), (conversion (if lhs_first then a else b)).
      split_and!; [by destruct lhs_first|by left|].
      exists N. intros n Hn. rewrite Ha by done. unfold xbind at 1.
      rewrite (operands_run _ _ _ _ _ (Hm n Hn)), Ea, Eb. by destruct lhs_first.
  - intros (s2 & Hw2 & N & Hm). destruct (from_string_double a) as [x|] eqn:Ea.
    + exists s2, not_a_number. split_and!; [done|by right|]. exists N. intros n Hn.
      unfold arith, xbind at 1. by rewrite (operands_run _ _ _ _ _ (Hm n Hn)), Ea.
    + exists (if lhs_first then s else s2), (if lhs_first then conversion a else not_a_number).
      split_and!; [by destruct lhs_first|destruct lhs_first; [by left|by right]|].
      exists N. intros n Hn. unfold arith, xbind at 1.
      rewrite (operands_run _ _ _ _ _ (Hm n Hn)), Ea. by destruct lhs_first.
Qed.

(** ** Left associative operators *)

(** A level of the evaluator: an operand, then the loop over its operators. *)
Definition level (ops : token_type -> option (double -> double -> double)) (operand : nat -> X ev string)
    (n k : nat) : X (@ev W) string :=
  left <- operand n ;; catch_conversion (op_loop ops (operand n) k left).

(** The level has read some operators, [j] turns of its loop. *)
Definition loop_gives ops (operand : nat -> X ev string) (j : nat) (s : ev) (ts : list tk) (r : meaning) : Prop :=
  match r with
  | Value v => exists s', ready s' ts /\ exists N, forall n k, (N <= n)%nat ->
      level ops operand n (j + k) s = catch_conversion (op_loop ops (operand n) k v) s'
  | NotNumber => exists s', outer s' = w0 /\ exists N, forall n k, (N <= n)%nat ->
      level ops operand n (j + k) s = Ok (Exc not_a_number, s', "")
  | Unspecified => True
  end.

Lemma loop_first ops operand s ts r : gives operand s ts r -> loop_gives ops operand 0 s ts r.
Proof.
  destruct r as [v| |]; cbn; [| |done].
  - intros (s' & Hr & N & Hm). exists s'. split; [done|]. exists N. intros n k Hn.
    unfold level. by rewrite (xbind_run _ _ _ _ _ (Hm n Hn)).
  - intros (s' & Hr & N & Hm). exists s'. split; [done|]. exists N. intros n k Hn.
    unfold level. by rewrite (xbind_Exc _ _ _ _ _ _ (Hm n Hn)).
Qed.

(** One turn of the loop. *)
Lemma op_loop_turn ops op ty (operand : X ev string) k v s s1 ts :
  ready s (TOp ty :: ts) -> ops ty = Some op -> get_token s = Ok (Val tt, s1, "") ->
  op_loop ops operand (S k) v s = (left <- arith op v operand ;; op_loop ops operand k left) s1.
Proof.
  intros Hr Ho Hg. cbn [op_loop]. rewrite (xbind_run _ _ _ _ _ (tok_ready _ _ Hr)). cbn [head_type tk_type].
  by rewrite Ho, (xbind_run _ _ _ _ _ Hg).
Qed.

Lemma loop_next ops operand j s ty rs ts l r :
  loop_gives ops operand j s (TOp ty :: rs) l ->
  (forall s1, ready s1 rs -> gives operand s1 ts r) ->
  loop_gives ops operand (S j) s ts (arith_meaning (ops ty) l r).
Proof.
  intros Hl Hop. destruct (ops ty) as [op|] eqn:Ho; [|done]. destruct l as [a| |]; [| |by destruct r].
  - destruct Hl as (s' & Hr & N1 & Hl). destruct (operator_read _ _ _ Hr) as (s1 & Hg & Hr1).
    pose proof (arith_gives op a operand s1 ts r (proj1 Hr1) (Hop s1 Hr1)) as Ha.
    destruct (arith_meaning (Some op) (Value a) r) as [v| |]; [| |done].
    + destruct Ha as (s2 & Hr2 & N2 & Ha). exists s2. split; [done|]. exists (N1 `max` N2)%nat. intros n k Hn.
      replace (S j + k)%nat with (j + S k)%nat by lia. rewrite Hl by lia. unfold catch_conversion, catch.
      rewrite (op_loop_turn _ _ _ _ _ _ _ _ _ Hr Ho Hg). by rewrite (xbind_run _ _ _ _ _ (Ha n ltac:(lia))).
    + destruct Ha as (s2 & e & Hw2 & He & N2 & Ha). exists s2. split; [done|]. exists (N1 `max` N2)%nat. intros n k Hn.
      replace (S j + k)%nat with (j + S k)%nat by lia. rewrite Hl by lia. apply (catch_conversion_Exc _ _ e); [|done].
      rewrite (op_loop_turn _ _ _ _ _ _ _ _ _ Hr Ho Hg). by rewrite (xbind_Exc _ _ _ _ _ _ (Ha n ltac:(lia))).
  - assert (arith_meaning (Some op) NotNumber r = NotNumber \/ arith_meaning (Some op) NotNumber r = Unspecified)
      as [-> | ->] by (destruct r; auto); [|done].
    destruct Hl as (s' & Hw & N & Hl). exists s'. split; [done|]. exists N. intros n k Hn.
    replace (S j + k)%nat with (j + S k)%nat by lia. by rewrite Hl.
Qed.

Lemma loop_stop ops operand j s ts r :
  loop_gives ops operand j s ts r -> ops (head_type ts) = None -> gives (fun n => level ops operand n n) s ts r.
Proof.
  intros Hl Ho. destruct r as [v| |]; [| |done]; destruct Hl as (s' & Hr & N & Hl); exists s'; (split; [done|]);
    exists (N `max` S j)%nat; intros n Hn.
  - replace n with (j + S (n - j - 1))%nat at 2 by lia. rewrite Hl by lia. apply catch_conversion_Val.
    cbn [op_loop]. rewrite (xbind_run _ _ _ _ _ (tok_ready _ _ Hr)). by rewrite Ho.
  - replace n with (j + (n - j))%nat at 2 by lia. by rewrite Hl by lia.
Qed.
(** ** The levels of the grammar *)

Notation prim := (prim gv cf).
Notation term := (fun n => term (prim n) n).
Notation expr := (fun n => expr (prim n) n).
Notation lexpr := (fun n => lexpr (prim n) n).

(** Work that takes a unit of fuel, or none, before [m']. *)
Lemma gives_after (m m' : nat -> X ev string) s s1 ts r :
  (forall n, m (S n) s = m' n s1) -> gives m' s1 ts r -> gives m s ts r.
Proof.
  intros E. destruct r as [v| |]; cbn; [| |done]; intros (s' & Hr & N & Hm); exists s'; (split; [done|]);
    exists (S N); intros [|n] Hn; try lia; rewrite E; apply Hm; lia.
Qed.

Lemma gives_same (m m' : nat -> X ev string) s s1 ts r :
  (forall n, m n s = m' n s1) -> gives m' s1 ts r -> gives m s ts r.
Proof.
  intros E. destruct r as [v| |]; cbn; [| |done]; intros (s' & Hr & N & Hm); exists s'; (split; [done|]);
    exists N; intros n Hn; rewrite E; by apply Hm.
Qed.

(** What follows a value, when what comes before it gives one. *)
Lemma gives_bind (m : nat -> X ev string) (k : nat -> string -> X ev string) s ts ts' r f :
  gives m s ts r ->
  (forall v s1, r = Value v -> ready s1 ts -> gives (fun n => k n v) s1 ts' (f v)) ->
  gives (fun n => xbind (m n) (k n)) s ts' (then_value r f).
Proof.
  destruct r as [v| |]; [| |done].
  - intros (s1 & Hr & N & Hm) Hk. specialize (Hk v s1 eq_refl Hr). cbn [then_value]. destruct (f v) as [b| |]; [| |done];
      destruct Hk as (s2 & Hr2 & N2 & Hk); exists s2; (split; [done|]); exists (N `max` N2)%nat; intros n Hn;
      rewrite (xbind_run _ _ _ _ _ (Hm n ltac:(lia))); apply Hk; lia.
  - intros (s1 & Hr & N & Hm) _. exists s1. split; [done|]. exists N. intros n Hn.
    by rewrite (xbind_Exc _ _ _ _ _ _ (Hm n Hn)).
Qed.

Lemma gives_ret s ts v : ready s ts -> gives (fun _ => xret v) s ts (Value v).
Proof. intros Hr. exists s. split; [done|]. by exists 0%nat. Qed.

(** Past an operator, in [prim]. *)
Definition past_operator (ty : token_type) (n : nat) : X (@ev W) string :=
  match ty with
  | MINUS => catch_conversion (v <- prim n ;; d <- double_of v ;; xret (to_string_double (dmul (of_Z (-1)) d)))
  | NOT => v <- prim n ;; xret (bool_str (negb (seqb v "1")))
  | _ => e <- lexpr n ;; ty <- tok ;;
         if bool_decide (ty = RP) then get_token ;;; xret e else throw (evaluator_exception rp_expected)
  end.

Lemma prim_operator s ty rs ts r :
  ty ∈ [MINUS; NOT; LP] -> ready s (TOp ty :: rs) ->
  (forall s1, ready s1 rs -> gives (past_operator ty) s1 ts r) -> gives prim s ts r.
Proof.
  intros Hty Hr Hk. destruct (operator_read _ _ _ Hr) as (s1 & Hg & Hr1).
  apply gives_after with (past_operator ty) s1; [|by apply Hk]. intros n. cbn [DbExpression.prim].
  rewrite (xbind_run _ _ _ _ _ (tok_ready _ _ Hr)). cbn [head_type tk_type].
  rewrite !elem_of_cons in Hty. destruct Hty as [->|[->|[->|[]%not_elem_of_nil]]];
    by rewrite (xbind_run _ _ _ _ _ Hg).
Qed.

Lemma literal_ok s t v ts :
  tk_type t = NUMBER -> tk_val t = v -> operator_next ts -> ready s (t :: ts) -> gives prim s ts (Value v).
Proof.
  intros Ht <- Hn Hr. destruct (operand_read _ _ _ Hr Hn) as (s1 & Hg & Hv & _ & Hr1 & _).
  eexists. split; [exact Hr1|]. exists 1%nat. intros [|n] ?; [lia|]. cbn [DbExpression.prim].
  rewrite (xbind_run _ _ _ _ _ (tok_ready _ _ Hr)). cbn [head_type]. rewrite Ht, (xbind_run _ _ _ _ _ Hg).
  unfold take_tok. by rewrite Hv.
Qed.

Lemma variable_ok s nm ts :
  operator_next ts -> ready s (TVar nm :: ts) -> gives prim s ts (Value (vars nm)).
Proof.
  intros Hn Hr. destruct (operand_read _ _ _ Hr Hn) as (s1 & Hg & _ & Hnm & _ & Hr1).
  specialize (Hr1 eq_refl). eexists. split; [exact Hr1|]. exists 1%nat. intros [|n] ?; [lia|].
  cbn [DbExpression.prim]. rewrite (xbind_run _ _ _ _ _ (tok_ready _ _ Hr)). cbn [head_type tk_type].
  rewrite (xbind_run _ _ _ _ _ Hg). unfold take_tok, xbind at 1. rewrite (Hnm nm eq_refl).
  assert (outer (set_tok clear_name s1) = w0) as Hw by apply Hr1. revert Hw.
  unfold on_outer, xzoom, set_tok. cbn. intros ->. by rewrite gv_vars.
Qed.

Definition neg_meaning (v : string) : meaning :=
  match from_string_double v with
  | Some d => Value (to_string_double (dmul (of_Z (-1)) d))
  | None => NotNumber
  end.

Lemma negated_gives s ts r :
  gives prim s ts r ->
  gives (fun n => catch_conversion (v <- prim n ;; d <- double_of v ;; xret (to_string_double (dmul (of_Z (-1)) d))))
    s ts (then_value r neg_meaning).
Proof.
  destruct r as [v| |]; [| |done]; intros (s1 & Hr & N & Hm).
  - cbn. unfold neg_meaning. destruct (from_string_double v) as [d|] eqn:Ed.
    + exists s1. split; [done|]. exists N. intros n Hn. apply catch_conversion_Val.
      rewrite (xbind_run _ _ _ _ _ (Hm n Hn)). by unfold double_of, of_option; rewrite Ed.
    + exists s1. split; [apply Hr|]. exists N. intros n Hn. apply (catch_conversion_Exc _ _ (conversion v)); [|by left].
      rewrite (xbind_run _ _ _ _ _ (Hm n Hn)). unfold xbind. by rewrite double_of_run, Ed.
  - exists s1. split; [done|]. exists N. intros n Hn. apply (catch_conversion_Exc _ _ not_a_number); [|by right].
    by rewrite (xbind_Exc _ _ _ _ _ _ (Hm n Hn)).
Qed.

Definition term_next (ts : list tk) : Prop := operator_next ts /\ mul_op (head_type ts) = None.
Definition expr_next (ts : list tk) : Prop := term_next ts /\ add_op (head_type ts) = None.

Definition prim_ok (p : prim_e) : Prop := forall ts s,
  operator_next ts -> ready s (prim_toks p ++ ts) -> gives prim s ts (prim_den vars p).
Definition mul_ok (m : mul_e) : Prop := forall ts s,
  operator_next ts -> ready s (mul_toks m ++ ts) -> exists j, loop_gives mul_op prim j s ts (mul_den vars m).
Definition add_ok (a : add_e) : Prop := forall ts s,
  term_next ts -> ready s (add_toks a ++ ts) -> exists j, loop_gives add_op term j s ts (add_den vars a).
Definition rel_ok (r : rel_e) : Prop := forall ts s,
  ts = [] \/ (exists ts', ts = TOp RP :: ts') -> ready s (rel_toks r ++ ts) -> gives lexpr s ts (rel_den vars r).

Lemma term_ok m ts s :
  mul_ok m -> term_next ts -> ready s (mul_toks m ++ ts) -> gives term s ts (mul_den vars m).
Proof.
  intros Hm [Hn Hmul] Hr. destruct (Hm _ _ Hn Hr) as [j Hj]. exact (loop_stop _ _ _ _ _ _ Hj Hmul).
Qed.

Lemma expr_ok a ts s :
  add_ok a -> expr_next ts -> ready s (add_toks a ++ ts) -> gives expr s ts (add_den vars a).
Proof.
  intros Ha [Hn Hadd] Hr. destruct (Ha _ _ Hn Hr) as [j Hj]. exact (loop_stop _ _ _ _ _ _ Hj Hadd).
Qed.

Lemma relation_next ty p ts : relation_op ty = Some p -> expr_next (TOp ty :: ts).
Proof. by destruct ty. Qed.

(** Past an operator, in [lexpr]. *)
Lemma lexpr_operator n s v s1 ty ts s2 :
  expr n s = Ok (Val v, s1, "") -> ready s1 (TOp ty :: ts) -> get_token s1 = Ok (Val tt, s2, "") ->
  lexpr n s =
    match ty with
    | AND => (if seqb v "1" then r <- expr n ;; xret (bool_str (seqb r "1")) else xret "0") s2
    | OR => (if seqb v "1" then xret "1" else r <- expr n ;; xret (bool_str (seqb r "1"))) s2
    | _ => match relation_op ty with
           | Some (opd, ops) => compare_with (prim n) n opd ops v s2
           | None => Ok (Val v, s1, "")
           end
    end.
Proof.
  intros He Hr Hg. unfold DbExpression.lexpr. rewrite (xbind_run _ _ _ _ _ He).
  rewrite (xbind_run _ _ _ _ _ (tok_ready _ _ Hr)). cbn [head_type tk_type].
  destruct ty; cbn [relation_op]; try done; by rewrite (xbind_run _ _ _ _ _ Hg).
Qed.

Lemma compare_gives opd ops a s ts r :
  gives expr s ts r ->
  gives (fun n => compare_with (prim n) n opd ops a) s ts (compare_meaning (Some (opd, ops)) (Value a) r).
Proof.
  destruct r as [b| |]; [| done |done]. intros (s1 & Hr & N & Hm). cbn.
  destruct (from_string_double a) as [x|] eqn:Ea.
  - destruct (from_string_double b) as [y|] eqn:Eb; [|done]. exists s1. split; [done|]. exists N. intros n Hn.
    unfold compare_with, catch. unfold xbind at 1. by rewrite (operands_run _ _ _ _ _ (Hm n Hn)), Ea, Eb.
  - destruct lhs_first eqn:El; [|done]. exists s1. split; [done|]. exists N. intros n Hn.
    unfold compare_with, catch. unfold xbind at 1. rewrite (operands_run _ _ _ _ _ (Hm n Hn)), Ea, El.
    by rewrite (xbind_run _ _ _ _ _ (Hm n Hn)).
Qed.

Lemma relation_ok l ty r ts s :
  add_ok l -> add_ok r -> expr_next ts -> ready s (add_toks l ++ TOp ty :: add_toks r ++ ts) ->
  gives lexpr s ts (rel_den vars (ROp l ty r)).
Proof.
  intros Hl Hr Hn Hs. rewrite rel_den_op. destruct (relation_op ty) as [[opd ops]|] eqn:Ho; [|done].
  pose proof (expr_ok _ _ _ Hl (relation_next _ _ _ Ho) Hs) as He.
  destruct (add_den vars l) as [a| |]; [| |done]; destruct He as (s1 & Hr1 & N & He).
  - destruct (operator_read _ _ _ Hr1) as (s2 & Hg & Hr2).
    pose proof (compare_gives opd ops a _ _ _ (expr_ok _ _ _ Hr Hn Hr2)) as Hc.
    destruct (compare_meaning (Some (opd, ops)) (Value a) (add_den vars r)) as [b| |]; [| |done];
      destruct Hc as (s3 & Hr3 & N2 & Hc); exists s3; (split; [done|]); exists (N `max` N2)%nat; intros n Hn';
      rewrite (lexpr_operator _ _ _ _ _ _ _ (He n ltac:(lia)) Hr1 Hg), Ho;
      destruct ty; try done; apply Hc; lia.
  - exists s1. split; [done|]. exists N. intros n Hn'. unfold DbExpression.lexpr.
    by rewrite (xbind_Exc _ _ _ _ _ _ (He n Hn')).
Qed.

Lemma lexpr_expr s ts r :
  relation_op (head_type ts) = None -> head_type ts <> AND -> head_type ts <> OR ->
  gives expr s ts r -> gives lexpr s ts r.
Proof.
  intros Hrel HA HO. destruct r as [v| |]; [| |done]; intros (s1 & Hr & N & He); exists s1; (split; [done|]);
    exists N; intros n Hn; unfold DbExpression.lexpr.
  - rewrite (xbind_run _ _ _ _ _ (He n Hn)), (xbind_run _ _ _ _ _ (tok_ready _ _ Hr)).
    destruct (head_type ts); cbn in *; done.
  - by rewrite (xbind_Exc _ _ _ _ _ _ (He n Hn)).
Qed.

Lemma closing_next ts :
  ts = [] \/ (exists ts', ts = TOp RP :: ts') -> expr_next ts /\ relation_op (head_type ts) = None /\
    head_type ts <> AND /\ head_type ts <> OR.
Proof. intros [-> | [ts' ->]]; by repeat split. Qed.

Lemma parens_ok r ts s : rel_ok r -> ready s (prim_toks (PParen r) ++ ts) -> gives prim s ts (rel_den vars r).
Proof.
  intros Hr Hs. cbn [prim_toks] in Hs. rewrite <- app_comm_cons, <- app_assoc in Hs. cbn [app] in Hs.
  eapply prim_operator; [|exact Hs|]; [set_solver|]. intros s1 Hr1.
  rewrite <- (then_value_Value (rel_den vars r)).
  apply (gives_bind lexpr _ _ (TOp RP :: ts)); [apply Hr; [right; by eexists|done]|].
  intros v s2 _ Hr2. destruct (operator_read _ _ _ Hr2) as (s3 & Hg3 & Hr3). exists s3. split; [done|].
  exists 0%nat. intros n _. rewrite (xbind_run _ _ _ _ _ (tok_ready _ _ Hr2)). cbn.
  rewrite bool_decide_true by done.
  by rewrite (xbind_run _ _ _ _ _ Hg3).
Qed.

Lemma grammar_ok :
  (forall p, prim_ok p) /\ (forall m, mul_ok m) /\ (forall a, add_ok a) /\ (forall r, rel_ok r).
Proof.
  apply grammar_ind.
  - intros v ts s Hn Hr. by apply (literal_ok s (TNum v) v).
  - intros v ts s Hn Hr. by apply (literal_ok s (TStr v) v).
  - intros nm ts s Hn Hr. by apply variable_ok.
  - intros p IH ts s Hn Hs. eapply prim_operator; [|exact Hs|]; [set_solver|]. intros s1 Hr1.
    by apply (negated_gives s1 ts (prim_den vars p)), IH.
  - intros p IH ts s Hn Hs. eapply prim_operator; [|exact Hs|]; [set_solver|]. intros s1 Hr1.
    rewrite not_den. apply (gives_bind prim _ _ ts); [by apply IH|]. intros v s2 _ Hr2. by apply gives_ret.
  - intros r IH ts s Hn Hs. by apply parens_ok.
  - intros p IH ts s Hn Hs. exists 0%nat. by apply loop_first, IH.
  - intros l IHl ty p IHp ts s Hn Hs. cbn [mul_toks] in Hs. rewrite <- app_assoc in Hs. cbn [app] in Hs.
    destruct (IHl (TOp ty :: prim_toks p ++ ts) s I Hs) as [j Hj]. exists (S j). rewrite mul_den_op.
    eapply loop_next; [done|]. intros s1 Hr1. by apply IHp.
  - intros m IH ts s Hn Hs. exists 0%nat. by apply loop_first, (term_ok m).
  - intros l IHl ty m IHm ts s Hn Hs. cbn [add_toks] in Hs. rewrite <- app_assoc in Hs. cbn [app] in Hs.
    destruct (add_op ty) as [op|] eqn:Ho; [|exists 0%nat; by rewrite add_den_op, Ho].
    destruct (IHl (TOp ty :: mul_toks m ++ ts) s) as [j Hj]; [by destruct ty|done|].
    exists (S j). rewrite add_den_op. eapply loop_next; [done|]. intros s1 Hr1. by apply (term_ok m).
  - intros a IH ts s Hc Hs. apply closing_next in Hc as (Hn & Hrel & HA & HO). apply lexpr_expr; try done.
    by apply expr_ok.
  - intros l IHl ty r IHr ts s Hc Hs. apply closing_next in Hc as (Hn & _). cbn [rel_toks] in Hs.
    rewrite <- app_assoc in Hs. by apply relation_ok.
Qed.

(** ** Whole expressions *)

Definition outcome_of (r : meaning) : outcome string :=
  match r with Value v => Val v | _ => Exc not_a_number end.

(** Like [gives], whatever is left to read. *)
Definition ends_with (m : nat -> X (@ev W) string) (s : ev) (r : meaning) : Prop :=
  r <> Unspecified ->
  exists s', outer s' = w0 /\ exists N, forall n, (N <= n)%nat -> m n s = Ok (outcome_of r, s', "").

Lemma gives_ends m s ts r : gives m s ts r -> ends_with m s r.
Proof.
  destruct r as [v| |]; [| |by intros _ []]; intros (s1 & Hr & Hm) _; exists s1; (split; [|done]); [apply Hr|done].
Qed.

(** The right operand of a logical operator. *)
Lemma logical_right a s :
  add_ok a -> ready s (add_toks a) ->
  ends_with (fun n => r <- expr n ;; xret (bool_str (seqb r "1"))) s
    (then_value (add_den vars a) (fun b => Value (bool_str (seqb b "1")))).
Proof.
  intros Ha Hr. apply gives_ends with []. apply (gives_bind expr _ _ []).
  - apply expr_ok; [done..|]. by rewrite app_nil_r.
  - intros b s1 _ Hr1. by apply gives_ret.
Qed.

Lemma logical_ok l ty s m f :
  ty = AND \/ ty = OR -> add_ok l -> ready s (add_toks l ++ TOp ty :: m) ->
  (forall v s1, ready s1 m ->
     ends_with (fun n => match ty with
                         | AND => if seqb v "1" then r <- expr n ;; xret (bool_str (seqb r "1")) else xret "0"
                         | _ => if seqb v "1" then xret "1" else r <- expr n ;; xret (bool_str (seqb r "1"))
                         end) s1 (f v)) ->
  ends_with lexpr s (then_value (add_den vars l) f).
Proof.
  intros Hty Hl Hs Hk.
  assert (expr_next (TOp ty :: m)) as Hn by (by destruct Hty as [-> | ->]).
  pose proof (expr_ok _ _ _ Hl Hn Hs) as He.
  destruct (add_den vars l) as [a| |]; [| |by intros []]; destruct He as (s1 & Hr1 & N & He); cbn [then_value].
  - destruct (operator_read _ _ _ Hr1) as (s2 & Hg & Hr2). intros Hf.
    destruct (Hk a s2 Hr2 Hf) as (s3 & Hw & N2 & Hm). exists s3. split; [done|].
    exists (N `max` N2)%nat. intros n Hn'.
    rewrite (lexpr_operator _ _ _ _ _ _ _ (He n ltac:(lia)) Hr1 Hg). specialize (Hm n ltac:(lia)).
    by destruct Hty as [-> | ->].
  - intros _. exists s1. split; [done|]. exists N. intros n Hn'. unfold DbExpression.lexpr.
    by rewrite (xbind_Exc _ _ _ _ _ _ (He n Hn')).
Qed.

Lemma ends_ret s ts v : ready s ts -> ends_with (fun _ => xret v) s (Value v).
Proof. intros Hr. by eapply gives_ends, gives_ret. Qed.

Lemma top_ok e s : ready s (top_toks e) -> ends_with lexpr s (top_den vars e).
Proof.
  destruct grammar_ok as (_ & _ & Ha & Hrel). destruct e as [r|l r|l r]; cbn [top_toks top_den]; intros Hs.
  - apply gives_ends with []. apply Hrel; [by left|]. by rewrite app_nil_r.
  - apply (logical_ok _ AND _ (add_toks r)); [by left|done|done|]. intros v s1 Hr1.
    destruct (seqb v "1"); [by apply logical_right|by eapply ends_ret].
  - apply (logical_ok _ OR _ (add_toks r)); [by right|done|done|]. intros v s1 Hr1.
    destruct (seqb v "1"); [by eapply ends_ret|by apply logical_right].
Qed.

(** A phrase is not empty. *)
Definition starts (ts : list tk) : Prop := head_type ts <> END.

Lemma starts_app ts ts' : starts ts -> starts (ts ++ ts').
Proof. by destruct ts. Qed.

Lemma grammar_starts :
  (forall p, starts (prim_toks p)) /\ (forall m, starts (mul_toks m)) /\ (forall a, starts (add_toks a)) /\
  (forall r, starts (rel_toks r)).
Proof. apply grammar_ind; intros; try done; by apply starts_app. Qed.

Lemma top_starts e : starts (top_toks e).
Proof. destruct grammar_starts as (_ & _ & Ha & Hr). destruct e; cbn; auto using starts_app. Qed.

Lemma first_token s t ts :
  lexes s (t :: ts) -> exists s1, get_token (Ev s new_token w0) = Ok (Val tt, s1, "") /\ ready s1 (t :: ts).
Proof.
  intros Hl. destruct (get_token_lexes _ _ new_token _ Hl) as (rest & E & Hr). unfold get_token. cbn [input curr_tok].
  rewrite E. eexists. split; [done|]. unfold ready. cbn.
  destruct t as [v|v|nm|ty]; cbn; split_and!; try done; by intros ? [= ->].
Qed.
End correct.

(** What the evaluator does with an expression, whatever the documentation says of it. *)
Lemma calc_computes `{Dcl, Platform} {W : Type} (gv : string -> X W string)
    (cf : string -> string -> X W string) (w0 : W) (vars : string -> string) (s : string) (e : top_e) :
  (forall nm w, gv nm w <> NoFuel) -> (forall nm v w, cf nm v w <> NoFuel) ->
  (forall nm, gv nm w0 = Ok (Val (vars nm), w0, "")) ->
  lexes s (top_toks e) -> top_den vars e <> Unspecified ->
  calc gv cf s w0 = Ok (outcome_of (top_den vars e), w0, "").
Proof.
  intros Hgv Hcf Hvars Hl He. pose proof (top_starts e) as Hst.
  pose proof (fun s1 => top_ok gv cf w0 vars Hvars e s1) as Ht.
  pose proof (calc_total gv cf Hgv Hcf s w0) as Htot. revert Htot. unfold calc.
  destruct (top_toks e) as [|t ts]; [done|].
  destruct (first_token w0 _ _ _ Hl) as (s1 & Hg & Hr1). destruct (Ht s1 Hr1 He) as (s2 & Hw & N & Hm).
  assert (forall n, (N <= n)%nat ->
    calc_body gv cf n (Ev s new_token w0) = Ok (outcome_of (top_den vars e), s2, "")) as Hb.
  { intros n Hn. unfold calc_body. rewrite (xbind_run _ _ _ _ _ Hg), (xbind_run _ _ _ _ _ (tok_ready _ _ _ Hr1)).
    rewrite bool_decide_false by done. by apply Hm. }
  pose proof (refines_calc_body gv cf cf ltac:(by right) (calc_fuel s) (N `max` calc_fuel s) ltac:(lia)
    (Ev s new_token w0)) as Href.
  rewrite (Hb (N `max` calc_fuel s)%nat ltac:(lia)) in Href.
  destruct Href as [-> | <-]; [done|]. by rewrite Hw.
Qed.

(** ** What the documentation says *)

Section documented.
Context `{Dcl, Platform}.
Context (vars : string -> string).

Definition product (ty : token_type) : option (double -> double -> double) :=
  match ty with MUL => Some dmul | DIV => Some ddiv | MOD => Some fmod | PWR => Some pow | _ => None end.
Definition sum (ty : token_type) : option (double -> double -> double) :=
  match ty with PLUS => Some dadd | MINUS => Some dsub | _ => None end.

(** Of numbers and of strings. *)
Definition comparison (ty : token_type) : option ((double -> double -> bool) * (string -> string -> bool)) :=
  match ty with
  | LT => Some (fun x y => dlt x y, fun s t => slt s t)
  | LTEQ => Some (fun x y => dle x y, fun s t => negb (slt t s))
  | GT => Some (fun x y => dlt y x, fun s t => slt t s)
  | GTEQ => Some (fun x y => dle y x, fun s t => negb (slt s t))
  | EQ => Some (fun x y => deq x y, fun s t => seqb s t)
  | NOTEQ => Some (fun x y => negb (deq x y), fun s t => negb (seqb s t))
  | _ => None
  end.

(** "The operands are first converted to numbers and compared, and when one of them cannot be converted to
    a number they are compared as strings." *)
Definition equals (v number : string) : bool :=
  match from_string_double v, from_string_double number with
  | Some x, Some y => deq x y
  | _, _ => seqb v number
  end.

(** "The result of AND is one if both operands are equal to one, and zero otherwise", and so on.  The
    evaluator compares the text of an operand with [1]: an operand that is equal to one and written in
    another way is left out, and so is an operand of NOT that is neither equal to zero nor written [1]. *)
Definition operand_true (v : string) : option bool :=
  let one := equals v "1" in if Bool.eqb one (seqb v "1") then Some one else None.

Definition documented_not (v : string) : meaning :=
  let zero := equals v "0" in if Bool.eqb zero (negb (seqb v "1")) then Value (digit zero) else Unspecified.

(** The value of a right operand as the result. *)
Definition as_truth (m : meaning) : meaning :=
  then_value m (fun b => match operand_true b with Some t => Value (digit t) | None => Unspecified end).

Fixpoint prim_doc (p : prim_e) : meaning :=
  match p with
  | PNum v | PStr v => Value v
  | PVar nm => Value (vars nm)
  | PNeg p =>
      then_value (prim_doc p) (fun v =>
        match from_string_double v with
        | Some d => Value (to_string_double (dmul (of_Z (-1)) d))
        | None => NotNumber
        end)
  | PNot p => then_value (prim_doc p) documented_not
  | PParen r => rel_doc r
  end
with mul_doc (m : mul_e) : meaning :=
  match m with
  | MPrim p => prim_doc p
  | MOp l ty p => arith_meaning (product ty) (mul_doc l) (prim_doc p)
  end
with add_doc (a : add_e) : meaning :=
  match a with
  | AMul m => mul_doc m
  | AOp l ty m => arith_meaning (sum ty) (add_doc l) (mul_doc m)
  end
with rel_doc (r : rel_e) : meaning :=
  match r with
  | RAdd a => add_doc a
  | ROp l ty r => compare_meaning (comparison ty) (add_doc l) (add_doc r)
  end.

(** The right operand of [&] and [|] is evaluated when the left one does not decide. *)
Definition documented (e : top_e) : meaning :=
  match e with
  | ERel r => rel_doc r
  | EAnd l r =>
      then_value (add_doc l) (fun a =>
        match operand_true a with Some true => as_truth (add_doc r) | Some false => Value "0" | None => Unspecified end)
  | EOr l r =>
      then_value (add_doc l) (fun a =>
        match operand_true a with Some true => Value "1" | Some false => as_truth (add_doc r) | None => Unspecified end)
  end.

(** [m] is [m'] where it is specified. *)
Definition agrees (m m' : meaning) : Prop := m <> Unspecified -> m' = m.

Lemma agrees_then m m' f f' :
  agrees m m' -> (forall v, agrees (f v) (f' v)) -> agrees (then_value m f) (then_value m' f').
Proof. intros Hm Hf. destruct m; cbn; try (by intros []); rewrite Hm by done; [apply Hf|by intros _]. Qed.

Lemma agrees_arith op op' l l' r r' :
  op = op' -> agrees l l' -> agrees r r' -> agrees (arith_meaning op l r) (arith_meaning op' l' r').
Proof.
  intros <- Hl Hr. destruct op as [op|]; [|by intros []].
  destruct l, r; try (by intros []); rewrite Hl, Hr by done; by intros _.
Qed.

Lemma agrees_compare ty l l' r r' :
  agrees l l' -> agrees r r' -> agrees (compare_meaning (comparison ty) l r) (compare_meaning (relation_op ty) l' r').
Proof.
  intros Hl Hr. destruct ty; try (by intros []); cbn [comparison relation_op];
    (destruct l as [a| |]; [|rewrite Hl by done; by intros _|by intros []]);
    (destruct r as [b| |]; [|by intros []..]); rewrite Hl, Hr by done; by intros _.
Qed.

Lemma agrees_not v : agrees (documented_not v) (Value (bool_str (negb (seqb v "1")))).
Proof.
  unfold documented_not. destruct (Bool.eqb _ _) eqn:E; [|by intros []]. apply Bool.eqb_prop in E as <-. by intros _.
Qed.

Lemma operand_true_text v b : operand_true v = Some b -> seqb v "1" = b.
Proof. unfold operand_true. destruct (Bool.eqb _ _) eqn:E; [|done]. apply Bool.eqb_prop in E as <-. by intros [= <-]. Qed.

Lemma agrees_truth m m' : agrees m m' -> agrees (as_truth m) (then_value m' (fun b => Value (bool_str (seqb b "1")))).
Proof.
  intros Hm. apply agrees_then; [done|]. intros v. destruct (operand_true v) eqn:E; [|by intros []].
  apply operand_true_text in E as ->. by intros _.
Qed.

Lemma grammar_agrees :
  (forall p, agrees (prim_doc p) (prim_den vars p)) /\ (forall m, agrees (mul_doc m) (mul_den vars m)) /\
  (forall a, agrees (add_doc a) (add_den vars a)) /\ (forall r, agrees (rel_doc r) (rel_den vars r)).
Proof.
  apply grammar_ind; try done.
  - intros p IH. by apply agrees_then.
  - intros p IH. apply agrees_then; [done|apply agrees_not].
  - intros l IHl ty p IHp. by apply agrees_arith.
  - intros l IHl ty m IHm. by apply agrees_arith.
  - intros l IHl ty r IHr. by apply agrees_compare.
Qed.

Lemma documented_computed e : agrees (documented e) (top_den vars e).
Proof.
  destruct grammar_agrees as (_ & _ & Ha & Hr). destruct e as [r|l r|l r]; cbn [documented top_den]; [apply Hr|..].
  - apply agrees_then; [apply Ha|]. intros a. destruct (operand_true a) as [[]|] eqn:E; [| |by intros []];
      rewrite (operand_true_text _ _ E); [apply agrees_truth, Ha|by intros _].
  - apply agrees_then; [apply Ha|]. intros a. destruct (operand_true a) as [[]|] eqn:E; [| |by intros []];
      rewrite (operand_true_text _ _ E); [by intros _|apply agrees_truth, Ha].
Qed.
End documented.

