(* ===== verification/DbBuiltin.v ===== *)
(** * The tags of the language: [dbpager/tag/tag_var.cpp] and others

    The [execute] methods of the tags for variables, control flow, exceptions, strings and markup,
    each with the recursive call [exec] as a parameter, like in DbTag.v.
    - variables: [tag_var], [tag_set]; loops and choice: [tag_while], [tag_switch], [tag_case];
    - exceptions: [tag_try], [tag_catch], [tag_throw];
    - strings: [tag_split] and [tag_substr], with theorems on the two loops over a string;
    - markup: [tag_unknown] (any HTML element) and [tag_cdata]. *)

From S2P Require Import Prelude DbLang DbContext DbTag.

(** ** Strings *)

(** The pieces of [source] between the occurrences of [sep], from [old_pos] (the loop of [tag_split]
    before it trims them). *)
Fixpoint pieces (fuel : nat) (source sep : string) (old_pos : nat) : res (list string) :=
  match fuel with
  | O => NoFuel
  | S n =>
      match sfind source sep old_pos with
      | None => Ok [sdrop source old_pos]
      | Some pos =>
          rbind (pieces n source sep (pos + slen sep)) (fun l => Ok (ssub source old_pos (pos - old_pos) :: l))
      end
  end.

(** [replace_with]; [source.replace(i, f_length, replace)] keeps what is before and after. *)
Fixpoint replace_loop (fuel : nat) (source find replace : string) (i : nat) : res string :=
  match fuel with
  | O => NoFuel
  | S n =>
      match sfind source find i with
      | None => Ok source
      | Some i =>
          replace_loop n (ssub source 0 i +:+ replace +:+ sdrop source (i + slen find)) find replace
            (i + slen replace)
      end
  end.
Definition replace_with (source find replace : string) : res string :=
  replace_loop (S (slen source)) source find replace 0.

(** The entities of [tag_unknown]: quotes and angle brackets become entities in text, and control
    characters where markup is meant, which are turned into the characters at the end. *)
Fixpoint sflat (f : ascii -> string) (s : string) : string :=
  match s with "" => "" | String c s' => f c +:+ sflat f s' end.

Definition dquote : ascii := chr 34.

Definition htmlentities : string -> string := sflat (fun c =>
  if is_char c "'" then "&apos;" else if is_char c dquote then "&quot;"
  else if is_char c "<" then "&lt;" else if is_char c ">" then "&gt;" else str1 c).

(** [stub] and [keep_entities] are the same function. *)
Definition stub : string -> string := smap (fun c =>
  if is_char c "'" then chr 1 else if is_char c dquote then chr 2
  else if is_char c "<" then chr 3 else if is_char c ">" then chr 4 else c).
Definition keep_entities : string -> string := stub.

Definition htmlentitiesout : string -> string := smap (fun c =>
  if is_char c (chr 1) then "'"%char else if is_char c (chr 2) then dquote
  else if is_char c (chr 3) then "<"%char else if is_char c (chr 4) then ">"%char else c).

(** The elements without a content. *)
Definition void_tags : list string :=
  ["base"; "meta"; "link"; "hr"; "br"; "basefont"; "param"; "img"; "area"; "input"; "isindex"; "col"].

Section tags.
Context `{Dcl, Platform, Services}.
Context (exec : exec_fn) (fuel : nat).

Definition param (h : heap) (self : positive) (o : tag) (nm : string) : X world string :=
  get_parameter exec h self o nm.
Definition children (h : heap) (o : tag) (caller : option positive) : X world unit :=
  tag_impl_execute exec h o caller.

(** ** Variables *)

Definition tag_var_execute (h : heap) (self : positive) (o : tag) (caller : option positive) : X world unit :=
  scope (
    nm <- param h self o "name" ;;
    for_each (fun i =>
      p_type <- param h self o "type" ;;
      value <- param h self o "value" ;;
      ctx (add_value i value (if is_empty p_type then "local" else p_type))) (tokenize nm) ;;;
    children h o caller).

Definition tag_set_execute (h : heap) (self : positive) (o : tag) (caller : option positive) : X world unit :=
  s <- capture (children h o caller) ;;
  nm <- param h self o "name" ;;
  for_each (fun i => ctx (set_value i s)) (tokenize nm).

(** ** Control flow *)

Fixpoint while_loop (n : nat) (h : heap) (self : positive) (o : tag) (caller : option positive) : X world unit :=
  match n with
  | O => xnofuel
  | S n =>
      test <- param h self o "test" ;;
      if seqb test "1" then children h o caller ;;; while_loop n h self o caller else xret tt
  end.
Definition tag_while_execute := while_loop fuel.

Definition switch_variable : string := "@DBP:SWITCH@".

(** [catch (tag_case_exception &e) { }]: the exception of a case ends the switch. *)
Definition tag_switch_execute (h : heap) (self : positive) (o : tag) (caller : option positive) : X world unit :=
  scope (catch
    (test <- param h self o "test" ;;
     ctx (add_value switch_variable test "") ;;;
     children h o caller)
    (fun e => if is_case_exception e then xret tt else throw e)).

Definition tag_case_execute (h : heap) (self : positive) (o : tag) (caller : option positive) : X world unit :=
  p <- param h self o "match" ;;
  v <- ctx_get switch_variable ;;
  if is_empty p || seqb v p then children h o caller ;;; throw (tag_case_exception "") else xret tt.

(** ** Exceptions *)

(** [tag_catch::process_exception], of an [app_exception] and of any other. *)
Definition process_exception (h : heap) (o : tag) (e : exn) (caller : option positive) : X world unit :=
  scope (
    match e with
    | app_exception _ code => ctx (add_value "error_code" (to_string_int code) "")
    | _ => xret tt
    end ;;;
    ctx (add_value "error_message" (what e) "") ;;;
    children h o caller).

(** The cast of the child named [catch] is undefined when it is no [tag_catch]. *)
Definition tag_try_execute (h : heap) (self : positive) (o : tag) (caller : option positive) : X world unit :=
  catch (s <- capture (children h o caller) ;; emit s)
    (fun e =>
      c <- xlift (get_child h o "catch") ;;
      match c with
      | None => throw e
      | Some c => with_tag h c (fun co =>
          if bool_decide (cls co = tag_catch) then process_exception h co e caller else xcrash BadCast)
      end).

Definition tag_throw_execute (h : heap) (self : positive) (o : tag) (caller : option positive) : X world unit :=
  message <- param h self o "message" ;;
  message <- (if is_empty message then capture (children h o caller) else xret message) ;;
  code <- param h self o "code" ;;
  if is_empty code then throw (dbp_exception message)
  else c <- int_of code ;; throw (app_exception message c).

(** ** Strings *)

(** One variable: the children are executed for every piece. *)
Definition split_one (h : heap) (self : positive) (o : tag) (caller : option positive)
    (nm : string) (str : list string) : X world unit :=
  ctx (add_value nm "" "") ;;;
  order <- param h self o "order" ;;
  let order := if is_empty order then "asc" else order in
  let turn i := ctx (set_value nm i) ;;; children h o caller in
  if seqb order "asc" then for_each turn str
  else if seqb order "desc" then for_each turn (rev str)
  else throw (tag_exception (format "invalid 'order' parameter value. expected (asc,desc). found: {0}" [order])).

(** Several variables: the last one takes the rest. *)
Definition split_many (h : heap) (o : tag) (caller : option positive) (sep : string)
    (names str : list string) : X world unit :=
  for_each (fun ij => ctx (add_value (fst ij) (snd ij) "")) (zip names str) ;;;
  match drop (length names) str with
  | [] => xret tt
  | rest =>
      let i := List.last names "" in
      v <- ctx_get i ;;
      ctx (set_value i (foldl (fun v j => v +:+ sep +:+ j) v rest))
  end ;;;
  children h o caller.

(** The parameters are read before the [try] block: an exception there leaves the layer. *)
Definition tag_split_execute (h : heap) (self : positive) (o : tag) (caller : option positive) : X world unit :=
  ctx enter ;;;
  sep <- param h self o "separator" ;;
  let sep := if is_empty sep then "," else sep in
  source <- param h self o "value" ;;
  str <- xlift (pieces (S (slen source)) source sep 0) ;;
  let str := trim <$> str in
  finally (
    nm <- param h self o "name" ;;
    match tokenize_by nm "," with
    | [] => throw (tag_exception "parameter 'name' is undefined")
    | [n] => split_one h self o caller n str
    | names => split_many h o caller sep names str
    end)
    (ctx leave).

Definition tag_substr_execute (h : heap) (self : positive) (o : tag) (caller : option positive) : X world unit :=
  scope (
    str <- param h self o "value" ;;
    what <- param h self o "what" ;;
    with_ <- param h self o "with" ;;
    str <- xlift (replace_with str what with_) ;;
    nm <- param h self o "name" ;;
    ctx (add_value nm str "") ;;;
    children h o caller).

(** ** Markup *)

Definition html_first : string := "@HTML:FIRST@".

Definition tag_attribute (convert : string -> string) (h : heap) (self : positive) (i : string * positive) :
  X world unit :=
  if is_empty (fst i) then xret tt
  else if starts_with "@DBP:PARAM@attr" (fst i) then
    v <- capture (exec h (snd i) (Some self)) ;; if is_empty v then xret tt else emit (" " +:+ v)
  else if starts_with "@DBP:PARAM@" (fst i) then xret tt
  else
    v <- capture (exec h (snd i) (Some self)) ;;
    if is_empty v then xret tt
    else emit (" " +:+ fst i +:+ "=" +:+ str1 (chr 2) +:+ convert v +:+ str1 (chr 2)).

(** [get_text()] of the parameter [asis] says whether markup in values is kept. *)
Definition real_execute (h : heap) (self : positive) (o : tag) (caller : option positive) : X world unit :=
  emit (str1 (chr 3) +:+ name o) ;;;
  convert <- match map_find "@DBP:PARAM@asis" (params o) with
             | None => xret htmlentities
             | Some a => with_tag h a (fun ao => xret (if seqb (text ao) "1" then stub else htmlentities))
             end ;;
  for_each (tag_attribute convert h self) (map_order (params o)) ;;;
  data <- capture (children h o caller) ;;
  let body := str1 (chr 4) +:+ convert data +:+ str1 (chr 3) +:+ "/" +:+ name o +:+ str1 (chr 4) in
  if bool_decide (name o ∈ void_tags) && is_empty data then emit ("/" +:+ str1 (chr 4)) else emit body.

Definition tag_unknown_execute (h : heap) (self : positive) (o : tag) (caller : option positive) : X world unit :=
  root <- ctx_get html_first ;;
  if is_empty root then
    ctx enter ;;;
    ctx (add_value html_first "1" "") ;;;
    finally (s <- capture (real_execute h self o caller) ;; emit (htmlentitiesout s)) (ctx leave)
  else real_execute h self o caller.

Definition tag_cdata_execute (o : tag) : X world unit :=
  root <- ctx_get html_first ;;
  emit (if is_empty root then text o else keep_entities (text o)).
End tags.
