(* ===== verification/DbStrings.v ===== *)
(** * Splitting and replacing: [tag_split.cpp], [tag_substr.cpp]

    The loops of [dbp:split] and [dbp:substr] over a string, against one specification: [splits sep s l]
    says that [l] are the pieces of [s] between the occurrences of [sep], taken from the left without
    overlap.  The pieces put together again are the string, none holds the separator, and a replacement
    puts another text between them.  With an empty text to look for [dbp:substr] does not end. *)

From S2P Require Import Prelude DbLang DbContext DbTag DbBuiltin.

(** ** Searching *)

Lemma sfind_app a b needle k :
  sfind (a +:+ b) needle (slen a + k) = Nat.add (slen a) <$> sfind b needle k.
Proof.
  unfold sfind. induction a as [|c a IH]; [rewrite sapp_nil_l, slen_nil; cbn; by destruct (String.index k needle b)|].
  rewrite sapp_cons, slen_cons. cbn [Nat.add String.index]. rewrite IH. by destruct (String.index k needle b).
Qed.

Lemma sfind_after a b needle : sfind (a +:+ b) needle (slen a) = Nat.add (slen a) <$> sfind b needle 0.
Proof. rewrite <- sfind_app. f_equal. lia. Qed.

Lemma substring_app a b n m : String.substring (slen a + n) m (a +:+ b) = String.substring n m b.
Proof. induction a as [|c a IH]; [done|]. rewrite sapp_cons, slen_cons. cbn. apply IH. Qed.

Lemma substring_all s : String.substring 0 (slen s) s = s.
Proof. induction s as [|c s IH]; [done|]. rewrite slen_cons. cbn. by rewrite IH. Qed.

Lemma substring_prefix a b : String.substring 0 (slen a) (a +:+ b) = a.
Proof. induction a as [|c a IH]; [by destruct b|]. rewrite sapp_cons, slen_cons. cbn. by rewrite IH. Qed.

Lemma sdrop_app a b : sdrop (a +:+ b) (slen a) = b.
Proof.
  unfold sdrop. rewrite slen_app. replace (slen a + slen b - slen a)%nat with (slen b) by lia.
  rewrite <- (Nat.add_0_r (slen a)) at 1. rewrite substring_app. apply substring_all.
Qed.

Lemma ssub_app a b c : ssub (a +:+ b +:+ c) (slen a) (slen b) = b.
Proof.
  unfold ssub. rewrite <- (Nat.add_0_r (slen a)) at 1. rewrite substring_app. apply substring_prefix.
Qed.

Lemma prefix_cut p s : String.prefix p s = true -> exists b, s = p +:+ b.
Proof.
  revert p. induction s as [|c s IH]; intros [|d p]; cbn; try done; [by exists ""|by eexists|].
  destruct (ascii_dec d c) as [->|]; [|done]. intros Hp. destruct (IH p Hp) as [b ->]. by exists b.
Qed.

Lemma starts_with_app p s : starts_with p (p +:+ s) = true.
Proof.
  unfold starts_with. induction p as [|c p IH]; [by destruct s|]. rewrite sapp_cons. cbn.
  by destruct (ascii_dec c c).
Qed.

Lemma starts_with_cut p s : starts_with p s = true -> exists b, s = p +:+ b.
Proof. apply prefix_cut. Qed.

Lemma sfind_cut s needle n :
  sfind s needle 0 = Some n -> exists a b, s = a +:+ needle +:+ b /\ slen a = n.
Proof.
  unfold sfind. revert n. induction s as [|c s IH]; intros n; cbn [String.index].
  - destruct needle; [|done]. intros [= <-]. by exists "", "".
  - destruct (String.prefix needle (String c s)) eqn:Ep.
    + intros [= <-]. apply prefix_cut in Ep as [b ->]. by exists "", b.
    + destruct (String.index 0 needle s) as [m|]; [|done]. intros [= <-].
      destruct (IH m eq_refl) as (a & b & -> & Ha). exists (String c a), b. by rewrite slen_cons, Ha.
Qed.

(** ** The specification *)

Inductive splits (sep : string) : string -> list string -> Prop :=
  | splits_last s : sfind s sep 0 = None -> splits sep s [s]
  | splits_cut p s l :
      sfind (p +:+ sep +:+ s) sep 0 = Some (slen p) -> splits sep s l -> splits sep (p +:+ sep +:+ s) (p :: l).

Fixpoint join (sep : string) (l : list string) : string :=
  match l with
  | [] => ""
  | [p] => p
  | p :: l' => p +:+ sep +:+ join sep l'
  end.

Lemma splits_ne sep s l : splits sep s l -> l <> [].
Proof. by destruct 1. Qed.

Lemma sjoin_cons sep p l : l <> [] -> join sep (p :: l) = p +:+ sep +:+ join sep l.
Proof. by destruct l. Qed.

Lemma join_splits sep s l : splits sep s l -> join sep l = s.
Proof.
  induction 1 as [|p s l _ Hs IH]; [done|]. rewrite sjoin_cons by (by eapply splits_ne). by rewrite IH.
Qed.

(** No piece holds the separator. *)
Lemma sfind_prefix_None a b needle :
  sfind (a +:+ needle +:+ b) needle 0 = Some (slen a) -> needle <> "" -> sfind a needle 0 = None.
Proof.
  intros Hf Hne. destruct (sfind a needle 0) as [m|] eqn:E; [|done]. exfalso.
  destruct (sfind_cut _ _ _ E) as (u & v & -> & <-).
  apply (String.index_correct2 0 (slen (u +:+ needle +:+ v)) needle _ Hf (slen u)).
  - lia.
  - destruct needle; [done|]. slen.
  - rewrite <- !sapp_assoc. rewrite <- (Nat.add_0_r (slen u)) at 1. rewrite substring_app. apply substring_prefix.
Qed.

Lemma splits_free sep s l : sep <> "" -> splits sep s l -> Forall (fun p => sfind p sep 0 = None) l.
Proof.
  intros Hne. induction 1 as [s Hs|p s l Hf _ IH]; [by constructor|]. constructor; [|done].
  by eapply sfind_prefix_None.
Qed.

(** The first occurrence of a character. *)
Lemma sfind_char c k v : sfind k (str1 c) 0 = None -> sfind (k +:+ str1 c +:+ v) (str1 c) 0 = Some (slen k).
Proof.
  unfold sfind. induction k as [|d k IH]; intros Hk.
  - rewrite sapp_nil_l. change (str1 c +:+ v) with (String c v). cbn. destruct (ascii_dec c c); [by destruct v|done].
  - rewrite sapp_cons. unfold str1 in *. cbn in *. destruct (ascii_dec c d); [by destruct k|].
    destruct (String.index 0 (String c "") k); [done|]. by rewrite IH.
Qed.

(** There is one way to split. *)
Lemma splits_total sep : sep <> "" -> forall n s, (slen s < n)%nat -> exists l, splits sep s l /\ (length l <= n)%nat.
Proof.
  intros Hne n. induction n as [|n IH]; intros s Hn; [lia|]. destruct (sfind s sep 0) as [m|] eqn:E.
  - destruct (sfind_cut _ _ _ E) as (a & b & -> & <-). assert (1 <= slen sep)%nat by (destruct sep; [done|slen]).
    destruct (IH b) as (l & Hl & Hle); [slen|]. exists (a :: l). split; [by constructor|]. cbn. lia.
  - exists [s]. split; [by constructor|]. cbn. lia.
Qed.

(** ** The loops *)

Lemma pieces_splits sep l : forall n done s,
  splits sep s l -> (length l <= n)%nat -> pieces n (done +:+ s) sep (slen done) = Ok l.
Proof.
  intros n done s Hs. revert n done. induction Hs as [s Hf|p s l Hf _ IH]; intros [|n] done; cbn [length]; try lia; intros Hn.
  - cbn. by rewrite sfind_after, Hf, sdrop_app.
  - cbn [pieces]. rewrite sfind_after, Hf. cbn [fmap option_fmap option_map].
    replace (slen done + slen p + slen sep)%nat with (slen (done +:+ p +:+ sep)) by slen.
    replace (done +:+ p +:+ sep +:+ s) with ((done +:+ p +:+ sep) +:+ s) by (by rewrite !sapp_assoc).
    rewrite IH by lia. cbn. replace (slen done + slen p - slen done)%nat with (slen p) by lia.
    by rewrite <- !sapp_assoc, ssub_app.
Qed.

Lemma replace_splits find replace l : forall n done s,
  splits find s l -> (length l <= n)%nat ->
  replace_loop n (done +:+ s) find replace (slen done) = Ok (done +:+ join replace l).
Proof.
  intros n done s Hs. revert n done. induction Hs as [s Hf|p s l Hf Hs IH]; intros [|n] done; cbn [length]; try lia; intros Hn.
  - cbn. by rewrite sfind_after, Hf.
  - cbn [replace_loop]. rewrite sfind_after, Hf. cbn [fmap option_fmap option_map].
    replace (ssub (done +:+ p +:+ find +:+ s) 0 (slen done + slen p)) with (done +:+ p).
    2: { unfold ssub. replace (slen done + slen p)%nat with (slen (done +:+ p)) by slen.
         by rewrite sapp_assoc, substring_prefix. }
    replace (sdrop (done +:+ p +:+ find +:+ s) (slen done + slen p + slen find)) with s.
    2: { replace (slen done + slen p + slen find)%nat with (slen (done +:+ p +:+ find)) by slen.
         by rewrite !sapp_assoc, sdrop_app. }
    replace (slen done + slen p + slen replace)%nat with (slen (done +:+ p +:+ replace)) by slen.
    replace ((done +:+ p) +:+ replace +:+ s) with ((done +:+ p +:+ replace) +:+ s) by (by rewrite !sapp_assoc).
    rewrite IH by lia. rewrite sjoin_cons by (by eapply splits_ne). by rewrite !sapp_assoc.
Qed.

(** The loop of [dbp:split] cuts the text at the occurrences of the separator from the left: the
    pieces joined by the separator are the text again, and none holds the separator. *)
Theorem tag_split_join source sep :
  sep <> "" ->
  exists l, pieces (S (slen source)) source sep 0 = Ok l /\ splits sep source l /\ join sep l = source /\
    Forall (fun p => sfind p sep 0 = None) l.
Proof.
  intros Hne. destruct (splits_total sep Hne (S (slen source)) source) as (l & Hl & Hn); [lia|].
  exists l. split_and!; [by apply (pieces_splits sep l _ "")|done|by apply join_splits|by eapply splits_free].
Qed.

(** [dbp:substr] puts the new text between the pieces that [dbp:split] would cut at the old one. *)
Theorem replace_with_join source find replace :
  find <> "" ->
  exists l, pieces (S (slen source)) source find 0 = Ok l /\ replace_with source find replace = Ok (join replace l).
Proof.
  intros Hne. destruct (splits_total find Hne (S (slen source)) source) as (l & Hl & Hn); [lia|].
  exists l. split; [by apply (pieces_splits find l _ "")|].
  unfold replace_with. by rewrite (replace_splits find replace l _ "" source).
Qed.

(** An empty text is found everywhere: the loop does not end, and with a text to put in its place the
    string grows. *)
Lemma sfind_empty s k : (k <= slen s)%nat -> sfind s "" k = Some k.
Proof.
  unfold sfind. revert k. induction s as [|c s IH]; intros [|k] Hk; try done; [slen|]. rewrite slen_cons in Hk.
  cbn [String.index]. by rewrite IH by lia.
Qed.

Lemma substring_slen s n m : (n + m <= slen s)%nat -> slen (String.substring n m s) = m.
Proof.
  revert n m. induction s as [|c s IH]; intros n m Hs.
  - rewrite slen_nil in Hs. assert (n = 0 /\ m = 0)%nat as [-> ->] by lia. done.
  - rewrite slen_cons in Hs. destruct n as [|n], m as [|m]; cbn; rewrite ?slen_cons, ?IH by lia; done.
Qed.

(** with an empty text to look for [dbp:substr] never ends, however long it runs. *)
Theorem replace_empty_diverges source replace n : replace_loop n source "" replace 0 = NoFuel.
Proof.
  assert (forall s i, (i <= slen s)%nat -> replace_loop n s "" replace i = NoFuel) as H; [|apply H; lia].
  induction n as [|n IH]; intros s i Hi; [done|]. cbn [replace_loop]. rewrite sfind_empty by done. apply IH.
  unfold ssub, sdrop. change (slen "") with 0%nat. rewrite !slen_app, !substring_slen by lia. lia.
Qed.
