(* ===== verification/DbData.v ===== *)
(** * Lists and maps: [dbpager/tag/tag_list.cpp], [tag_map.cpp]

    [dbp:list] and [dbp:map] own a vector or a map for the time their children are executed and put
    its address, as text, into a variable; the tags in them read the address back.  The objects live
    in the stores [lists] and [maps] of the [world], which share no address.  The variable is a text that
    a program may set as it likes, and the cast back is unchecked: an address where no object of the class
    that is expected lives, because it was made up, is stale or is that of the other class, is a fault
    ([WildPointer]).  A map is the list of its elements in the order they were inserted; a visit takes them
    in [map_order].

    A loop over a container fails ([MemFault]) when its body has changed the container, which
    invalidates the iterator. *)

From S2P Require Import Prelude DbLang DbContext DbTag DbBuiltin.

Section data.
Context `{Dcl, Platform, Services}.
Context (exec : exec_fn).

Notation param := (param exec).
Notation children := (children exec).

(** A container whose address is in the variable [prefix + name]. *)
Definition find_container (prefix nm : string) (undefined : exn) : X world positive :=
  data_ptr <- ctx_get (prefix +:+ nm) ;;
  if is_empty data_ptr then throw undefined
  else of_option (type_conversion_exception (conversion_error data_ptr)) (str_pointer data_ptr).

(** An address where neither a list nor a map lives. *)
Definition fresh_data (w : world) : positive := fresh (dom (lists w) ∪ dom (maps w)).

(** ** Lists *)

Definition list_undefined (nm : string) : exn :=
  tag_list_exception (format "list '{0}' was not defined in the current context" [nm]).
Definition find_list (nm : string) : X world positive := find_container "@LIST@" nm (list_undefined nm).

Definition get_list (p : positive) : X world (list string) := fun w =>
  match lists w !! p with Some l => Ok (Val l, w, "") | None => Crash WildPointer end.
Definition put_list (p : positive) (l : list string) : X world unit :=
  xmodify (fun w => w <| lists := <[p := l]> (lists w) |>).
Definition free_list (p : positive) : X world unit := xmodify (fun w => w <| lists := delete p (lists w) |>).

Definition tag_list_execute (h : heap) (self : positive) (o : tag) (caller : option positive) : X world unit :=
  nm <- param h self o "name" ;;
  w <- xget ;;
  let p := fresh_data w in
  put_list p [] ;;;
  finally (scope (ctx (add_value ("@LIST@" +:+ nm) (pointer_str p) "") ;;; children h o caller)) (free_list p).

Definition tag_list_add_execute (h : heap) (self : positive) (o : tag) : X world unit :=
  nm <- param h self o "name" ;; value <- param h self o "value" ;;
  p <- find_list nm ;; l <- get_list p ;; put_list p (l ++ [value]).

(** [erase] outside the vector is undefined. *)
Definition tag_list_remove_execute (h : heap) (self : positive) (o : tag) : X world unit :=
  nm <- param h self o "name" ;; key <- param h self o "number" ;;
  p <- find_list nm ;; k <- int_of key ;; l <- get_list p ;;
  if (0 <=? k) && (k <? zlen l) then put_list p (delete (Z.to_nat k) l) else xcrash MemFault.

Definition out_of_range : exn := std_exception "vector::_M_range_check".

Definition tag_list_element_execute (h : heap) (self : positive) (o : tag) (caller : option positive) :
  X world unit :=
  nm <- param h self o "name" ;; key <- param h self o "number" ;;
  p <- find_list nm ;;
  scope (
    k <- int_of key ;; l <- get_list p ;;
    v <- of_option out_of_range (if k <? 0 then None else l !! Z.to_nat k) ;;
    ctx (add_value (nm +:+ "_value") v "") ;;;
    children h o caller).

(** The iterator is still valid. *)
Definition list_unchanged (p : positive) (l : list string) : X world unit :=
  l' <- get_list p ;; if bool_decide (l' = l) then xret tt else xcrash MemFault.

Definition tag_list_elements_execute (h : heap) (self : positive) (o : tag) (caller : option positive) :
  X world unit :=
  nm <- param h self o "name" ;;
  p <- find_list nm ;; l <- get_list p ;;
  for_each (fun v =>
    scope (ctx (add_value (nm +:+ "_value") v "") ;;; children h o caller) ;;; list_unchanged p l) l.

(** The text of an element of a JSON value. *)
Definition json_text (v : json) : string :=
  if json_is_null v then "" else match json_as_string v with Some s => s | None => json_write v end.

Definition invalid_json (buf : string) : string := format "invalid JSON structure '{0}'" [buf].

Definition tag_list_from_json_execute (h : heap) (self : positive) (o : tag) (caller : option positive) :
  X world unit :=
  nm <- param h self o "name" ;;
  p <- find_list nm ;;
  buf <- capture (children h o caller) ;;
  if is_empty buf then xret tt
  else
    root <- of_option (tag_list_exception (invalid_json buf)) (json_parse buf) ;;
    match json_elements root, json_members root with
    | Some els, _ => get_list p ;;; put_list p (json_text <$> els)
    | None, Some ms => get_list p ;;; put_list p (json_text <$> ms.*2)
    | None, None => xret tt
    end.

(** ** Maps *)

Definition map_undefined (nm : string) : exn :=
  tag_map_exception (format "map '{0}' was not defined in the current context" [nm]).
Definition find_map (nm : string) : X world positive := find_container "@MAP@" nm (map_undefined nm).
Definition find_map_types (nm : string) : X world positive := find_container "@MAP_TYPES@" nm (map_undefined nm).

Definition get_map (p : positive) : X world (list (string * string)) := fun w =>
  match maps w !! p with Some l => Ok (Val l, w, "") | None => Crash WildPointer end.
Definition put_map (p : positive) (l : list (string * string)) : X world unit :=
  xmodify (fun w => w <| maps := <[p := l]> (maps w) |>).
Definition free_map (p : positive) : X world unit := xmodify (fun w => w <| maps := delete p (maps w) |>).

Definition tag_map_execute (h : heap) (self : positive) (o : tag) (caller : option positive) : X world unit :=
  nm <- param h self o "name" ;;
  w <- xget ;;
  let data := fresh_data w in
  put_map data [] ;;;
  w <- xget ;;
  let data_types := fresh_data w in
  put_map data_types [] ;;;
  finally (scope (
    ctx (add_value ("@MAP@" +:+ nm) (pointer_str data) "") ;;;
    ctx (add_value ("@MAP_TYPES@" +:+ nm) (pointer_str data_types) "") ;;;
    children h o caller)) (free_map data_types ;;; free_map data).

(** [insert] does not replace the value of a key that is there. *)
Definition tag_map_set_execute (h : heap) (self : positive) (o : tag) : X world unit :=
  nm <- param h self o "name" ;; key <- param h self o "key" ;;
  type <- param h self o "type" ;; value <- param h self o "value" ;;
  p <- find_map nm ;; l <- get_map p ;; put_map p (map_insert key value l) ;;;
  if is_empty type then xret tt
  else p <- find_map_types nm ;; l <- get_map p ;; put_map p (map_insert key type l).

Definition tag_map_unset_execute (h : heap) (self : positive) (o : tag) : X world unit :=
  nm <- param h self o "name" ;; key <- param h self o "key" ;;
  p <- find_map nm ;; l <- get_map p ;; put_map p (map_erase key l).

Definition tag_map_element_execute (h : heap) (self : positive) (o : tag) (caller : option positive) :
  X world unit :=
  nm <- param h self o "name" ;; key <- param h self o "key" ;;
  p <- find_map nm ;;
  scope (
    l <- get_map p ;;
    match map_find key l with
    | Some v => ctx (add_value (nm +:+ "_" +:+ key) v "")
    | None => xret tt
    end ;;;
    children h o caller).

Definition map_unchanged (p : positive) (l : list (string * string)) : X world unit :=
  l' <- get_map p ;; if bool_decide (l' = l) then xret tt else xcrash MemFault.

Definition tag_map_elements_execute (h : heap) (self : positive) (o : tag) (caller : option positive) :
  X world unit :=
  nm <- param h self o "name" ;;
  p <- find_map nm ;; l <- get_map p ;;
  for_each (fun it =>
    scope (
      ctx (add_value (nm +:+ "_key") (fst it) "") ;;;
      ctx (add_value (nm +:+ "_value") (snd it) "") ;;;
      children h o caller) ;;;
    map_unchanged p l) (map_order l).

Definition tag_map_values_execute (h : heap) (self : positive) (o : tag) (caller : option positive) :
  X world unit :=
  nm <- param h self o "name" ;; prefix <- param h self o "prefix" ;;
  let prefix := if is_empty prefix then nm else prefix in
  p <- find_map nm ;; l <- get_map p ;;
  ctx enter ;;;
  for_each (fun it => ctx (add_value (prefix +:+ "_" +:+ fst it) (snd it) "")) (map_order l) ;;;
  finally (children h o caller) (ctx leave).

Definition tag_map_from_json_execute (h : heap) (self : positive) (o : tag) (caller : option positive) :
  X world unit :=
  nm <- param h self o "name" ;;
  p <- find_map nm ;;
  buf <- capture (children h o caller) ;;
  if is_empty buf then xret tt
  else
    root <- of_option (tag_map_exception (invalid_json buf)) (json_parse buf) ;;
    match json_members root with
    | Some ms => get_map p ;;; put_map p (foldl (fun l m => map_insert (fst m) (json_text (snd m)) l) [] ms)
    | None => xret tt
    end.

(** [std::stoi]: the leading decimal number; what follows it is ignored. *)
Fixpoint digits_value (acc : Z) (s : string) : Z :=
  match s with
  | "" => acc
  | String ch s' => if isdigit ch then digits_value (acc * 10 + (Z.of_nat (code ch) - 48)) s' else acc
  end.
Fixpoint skip_blanks (s : string) : string :=
  match s with String ch s' => if isspace ch then skip_blanks s' else s | "" => "" end.
Definition stoi (s : string) : X world Z :=
  let '(neg, digits) :=
    match skip_blanks s with
    | String "-"%char r => (true, r)
    | String "+"%char r => (false, r)
    | r => (false, r)
    end in
  match digits with
  | String ch _ =>
      if isdigit ch then
        let v := digits_value 0 digits in
        let v := if neg then - v else v in
        if int_fits v then xret v else throw (std_exception "stoi")
      else throw (std_exception "stoi")
  | "" => throw (std_exception "stoi")
  end.

(** The value of an element for its type. *)
Definition typed_value (type value : string) : X world json :=
  if seqb type "integer" then z <- stoi value ;; xret (json_of_int z)
  else if seqb type "number" then d <- of_option (std_exception "stod") (stod value) ;; xret (json_of_double d)
  else if seqb type "boolean" then xret (json_of_bool (seqb value "true"))
  else if seqb type "object" then of_option (tag_map_exception (invalid_json value)) (json_parse value)
  else xret (json_of_string value).

Fixpoint typed_members (types l : list (string * string)) : X world (list (string * json)) :=
  match l with
  | [] => xret []
  | (k, v) :: l' =>
      j <- (match map_find k types with Some ty => typed_value ty v | None => xret (json_of_string v) end) ;;
      js <- typed_members types l' ;; xret ((k, j) :: js)
  end.

(** [json_object] of no members is the null value that a new [Json::Value] is. *)
Definition tag_map_to_json_execute (h : heap) (self : positive) (o : tag) : X world unit :=
  nm <- param h self o "name" ;;
  p <- find_map nm ;; q <- find_map_types nm ;;
  l <- get_map p ;; types <- get_map q ;;
  ms <- typed_members types (map_order l) ;; emit (json_write (json_object ms)).
End data.
