(* ===== verification/DbServices.v ===== *)
(** * Tags that act outside the program: [dbpager/tag/tag_read.cpp] and others

    Files ([tag_read], [tag_write], [tag_delete], [tag_rename]), the log, message catalogues
    ([tag_locale]), regular expressions, cURL ([tag_http]), processes ([tag_system]) and concurrent
    children ([tag_async]).  The operating system and the libraries are the class [Services]. *)

From S2P Require Import Prelude DbLang DbContext DbTag DbBuiltin.

#[export] Instance context_eq_dec : EqDecision context.
Proof. solve_decision. Defined.

Section services.
Context `{Dcl, Platform, Services}.
Context (exec : exec_fn) (fuel : nat).

Notation param := (param exec).
Notation children := (children exec).

(** A call of the operating system. *)
Definition on_os {A} (f : sys -> A * sys) : X world A := fun w =>
  let '(a, o) := f (os w) in Ok (Val a, w <| os := o |>, "").

(** ** Files *)

Definition tag_read_execute (h : heap) (self : positive) (o : tag) (caller : option positive) : X world unit :=
  children h o caller ;;;
  href <- param h self o "href" ;;
  content <- on_os (fun s => (sys_read href s, s)) ;;
  match content with
  | Some text => emit text
  | None => throw (tag_exception (format "file {0} not found or read error" [href]))
  end.

Definition tag_write_execute (h : heap) (self : positive) (o : tag) (caller : option positive) : X world unit :=
  buf <- capture (children h o caller) ;;
  href <- param h self o "href" ;;
  done <- on_os (sys_write href buf) ;;
  if done : bool then xret tt else throw (tag_exception (format "can't write to file {0}" [href])).

Definition tag_delete_execute (h : heap) (self : positive) (o : tag) (caller : option positive) : X world unit :=
  href <- param h self o "href" ;;
  done <- on_os (sys_remove href) ;;
  if done : bool then children h o caller
  else throw (tag_exception (format "file {0} can't be deleted" [href])).

Definition tag_rename_execute (h : heap) (self : positive) (o : tag) (caller : option positive) : X world unit :=
  href <- param h self o "href" ;;
  as_ <- param h self o "as" ;;
  done <- on_os (sys_rename href as_) ;;
  if done : bool then children h o caller
  else throw (tag_exception (format "file {0} can't be renamed" [href])).

(** ** Log and catalogues *)

(** The services provider of a context may be null. *)
Definition tag_log_execute (h : heap) (o : tag) (caller : option positive) : X world unit :=
  s <- capture (children h o caller) ;;
  w <- xget ;;
  match chain w with
  | c :: _ => if _services c then on_os (fun o => (tt, sys_log s o)) else xcrash NullDeref
  | [] => xcrash NullDeref
  end.

Definition tag_locale_execute (h : heap) (self : positive) (o : tag) (caller : option positive) : X world unit :=
  domain <- param h self o "domain" ;;
  path <- param h self o "path" ;;
  locale <- param h self o "locale" ;;
  if is_empty domain then throw (tag_locale_exception "message domain (domain) is not defined")
  else if is_empty path then
    throw (tag_locale_exception
      "base directory of the hierarchy containing message catalogs (path) is not defined")
  else
    scope (
      ctx (add_value "@LANG_DOMAIN@" domain "") ;;;
      ctx (add_value "@LANG_LOCALE@" locale "") ;;;
      on_os (fun o => (tt, sys_catalog domain path o)) ;;;
      children h o caller).

(** ** Regular expressions *)

(** [while (re.FindAndConsume(&input, &found))]. *)
Fixpoint regexp_loop (n : nat) (expression variable input : string) (body : X world unit) : X world unit :=
  match n with
  | O => xnofuel
  | S n =>
      match re_find_and_consume expression input with
      | None => xret tt
      | Some (found, input) =>
          scope (ctx (add_value variable found "") ;;; body) ;;; regexp_loop n expression variable input body
      end
  end.

Definition tag_regexp_execute (h : heap) (self : positive) (o : tag) (caller : option positive) : X world unit :=
  expression <- param h self o "expr" ;;
  let expression := match sfind expression "(" 0 with None => "(" +:+ expression +:+ ")" | Some _ => expression end in
  value <- param h self o "value" ;;
  variable <- param h self o "name" ;;
  with_ <- param h self o "with" ;;
  let variable := if is_empty variable then "result" else variable in
  if is_empty with_ then regexp_loop fuel expression variable value (children h o caller)
  else
    let '(count, value) := re_global_replace expression with_ value in
    if count >? 0 then scope (ctx (add_value variable value "") ;;; children h o caller) else xret tt.

(** ** cURL *)

Definition http_keys : list string :=
  ["href"; "method"; "user"; "password"; "certificate"; "private-key"; "ca-certificate";
   "certificate-data"; "private-key-data"; "ca-certificate-data"].

(** The other parameters become headers, with their text as it is, not evaluated. *)
Fixpoint http_headers (h : heap) (l : list (string * positive)) : X world (list string) :=
  match l with
  | [] => xret []
  | (k, p) :: l' =>
      if bool_decide (k ∈ http_keys) then http_headers h l'
      else with_tag h p (fun po => hs <- http_headers h l' ;; xret ((k +:+ ": " +:+ text po) :: hs))
  end.

(** The options of the client certificate, the authority, the user and the body (libcurl of version
    7.77 or later). *)
Definition certificate_opts (cert key cert_data key_data ca ca_data : string) : list curl_opt :=
  (if negb (is_empty cert) && negb (is_empty key) then [CURLOPT_SSLCERT cert; CURLOPT_SSLKEY key]
   else if negb (is_empty cert_data) && negb (is_empty key_data) then
     [CURLOPT_SSLCERT_BLOB cert_data; CURLOPT_SSLKEY_BLOB key_data; CURLOPT_SSLCERTTYPE "PEM"]
   else []) ++
  (if negb (is_empty ca) then [CURLOPT_CAINFO ca; CURLOPT_SSL_VERIFYPEER]
   else if negb (is_empty ca_data) then [CURLOPT_CAINFO_BLOB ca_data; CURLOPT_SSL_VERIFYPEER]
   else []).

Definition user_opts (user password : string) : list curl_opt :=
  if negb (is_empty user) then [CURLOPT_USERPWD (user +:+ ":" +:+ password); CURLOPT_HTTPAUTH_BASIC]
  else if negb (is_empty password) then [CURLOPT_XOAUTH2_BEARER password; CURLOPT_HTTPAUTH_BEARER]
  else [].

Definition method_opts (method content : string) : list curl_opt :=
  (if is_empty content then [] else [CURLOPT_POSTFIELDS content]) ++
  (if seqb method "POST" then [CURLOPT_POST]
   else if seqb method "GET" then [] else [CURLOPT_CUSTOMREQUEST method]).

Definition tag_http_execute (h : heap) (self : positive) (o : tag) (caller : option positive) : X world unit :=
  href <- param h self o "href" ;; user <- param h self o "user" ;; password <- param h self o "password" ;;
  cert <- param h self o "certificate" ;; key <- param h self o "private-key" ;;
  ca <- param h self o "ca-certificate" ;; cert_data <- param h self o "certificate-data" ;;
  key_data <- param h self o "private-key-data" ;; ca_data <- param h self o "ca-certificate-data" ;;
  method <- param h self o "method" ;;
  let method := if is_empty method then "GET" else smap to_upper method in
  content <- capture (children h o caller) ;;
  headers <- http_headers h (map_order (params o)) ;;
  res <- on_os (sys_http (
    [CURLOPT_NOSIGNAL; CURLOPT_URL href; CURLOPT_USERAGENT app_full_name; CURLOPT_FOLLOWLOCATION] ++
    certificate_opts cert key cert_data key_data ca ca_data ++ user_opts user password ++
    method_opts method content ++ [CURLOPT_HTTPHEADER headers])) ;;
  match res with
  | curl_failed e => throw (tag_exception (format "http request failed: {0}" [e]))
  | curl_answer http_code body => if http_code >=? 400 then throw (tag_exception body) else emit body
  end.

(** ** Processes *)

(** The output of the process is written to [out] while it runs. *)
Definition tag_system_execute (h : heap) (self : positive) (o : tag) (caller : option positive) : X world unit :=
  href <- param h self o "href" ;;
  args <- param h self o "parameters" ;;
  input <- capture (children h o caller) ;;
  res <- on_os (sys_process href args input) ;;
  let '(stdout, stderr, thrown) := res in
  emit stdout ;;;
  match thrown with
  | Some e => throw e
  | None => if is_empty stderr then xret tt else throw (tag_exception stderr)
  end.

(** ** Concurrent children *)

(** One child, in a context of its own on top of the shared ones.  The threads run at the same time
    on shared contexts, lists and maps: a child that changes them is a data race, a fault. *)
Definition async_child (h : heap) (caller : option positive) (c : positive) : X world string := fun w =>
  match capture (exec h c caller) (w <| chain := local_context (chain w) |>) with
  | Ok (o, w', _) =>
      if bool_decide (tl (chain w') = chain w) && bool_decide (lists w' = lists w) && bool_decide (maps w' = maps w)
      then Ok (Val (match o with Val s => s | Exc _ => "" end), w <| os := os w' |>, "")
      else Crash MemFault
  | Crash f => Crash f
  | NoFuel => NoFuel
  end.

Fixpoint async_children (h : heap) (caller : option positive) (l : list positive) : X world string :=
  match l with
  | [] => xret ""
  | c :: l' => s <- async_child h caller c ;; t <- async_children h caller l' ;; xret (s +:+ t)
  end.

(** All futures are started before the first result is written. *)
Definition tag_async_execute (h : heap) (o : tag) (caller : option positive) : X world unit :=
  s <- async_children h caller (childs o) ;; emit s.
End services.
