(* ===== verification/DbFunctions.v ===== *)
(** * The functions of expressions: [dbpager/tag/functions.cpp]

    A function is a tag whose parameters [arg1], [arg2], ... are its arguments; its output is its
    value.  [exec] is the recursive call as in DbTag.v. *)

From S2P Require Import Prelude DbLang DbContext DbTag DbBuiltin DbServices.

Section functions.
Context `{Dcl, Platform, Services}.
Context (exec : exec_fn).

Notation param := (param exec).

Definition wrong_arguments {A} (o : tag) (n : Z) : X world A :=
  throw (function_exception
    (format "wrong number of arguments ({0} instead {1} expected)" [pretty (zlen (params o)); pretty n])).

(** [(params.begin()->second)->execute(ctx, s, this)] of the only parameter. *)
Definition one_argument (h : heap) (self : positive) (o : tag) : X world string :=
  match params o with
  | [(_, p)] => capture (exec h p (Some self))
  | _ => wrong_arguments o 1
  end.

Definition two_arguments {A} (o : tag) (m : X world A) : X world A :=
  if zlen (params o) =? 2 then m else wrong_arguments o 2.

Definition of_outcome {A} (o : outcome A) : X world A :=
  match o with Val a => xret a | Exc e => throw e end.

Definition function_iif_execute (h : heap) (self : positive) (o : tag) : X world unit :=
  if zlen (params o) =? 3 then
    what <- param h self o "arg1" ;;
    s <- (if is_empty what then param h self o "arg3" else param h self o "arg2") ;; emit s
  else wrong_arguments o 3.

(** [char(i)]. *)
Definition char_of_int (z : Z) : ascii := chr (Z.to_nat (z mod 256)).

Definition function_byte_execute (h : heap) (self : positive) (o : tag) : X world unit :=
  s <- one_argument h self o ;; z <- int_of s ;; emit (str1 (char_of_int z)).

Definition function_length_execute (h : heap) (self : positive) (o : tag) : X world unit :=
  s <- one_argument h self o ;; emit (pretty (Z.of_nat (slen s))).

Definition function_trim_execute (h : heap) (self : positive) (o : tag) : X world unit :=
  s <- one_argument h self o ;; emit (trim s).

(** The arguments in the order of the [unordered_map]. *)
Definition function_concatenate_execute (h : heap) (o : tag) (caller : option positive) : X world unit :=
  for_each (fun i => exec h (snd i) caller) (map_order (params o)).

Definition function_pos_execute (h : heap) (self : positive) (o : tag) : X world unit :=
  two_arguments o (
    what <- param h self o "arg1" ;; where_ <- param h self o "arg2" ;;
    emit (match sfind where_ what 0 with None => "-1" | Some found => pretty (Z.of_nat found) end)).

(** A function of the library on one argument. *)
Definition library_function (f : string -> string) (h : heap) (self : positive) (o : tag) : X world unit :=
  s <- one_argument h self o ;; emit (f s).

Definition hex_digit (z : Z) : ascii := chr (Z.to_nat (if z <? 10 then 48 + z else 87 + z)).
Definition hex2 (z : Z) : string := String (hex_digit (z / 16)) (str1 (hex_digit (z mod 16))).
Definition sha256_hex (s : string) : string := foldr (fun z acc => hex2 z +:+ acc) "" (sha256 s).

(** [crypt_r] returns null for a bad salt, which must not be written to a stream. *)
Definition function_crypt_execute (h : heap) (self : positive) (o : tag) : X world unit :=
  two_arguments o (
    args <- operands (param h self o "arg1") (param h self o "arg2") ;;
    match crypt_r (fst args) (snd args) with Some s => emit s | None => xcrash NullDeref end).

Definition function_uuid_execute : X world unit := s <- on_os sys_uuid ;; emit s.

Definition function_translate_execute (h : heap) (self : positive) (o : tag) : X world unit :=
  s <- one_argument h self o ;;
  locale <- ctx_get "@LANG_LOCALE@" ;; domain <- ctx_get "@LANG_DOMAIN@" ;;
  emit (translate locale domain s).

(** [istream_iterator<char>] skips white space. *)
Fixpoint skip_white (s : string) : string :=
  match s with
  | "" => ""
  | String c s' => if isspace c then skip_white s' else String c (skip_white s')
  end.

Definition function_upper_execute := library_function (fun s => smap to_upper (skip_white s)).
Definition function_lower_execute := library_function (fun s => smap to_lower (skip_white s)).

(** [rand() % base]; a remainder of a division by zero is a fault. *)
Definition function_rnd_execute (h : heap) (self : positive) (o : tag) : X world unit :=
  match params o with
  | [(_, p)] =>
      s <- capture (exec h p (Some self)) ;; base <- int_of s ;;
      r <- on_os sys_rand ;;
      if base =? 0 then xcrash IntOverflow else emit (pretty (Z.rem r base))
  | _ => r <- on_os sys_rand ;; emit (pretty r)
  end.

Definition function_date_utc_execute (h : heap) (self : positive) (o : tag) : X world unit :=
  if zlen (params o) =? 1 then
    t <- param h self o "arg1" ;; d <- of_outcome (datetime_parse t "%s") ;; emit (datetime_as_gmt d)
  else wrong_arguments o 1.

Definition function_date_from_execute (h : heap) (self : positive) (o : tag) : X world unit :=
  two_arguments o (
    args <- operands (param h self o "arg1") (param h self o "arg2") ;;
    d <- of_outcome (datetime_parse (fst args) (snd args)) ;; emit (datetime_str d "%s")).

Definition function_date_fmt_execute (h : heap) (self : positive) (o : tag) : X world unit :=
  two_arguments o (
    t <- param h self o "arg2" ;; d <- of_outcome (datetime_parse t "%s") ;;
    fmt <- param h self o "arg1" ;; emit (datetime_str d fmt)).

Definition function_now_execute : X world unit :=
  t <- on_os (fun s => (sys_time s, s)) ;; emit (pretty (to_int t)).

Definition function_env_execute (h : heap) (self : positive) (o : tag) : X world unit :=
  if zlen (params o) =? 1 then
    nm <- param h self o "arg1" ;;
    val <- on_os (fun s => (sys_getenv nm s, s)) ;;
    match val with Some v => emit v | None => xret tt end
  else wrong_arguments o 1.
End functions.
