(* ===== verification/DbExecute.v ===== *)
(** * Executing a program: the recursion closed

    - [tag_factory]: the classes of the built-in tags and functions, [create].
    - [execute_function]: a call in an expression makes a temporary tag and executes it.
    - [execute_body] dispatches on the class of an object, [execute] is its fixpoint on fuel, and
      [dbpager_application_execute] runs a program in a local context.
    - More fuel does not change a result ([execute_fuel]). *)

From S2P Require Import Prelude DbLang DbContext DbTag DbExpression DbTemplate DbBuiltin DbData DbServices DbFunctions.

(** ** The tag factory *)

(** The registrations of the constructor of [tag_factory], for the namespace of dbPager. *)
Definition factories : list (string * tag_class) := [
  ("module", tag_impl); ("include", tag_impl); ("var", tag_var); ("set", tag_set);
  ("map", tag_map); ("map-set", tag_map_set); ("map-unset", tag_map_unset); ("map-element", tag_map_element);
  ("map-elements", tag_map_elements); ("map-values", tag_map_values); ("map-from-json", tag_map_from_json);
  ("map-to-json", tag_map_to_json);
  ("list", tag_list); ("list-add", tag_list_add); ("list-remove", tag_list_remove);
  ("list-element", tag_list_element); ("list-elements", tag_list_elements);
  ("list-from-json", tag_list_from_json);
  ("try", tag_try); ("catch", tag_catch); ("throw", tag_throw); ("case", tag_case); ("switch", tag_switch);
  ("while", tag_while); ("split", tag_split); ("substr", tag_substr); ("regexp", tag_regexp);
  ("tag", tag_tag); ("call", tag_call); ("execute", tag_execute);
  ("read", tag_read); ("write", tag_write); ("locale", tag_locale); ("system", tag_system);
  ("delete", tag_delete); ("rename", tag_rename); ("log", tag_log); ("http", tag_http); ("async", tag_async);
  ("@iif", function_iif); ("@byte", function_byte); ("@trim", function_trim); ("@len", function_length);
  ("@concat", function_concatenate); ("@pos", function_pos);
  ("@encode_base64", function_encode_base64); ("@decode_base64", function_decode_base64);
  ("@md5", function_md5); ("@sha256", function_sha256); ("@crypt", function_crypt); ("@uuid", function_uuid);
  ("@rnd", function_rnd); ("@upper", function_upper); ("@lower", function_lower);
  ("@encode_url", function_urlencode); ("@decode_url", function_urldecode);
  ("@date_utc", function_date_utc); ("@date_from", function_date_from); ("@date_fmt", function_date_fmt);
  ("@now", function_now); ("@env", function_env); ("@_", function_translate)].

Section execute.
Context `{Dcl, Platform, Services}.

(** [tag_factory::create] in the namespace of dbPager. *)
Definition create (object : string) : outcome tag :=
  match map_find object factories with
  | Some c => Val (new_tag c object)
  | None => Exc (parser_exception 0 (format "unknown tag found ({0})" [object]))
  end.

(** ** Calls of functions *)

Definition alloc (h : heap) (o : tag) : positive * heap := let p := fresh (dom h) in (p, <[p := o]> h).

(** [new tag_expression()] with the text of an argument. *)
Definition argument (f : positive) (text_ : string) : tag :=
  (new_tag tag_expression "") <| parent := Some f |> <| text := collapse false ("{" +:+ text_ +:+ "}") |>.

(** Adds the arguments from the [cnt]-th on to the tag [f]. *)
Fixpoint add_arguments (h : heap) (f : positive) (cnt : Z) (p : list string) : heap :=
  match p with
  | [] => h
  | i :: p' =>
      let '(a, h) := alloc h (argument f i) in
      match h !! f with
      | Some o =>
          add_arguments (<[f := o <| params := map_insert ("arg" +:+ to_string_int cnt) a (params o) |>]> h)
            f (cnt + 1) p'
      | None => h
      end
  end.

(** The tag that a call executes. *)
Definition function_tag (nm : string) : outcome tag :=
  match nm with
  | "" => Exc (std_exception "basic_string::substr")
  | String c rest => if is_char c "@" then Val (new_tag tag_usr rest) else create ("@" +:+ nm)
  end.

(** [execute_function], called from the expression at [self]. *)
Definition execute_function (exec : exec_fn) (h : heap) (self : positive) (nm args : string) : X world string :=
  match function_tag nm with
  | Exc e => throw e
  | Val o =>
      let '(f, h) := alloc h (o <| parent := Some self |>) in
      capture (exec (add_arguments h f 1 (tokenize args)) f None)
  end.

(** [tag_expression::execute]. *)
Definition tag_expression_execute (exec : exec_fn) (h : heap) (self : positive) (o : tag) : X world unit :=
  s <- eval ctx_get (execute_function exec h self) (text o) ;; emit s.

(** ** Dispatch *)

Definition execute_body (exec : exec_fn) (fuel : nat) : exec_fn := fun h self caller => with_tag h self (fun o =>
  match cls o with
  | tag_impl => tag_impl_execute exec h o caller
  | tag_tag => tag_tag_execute exec h o caller
  | tag_usr => tag_usr_execute exec fuel h self o
  | tag_call => tag_call_execute exec fuel h self o
  | tag_execute => tag_execute_execute exec h self o
  | tag_expression => tag_expression_execute exec h self o
  | tag_cdata => tag_cdata_execute o
  | tag_unknown => tag_unknown_execute exec h self o caller
  | tag_var => tag_var_execute exec h self o caller
  | tag_set => tag_set_execute exec h self o caller
  | tag_while => tag_while_execute exec fuel h self o caller
  | tag_switch => tag_switch_execute exec h self o caller
  | tag_case => tag_case_execute exec h self o caller
  | tag_try => tag_try_execute exec h self o caller
  | tag_catch => xret tt
  | tag_throw => tag_throw_execute exec h self o caller
  | tag_split => tag_split_execute exec h self o caller
  | tag_substr => tag_substr_execute exec h self o caller
  | tag_list => tag_list_execute exec h self o caller
  | tag_list_add => tag_list_add_execute exec h self o
  | tag_list_remove => tag_list_remove_execute exec h self o
  | tag_list_element => tag_list_element_execute exec h self o caller
  | tag_list_elements => tag_list_elements_execute exec h self o caller
  | tag_list_from_json => tag_list_from_json_execute exec h self o caller
  | tag_map => tag_map_execute exec h self o caller
  | tag_map_set => tag_map_set_execute exec h self o
  | tag_map_unset => tag_map_unset_execute exec h self o
  | tag_map_element => tag_map_element_execute exec h self o caller
  | tag_map_elements => tag_map_elements_execute exec h self o caller
  | tag_map_values => tag_map_values_execute exec h self o caller
  | tag_map_from_json => tag_map_from_json_execute exec h self o caller
  | tag_map_to_json => tag_map_to_json_execute exec h self o
  | tag_read => tag_read_execute exec h self o caller
  | tag_write => tag_write_execute exec h self o caller
  | tag_delete => tag_delete_execute exec h self o caller
  | tag_rename => tag_rename_execute exec h self o caller
  | tag_log => tag_log_execute exec h o caller
  | tag_locale => tag_locale_execute exec h self o caller
  | tag_regexp => tag_regexp_execute exec fuel h self o caller
  | tag_async => tag_async_execute exec h o caller
  | tag_http => tag_http_execute exec h self o caller
  | tag_system => tag_system_execute exec h self o caller
  | function_iif => function_iif_execute exec h self o
  | function_byte => function_byte_execute exec h self o
  | function_length => function_length_execute exec h self o
  | function_trim => function_trim_execute exec h self o
  | function_concatenate => function_concatenate_execute exec h o caller
  | function_pos => function_pos_execute exec h self o
  | function_encode_base64 => library_function exec encode_base64 h self o
  | function_decode_base64 => library_function exec decode_base64 h self o
  | function_md5 => library_function exec encode_md5 h self o
  | function_sha256 => library_function exec sha256_hex h self o
  | function_crypt => function_crypt_execute exec h self o
  | function_uuid => function_uuid_execute
  | function_urlencode => library_function exec url_encode h self o
  | function_urldecode => library_function exec url_decode h self o
  | function_translate => function_translate_execute exec h self o
  | function_upper => function_upper_execute exec h self o
  | function_lower => function_lower_execute exec h self o
  | function_rnd => function_rnd_execute exec h self o
  | function_date_utc => function_date_utc_execute exec h self o
  | function_date_from => function_date_from_execute exec h self o
  | function_date_fmt => function_date_fmt_execute exec h self o
  | function_now => function_now_execute
  | function_env => function_env_execute exec h self o
  end).

Fixpoint execute (fuel : nat) : exec_fn :=
  match fuel with
  | O => fun _ _ _ => xnofuel
  | S n => execute_body (execute n) n
  end.

(** [dbpager_application::execute]: the program at [root] in a local context with a services
    provider, on top of the contexts of the environment. *)
Definition program_context (env : list context) : list context := Context [∅] [] "local" true :: env.

Definition dbpager_application_execute (fuel : nat) (h : heap) (root : positive) : X world unit := fun w =>
  match execute fuel h root None (w <| chain := program_context (chain w) |>) with
  | Ok (o, w', out) => Ok (o, w' <| chain := tl (chain w') |>, out)
  | r => r
  end.
End execute.

(** ** More fuel does not change a result *)

Section fuel.
Context `{Dcl, Platform, Services}.
Context (exec exec' : exec_fn) (n n' : nat).
Context (exec_refines : forall h t c, refines (exec h t c) (exec' h t c)) (n_le : (n <= n')%nat).

#[local] Hint Resolve exec_refines : refines.

Lemma refines_with_tag h t {A} (k k' : tag -> X world A) :
  (forall o, refines (k o) (k' o)) -> refines (with_tag h t k) (with_tag h t k').
Proof. intros Hk. unfold with_tag. by destruct (h !! t). Qed.

Lemma refines_search_up h nm p : refines (xlift (search_up n h nm p) : X world _) (xlift (search_up n' h nm p)).
Proof.
  cut (search_up n h nm p = NoFuel \/ search_up n' h nm p = search_up n h nm p).
  { intros E w. unfold xlift. destruct E as [->| ->]; [by left|by right]. }
  revert p n' n_le. induction n as [|k IH]; intros p [|m] Hm; try (by left); [lia|]. cbn.
  destruct p as [t|]; [|by right]. destruct (h !! t) as [o|]; [|by right].
  destruct (get_child h o nm) as [[c|]| |]; cbn; try by right. apply IH. lia.
Qed.

Lemma refines_children h o caller : refines (tag_impl_execute exec h o caller) (tag_impl_execute exec' h o caller).
Proof. unfold tag_impl_execute. refines. Qed.

Lemma refines_param h self o nm : refines (get_parameter exec h self o nm) (get_parameter exec' h self o nm).
Proof. unfold get_parameter. refines. Qed.

Lemma refines_ctx {A} (m : X (list context) A) : refines (ctx m) (ctx m).
Proof. done. Qed.

Lemma refines_scope (m m' : X world unit) : refines m m' -> refines (scope m) (scope m').
Proof. intros Hm. unfold scope. refines. Qed.

#[local] Hint Resolve refines_with_tag refines_search_up refines_children refines_param refines_scope : refines.

Lemma refines_declare h self o skip :
  refines (declare_parameters exec h self o skip) (declare_parameters exec' h self o skip).
Proof. unfold declare_parameters. refines. Qed.

Lemma refines_call_tag h self t : refines (call_tag exec h self t) (call_tag exec' h self t).
Proof. unfold call_tag, execute_as_tag_tag. refines. apply refines_with_tag. refines. Qed.

#[local] Hint Resolve refines_declare refines_call_tag : refines.

Lemma refines_usr h self o : refines (tag_usr_execute exec n h self o) (tag_usr_execute exec' n' h self o).
Proof. unfold tag_usr_execute. refines. Qed.

Lemma refines_call h self o : refines (tag_call_execute exec n h self o) (tag_call_execute exec' n' h self o).
Proof. unfold tag_call_execute. refines. Qed.

Lemma refines_execute_tag h self o : refines (tag_execute_execute exec h self o) (tag_execute_execute exec' h self o).
Proof.
  unfold tag_execute_execute, execute_as_tag_tag. refines. apply refines_with_tag. refines. apply refines_with_tag.
  refines.
Qed.

Lemma refines_while h self o caller :
  refines (tag_while_execute exec n h self o caller) (tag_while_execute exec' n' h self o caller).
Proof.
  unfold tag_while_execute. revert n' n_le. induction n as [|k IH]; intros [|m] Hm; try (by left); [lia|]. cbn.
  refines. apply IH. lia.
Qed.

Lemma refines_regexp_loop e v input (body body' : X world unit) :
  refines body body' -> refines (regexp_loop n e v input body) (regexp_loop n' e v input body').
Proof.
  intros Hb. revert input n' n_le. induction n as [|k IH]; intros input [|m] Hm; try (by left); [lia|]. cbn.
  destruct (re_find_and_consume e input) as [[found rest]|]; [|done]. apply refines_bind; [|intros; apply IH; lia].
  apply refines_scope. refines.
Qed.

Lemma refines_async h c l : refines (async_children exec h c l) (async_children exec' h c l).
Proof.
  induction l as [|t l IH]; cbn; [done|]. apply refines_bind; [|refines]. intros w. unfold async_child.
  destruct (refines_capture _ _ (exec_refines h t c) (w <| chain := local_context (chain w) |>)) as [->| ->];
    [by left|by right].
Qed.

Lemma refines_function h self nm args :
  refines (execute_function exec h self nm args) (execute_function exec' h self nm args).
Proof. unfold execute_function. destruct (function_tag nm); [|done]. destruct (alloc _ _). refines. Qed.

Lemma refines_one_argument h self o : refines (one_argument exec h self o) (one_argument exec' h self o).
Proof. unfold one_argument. refines. Qed.

Lemma refines_two_arguments {A} o (m m' : X world A) :
  refines m m' -> refines (two_arguments o m) (two_arguments o m').
Proof. intros. unfold two_arguments. refines. Qed.

#[local] Hint Resolve refines_usr refines_call refines_execute_tag refines_while refines_regexp_loop refines_async
  refines_function refines_one_argument : refines.

Lemma refines_body h t c : refines (execute_body exec n h t c) (execute_body exec' n' h t c).
Proof.
  unfold execute_body. apply refines_with_tag. intros o.
  destruct (cls o);
    unfold tag_tag_execute, tag_expression_execute, tag_unknown_execute, real_execute, tag_attribute, children,
      param, function_iif_execute, function_rnd_execute, function_pos_execute, function_crypt_execute, function_date_utc_execute,
      function_date_from_execute, function_date_fmt_execute, function_env_execute;
    repeat (progress (refines; try first [apply refines_with_tag | apply refines_two_arguments]; cbv zeta beta)).
Qed.
End fuel.

Section results.
Context `{Dcl, Platform, Services}.

Lemma execute_refines n n' h t c : (n <= n')%nat -> refines (execute n h t c) (execute n' h t c).
Proof.
  revert n' h t c. induction n as [|n IH]; intros [|n'] h t c Hn; [done|by left|lia|].
  apply refines_body; [|lia]. intros. apply IH. lia.
Qed.
End results.

Section results.
Context `{Dcl, Platform, Services}.

(** Executing a tag with more fuel gives the same result: once there is a result, fuel plays no
    part in it, so that it is the result of the unbounded recursion of the program. *)
Theorem execute_fuel n n' h t c w r :
  execute n h t c w = r -> r <> NoFuel -> (n <= n')%nat -> execute n' h t c w = r.
Proof.
  intros <- Hr Hn. destruct (execute_refines n n' h t c Hn w) as [E|E]; [by rewrite E in Hr|done].
Qed.
End results.
