(* ===== verification/DbParser.v ===== *)
(** * The parser: [dbpager/parser/dbpx_parser.cpp]

    The parser reads a document node by node from libxml's reader and builds the tree of tags in a heap.
    - [event]: a node of the reader, with what the parser asks of it; [Documents]: the files, and the
      resolution of the relative URL of an included one.
    - [process_attributes], [make_relationship], [process_node], [read_nodes] and [parse], one definition
      per method; the parser executes parameters (the name of a [dbp:tag], the [href] of an include) in
      a context of their own, with the interpreter [exec] as a parameter.
    - [dbpager_application], the constructor of the application: parse, or fail; its method [execute] is
      in DbExecute.v.

    An attribute in a namespace that is not dbPager's is evaluated by nobody and belongs to nobody: the
    object that the parser leaks for it is not modelled. *)

From S2P Require Import Prelude DbLang DbContext DbTag DbExecute.

Record attribute := Attribute {
  a_prefix : option string;
  a_uri : string;
  a_local : string;
  a_name : string;
  a_value : string
}.

(** [xmlTextReaderNodeType] with the depth, the names and the attributes of the node. *)
Inductive event :=
  | XML_READER_TYPE_ELEMENT (depth : Z) (namespace_uri object qname : string) (attrs : list attribute)
  | XML_READER_TYPE_END_ELEMENT
  | XML_READER_TYPE_TEXT (depth : Z) (value : string)
  | XML_READER_TYPE_CDATA (depth : Z) (value : string)
  | XML_READER_TYPE_OTHER.

(** The nodes of a file and whether the reader came to its end; [None] for a file that cannot be opened. *)
Class Documents := {
  read_document : string -> option (list event * bool);
  resolve_url : string -> string -> string;
  error_message : string -> string
}.

Definition dbpager_uri : string := "http://dbpager.org.ru/schemas/dbp/3.0".
Definition dbpager_custom_uri : string := "http://dbpager.org.ru/schemas/dbp/3.0/custom".
Definition its_uri : string := "http://www.w3.org/2005/11/its".

Section parser.
Context `{Dcl, Platform, Services, Documents}.

(** The heap with the state of the program. *)
Record parsing := Parsing { tree : heap; state : world }.

Definition on_tree {A} (m : X heap A) : X parsing A := xzoom tree (fun h s => Parsing h (state s)) m.

(** [new]. *)
Definition new_object (o : tag) : X parsing positive := fun s =>
  let '(p, h) := alloc (tree s) o in Ok (Val p, Parsing h (state s), "").

(** [delete] of a tag without children; its parameters have neither children nor parameters. *)
Definition delete_tag (t : positive) : X parsing unit :=
  o <- on_tree (deref t) ;;
  on_tree (xmodify (fun h => foldr delete h (t :: (snd <$> params o)))).

Context (exec : exec_fn).

(** [context ctx(NULL); p->execute(ctx, s, self)]. *)
Definition evaluate (p : positive) (self : positive) : X parsing string := fun s =>
  match capture (exec (tree s) p (Some self)) ((state s) <| chain := new_context "" [] |>) with
  | Ok (o, w, out) => Ok (o, Parsing (tree s) (w <| chain := chain (state s) |>), out)
  | Crash f => Crash f
  | NoFuel => NoFuel
  end.

(** The virtual [add_parameter]; [tag_tag] takes its name from the parameter [name]. *)
Definition add_parameter (self : positive) (p_name : string) (p_value : positive) : X parsing unit :=
  on_tree (tag_impl_add_parameter self p_name p_value) ;;;
  o <- on_tree (deref self) ;;
  if bool_decide (cls o = tag_tag) && seqb p_name "name" then
    s <- evaluate p_value self ;;
    on_tree (update self (fun o => o <| name := "@" +:+ s |>))
  else xret tt.

Definition get_href (self : positive) : X parsing string :=
  o <- on_tree (deref self) ;;
  match map_find "href" (params o) with
  | Some p => evaluate p self
  | None => xret ""
  end.

(** [new tag_expression()], its parent and its text, and [add_parameter]. *)
Definition add_attribute (node : positive) (nm value : string) : X parsing unit :=
  param <- new_object (new_tag tag_expression "") ;;
  on_tree (set_parent param node) ;;;
  on_tree (set_text param value) ;;;
  add_parameter node nm param.

Definition process_attributes (node : positive) (attrs : list attribute) : X parsing unit :=
  for_each (fun a =>
    match a_prefix a with
    | None => add_attribute node (a_name a) (a_value a)
    | Some _ =>
        if starts_with dbpager_uri (a_uri a) then add_attribute node ("@DBP:PARAM@" +:+ a_local a) (a_value a)
        else xret tt
    end) attrs.

Definition invalid_nesting (nm : string) : exn := parser_exception 0 (format "invalid nested tags ({0})" [nm]).

(** [p = p->get_parent(); if (!p) throw], [n] times. *)
Fixpoint climb (n : nat) (nm : string) (p : option positive) : X parsing positive :=
  match p, n with
  | None, _ => xcrash NullDeref
  | Some t, O => xret t
  | Some t, S n =>
      o <- on_tree (deref t) ;;
      match parent o with
      | None => throw (invalid_nesting nm)
      | Some p => climb n nm (Some p)
      end
  end.

(** [nm] is the name of the reader's node, for the message. *)
Definition make_relationship (nm : string) (current_node : option positive) (rslt : positive) : X parsing unit :=
  match current_node with
  | None => xret tt
  | Some cur =>
      r <- on_tree (deref rslt) ;; c <- on_tree (deref cur) ;;
      if depth r =? depth c then
        match parent c with
        | None => throw (invalid_nesting nm)
        | Some p => on_tree (add_child p rslt)
        end
      else if depth r >? depth c then on_tree (add_child cur rslt)
      else p <- climb (Z.to_nat (depth c - depth r)) nm (parent c) ;; on_tree (add_child p rslt)
  end.

(** [_factory.create(namespace_uri, ...)] without plugins: a namespace that is not registered gives a
    null pointer whose name is set. *)
Definition factory_create (namespace_uri object : string) : X parsing tag :=
  if seqb namespace_uri dbpager_uri then
    match create object with Val o => xret o | Exc e => throw e end
  else xcrash NullDeref.

(** The tag of an element; [None] for an element of the translation tool set. *)
Definition element_tag (namespace_uri object qname : string) : X parsing (option tag) :=
  if starts_with dbpager_custom_uri namespace_uri then xret (Some (new_tag tag_usr object))
  else if starts_with dbpager_uri namespace_uri then o <- factory_create namespace_uri object ;; xret (Some o)
  else if seqb namespace_uri its_uri then xret None
  else xret (Some (new_tag tag_unknown qname)).

(** [r->move_childs_to(current_node)] of an included document, both possibly null. *)
Definition move_included (r current_node : option positive) : X parsing unit :=
  match r with
  | None => xcrash NullDeref
  | Some r =>
      match current_node with
      | Some cur => on_tree (move_childs_to r cur)
      | None => o <- on_tree (deref r) ;; if bool_decide (childs o = []) then xret tt else xcrash NullDeref
      end ;;;
      delete_tag r
  end.

(** [link]; a search upwards passes every object at most once. *)
Definition link_user_tag (rslt : positive) : X parsing unit :=
  h <- on_tree xget ;; on_tree (link (S (size h)) rslt).

Section node.
(** [dbpx_parser(cur).parse()]. *)
Context (parse_url : string -> X parsing (option positive)).

Definition process_include (current_url : string) (current_node : option positive) (rslt : positive) : X parsing unit :=
  href <- get_href rslt ;;
  if is_empty href then throw (parser_exception 0 "href parameter missing for tag include")
  else
    r <- parse_url (resolve_url current_url href) ;;
    move_included r current_node ;;;
    delete_tag rslt.

Definition process_element (current_url : string) (current_node : option positive) (depth_ : Z)
    (namespace_uri object qname : string) (attrs : list attribute) : X parsing (option positive) :=
  o <- element_tag namespace_uri object qname ;;
  match o with
  | None => xret None
  | Some o =>
      rslt <- new_object (o <| depth := depth_ |>) ;;
      process_attributes rslt attrs ;;;
      o <- on_tree (deref rslt) ;;
      if seqb (name o) "include" then process_include current_url current_node rslt ;;; xret current_node
      else
        make_relationship (default qname (a_name <$> last attrs)) current_node rslt ;;;
        (if bool_decide (cls o = tag_usr) then link_user_tag rslt else xret tt) ;;;
        xret (Some rslt)
  end.

(** Text: a tag of class [c] below the current one. *)
Definition process_text (c : tag_class) (nm : string) (current_node : option positive) (depth_ : Z) (value : string) :
  X parsing (option positive) :=
  t <- new_object (new_tag c "") ;;
  on_tree (set_text t value) ;;;
  on_tree (update t (fun o => o <| depth := depth_ |>)) ;;;
  make_relationship nm current_node t ;;;
  xret current_node.

Definition process_node (current_url : string) (e : event) (current_node : option positive) :
  X parsing (option positive) :=
  match e with
  | XML_READER_TYPE_ELEMENT depth namespace_uri object qname attrs =>
      process_element current_url current_node depth namespace_uri object qname attrs
  | XML_READER_TYPE_END_ELEMENT =>
      match current_node with
      | None => xcrash NullDeref
      | Some cur =>
          o <- on_tree (deref cur) ;;
          if seqb (name o) "module" then xret (Some cur) else xret (parent o)
      end
  | XML_READER_TYPE_TEXT depth value => process_text tag_expression "#text" current_node depth value
  | XML_READER_TYPE_CDATA depth value => process_text tag_cdata "#cdata-section" current_node depth value
  | XML_READER_TYPE_OTHER => xret current_node
  end.

(** The loop of [parse]. *)
Fixpoint read_nodes (url : string) (l : list event) (root_node current_node : option positive) :
  X parsing (option positive) :=
  match l with
  | [] => xret root_node
  | e :: l' =>
      node <- process_node url e current_node ;;
      match node, root_node with
      | None, _ => read_nodes url l' root_node current_node
      | Some t, None => read_nodes url l' (Some t) (Some t)
      | Some t, Some _ => read_nodes url l' root_node (Some t)
      end
  end.
End node.

(** The fuel bounds the depth of includes. *)
Fixpoint parse (fuel : nat) (url : string) : X parsing (option positive) :=
  match fuel with
  | O => xnofuel
  | S n =>
      match read_document url with
      | None => throw (parser_exception 1 (format "unable to open file '{0}'. {1}" [url; error_message url]))
      | Some (events, done) =>
          root <- read_nodes (parse n) url events None None ;;
          if done : bool then xret root
          else throw (parser_exception 0 (format "failed to parse file '{0}'. {1}" [url; error_message url]))
      end
  end.

(** [dbpager_application::dbpager_application]. *)
Definition dbpager_application (fuel : nat) (url : string) : X parsing positive :=
  t <- parse fuel url ;;
  of_option (parser_exception 1 (format "Fatal error: can't parse file {0}" [url])) t.
End parser.
