(* ===== verification/DbControl.v ===== *)
(** * Control flow of programs

    What the tags that direct the execution do, on every program: [dbp:try] and its handler, [dbp:switch]
    and its cases, the call of a user tag.  The theorems say in which context the next part is executed
    and what is left to do after it ([finally ... (ctx leave)], on every exit). *)

From S2P Require Import Prelude DbLang DbContext DbTag DbBuiltin DbExecute.

(** ** Equations of the combinators *)

Lemma xbind_go {W A B} (m : X W A) (k : A -> X W B) w a w1 :
  m w = Ok (Val a, w1, "") -> xbind m k w = k a w1.
Proof. intros E. by rewrite (xbind_Val _ _ _ _ _ _ E), after_nil. Qed.

Lemma finally_eq {W A} (m m' : X W A) fin w w1 : m w = m' w1 -> finally m fin w = finally m' fin w1.
Proof. intros E. unfold finally, xbind, catch. by rewrite E. Qed.

Lemma catch_eq {W A} (m m' : X W A) f w w1 : m w = m' w1 -> catch m f w = catch m' f w1.
Proof. intros E. unfold catch. by rewrite E. Qed.

(** ** Layers *)

(** The variables that a list of declarations leaves in a layer. *)
Definition declared (kvs : list (string * string)) (vs : gmap string string) : gmap string string :=
  foldl (fun vs kv => <[upname (fst kv) := snd kv]> vs) vs kvs.

(** A chain with a new layer of these variables. *)
Definition with_layer (kvs : list (string * string)) (ch : list context) : list context :=
  match ch with c :: ps => c <| stack := declared kvs ∅ :: stack c |> :: ps | [] => [] end.

Lemma declared_app k1 k2 vs : declared (k1 ++ k2) vs = declared k2 (declared k1 vs).
Proof. apply foldl_app. Qed.

(** Inside the layer its names have the declared values, the others the values they had. *)
Lemma with_layer_binding kvs ch up :
  ch <> [] ->
  binding (with_layer kvs ch) up =
    match declared kvs ∅ !! up with Some v => Some v | None => binding ch up end.
Proof. destruct ch as [|c ps]; [done|]. intros _. cbn. by destruct (declared kvs ∅ !! up). Qed.

Lemma with_layer_get kvs k v ch :
  ch <> [] -> get_value (with_layer (kvs ++ [(k, v)]) ch) k = v.
Proof.
  intros Hch. rewrite get_value_binding, with_layer_binding by done. rewrite declared_app. cbn.
  by rewrite lookup_insert_eq.
Qed.

Section layers.
Context `{Dcl, !DclLaws, Services}.

Lemma enter_run w : chain w <> [] -> ctx enter w = Ok (Val tt, w <| chain := with_layer [] (chain w) |>, "").
Proof. intros Hw. unfold ctx, xzoom. by destruct (chain w) as [|c ps]. Qed.

Lemma add_value_run w kvs k v :
  chain w <> [] ->
  ctx (add_value k v "") (w <| chain := with_layer kvs (chain w) |>) =
    Ok (Val tt, w <| chain := with_layer (kvs ++ [(k, v)]) (chain w) |>, "").
Proof.
  intros Hw. unfold ctx, xzoom. destruct (chain w) as [|c ps] eqn:E; [done|]. cbn [with_layer].
  change (chain (w <| chain := ?x |>)) with x. rewrite declared_app. cbn. by rewrite compare_refl.
Qed.
End layers.

Section control.
Context `{Dcl, !DclLaws, Platform, Services}.

(** ** [dbp:try] *)

(** The variables of a handler. *)
Definition error_variables (e : exn) : list (string * string) :=
  match e with
  | app_exception _ code => [("error_code", to_string_int code); ("error_message", what e)]
  | _ => [("error_message", what e)]
  end.

Lemma process_exception_run exec h co e caller w :
  chain w <> [] ->
  process_exception exec h co e caller w =
    finally (tag_impl_execute exec h co caller) (ctx leave)
      (w <| chain := with_layer (error_variables e) (chain w) |>).
Proof.
  intros Hw. unfold process_exception, scope. rewrite (xbind_go _ _ _ _ _ (enter_run w Hw)).
  pose proof (fun kvs k v => add_value_run w kvs k v Hw) as Ha.
  apply finally_eq. destruct e; cbn [error_variables]; rewrite ?xbind_ret;
    repeat rewrite (xbind_go _ _ _ _ _ (Ha _ _ _)); done.
Qed.

(** C25: a [dbp:try] whose body returns writes what the body wrote; one whose body throws writes nothing
    of it, and goes on with the handler, in a layer that holds the message (and the code, of an
    application's exception); without a handler the exception goes on. *)
Theorem try_catches exec h self o caller w w1 r s :
  tag_impl_execute exec h o caller w = Ok (r, w1, s) -> chain w1 <> [] ->
  match r with
  | Val _ => tag_try_execute exec h self o caller w = Ok (Val tt, w1, s)
  | Exc e =>
      match get_child h o "catch" with
      | Ok None => tag_try_execute exec h self o caller w = Ok (Exc e, w1, "")
      | Ok (Some c) => forall co, h !! c = Some co -> cls co = tag_catch ->
          tag_try_execute exec h self o caller w =
            finally (tag_impl_execute exec h co caller) (ctx leave)
              (w1 <| chain := with_layer (error_variables e) (chain w1) |>)
      | _ => True
      end
  end.
Proof.
  intros Hb Hw1. unfold tag_try_execute, children.
  assert (capture (tag_impl_execute exec h o caller) w =
    match r with Val _ => Ok (Val s, w1, "") | Exc e => Ok (Exc e, w1, "") end) as Hc
    by (unfold capture; rewrite Hb; by destruct r).
  destruct r as [[]|e].
  - unfold catch. by rewrite (xbind_go _ _ _ _ _ Hc).
  - assert (forall g, catch (x <- capture (tag_impl_execute exec h o caller) ;; emit x) g w = g e w1) as Hg.
    { intros g. unfold catch. by rewrite (xbind_Exc _ _ _ _ _ _ Hc), after_nil. }
    rewrite Hg. destruct (get_child h o "catch") as [[c|]| |]; [|done..]. intros co Eco Hcls.
    rewrite (xbind_go _ _ _ (Some c) w1) by done. unfold with_tag. rewrite Eco, bool_decide_true by done.
    by apply process_exception_run.
Qed.

(** ** [dbp:switch] *)

(** A parameter that is a constant. *)
Definition constant (exec : exec_fn) (h : heap) (self : positive) (o : tag) (nm v : string) : Prop :=
  forall w, get_parameter exec h self o nm w = Ok (Val v, w, "").

Definition end_of_case (e : exn) : X world unit := if is_case_exception e then xret tt else throw e.

Definition no_match (exec : exec_fn) (h : heap) (test : string) (c : positive) : Prop :=
  exists co m, h !! c = Some co /\ cls co = tag_case /\ constant exec h c co "match" m /\ m <> "" /\ m <> test.

Lemma case_run n h c co caller m w :
  h !! c = Some co -> cls co = tag_case -> constant (execute n) h c co "match" m ->
  execute (S n) h c caller w =
    (if is_empty m || seqb (get_value (chain w) switch_variable) m then
       tag_impl_execute (execute n) h co caller ;;; throw (tag_case_exception "")
     else xret tt) w.
Proof.
  intros Ec Hc Hm. cbn [execute]. unfold execute_body, with_tag. rewrite Ec, Hc.
  unfold tag_case_execute, param, children. rewrite (xbind_go _ _ _ _ _ (Hm w)).
  rewrite (xbind_go _ _ _ (get_value (chain w) switch_variable) w) by done. done.
Qed.

Lemma no_match_run n h caller pre (k : X world unit) w test :
  Forall (no_match (execute n) h test) pre -> get_value (chain w) switch_variable = test ->
  forall l, (for_each (fun c => execute (S n) h c caller) (pre ++ l) ;;; k) w =
    (for_each (fun c => execute (S n) h c caller) l ;;; k) w.
Proof.
  intros Hpre Ht l. induction Hpre as [|c pre (co & m & Ec & Hc & Hm & Hne & Hnt) Hpre IH]; [done|].
  cbn [app for_each]. rewrite xbind_assoc.
  pose proof (case_run n h c co caller m w Ec Hc Hm) as E. rewrite Ht in E.
  assert (is_empty m || seqb test m = false) as Hb.
  { apply orb_false_iff. split; [by destruct m|]. apply bool_decide_false. congruence. }
  rewrite Hb in E. by rewrite (xbind_go _ _ _ _ _ E).
Qed.

(** [dbp:switch] executes the first case whose [match] is empty or equal to [test], and no other
    case and no text after it. *)
Theorem switch_first_case n h self o caller w test pre k ko m post :
  chain w <> [] -> childs o = pre ++ k :: post -> constant (execute (S n)) h self o "test" test ->
  Forall (no_match (execute n) h test) pre ->
  h !! k = Some ko -> cls ko = tag_case -> constant (execute n) h k ko "match" m -> m = "" \/ m = test ->
  tag_switch_execute (execute (S n)) h self o caller w =
    finally (catch (tag_impl_execute (execute n) h ko caller ;;; throw (tag_case_exception "")) end_of_case) (ctx leave)
      (w <| chain := with_layer [(switch_variable, test)] (chain w) |>).
Proof.
  intros Hw Hch Htest Hpre Ek Hk Hm Hmt. unfold tag_switch_execute, scope, param, children.
  rewrite (xbind_go _ _ _ _ _ (enter_run w Hw)). apply finally_eq, catch_eq.
  rewrite (xbind_go _ _ _ _ _ (Htest _)).
  rewrite (xbind_go _ _ _ _ _ (add_value_run w [] switch_variable test Hw)). cbn [app].
  set (w1 := w <| chain := with_layer [(switch_variable, test)] (chain w) |>).
  assert (get_value (chain w1) switch_variable = test) as Ht by (by apply (with_layer_get [])).
  unfold tag_impl_execute at 1. rewrite Hch, (no_match_run n h caller pre _ w1 test Hpre Ht).
  cbn [for_each]. rewrite xbind_assoc.
  pose proof (case_run n h k ko caller m w1 Ek Hk Hm) as E. rewrite Ht in E.
  assert (is_empty m || seqb test m = true) as Hb.
  { apply orb_true_iff. destruct Hmt as [-> | ->]; [by left|right; apply seqb_refl]. }
  rewrite Hb in E. rewrite (xbind_eq _ _ _ _ E), xbind_assoc. by apply xbind_ext.
Qed.

(** ** The call of a user tag *)

(** The parameters are constants. *)
Definition constants (exec : exec_fn) (h : heap) (self : positive) (l : list (string * positive))
    (kvs : list (string * string)) : Prop :=
  Forall2 (fun kp kv => fst kp = fst kv /\ forall w, exec h (snd kp) (Some self) w = Ok (Val tt, w, snd kv)) l kvs.

Lemma declare_run exec h self o kvs w :
  chain w <> [] -> constants exec h self (map_order (params o)) kvs ->
  declare_parameters exec h self o (fun _ => false) (w <| chain := with_layer [] (chain w) |>) =
    Ok (Val tt, w <| chain := with_layer kvs (chain w) |>, "").
Proof.
  intros Hw Hk. unfold declare_parameters.
  assert (forall k1 l k2, constants exec h self l k2 ->
    for_each (fun i => if false then xret tt
      else s <- capture (exec h (snd i) (Some self)) ;; ctx (add_value (fst i) s "")) l
      (w <| chain := with_layer k1 (chain w) |>) =
    Ok (Val tt, w <| chain := with_layer (k1 ++ k2) (chain w) |>, "")) as Hl; [|by apply (Hl [])].
  intros k1 l k2 Hk2. revert k1. induction Hk2 as [|[k p] [k' v] l k2 [Hkk Hp] Hk2 IH]; intros k1.
  - by rewrite app_nil_r.
  - cbn in Hkk, Hp. subst k'. cbn [for_each fst snd]. rewrite xbind_assoc.
    rewrite (xbind_go _ _ _ v (w <| chain := with_layer k1 (chain w) |>)) by (unfold capture; by rewrite Hp).
    rewrite (xbind_go _ _ _ _ _ (add_value_run w k1 k v Hw)), IH. by rewrite <- app_assoc.
Qed.

(** The tag on the call stack. *)
Definition with_call (t : positive) (ch : list context) : list context :=
  match ch with c :: ps => c <| exec := t :: exec c |> :: ps | [] => [] end.

(** C26: a user tag whose parameters are constants executes the body that its name refers to, in a layer
    in which its parameters are variables, with itself on the call stack and as the caller; then both
    are taken off. *)
Theorem usr_call exec n h self o t to kvs w :
  chain w <> [] -> constants exec h self (map_order (params o)) kvs ->
  user_tag o = Some t \/ user_tag o = None /\ search_up n h ("@" +:+ name o) (parent o) = Ok (Some t) ->
  h !! t = Some to -> cls to = tag_tag ->
  let w1 := w <| chain := with_call self (with_layer kvs (chain w)) |> in
  tag_usr_execute exec n h self o w =
    finally (finally (exec h t (Some self)) (ctx pop ;;; xret tt)) (ctx leave) w1 /\
  (forall up, binding (chain w1) up =
     match declared kvs ∅ !! up with Some v => Some v | None => binding (chain w) up end).
Proof.
  intros Hw Hk Ht Eto Hto w1. split.
  - unfold tag_usr_execute, scope. rewrite (xbind_go _ _ _ _ _ (enter_run w Hw)). apply finally_eq.
    rewrite (xbind_go _ _ _ _ _ (declare_run exec h self o kvs w Hw Hk)).
    rewrite (xbind_go _ _ _ (Some t) (w <| chain := with_layer kvs (chain w) |>)).
    2: { destruct Ht as [-> | [-> Hs]]; [done|]. unfold xlift. by rewrite Hs. }
    unfold call_tag. rewrite (xbind_go _ _ _ tt w1).
    + unfold execute_as_tag_tag, with_tag. by rewrite Eto, bool_decide_true.
    + unfold ctx, xzoom, w1. by destruct (chain w).
  - intros up. rewrite <- (with_layer_binding kvs (chain w) up Hw). unfold w1. by destruct (chain w).
Qed.
End control.
