(* ===== verification/DbMarkup.v ===== *)
(** * Markup: what [tag_unknown] makes of an HTML page

    Elements that are no tags of the language are written as they are, with their attributes and their
    content.  While an element is executed its own markup is held in control characters, so that the
    quotes and brackets of text and attribute values become entities at every level and the markup does
    not; the outermost element turns the control characters into markup.  [static_page]: a page without
    expressions is written as [render] says.  The scheme relies on the absence of the control characters
    from the data ([clean]): [control_characters]. *)

From S2P Require Import Prelude DbLang DbContext DbTag DbExpression DbBuiltin DbStrings DbExecute DbControl.

(** ** Characters *)

(** No control characters that stand for markup. *)
Definition clean_char (c : ascii) : bool := negb (in_range 1 4 c).
Fixpoint every (p : ascii -> bool) (s : string) : bool :=
  match s with "" => true | String c s' => p c && every p s' end.
Definition clean (s : string) : bool := every clean_char s.

(** Nothing for [eval] to do. *)
Definition plain_char (c : ascii) : bool := negb (is_char c "\" || is_char c "{" || is_char c "}").
Definition plain (s : string) : bool := every plain_char s && clean s.

(** Text of a page: quotes and brackets are entities. *)
Definition entity (c : ascii) : string :=
  match c with
  | "'"%char => "&apos;"
  | "034"%char => "&quot;"
  | "<"%char => "&lt;"
  | ">"%char => "&gt;"
  | _ => String c ""
  end.
Fixpoint escaped (s : string) : string :=
  match s with "" => "" | String c s' => entity c +:+ escaped s' end.

(** Names of elements and attributes. *)
Definition plain_name (s : string) : bool := clean s && seqb (escaped s) s.

Lemma every_app p s t : every p (s +:+ t) = every p s && every p t.
Proof. induction s as [|c s IH]; [done|]. rewrite sapp_cons. cbn. by rewrite IH, andb_assoc. Qed.

Lemma sflat_app f s t : sflat f (s +:+ t) = sflat f s +:+ sflat f t.
Proof. induction s as [|c s IH]; [done|]. rewrite sapp_cons. cbn. by rewrite IH, sapp_assoc. Qed.

Lemma entities_app s t : htmlentities (s +:+ t) = htmlentities s +:+ htmlentities t.
Proof. apply sflat_app. Qed.

Lemma out_app s t : htmlentitiesout (s +:+ t) = htmlentitiesout s +:+ htmlentitiesout t.
Proof. apply smap_app. Qed.

Lemma entities_cons c s : htmlentities (String c s) = htmlentities (str1 c) +:+ htmlentities s.
Proof. exact (entities_app (str1 c) s). Qed.

Lemma out_cons c s : htmlentitiesout (String c s) = htmlentitiesout (str1 c) +:+ htmlentitiesout s.
Proof. done. Qed.

(** [htmlentities] escapes. *)
Lemma entities_escaped s : htmlentities s = escaped s.
Proof.
  induction s as [|c s IH]; [done|]. rewrite entities_cons, IH. cbn [escaped]. f_equal.
  apply seqb_spec. revert c. apply ascii_all. vm_compute. done.
Qed.

(** Escaping twice is escaping once. *)
Lemma entities_idemp s : htmlentities (htmlentities s) = htmlentities s.
Proof.
  induction s as [|c s IH]; [done|]. rewrite entities_cons, entities_app, IH. f_equal.
  apply seqb_spec. revert c. apply ascii_all. vm_compute. done.
Qed.

Lemma out_clean s : clean s = true -> htmlentitiesout s = s.
Proof.
  unfold clean. induction s as [|c s IH]; [done|]. cbn [every]. intros [Hc Hs]%andb_true_iff.
  rewrite out_cons, IH by done. change (String c s) with (str1 c +:+ s). f_equal. apply seqb_spec.
  assert (negb (clean_char c) || seqb (htmlentitiesout (str1 c)) (str1 c) = true) as H; [|by rewrite Hc in H].
  clear. revert c. apply ascii_all. vm_compute. done.
Qed.

Lemma entities_clean s : clean s = true -> clean (htmlentities s) = true.
Proof.
  unfold clean. induction s as [|c s IH]; [done|].
  rewrite entities_cons. cbn [every]. intros [Hc Hs]%andb_true_iff. rewrite every_app, IH, andb_true_r by done.
  assert (negb (clean_char c) || every clean_char (htmlentities (str1 c)) = true) as H; [|by rewrite Hc in H].
  clear. revert c. apply ascii_all. vm_compute. done.
Qed.

Lemma entities_empty s : is_empty (htmlentities s) = is_empty s.
Proof.
  destruct s as [|c s]; [done|]. rewrite entities_cons.
  assert (is_empty (htmlentities (str1 c)) = false) as H.
  { apply negb_true_iff. revert c. apply ascii_all. vm_compute. done. }
  by destruct (htmlentities (str1 c)).
Qed.

Lemma out_empty s : is_empty (htmlentitiesout s) = is_empty s.
Proof. by destruct s. Qed.

(** ** Pages *)

Inductive node :=
  | NText (s : string)
  | NElem (nm : string) (attrs : list (string * string)) (ch : list node).

Definition concat (l : list string) : string := foldr String.append "" l.

(** The elements that have no content. *)
Definition empty_elements : list string :=
  ["area"; "base"; "basefont"; "br"; "col"; "hr"; "img"; "input"; "isindex"; "link"; "meta"; "param"].

Definition rendered_attributes (attrs : list (string * string)) : string :=
  concat ((fun kv => " " +:+ kv.1 +:+ "=" +:+ str1 "034" +:+ escaped kv.2 +:+ str1 "034") <$> attrs).

(** An element around its content [data]; one of those that have no content is closed at once. *)
Definition rendered (nm : string) (attrs : list (string * string)) (data : string) : string :=
  "<" +:+ nm +:+ rendered_attributes attrs +:+
  (if bool_decide (nm ∈ empty_elements) && is_empty data then "/>" else ">" +:+ data +:+ "</" +:+ nm +:+ ">").

(** What the page is: text with entities in the place of quotes and brackets, in elements. *)
Fixpoint render (n : node) : string :=
  match n with
  | NText s => escaped s
  | NElem nm attrs ch => rendered nm attrs (concat (render <$> ch))
  end.

(** What the code writes, in whatever characters stand for markup: the attributes with [q] around the
    values. *)
Definition attributes (q : ascii) (attrs : list (string * string)) : string :=
  concat ((fun kv => " " +:+ fst kv +:+ "=" +:+ str1 q +:+ htmlentities (snd kv) +:+ str1 q) <$> attrs).

(** An element with the content [data], in the characters that stand for markup; one of the elements
    without a content is closed at once when it has none. *)
Definition element (lt gt q : ascii) (nm : string) (attrs : list (string * string)) (data : string) : string :=
  str1 lt +:+ nm +:+ attributes q attrs +:+
  (if bool_decide (nm ∈ void_tags) && is_empty data then "/" +:+ str1 gt
   else str1 gt +:+ data +:+ str1 lt +:+ "/" +:+ nm +:+ str1 gt).

Lemma element_rendered nm attrs data : element "<" ">" dquote nm attrs data = rendered nm attrs data.
Proof.
  assert (attributes dquote attrs = rendered_attributes attrs) as Ha.
  { unfold attributes, rendered_attributes. f_equal. apply list_fmap_ext. intros _ [k v] _. cbn [fst snd].
    by rewrite entities_escaped. }
  unfold element, rendered. rewrite Ha.
  assert (bool_decide (nm ∈ void_tags) = bool_decide (nm ∈ empty_elements)) as ->; [|done].
  apply bool_decide_ext. unfold void_tags, empty_elements. set_solver.
Qed.

(** What is written while an element is executed. *)
Fixpoint encode (n : node) : string :=
  match n with
  | NText s => s
  | NElem nm attrs ch => element (chr 3) (chr 4) (chr 2) nm attrs (htmlentities (concat (encode <$> ch)))
  end.

(** A node of at most this depth, with plain names and clean text. *)
Definition plain_attrs (attrs : list (string * string)) : bool :=
  forallb (fun kv => plain_name (fst kv) && clean (snd kv)) attrs.
Fixpoint page (d : nat) (n : node) : bool :=
  match d, n with
  | O, _ => false
  | _, NText s => clean s
  | S d, NElem nm attrs ch => plain_name nm && plain_attrs attrs && forallb (page d) ch
  end.

Lemma concat_cons s l : concat (s :: l) = s +:+ concat l.
Proof. done. Qed.

Lemma plain_name_spec s : plain_name s = true -> htmlentities s = s /\ htmlentitiesout s = s.
Proof. unfold plain_name. intros [Hc He]%andb_true_iff. rewrite entities_escaped. split; [by apply seqb_spec|by apply out_clean]. Qed.

Lemma attributes_entities q attrs :
  q = chr 2 -> plain_attrs attrs = true -> htmlentities (attributes q attrs) = attributes q attrs.
Proof.
  intros ->. unfold attributes. induction attrs as [|[k v] attrs IH]; [done|]. cbn [plain_attrs forallb fst snd].
  intros [[Hk Hv]%andb_true_iff Hl]%andb_true_iff. cbn [fmap list_fmap fst snd]. rewrite concat_cons, !entities_app, IH by done.
  by rewrite entities_idemp, (proj1 (plain_name_spec k Hk)).
Qed.

Lemma attributes_out attrs :
  plain_attrs attrs = true -> htmlentitiesout (attributes (chr 2) attrs) = attributes dquote attrs.
Proof.
  unfold attributes. induction attrs as [|[k v] attrs IH]; [done|]. cbn [plain_attrs forallb fst snd].
  intros [[Hk Hv]%andb_true_iff Hl]%andb_true_iff. cbn [fmap list_fmap fst snd]. rewrite !concat_cons, !out_app, IH by done.
  by rewrite (out_clean (htmlentities v)), (proj2 (plain_name_spec k Hk)) by (by apply entities_clean).
Qed.

(** Markup in control characters stays, whatever is escaped around it. *)
Lemma element_entities nm attrs data :
  plain_name nm = true -> plain_attrs attrs = true -> htmlentities data = data ->
  htmlentities (element (chr 3) (chr 4) (chr 2) nm attrs data) = element (chr 3) (chr 4) (chr 2) nm attrs data.
Proof.
  intros Hn Ha Hd. unfold element. destruct (plain_name_spec nm Hn) as [He _].
  destruct (_ && _); rewrite !entities_app, (attributes_entities _ _ eq_refl Ha), ?Hd, !He; done.
Qed.

Lemma element_out nm attrs data :
  plain_name nm = true -> plain_attrs attrs = true ->
  htmlentitiesout (element (chr 3) (chr 4) (chr 2) nm attrs data) = element "<" ">" dquote nm attrs (htmlentitiesout data).
Proof.
  intros Hn Ha. unfold element. destruct (plain_name_spec nm Hn) as [_ Ho]. rewrite out_empty.
  destruct (_ && _); rewrite !out_app, (attributes_out _ Ha), !Ho; done.
Qed.

(** The control characters carry the markup through all levels: what the outermost element writes
    is the page with every quote and bracket of its text and values turned into an entity, once. *)
Lemma encode_render d n : page d n = true -> htmlentitiesout (htmlentities (encode n)) = render n.
Proof.
  revert n. induction d as [|d IH]; intros n Hn; [done|]. destruct n as [s|nm attrs ch].
  - cbn [encode render]. rewrite <- entities_escaped. by apply out_clean, entities_clean.
  - cbn [page] in Hn. apply andb_true_iff in Hn as [[Hn Ha]%andb_true_iff Hc]. cbn [encode render].
    rewrite element_entities by (done || apply entities_idemp). rewrite element_out, element_rendered by done. f_equal.
    induction ch as [|n ch IHc]; [done|]. cbn [forallb] in Hc. apply andb_true_iff in Hc as [Hc1 Hc2].
    cbn [fmap list_fmap]. by rewrite !concat_cons, entities_app, out_app, IH, IHc.
Qed.

(** ** Executing a page *)

Lemma plain_spec s : plain s = true -> every plain_char s = true /\ clean s = true.
Proof. unfold plain. by intros ?%andb_true_iff. Qed.

Section page.
Context `{Dcl, !DclLaws, Platform, !PlatformLaws, Services}.

(** [eval] of a text without braces and backslashes. *)
Lemma eval_plain {W} (gv : string -> X W string) cf s w : every plain_char s = true -> eval gv cf s w = Ok (Val s, w, "").
Proof.
  intros Hs. unfold eval. cbn [eval_with].
  assert (forall rec prev out, is_char prev "\" = false ->
    eval_loop gv cf rec s prev 0 "" out w = Ok (Val (out +:+ s), w, "")) as Hl; [|by apply (Hl _ (chr 0) "")].
  intros rec. revert Hs. induction s as [|c s IH]; intros Hs prev out Hp; cbn [eval_loop].
  - by rewrite sapp_nil_r.
  - cbn [every] in Hs. apply andb_true_iff in Hs as [Hc Hs]. unfold plain_char in Hc. apply negb_true_iff in Hc.
    rewrite !orb_false_iff in Hc. destruct Hc as [[Hc1 Hc2] Hc3]. rewrite Hp, Hc1, Hc2, Hc3. cbn iota. change (0 >? 0) with false.
    cbn iota. rewrite IH by done. by rewrite <- sapp_assoc.
Qed.

Lemma expression_run n h t o caller w :
  h !! t = Some o -> cls o = tag_expression -> plain (text o) = true ->
  execute (S n) h t caller w = Ok (Val tt, w, text o).
Proof.
  intros Et Hc [Hp _]%plain_spec. cbn [execute]. unfold execute_body, with_tag. rewrite Et, Hc.
  unfold tag_expression_execute. by rewrite (xbind_go _ _ _ _ _ (eval_plain _ _ _ _ Hp)).
Qed.

(** Such a parameter is a constant. *)
Lemma constant_parameter n h self o nm p po :
  map_find nm (params o) = Some p -> h !! p = Some po -> cls po = tag_expression -> plain (text po) = true ->
  constant (execute (S n)) h self o nm (text po).
Proof.
  intros Ep Epo Hc Hp w. unfold get_parameter. rewrite Ep. unfold capture. by rewrite (expression_run n h p po).
Qed.

(** Names of attributes that are written. *)
Definition attr_name (k : string) : bool :=
  negb (is_empty k) && plain_name k && negb (starts_with "@DBP:PARAM@" k).

Definition static_attr (h : heap) (kp : string * positive) (kv : string * string) : Prop :=
  fst kp = fst kv /\ attr_name (fst kv) = true /\ is_empty (snd kv) = false /\
  exists po, h !! snd kp = Some po /\ cls po = tag_expression /\ text po = snd kv /\ plain (snd kv) = true.

(** The tree at [t] is the page [n], of depth at most [d]: elements and text. *)
Fixpoint static (d : nat) (h : heap) (t : positive) (n : node) : Prop :=
  match d, n with
  | O, _ => False
  | S _, NText s => exists o, h !! t = Some o /\ cls o = tag_expression /\ text o = s /\ plain s = true
  | S d, NElem nm attrs ch =>
      exists o, h !! t = Some o /\ cls o = tag_unknown /\ name o = nm /\ text o = "" /\ plain_name nm = true /\
        Forall2 (static_attr h) (map_order (params o)) attrs /\ Forall2 (static d h) (childs o) ch
  end.

Lemma static_plain_attrs h l attrs : Forall2 (static_attr h) l attrs -> plain_attrs attrs = true.
Proof.
  induction 1 as [|kp kv l attrs (_ & Hk & _ & po & _ & _ & _ & Hv) _ IH]; [done|].
  unfold attr_name in Hk. rewrite !andb_true_iff in Hk. apply plain_spec in Hv. unfold plain_attrs in *.
  cbn [forallb]. rewrite IH, andb_true_r. apply andb_true_iff. tauto.
Qed.

Lemma static_is_page d h t n : static d h t n -> page d n = true.
Proof.
  revert t n. induction d as [|d IH]; intros t n Hn; [done|]. destruct n as [s|nm attrs ch].
  - destruct Hn as (o & _ & _ & _ & Hs). by apply plain_spec in Hs as [_ ?].
  - destruct Hn as (o & _ & _ & _ & _ & Hnm & Ha & Hc). cbn [page]. rewrite Hnm, (static_plain_attrs _ _ _ Ha). cbn.
    induction Hc as [|c n l ch Hcn Hc IHc]; [done|]. cbn. by rewrite (IH _ _ Hcn), IHc.
Qed.

Lemma attributes_run n h self attrs l w :
  Forall2 (static_attr h) l attrs ->
  for_each (tag_attribute (execute (S n)) htmlentities h self) l w = Ok (Val tt, w, attributes (chr 2) attrs).
Proof.
  induction 1 as [|[k p] [k' v] l attrs (Hk & Hkn & Hv & po & Epo & Hpo & Htx & Hpl) _ IH]; [done|].
  cbn in Hk, Hkn, Hv, Epo, Htx, Hpl. subst k'. unfold attr_name in Hkn. rewrite !andb_true_iff, !negb_true_iff in Hkn.
  destruct Hkn as [[Hke _] Hks]. cbn [for_each].
  assert (starts_with "@DBP:PARAM@attr" k = false) as Hka.
  { destruct (starts_with "@DBP:PARAM@attr" k) eqn:E; [|done]. apply starts_with_cut in E as [b ->].
    change "@DBP:PARAM@attr" with ("@DBP:PARAM@" +:+ "attr") in Hks. by rewrite <- sapp_assoc, starts_with_app in Hks. }
  assert (tag_attribute (execute (S n)) htmlentities h self (k, p) w =
    Ok (Val tt, w, " " +:+ k +:+ "=" +:+ str1 (chr 2) +:+ htmlentities v +:+ str1 (chr 2))) as Ha.
  { unfold tag_attribute. cbn [fst snd]. rewrite Hke, Hka, Hks. rewrite (xbind_go _ _ _ v w); [by rewrite Hv|].
    unfold capture. rewrite (expression_run n h p po) by (done || by rewrite Htx). by rewrite Htx. }
  rewrite (xbind_Val _ _ _ _ _ _ Ha), IH. cbn. by rewrite !sapp_assoc.
Qed.

(** Without a parameter [asis] values and content are escaped. *)
Lemma no_asis h l attrs :
  Forall2 (static_attr h) (map_order l) attrs -> map_find "@DBP:PARAM@asis" l = None.
Proof.
  intros Ha. destruct (map_find _ l) as [p|] eqn:E; [|done]. exfalso.
  assert (("@DBP:PARAM@asis", p) ∈ map_order l) as Hin.
  { rewrite map_order_perm. by apply map_find_elem. }
  apply list_elem_of_lookup in Hin as [i Hi]. destruct (Forall2_lookup_l _ _ _ _ _ Ha Hi) as ([k v] & _ & Hk & Hn & _).
  cbn in Hk, Hn. subst k. done.
Qed.

Lemma real_run n h t o nm attrs data caller w :
  name o = nm -> Forall2 (static_attr h) (map_order (params o)) attrs ->
  tag_impl_execute (execute (S n)) h o caller w = Ok (Val tt, w, data) ->
  real_execute (execute (S n)) h t o caller w =
    Ok (Val tt, w, element (chr 3) (chr 4) (chr 2) nm attrs (htmlentities data)).
Proof.
  intros <- Ha Hd. unfold real_execute. rewrite (no_asis _ _ _ Ha).
  rewrite (xbind_Val (emit _) _ w tt w _ eq_refl). rewrite (xbind_go (xret htmlentities) _ w htmlentities w eq_refl).
  rewrite (xbind_Val _ _ _ _ _ _ (attributes_run n h t attrs _ w Ha)).
  assert (capture (children (execute (S n)) h o caller) w = Ok (Val data, w, "")) as Hc
    by (unfold capture, children; by rewrite Hd).
  rewrite (xbind_go _ _ _ _ _ Hc). unfold element. rewrite entities_empty.
  destruct (_ && _); cbn; by rewrite <- !sapp_assoc.
Qed.

(** The children of an element, where every page of depth [d] is executed as it should be. *)
Lemma content_run d exec h o ch caller w :
  (forall t pg, static d h t pg -> exec h t caller w = Ok (Val tt, w, encode pg)) ->
  text o = "" -> Forall2 (static d h) (childs o) ch ->
  tag_impl_execute exec h o caller w = Ok (Val tt, w, concat (encode <$> ch)).
Proof.
  intros Hd Ht Hch. unfold tag_impl_execute. rewrite Ht.
  assert (for_each (fun c => exec h c caller) (childs o) w = Ok (Val tt, w, concat (encode <$> ch))) as E.
  { induction Hch as [|t pg l ch Hs Hch IHc]; [done|]. cbn [for_each fmap list_fmap].
    by rewrite (xbind_Val _ _ _ _ _ _ (Hd t pg Hs)), IHc. }
  rewrite (xbind_Val _ _ _ _ _ _ E). cbn. by rewrite sapp_nil_r.
Qed.

Lemma page_run d n h t pg caller w :
  static d h t pg -> (d < n)%nat -> get_value (chain w) html_first <> "" ->
  execute n h t caller w = Ok (Val tt, w, encode pg).
Proof.
  revert n t pg caller. induction d as [|d IH]; intros n t pg caller Hs Hn Hw; [done|].
  destruct n as [|[|n]]; [lia..|]. destruct pg as [s|nm attrs ch].
  - destruct Hs as (o & Eo & Hc & <- & Hp). by apply expression_run.
  - destruct Hs as (o & Eo & Hc & Hnm & Ht & _ & Ha & Hch).
    change (execute (S (S n)) h t caller w) with (execute_body (execute (S n)) (S n) h t caller w).
    unfold execute_body, with_tag. rewrite Eo, Hc. unfold tag_unknown_execute.
    rewrite (xbind_go _ _ _ (get_value (chain w) html_first) w) by done.
    destruct (get_value (chain w) html_first) as [|c v] eqn:E; [done|]. cbn [is_empty encode].
    apply real_run; [done|done|]. apply (content_run d); [|done..].
    intros t' pg Hs. apply IH; [done|lia|done].
Qed.

End page.

(** A control character in a value becomes markup. *)
Example control_characters :
  htmlentitiesout (htmlentities (str1 (chr 3) +:+ "script" +:+ str1 (chr 4))) = "<script>".
Proof. reflexivity. Qed.
