(* ===== verification/DbFrame.v ===== *)
(** * What executing a tag leaves alone: one pass over all classes of tags

    A [policy] says, for every program, which states a tag may be executed in, how it may change them
    and which faults it may have ([outside]; [inside] is the same within a layer of the context).
    [PolicyLaws] are the facts about a policy that the combinators cannot know: the operations of the
    context, what the program's tree guarantees of addresses and classes, and the heap that a function
    is executed in.  [execute_kept]: under a policy with these laws, and with the three operations that
    policies treat in their own way ([call_tag], [dbp:execute] and [dbp:split]), every tag of every
    program respects the policy.  DbScope.v and DbTypes.v give two policies. *)

From S2P Require Import Prelude DbLang DbContext DbTag DbExpression DbTemplate DbBuiltin DbData DbServices DbFunctions DbExecute.

Section policy.
Context `{Dcl, Platform, Services}.

(** [good]: the programs; [valid]: the addresses in them; [callable]: those of the bodies of user tags. *)
Record policy := Policy {
  good : heap -> Prop;
  valid : heap -> positive -> Prop;
  callable : heap -> positive -> Prop;
  outside : heap -> frame world;
  inside : heap -> frame world
}.

(** The heap in which a function is executed, and the function's address. *)
Definition function_heap (h : heap) (self : positive) (o : tag) (args : string) : positive * heap :=
  let '(f, h) := alloc h (o <| parent := Some self |>) in (f, add_arguments h f 1 (tokenize args)).

Class PolicyLaws (P : policy) := {
  outside_laws h :: FrameLaws (outside P h);
  inside_laws h :: FrameLaws (inside P h);
  outside_inside h : weaker (outside P h) (inside P h);
  inside_fault h f : f_fault (inside P h) f -> f_fault (outside P h) f;
  outside_fault h f : f <> Dangling -> f <> BadCast -> f_fault (outside P h) f;
  outside_chain h w w' : chain w = chain w' -> f_rel (outside P h) w w';
  set_value_kept h nm v : keeps (outside P h) (ctx (set_value nm v));
  add_value_kept h nm v type : keeps (inside P h) (ctx (add_value nm v type));
  enter_leave_kept h : brackets (outside P h) (inside P h) (ctx enter) (ctx leave);
  local_context_inv h w :
    f_inv (outside P h) w -> f_inv (outside P h) (w <| chain := local_context (chain w) |>);
  valid_tag h t : valid P h t -> is_Some (h !! t) \/ f_fault (outside P h) Dangling;
  childs_valid h t o c : good P h -> h !! t = Some o -> c ∈ childs o -> valid P h c;
  params_valid h t o k p : good P h -> h !! t = Some o -> (k, p) ∈ params o -> valid P h p;
  parent_valid h t o p : good P h -> h !! t = Some o -> parent o = Some p -> valid P h p;
  user_tag_callable h t o u : good P h -> h !! t = Some o -> user_tag o = Some u -> callable P h u;
  child_callable h t o c co nm :
    good P h -> h !! t = Some o -> c ∈ childs o -> h !! c = Some co -> name co = "@" +:+ nm -> callable P h c;
  catch_class h t o c co :
    good P h -> h !! t = Some o -> c ∈ childs o -> h !! c = Some co -> name co = "catch" ->
    cls co = tag_catch \/ f_fault (outside P h) BadCast;
  function_good h self so nm o args f h' :
    good P h -> h !! self = Some so -> function_tag nm = Val o -> function_heap h self o args = (f, h') ->
    good P h' /\ valid P h' f /\ weaker (outside P h') (outside P h)
}.
End policy.

(** ** The tree *)

Section tree.
Context `{Dcl, Platform, !PlatformLaws, Services} (P : policy) `{!PolicyLaws P}.
Context (exec : exec_fn).
Context (exec_kept : forall h t c, good P h -> valid P h t -> keeps (outside P h) (exec h t c)).
Context (h : heap) (h_good : good P h).

Lemma kept_inside {A} (m : X world A) : keeps (outside P h) m -> keeps (inside P h) m.
Proof. apply keeps_weaken, outside_inside. Qed.

Lemma with_tag_kept (F : frame world) t {A} (k : tag -> X world A) :
  weaker (outside P h) F -> valid P h t -> (forall o, h !! t = Some o -> keeps F (k o)) -> keeps F (with_tag h t k).
Proof.
  intros HF Ht Hk. unfold with_tag. destruct (h !! t) as [o|] eqn:E; [by apply Hk|].
  apply keeps_crash, HF. destruct (valid_tag h t Ht) as [[o E2]|]; [congruence|done].
Qed.

Lemma scope_kept (m : X world unit) : keeps (inside P h) m -> keeps (outside P h) (scope m).
Proof. apply keeps_scoped; [apply inside_fault|apply enter_leave_kept]. Qed.

Lemma declared_scope_kept (mid m : X world unit) :
  (forall w o w1 s, mid w = Ok (o, w1, s) -> o = Val tt) ->
  keeps (inside P h) mid -> keeps (inside P h) m ->
  keeps (outside P h) (ctx enter ;;; mid ;;; finally m (ctx leave)).
Proof.
  intros Hval Hmid Hm w Hw.
  assert (keeps (outside P h) ((ctx enter ;;; mid) ;;; finally m (ctx leave))) as Hk.
  { apply keeps_scoped with (inside P h); [apply inside_fault| |done].
    apply brackets_bind; [exact _|apply inside_fault|apply enter_leave_kept|done|done]. }
  specialize (Hk w Hw). by rewrite xbind_assoc in Hk.
Qed.

(** A computation that leaves the chain of contexts alone. *)
Lemma same_chain {A} (m : X world A) :
  (forall w, match m w with
             | Ok (_, w', _) => chain w = chain w'
             | Crash f => f <> Dangling /\ f <> BadCast
             | NoFuel => True
             end) -> keeps (outside P h) m.
Proof.
  intros Hm w _. specialize (Hm w). destruct (m w) as [[[o w'] s]|f|]; [by apply outside_chain| |done]. destruct Hm.
  by apply outside_fault.
Qed.

Lemma ctx_get_kept nm : keeps (outside P h) (ctx_get nm).
Proof. by apply same_chain. Qed.

(** ** What the objects of the program guarantee *)

Lemma param_valid self o nm p : h !! self = Some o -> map_find nm (params o) = Some p -> valid P h p.
Proof.
  intros Eo Hp. apply (params_valid h self o nm); [done..|]. by apply map_find_elem.
Qed.

Lemma first_named_ok nm l :
  (forall c, c ∈ l -> valid P h c) ->
  match first_named h nm l with
  | Ok (Some c) => c ∈ l /\ exists co, h !! c = Some co /\ name co = nm
  | Ok None => True
  | Crash f => f_fault (outside P h) f
  | NoFuel => True
  end.
Proof.
  induction l as [|c l IH]; intros Hl; cbn; [done|].
  assert (forall c, c ∈ l -> valid P h c) as Hl' by (intros; apply Hl; by right).
  destruct (h !! c) as [co|] eqn:E.
  - destruct (seqb (name co) nm) eqn:En; [apply seqb_spec in En; split; [by left|by exists co]|].
    specialize (IH Hl'). destruct (first_named h nm l) as [[c'|]| |]; try done. destruct IH. split; [by right|done].
  - destruct (valid_tag h c) as [[co E2]|]; [apply Hl; by left|congruence|done].
Qed.

Lemma get_child_ok self o nm :
  h !! self = Some o ->
  match get_child h o nm with
  | Ok (Some c) => c ∈ childs o /\ exists co, h !! c = Some co /\ name co = nm
  | Ok None => True
  | Crash f => f_fault (outside P h) f
  | NoFuel => True
  end.
Proof. intros Eo. apply first_named_ok. intros c. by apply (childs_valid h self). Qed.

Lemma search_up_ok nm n p :
  (forall t, p = Some t -> valid P h t) ->
  match search_up n h ("@" +:+ nm) p with
  | Ok (Some c) => callable P h c
  | Ok None => True
  | Crash f => f_fault (outside P h) f
  | NoFuel => True
  end.
Proof.
  revert p. induction n as [|n IH]; intros p Hp; cbn; [done|]. destruct p as [t|]; [|done].
  destruct (h !! t) as [o|] eqn:E.
  - pose proof (get_child_ok t o ("@" +:+ nm) E) as Hc. destruct (get_child h o _) as [[c|]| |]; cbn; try done.
    + destruct Hc as (Hc & co & Eco & En). by apply (child_callable h t o c co nm).
    + apply IH. intros u. by apply (parent_valid h t).
  - destruct (valid_tag h t) as [[o E2]|]; [by apply Hp|congruence|done].
Qed.

Lemma lift_kept {A} (r : res A) (F : frame world) :
  weaker (outside P h) F -> (forall f, r = Crash f -> f_fault (outside P h) f) -> keeps F (xlift r).
Proof. intros HF Hr w Hw. unfold xlift. destruct r; [apply HF, outside_chain; done|by apply HF, Hr|done]. Qed.
End tree.

(** [add_value] without a type does not throw. *)
Lemma add_value_no_throw `{Dcl, !DclLaws, Services} nm v w o w1 s : ctx (add_value nm v "") w = Ok (o, w1, s) -> o = Val tt.
Proof.
  unfold ctx, xzoom. destruct (chain w) as [|c ps]; [done|]. cbn. rewrite compare_refl.
  destruct (stack c); [done|]. by intros [= <- <- <-].
Qed.

Lemma for_each_no_throw `{Services} {A} (f : A -> X world unit) l :
  (forall a w o w1 s, f a w = Ok (o, w1, s) -> o = Val tt) ->
  forall w o w1 s, for_each f l w = Ok (o, w1, s) -> o = Val tt.
Proof.
  intros Hf. induction l as [|a l IH]; intros w o w1 s E; [by injection E as <- <- <-|].
  apply xbind_Ok in E as [(e & -> & E)|(u & we & s1 & t & He & E & _)]; [by apply Hf in E|by eapply IH].
Qed.

(** ** The classes of tags *)

Section tags.
Context `{Dcl, !DclLaws, Platform, !PlatformLaws, Services} (P : policy) `{!PolicyLaws P}.
Context (exec : exec_fn).
Context (exec_kept : forall h t c, good P h -> valid P h t -> keeps (outside P h) (exec h t c)).
Context (h : heap) (h_good : good P h).

Notation kept := (keeps (outside P h)).

#[local] Instance tags_outside_laws g : FrameLaws (outside P g) := outside_laws g.
#[local] Instance tags_inside_laws g : FrameLaws (inside P g) := inside_laws g.

Lemma param_order_valid self o i : h !! self = Some o -> i ∈ map_order (params o) -> valid P h (snd i).
Proof. intros Eo Hi. rewrite map_order_perm in Hi. destruct i as [k p]. by apply (params_valid h self o k). Qed.

Lemma only_param_valid self o k p : h !! self = Some o -> params o = [(k, p)] -> valid P h p.
Proof. intros Eo E. apply (params_valid h self o k); [done..|]. rewrite E. by left. Qed.

Ltac valid :=
  first
    [ assumption
    | eapply childs_valid; eassumption
    | eapply param_valid; eassumption
    | eapply param_order_valid; eassumption
    | eapply only_param_valid; eassumption ].

Lemma crash_kept {A} f : f <> Dangling -> f <> BadCast -> kept (xcrash f : X world A).
Proof. intros. by apply keeps_crash, outside_fault. Qed.

#[local] Hint Extern 5 (keeps (inside _ _) _) => apply kept_inside : keeps.
#[local] Hint Extern 2 (keeps _ (exec _ _ _)) => apply exec_kept; [assumption|valid] : keeps.
#[local] Hint Extern 2 (keeps _ (xcrash _)) => apply crash_kept; discriminate : keeps.
#[local] Hint Resolve set_value_kept add_value_kept ctx_get_kept : keeps.

#[local] Opaque scope with_tag.

(** Through the combinators, layers and objects. *)
Ltac kept :=
  repeat (progress (keeps; try first
    [ apply scope_kept
    | apply (with_tag_kept P h); [first [by apply outside_inside|by split]|valid|] ]; cbv zeta beta)).

Lemma children_kept t o c : h !! t = Some o -> kept (tag_impl_execute exec h o c).
Proof. intros Eo. unfold tag_impl_execute. kept. Qed.
Lemma param_kept self o nm : h !! self = Some o -> kept (get_parameter exec h self o nm).
Proof. intros Eo. unfold get_parameter. kept. Qed.
#[local] Hint Extern 3 (keeps _ (tag_impl_execute _ _ _ _)) => eapply children_kept; eassumption : keeps.
#[local] Hint Extern 3 (keeps _ (get_parameter _ _ _ _ _)) => eapply param_kept; eassumption : keeps.
#[local] Hint Extern 3 (keeps _ (children _ _ _ _)) => eapply children_kept; eassumption : keeps.
#[local] Hint Extern 3 (keeps _ (param _ _ _ _ _)) => eapply param_kept; eassumption : keeps.

Lemma declare_kept self o skip : h !! self = Some o -> keeps (inside P h) (declare_parameters exec h self o skip).
Proof. intros Eo. unfold declare_parameters. kept. Qed.

(** ** Calls of user tags *)

Context (call_tag_kept : forall self so t,
  h !! self = Some so -> is_usr h (Some self) = true -> callable P h t -> kept (call_tag exec h self t)).
Context (execute_tag_kept : forall self so, h !! self = Some so -> kept (tag_execute_execute exec h self so)).
Context (split_kept : forall self so c,
  h !! self = Some so -> cls so = tag_split -> kept (tag_split_execute exec h self so c)).

Lemma search_kept self o nm n (k : option positive -> X world unit) :
  h !! self = Some o ->
  (forall r, match r with Some t => callable P h t | None => True end -> keeps (inside P h) (k r)) ->
  keeps (inside P h) (xbind (xlift (search_up n h ("@" +:+ nm) (parent o))) k).
Proof.
  intros Eo Hk. pose proof (search_up_ok P h h_good nm n (parent o) (fun t => parent_valid h self o t h_good Eo)) as Hs.
  apply keeps_bind_lift.
  - apply (lift_kept P h); [by apply outside_inside|]. intros f E. by rewrite E in Hs.
  - intros r E. apply Hk. rewrite E in Hs. by destruct r.
Qed.

Lemma usr_kept n self o :
  h !! self = Some o -> is_usr h (Some self) = true -> kept (tag_usr_execute exec n h self o).
Proof.
  intros Eo Hu. unfold tag_usr_execute. apply scope_kept; [done|]. apply keeps_bind; [exact _|by apply declare_kept|].
  intros _. destruct (user_tag o) as [u|] eqn:Eu.
  - apply (user_tag_callable h self o u h_good Eo) in Eu. apply keeps_bind_ret. apply kept_inside; [done|]. by eapply call_tag_kept.
  - apply search_kept with self; [done|]. intros [t|] Ht; [|kept].
    apply kept_inside; [done|]. by eapply call_tag_kept.
Qed.

Lemma call_kept n self o :
  h !! self = Some o -> is_usr h (Some self) = true -> kept (tag_call_execute exec n h self o).
Proof.
  intros Eo Hu. unfold tag_call_execute. apply keeps_bind; [exact _|by apply param_kept|]. intros nm.
  apply scope_kept; [done|]. apply keeps_bind; [exact _|by apply declare_kept|]. intros _.
  apply search_kept with self; [done|]. intros [t|] Ht; [|kept].
    apply kept_inside; [done|]. by eapply call_tag_kept.
Qed.

(** ** Control flow and markup *)

Lemma while_kept n self o c : h !! self = Some o -> kept (tag_while_execute exec n h self o c).
Proof. intros Eo. unfold tag_while_execute. induction n as [|n IH]; cbn; unfold param, children; kept. Qed.

(** The handler of a [try] block is a [tag_catch]. *)
Lemma try_kept self o c : h !! self = Some o -> kept (tag_try_execute exec h self o c).
Proof.
  intros Eo. unfold tag_try_execute, children. apply keeps_catch; [exact _|kept|]. intros e.
  pose proof (get_child_ok P h h_good self o "catch" Eo) as Hc. apply keeps_bind_lift.
  - apply (lift_kept P h); [by split|]. intros f E. by rewrite E in Hc.
  - intros [t|] E; [|kept]. rewrite E in Hc. destruct Hc as (Ht & co & Eco & Hn).
    apply (with_tag_kept P h); [by split|by apply (childs_valid h self o)|]. intros co' E'. simplify_eq.
    case_bool_decide as Hcls; [|apply keeps_crash].
    + unfold process_exception, children. kept.
    + by destruct (catch_class h self o t co h_good Eo Ht Eco Hn).
Qed.

Lemma unknown_kept self o c : h !! self = Some o -> kept (tag_unknown_execute exec h self o c).
Proof.
  intros Eo. assert (kept (real_execute exec h self o c)) as Hr.
  { unfold real_execute, tag_attribute, children. kept. }
  unfold tag_unknown_execute. apply keeps_bind; [exact _|kept|]. intros root. destruct (is_empty root); [|done].
  apply declared_scope_kept; [exact _|intros; by eapply add_value_no_throw|kept|kept].
Qed.

(** ** The stores and the operating system *)

Lemma on_os_kept {A} (f : sys -> A * sys) : kept (on_os f).
Proof. apply same_chain; [exact _|]. intros w. unfold on_os. by destruct (f (os w)). Qed.
Lemma get_list_kept p : kept (get_list p).
Proof. apply same_chain; [exact _|]. intros w. unfold get_list. by destruct (lists w !! p). Qed.
Lemma put_list_kept p l : kept (put_list p l).
Proof. by apply same_chain. Qed.
Lemma free_list_kept p : kept (free_list p).
Proof. by apply same_chain. Qed.
Lemma get_map_kept p : kept (get_map p).
Proof. apply same_chain; [exact _|]. intros w. unfold get_map. by destruct (maps w !! p). Qed.
Lemma put_map_kept p l : kept (put_map p l).
Proof. by apply same_chain. Qed.
Lemma free_map_kept p : kept (free_map p).
Proof. by apply same_chain. Qed.
#[local] Hint Resolve on_os_kept get_list_kept put_list_kept free_list_kept get_map_kept put_map_kept free_map_kept
  : keeps.

Lemma find_container_kept prefix nm e : kept (find_container prefix nm e).
Proof. unfold find_container. kept. Qed.
Lemma int_of_kept v : kept (int_of v).
Proof. unfold int_of. kept. Qed.
Lemma typed_members_kept types l : kept (typed_members types l).
Proof. induction l as [|[k v] l IH]; cbn; [kept|]. unfold typed_value, stoi. kept. Qed.
Lemma http_headers_kept l : (forall k p, (k, p) ∈ l -> valid P h p) -> kept (http_headers h l).
Proof.
  induction l as [|[k p] l IH]; cbn; intros Hl; [kept|].
  assert (kept (http_headers h l)) as Hk by (apply IH; intros k' p' Hp; apply (Hl k'); by right).
  case_bool_decide; [done|]. apply (with_tag_kept P h); [by split|apply (Hl k); by left|kept].
Qed.
#[local] Hint Resolve find_container_kept int_of_kept typed_members_kept : keeps.

Lemma http_kept self o c : h !! self = Some o -> kept (tag_http_execute exec h self o c).
Proof.
  intros Eo. assert (kept (http_headers h (map_order (params o)))) as Hh.
  { apply http_headers_kept. intros k p Hp. by apply (param_order_valid self o (k, p)). }
  unfold tag_http_execute, param, children. kept.
Qed.

Lemma async_kept self o c : h !! self = Some o -> kept (tag_async_execute exec h o c).
Proof.
  intros Eo. assert (forall l, (forall t, t ∈ l -> valid P h t) -> kept (async_children exec h c l)) as Hl.
  { induction l as [|t l IH]; cbn; intros Hl; [kept|].
    apply keeps_bind; [exact _| |intros s; apply keeps_bind; [exact _| |kept]; apply IH; intros; apply Hl; by right].
    intros w Hw. pose proof (exec_kept h t c h_good (Hl t ltac:(by left)) _ (local_context_inv h w Hw)) as Ht.
    unfold async_child, capture. destruct (exec h t c _) as [[[[u|e] w1] s]|f|]; try done;
      destruct (_ && _); first [by apply outside_chain|by apply outside_fault]. }
  unfold tag_async_execute. apply keeps_bind; [exact _| |kept]. apply Hl. intros t. by apply (childs_valid h self).
Qed.

Lemma regexp_loop_kept n e v input body : kept body -> kept (regexp_loop n e v input body).
Proof.
  intros Hb. revert input. induction n as [|n IH]; intros input; cbn; [done|].
  destruct (re_find_and_consume e input) as [[found rest]|]; kept.
Qed.
#[local] Hint Resolve regexp_loop_kept : keeps.

Lemma map_values_kept self o c : h !! self = Some o -> kept (tag_map_values_execute exec h self o c).
Proof.
  intros Eo. unfold tag_map_values_execute, find_map, param, children.
  do 4 (apply keeps_bind; [exact _|kept|intros ?]).
  apply declared_scope_kept; [exact _| |kept|kept].
  apply for_each_no_throw. intros a' w o' w1 s. apply add_value_no_throw.
Qed.

(** ** Calls of functions *)

Lemma function_kept self so nm args : h !! self = Some so -> kept (execute_function exec h self nm args).
Proof.
  intros Eo. unfold execute_function. destruct (function_tag nm) as [o|e] eqn:E; [|kept].
  destruct (alloc h (o <| parent := Some self |>)) as [f g] eqn:Ea.
  assert (function_heap h self o args = (f, add_arguments g f 1 (tokenize args))) as Hf
    by (unfold function_heap; by rewrite Ea).
  destruct (function_good h self so nm o args _ _ h_good Eo E Hf) as (Hg & Hv & Hw).
  apply keeps_capture. by apply (keeps_weaken _ _ _ Hw), exec_kept.
Qed.

Lemma expression_kept self o : h !! self = Some o -> kept (tag_expression_execute exec h self o).
Proof.
  intros Eo. unfold tag_expression_execute. apply keeps_bind; [exact _| |kept]. apply keeps_eval; [exact _| |kept|].
  - by apply outside_fault.
  - intros. by eapply function_kept.
Qed.

Lemma one_argument_kept self o : h !! self = Some o -> kept (one_argument exec h self o).
Proof. intros Eo. unfold one_argument, wrong_arguments. kept. Qed.
Lemma two_arguments_kept {A} o (m : X world A) : kept m -> kept (two_arguments o m).
Proof. intros Hm. unfold two_arguments, wrong_arguments. kept. Qed.
Lemma of_outcome_kept {A} (o : outcome A) : kept (of_outcome o).
Proof. unfold of_outcome. kept. Qed.

Lemma replace_loop_ok n source find replace i f : replace_loop n source find replace i <> Crash f.
Proof.
  revert source i. induction n as [|n IH]; intros source i; cbn; [done|]. by destruct (sfind source find i).
Qed.

Lemma split_pieces_ok n source sep i f : pieces n source sep i <> Crash f.
Proof.
  revert i. induction n as [|n IH]; intros i; cbn; [done|]. destruct (sfind source sep i) as [pos|]; [|done].
  specialize (IH (pos + slen sep)%nat). by destruct (pieces n source sep _).
Qed.

Lemma substr_kept self o c : h !! self = Some o -> kept (tag_substr_execute exec h self o c).
Proof.
  intros Eo. unfold tag_substr_execute, param, children. apply scope_kept; [exact _|].
  do 3 (apply keeps_bind; [exact _|kept|intros ?]). apply keeps_bind; [exact _| |intros; kept].
  apply (lift_kept P h); [by apply outside_inside|]. intros f E. by apply replace_loop_ok in E.
Qed.

#[local] Hint Resolve of_outcome_kept try_kept unknown_kept while_kept http_kept async_kept map_values_kept
  one_argument_kept expression_kept substr_kept split_kept usr_kept call_kept : keeps.
#[local] Hint Extern 3 (keeps _ (one_argument _ _ _ _)) => eapply one_argument_kept; eassumption : keeps.

Lemma body_kept n t c : valid P h t -> kept (execute_body exec n h t c).
Proof.
  intros Ht. unfold execute_body. apply (with_tag_kept P h); [by split|done|]. intros self Et.
  assert (cls self = tag_usr \/ cls self = tag_call -> is_usr h (Some t) = true) as Hu.
  { intros Hc. cbn. rewrite Et. by destruct Hc as [-> | ->]. }
  destruct (cls self) eqn:Hcls;
    try (by eauto using usr_kept, call_kept, execute_tag_kept, split_kept, async_kept);
    unfold tag_tag_execute, function_iif_execute, function_rnd_execute,
      function_pos_execute, function_crypt_execute, function_date_utc_execute, function_date_from_execute,
      function_date_fmt_execute, function_env_execute, wrong_arguments;
    repeat (progress (kept; try apply two_arguments_kept)).
Qed.
End tags.

Section execute_kept.
Context `{Dcl, !DclLaws, Platform, !PlatformLaws, Services} (P : policy) `{!PolicyLaws P}.

(** The recursion respects the policy, when the three operations do that a policy has to look at. *)
Lemma execute_kept :
  (forall exec : exec_fn, (forall h t c, good P h -> valid P h t -> keeps (outside P h) (exec h t c)) ->
     forall h self so, good P h -> h !! self = Some so ->
       (forall t, is_usr h (Some self) = true -> callable P h t -> keeps (outside P h) (call_tag exec h self t)) /\
       keeps (outside P h) (tag_execute_execute exec h self so) /\
       (forall c, cls so = tag_split -> keeps (outside P h) (tag_split_execute exec h self so c))) ->
  forall n h t c, good P h -> valid P h t -> keeps (outside P h) (execute n h t c).
Proof.
  intros Hops n. induction n as [|n IH]; intros h t c Hh Ht; [by intros w _|].
  apply body_kept; try done; intros self so; intros; by eapply (Hops _ IH h self so).
Qed.
End execute_kept.
