(* ===== verification/DbScope.v ===== *)
(** * The layers of variables: executing a tag gives its context back

    The [execute] methods enter a layer, declare variables in it and leave it on every exit; here it is
    shown for all classes of tags at once, by the policy [layers] (DbFrame.v): around a tag the context
    keeps its layers and the names each declares ([scoped] of DbContext.v), inside a layer that a tag has
    entered new names may be declared ([inner]).  The exception is [dbp:split], which reads parameters
    before its [try] block. *)

From S2P Require Import Prelude DbLang DbContext DbTag DbExpression DbTemplate DbBuiltin DbData DbServices DbFunctions DbExecute DbFrame.

(** The tags of class [tag_split] read parameters outside of their [try] block. *)
Definition no_split (h : heap) : Prop := forall t o, h !! t = Some o -> cls o <> tag_split.

(** ** The heaps of functions *)

Section functions.
Context `{Dcl}.

(** A property of the registered classes holds of a function's tag. *)
Lemma function_tag_class (p : string -> tag_class -> bool) nm o :
  forallb (fun kc => p (fst kc) (snd kc)) factories = true -> function_tag nm = Val o ->
  cls o = tag_usr \/ p (name o) (cls o) = true.
Proof.
  intros Hp. unfold function_tag. destruct nm as [|c nm]; [done|].
  destruct (is_char c "@"); [intros [= <-]; by left|].
  unfold create. destruct (map_find _ factories) as [k|] eqn:E; [|done]. intros [= <-]. right.
  apply map_find_elem, list_elem_of_In in E. rewrite forallb_forall in Hp. exact (Hp _ E).
Qed.

Lemma function_tag_split nm o : function_tag nm = Val o -> cls o <> tag_split.
Proof.
  intros Hf.
  destruct (function_tag_class (fun k c => seqb k "split" || negb (bool_decide (c = tag_split))) nm o) as [E|E];
    [done..|by rewrite E|]. intros Hc. rewrite Hc in E. cbn in E. rewrite orb_false_r in E.
  apply seqb_spec in E. destruct nm as [|c nm]; [done|]. cbn in Hf. destruct (is_char c "@"); [by injection Hf as <-|].
  unfold create in Hf. destruct (map_find _ factories); [|done]. by injection Hf as <-.
Qed.

Lemma no_split_insert g t o : no_split g -> cls o <> tag_split -> no_split (<[t := o]> g).
Proof. intros Hg Ho t' o'. rewrite lookup_insert_Some. intros [[<- <-]|[_ E]]; [done|by eapply Hg]. Qed.

Lemma add_arguments_no_split g f cnt p : no_split g -> no_split (add_arguments g f cnt p).
Proof.
  revert g cnt. induction p as [|i p IH]; intros g cnt Hg; cbn; [done|].
  assert (no_split (<[fresh (dom g) := argument f i]> g)) as Hg2 by (by apply no_split_insert).
  destruct (_ !! f) as [o|] eqn:E; [|done]. apply IH, no_split_insert; [done|]. by apply Hg2 in E.
Qed.
End functions.

(** ** The policy *)

Section layers.
Context `{Dcl, !DclLaws, Platform, !PlatformLaws, Services}.

Definition layers : policy := {|
  good := no_split;
  valid _ _ := True;
  callable _ _ := True;
  outside _ := relates (fun w w' => scoped (chain w) (chain w'));
  inside _ := relates (fun w w' => inner (chain w) (chain w'))
|}.

#[local] Instance on_chain_preorder (R : relation (list context)) `{!PreOrder R} :
  PreOrder (fun w w' : world => R (chain w) (chain w')).
Proof. split; [intros w|intros w1 w2 w3 ? ?]; [done|by etrans]. Qed.

Lemma relates_ctx {A} (R : relation (list context)) (m : X (list context) A) :
  keeps (relates R) m -> keeps (relates (fun w w' => R (chain w) (chain w'))) (ctx m).
Proof.
  intros Hm w _. specialize (Hm (chain w) I). unfold ctx, xzoom. by destruct (m (chain w)) as [[[o1 ch] t]| |].
Qed.

#[export] Instance layers_laws : PolicyLaws layers.
Proof.
  split; try done; try (right; done); cbn.
  - exact _.
  - exact _.
  - intros h. split; [done| |done]. intros w w'. apply scoped_inner.
  - by intros _ w w' ->.
  - intros _ nm v. by apply relates_ctx, set_value_scoped.
  - intros _ nm v type. by apply relates_ctx, add_value_inner.
  - intros _ w _. unfold ctx, xzoom. destruct (chain w) as [|c ps] eqn:E; [done|].
    destruct (enter_leave (c :: ps)) as (ch1 & -> & Hl); [done|]. split_and!; [done..|].
    intros w2 Hi. destruct (Hl _ Hi) as (ch3 & -> & Hs). rewrite <- E in Hs. done.
  - intros h self so nm o args f h' Hh Es Hf. intros [= <- <-]. split_and!; [|done|by split].
    apply add_arguments_no_split, no_split_insert; [done|]. exact (function_tag_split _ _ Hf).
Qed.

#[local] Instance layers_outside_laws h : FrameLaws (outside layers h) := outside_laws h.

Lemma layers_operations exec :
  (forall h t c, good layers h -> valid layers h t -> keeps (outside layers h) (exec h t c)) ->
  forall h self so, good layers h -> h !! self = Some so ->
    (forall t, is_usr h (Some self) = true -> callable layers h t -> keeps (outside layers h) (call_tag exec h self t)) /\
    keeps (outside layers h) (tag_execute_execute exec h self so) /\
    (forall c, cls so = tag_split -> keeps (outside layers h) (tag_split_execute exec h self so c)).
Proof.
  intros Hexec h self so Hh Es.
  assert (forall t, keeps (outside layers h) (ctx (push t))) as Hpush by (intros; by apply relates_ctx, push_scoped).
  assert (keeps (outside layers h) (ctx pop)) as Hpop by (by apply relates_ctx, pop_scoped).
  split_and!.
  - intros t _ _. unfold call_tag, execute_as_tag_tag, finally, with_tag. keeps; try first [done|by apply keeps_crash|by apply Hexec|apply keeps_lift; [exact _|intros; exact I]].
  - unfold tag_execute_execute, execute_as_tag_tag, with_tag, get_parameter, tag_impl_execute, get_child.
    keeps; try first [done|by apply keeps_crash|by apply Hexec|apply keeps_lift; [exact _|intros; exact I]].
  - intros c Hc. by destruct (Hh _ _ Es).
Qed.

(** C13: executing a tag, whatever the program does and whether it returns or throws, gives the context
    back with its layers and the names each declares, and leaves the parents their layers (variables
    of type user, global and system are added to the innermost one); for programs without
    [dbp:split]. *)
Theorem execute_layers n h t c w o w' s :
  no_split h -> execute n h t c w = Ok (o, w', s) -> scoped (chain w) (chain w').
Proof.
  intros Hh E. pose proof (execute_kept layers layers_operations n h t c Hh I w I) as Hk. by rewrite E in Hk.
Qed.
End layers.
