(* ===== verification/DbTypes.v ===== *)
(** * Type safety: the casts of the interpreter

    The interpreter keeps pointers to tags of many classes and casts them without a check
    ([static_cast<tag_tag *>], [static_cast<tag_catch *>], [static_cast<const tag_usr *>]).  In a
    well-typed program, where the pointers of the tree lead to objects of the tree and the names [@...]
    and [catch] are given to the classes they stand for, every cast of a tag is to its class and every
    pointer to a tag leads to one, whatever the program does; the call stack only ever holds user tags
    that are being called, and what executing a tag leaves of it is a part of what it was.  A policy in
    the sense of DbFrame.v.  (The pointers to lists and maps that programs keep as text in variables are
    another matter: DbData.v.) *)

From S2P Require Import Prelude DbLang DbContext DbTag DbExpression DbTemplate DbBuiltin DbStrings DbData DbServices DbFunctions DbExecute DbFrame.

(** ** Well-typed programs *)

Definition in_heap (h : heap) (t : positive) : bool := bool_decide (is_Some (h !! t)).

Definition has_class (h : heap) (c : tag_class) (t : positive) : bool :=
  match h !! t with Some o => bool_decide (cls o = c) | None => false end.

(** A child is an object; a body of a user tag is a [tag_tag] and a handler is a [tag_catch]. *)
Definition child_ok (h : heap) (c : positive) : bool :=
  match h !! c with
  | None => false
  | Some co =>
      (negb (starts_with "@" (name co)) || bool_decide (cls co = tag_tag)) &&
      (negb (seqb (name co) "catch") || bool_decide (cls co = tag_catch))
  end.

Definition tag_ok (h : heap) (o : tag) : bool :=
  forallb (child_ok h) (childs o) && forallb (fun kp => in_heap h (snd kp)) (params o) &&
  match parent o with Some p => in_heap h p | None => true end &&
  match user_tag o with Some u => has_class h tag_tag u | None => true end.

Definition well_typed (h : heap) : Prop := map_Forall (fun _ o => tag_ok h o = true) h.

#[export] Instance well_typed_dec h : Decision (well_typed h).
Proof. unfold well_typed. apply _. Defined.

(** [g] has the objects of [h], with their names and classes. *)
Definition same_types (h g : heap) : Prop := forall t o, h !! t = Some o ->
  exists o', g !! t = Some o' /\ name o' = name o /\ cls o' = cls o.

Lemma same_types_trans h1 h2 h3 : same_types h1 h2 -> same_types h2 h3 -> same_types h1 h3.
Proof.
  intros H1 H2 t o E. destruct (H1 _ _ E) as (o2 & E2 & ? & ?). destruct (H2 _ _ E2) as (o3 & E3 & ? & ?).
  exists o3. split_and!; [done|congruence..].
Qed.

Lemma same_types_insert h t o :
  (forall o', h !! t = Some o' -> name o = name o' /\ cls o = cls o') -> same_types h (<[t := o]> h).
Proof.
  intros Ho t' o' E. destruct (decide (t = t')) as [->|Hn].
  - rewrite lookup_insert_eq. exists o. split; [done|by apply Ho].
  - rewrite lookup_insert_ne by done. by exists o'.
Qed.

Lemma in_heap_spec h t : in_heap h t = true <-> is_Some (h !! t).
Proof. apply bool_decide_eq_true. Qed.

Lemma in_heap_mono h g t : same_types h g -> in_heap h t = true -> in_heap g t = true.
Proof. rewrite !in_heap_spec. intros Hs [o E]. destruct (Hs _ _ E) as (o' & E' & _). by exists o'. Qed.

Lemma has_class_mono h g c t : same_types h g -> has_class h c t = true -> has_class g c t = true.
Proof.
  unfold has_class. intros Hs. destruct (h !! t) as [o|] eqn:E; [|done].
  destruct (Hs _ _ E) as (o' & -> & _ & ->). done.
Qed.

Lemma child_ok_mono h g c : same_types h g -> child_ok h c = true -> child_ok g c = true.
Proof.
  unfold child_ok. intros Hs. destruct (h !! c) as [o|] eqn:E; [|done].
  by destruct (Hs _ _ E) as (o' & -> & -> & ->).
Qed.

Lemma forallb_mono {A} (p q : A -> bool) l :
  (forall a, p a = true -> q a = true) -> forallb p l = true -> forallb q l = true.
Proof. intros Hpq. rewrite !forallb_forall. auto. Qed.

Lemma tag_ok_mono h g o : same_types h g -> tag_ok h o = true -> tag_ok g o = true.
Proof.
  intros Hs. unfold tag_ok. rewrite !andb_true_iff. intros [[[Hc Hp] Hpar] Hu]. split_and!.
  - eapply forallb_mono; [intros c; by apply child_ok_mono|done].
  - eapply forallb_mono; [intros c; by apply in_heap_mono|done].
  - destruct (parent o); [by eapply in_heap_mono|done].
  - destruct (user_tag o); [by eapply has_class_mono|done].
Qed.

Lemma is_usr_mono h g c : same_types h g -> is_usr h c = true -> is_usr g c = true.
Proof.
  unfold is_usr. intros Hs. destruct c as [t|]; [|done]. destruct (h !! t) as [o|] eqn:E; [|done].
  by destruct (Hs _ _ E) as (o' & -> & _ & ->).
Qed.

Lemma well_typed_insert h t o :
  well_typed h -> same_types h (<[t := o]> h) -> tag_ok (<[t := o]> h) o = true -> well_typed (<[t := o]> h).
Proof.
  intros Hh Hs Ho t' o'. rewrite lookup_insert_Some. intros [[<- <-]|[_ E]]; [done|].
  by apply (tag_ok_mono h), (Hh t').
Qed.

(** ** The heap of a function *)

Section functions.
Context `{Dcl}.

Lemma params_insert h nm a l :
  in_heap h a = true -> forallb (fun kp : string * positive => in_heap h (snd kp)) l = true ->
  forallb (fun kp => in_heap h (snd kp)) (map_insert nm a l) = true.
Proof.
  intros Ha Hl. unfold map_insert. destruct (existsb _ _); [done|]. by rewrite forallb_app, Hl; cbn; rewrite Ha.
Qed.

Lemma fresh_types h o : same_types h (<[fresh (dom h) := o]> h).
Proof.
  apply same_types_insert. intros o' E. apply elem_of_dom_2 in E. by destruct (is_fresh (dom h)).
Qed.

Lemma add_arguments_typed h f cnt args :
  well_typed h -> is_Some (h !! f) ->
  well_typed (add_arguments h f cnt args) /\ same_types h (add_arguments h f cnt args).
Proof.
  revert h cnt. induction args as [|i args IH]; intros h cnt Hh [fo Ef]; cbn.
  { split; [done|]. intros t o E. by exists o. }
  set (a := fresh (dom h)). set (h1 := <[a := argument f i]> h).
  assert (same_types h h1) as Hs1 by apply fresh_types.
  assert (well_typed h1) as Hh1.
  { apply well_typed_insert; [done..|]. unfold tag_ok. cbn. rewrite andb_true_r.
    apply (in_heap_mono h); [done|]. apply in_heap_spec. by exists fo. }
  destruct (Hs1 _ _ Ef) as (fo' & E1 & Hn & Hc). rewrite E1.
  set (fo2 := fo' <| params := map_insert ("arg" +:+ to_string_int cnt) a (params fo') |>).
  assert (same_types h1 (<[f := fo2]> h1)) as Hs2 by (apply same_types_insert; intros o'; by rewrite E1; intros [= <-]).
  assert (well_typed (<[f := fo2]> h1)) as Hh2.
  { apply well_typed_insert; [done..|]. pose proof (Hh1 _ _ E1) as Ho. apply (tag_ok_mono _ _ _ Hs2) in Ho.
    revert Ho. unfold tag_ok. cbn. rewrite !andb_true_iff. intros [[[? ?] ?] ?]. split_and!; try done.
    apply params_insert; [|done]. apply (in_heap_mono h1); [done|]. apply in_heap_spec. unfold h1.
    rewrite lookup_insert_eq. by eexists. }
  destruct (IH _ (cnt + 1) Hh2) as [Hw Hs]; [rewrite lookup_insert_eq; by eexists|].
  split; [done|]. by apply (same_types_trans _ h1), (same_types_trans _ (<[f := fo2]> h1)).
Qed.

Lemma function_tag_new nm o : function_tag nm = Val o -> exists c k, o = new_tag c k.
Proof.
  unfold function_tag, create. destruct nm as [|c nm]; [done|]. repeat case_match; intros; simplify_eq; eauto.
Qed.

Lemma function_heap_typed h self so nm o args f g :
  well_typed h -> h !! self = Some so -> function_tag nm = Val o -> function_heap h self o args = (f, g) ->
  well_typed g /\ is_Some (g !! f) /\ same_types h g.
Proof.
  intros Hh Es Hf. unfold function_heap, alloc. intros [= <- <-].
  set (f := fresh (dom h)). set (o1 := o <| parent := Some self |>).
  assert (same_types h (<[f := o1]> h)) as Hs1 by apply fresh_types.
  assert (well_typed (<[f := o1]> h)) as Hh1.
  { apply well_typed_insert; [done..|]. destruct (function_tag_new _ _ Hf) as (c & k & ->). unfold tag_ok. cbn.
    rewrite andb_true_r. apply (in_heap_mono h); [done|]. apply in_heap_spec. by exists so. }
  destruct (add_arguments_typed (<[f := o1]> h) f 1 (tokenize args) Hh1) as [Hw Hs]; [rewrite lookup_insert_eq; by eexists|].
  split_and!; [done| |by eapply same_types_trans].
  destruct (Hs f o1) as (o2 & E & _); [by rewrite lookup_insert_eq|by exists o2].
Qed.
End functions.

(** ** The call stacks *)

(** A part of the elements, in their order. *)
Definition stack_part (c c' : context) : Prop := exec c' `sublist_of` exec c.
Definition stacks_part (ch ch' : list context) : Prop := Forall2 stack_part ch ch'.

#[export] Instance stack_part_preorder : PreOrder stack_part.
Proof. split; unfold stack_part; [intros c; done|intros c1 c2 c3 H1 H2; by etrans]. Qed.

#[export] Instance stacks_part_preorder : PreOrder stacks_part.
Proof. split; unfold stacks_part; [intros ch; done|intros ch1 ch2 ch3 H1 H2; by etrans]. Qed.

Definition typed_context (h : heap) (c : context) : Prop := Forall (fun t => is_usr h (Some t) = true) (exec c).

Lemma typed_part h c c' : typed_context h c -> stack_part c c' -> typed_context h c'.
Proof.
  unfold typed_context, stack_part. rewrite !Forall_forall. intros Hc Hs t Ht. apply Hc.
  eapply elem_of_submseteq; [done|by apply sublist_submseteq].
Qed.

Section stacks.
Context `{Dcl, Platform, Services}.

(** Every call stack holds user tags of the program. *)
Definition typed_stacks (h : heap) (ch : list context) : Prop := Forall (typed_context h) ch.

Definition no_type_error (f : fault) : Prop := f <> Dangling /\ f <> BadCast.

(** For the operations on a chain, which know nothing of the program. *)
Definition same_execs : frame (list context) :=
  Frame (fun _ => True) (fun ch ch' => exec <$> ch = exec <$> ch') no_type_error.

Definition typed_frame (h : heap) : frame world :=
  Frame (fun w => typed_stacks h (chain w)) (fun w w' => stacks_part (chain w) (chain w')) no_type_error.

Lemma typed_stacks_part h ch ch' : typed_stacks h ch -> stacks_part ch ch' -> typed_stacks h ch'.
Proof.
  intros Hch Hs. induction Hs as [|c c' ch ch' Hc Hs IH]; [done|]. inversion Hch; subst.
  constructor; [by eapply typed_part|by apply IH].
Qed.

#[export] Instance typed_frame_laws h : FrameLaws (typed_frame h).
Proof.
  split; [split|]; cbn.
  - intros w. cbn. unfold stacks_part. reflexivity.
  - intros w1 w2 w3. cbn. unfold stacks_part. intros. by etrans.
  - intros w w'. apply typed_stacks_part.
Qed.

Lemma execs_part ch ch' : exec <$> ch = exec <$> ch' -> stacks_part ch ch'.
Proof.
  revert ch'. induction ch as [|c ch IH]; intros [|c' ch']; cbn; try done.
  intros [= Hc Hch]. constructor; [unfold stack_part; by rewrite Hc|by apply IH].
Qed.

Lemma execs_ctx {A} h (m : X (list context) A) : keeps same_execs m -> keeps (typed_frame h) (ctx m).
Proof.
  intros Hm w _. specialize (Hm (chain w) I). unfold ctx, xzoom. destruct (m (chain w)) as [[[o ch] s]| |]; [|done..].
  by apply execs_part.
Qed.

Lemma on_this_execs {A} (f : context -> res (A * context)) :
  (forall c, match f c with Ok (_, c') => exec c = exec c' | Crash e => no_type_error e | NoFuel => True end) ->
  keeps same_execs (on_this f).
Proof.
  intros Hf [|c ch] _; [done|]. cbn. specialize (Hf c). destruct (f c) as [[a c']|e|]; [|done..]. cbn. by rewrite Hf.
Qed.

Lemma enter_execs : keeps same_execs enter.
Proof. by apply on_this_execs. Qed.
Lemma leave_execs : keeps same_execs leave.
Proof. apply on_this_execs. intros c. by destruct (stack c). Qed.

Lemma on_parent_execs {A} c ps (r : res (outcome A * list context * string)) :
  match r with Ok (_, ch', _) => exec <$> ps = exec <$> ch' | Crash e => no_type_error e | NoFuel => True end ->
  match on_parent c r with
  | Ok (_, ch', _) => exec <$> c :: ps = exec <$> ch'
  | Crash e => no_type_error e
  | NoFuel => True
  end.
Proof. destruct r as [[[o ch] s]| |]; [|done..]. cbn. by intros ->. Qed.

Lemma set_value_execs nm v : keeps same_execs (set_value nm v).
Proof.
  intros ch _. induction ch as [|c ps IH]; [done|]. cbn [set_value]. destruct (assign_layer _ _ _); [done|].
  destruct ps as [|p ps]; [done|]. by apply on_parent_execs.
Qed.

Lemma add_value_execs nm v type : keeps same_execs (add_value nm v type).
Proof.
  intros ch _. revert type. induction ch as [|c ps IH]; intros type; [done|]. cbn [add_value].
  destruct (compare _ _); [by destruct (stack c)|]. destruct ps as [|p ps]; [done|]. apply on_parent_execs, IH.
Qed.

(** ** A call and [dbp:execute] *)

(** The call stack of [this] with one more tag. *)
Definition pushed (t : positive) (ch : list context) : list context :=
  match ch with c :: ps => c <| exec := t :: exec c |> :: ps | [] => [] end.

Lemma pushed_part t ch ch' : stacks_part ch ch' -> stacks_part (pushed t ch) (pushed t ch').
Proof. destruct 1 as [|c c' ch ch' Hc Hs]; [by constructor|]. constructor; [|done]. by apply sublist_skip. Qed.

Lemma part_pushed t ch : stacks_part (pushed t ch) ch.
Proof. destruct ch as [|c ps]; [by constructor|]. constructor; [by apply sublist_cons|]. unfold stacks_part. reflexivity. Qed.

(** What is left of a call stack after the call's own entry, or another, was taken off. *)
Lemma pop_part (t : positive) (l l2 : list positive) : l2 `sublist_of` t :: l -> tail l2 `sublist_of` l.
Proof.
  inversion 1 as [|t' l1 l2' Hs|t' l1 l2' Hs]; subst; cbn; [done|]. destruct l2 as [|u l2]; [done|].
  etrans; [by apply sublist_cons|done].
Qed.

Lemma push_pop_brackets h t :
  is_usr h (Some t) = true -> brackets (typed_frame h) (typed_frame h) (ctx (push t)) (ctx pop ;;; xret tt).
Proof.
  intros Ht w Hw. cbn in Hw. unfold ctx, xzoom, push. destruct (chain w) as [|c ps] eqn:E; [done|]. cbn.
  split_and!; [done| |].
  - inversion Hw as [|? ? Hc Hps]; subst. constructor; [|done]. by constructor.
  - intros w2 Hs. unfold xbind, pop. destruct (chain w2) as [|c2 ps2] eqn:E2; [by inversion Hs|].
    inversion Hs as [|? ? ? ? Hc Hps]; subst. unfold stack_part in Hc. cbn in Hc. apply pop_part in Hc.
    cbn. rewrite E. destruct (exec c2) eqn:Ec; cbn; (split; [done|]); constructor; try done; unfold stack_part; cbn;
      by rewrite ?Ec.
Qed.

(** [m] puts [t] on the call stack, or throws. *)
Definition restores {A} (h : heap) (t : positive) (m : X world A) : Prop := forall w, typed_stacks h (chain w) ->
  match m w with
  | Ok (_, w', _) => stacks_part (pushed t (chain w)) (chain w')
  | Crash f => no_type_error f
  | NoFuel => True
  end.

Lemma restores_bind {A B} h t (m : X world A) (k : A -> X world B) :
  keeps (typed_frame h) m -> (forall a, restores h t (k a)) -> restores h t (xbind m k).
Proof.
  intros Hm Hk w Hw. specialize (Hm w Hw). unfold xbind. destruct (m w) as [[[[a|e] w1] s]| |]; try done; cbn in Hm.
  - specialize (Hk a w1 (typed_stacks_part _ _ _ Hw Hm)). unfold after.
    destruct (k a w1) as [[[o w2] s2]| |]; [|done..]. etrans; [by apply pushed_part|done].
  - etrans; [apply part_pushed|done].
Qed.

Lemma restores_bind_lift {A B} h t (r : res A) (k : A -> X world B) :
  keeps (typed_frame h) (xlift r : X world A) -> (forall a, r = Ok a -> restores h t (k a)) ->
  restores h t (xbind (xlift r) k).
Proof.
  intros Hr Hk w Hw. specialize (Hr w Hw). unfold xbind, xlift in *. destruct r as [a| |]; [|done..].
  rewrite after_nil. by apply Hk.
Qed.

Lemma restores_push h t : restores h t (ctx (push t)).
Proof. intros w _. unfold ctx, xzoom, push. destruct (chain w) as [|c ps]; [done|]. cbn. unfold stacks_part. reflexivity. Qed.

(** The tag on top of the call stack is a user tag; what follows puts it back. *)
Lemma keeps_pop h (k : option positive -> X world unit) :
  keeps (typed_frame h) (k None) -> (forall t, is_usr h (Some t) = true -> restores h t (k (Some t))) ->
  keeps (typed_frame h) (c <- ctx pop ;; k c).
Proof.
  intros Hn Hs w Hw. cbn in Hw. unfold xbind, ctx, xzoom, pop. destruct (chain w) as [|c ps] eqn:E; [done|]. cbn.
  destruct (exec c) as [|t ts] eqn:Ec; cbn; rewrite after_nil.
  - replace (set_chain (fun _ => c :: ps) w) with w by (rewrite <- E; by destruct w). apply (Hn w). by cbn; rewrite E.
  - inversion Hw as [|? ? Hc Hps]; subst. unfold typed_context in Hc. rewrite Ec in Hc. inversion Hc as [|? ? Ht Hts]; subst.
    set (c1 := c <| exec := ts |>).
    assert (typed_stacks h (c1 :: ps)) as Hw1 by (by constructor).
    specialize (Hs t Ht (w <| chain := c1 :: ps |>) Hw1). destruct (k (Some t) _) as [[[o w2] s]| |]; [|done..].
    cbn in Hs |- *. rewrite E. replace c with (c1 <| exec := t :: ts |>); [done|].
    unfold c1. destruct c. cbn in *. by subst.
Qed.

Lemma brackets_same h (pre fin : X (list context) unit) :
  keeps same_execs pre -> keeps same_execs fin ->
  (forall ch o ch' s, pre ch = Ok (o, ch', s) -> o = Val tt) ->
  (forall ch o ch' s, fin ch = Ok (o, ch', s) -> o = Val tt) ->
  brackets (typed_frame h) (typed_frame h) (ctx pre) (ctx fin).
Proof.
  intros Hp Hf Hpv Hfv w Hw. pose proof (execs_ctx h pre Hp w Hw) as Hk. unfold ctx, xzoom in *.
  destruct (pre (chain w)) as [[[o ch] s]| |] eqn:E; [|done..]. split_and!; [by eapply Hpv|by eapply f_inv_rel|].
  intros w2 H2. assert (f_inv (typed_frame h) w2) as Hw2 by (eapply f_inv_rel; [by eapply f_inv_rel|done]).
  pose proof (execs_ctx h fin Hf w2 Hw2) as Hk2. unfold ctx, xzoom in Hk2.
  destruct (fin (chain w2)) as [[[o2 ch2] s2]| |] eqn:E2; [|done..]. split; [by eapply Hfv|].
  etrans; [exact Hk|]. by etrans.
Qed.
End stacks.

(** ** The policy *)

Section types.
Context `{Dcl, !DclLaws, Platform, !PlatformLaws, Services}.

Definition types : policy := {|
  good := well_typed;
  valid h t := is_Some (h !! t);
  callable h t := has_class h tag_tag t = true;
  outside := typed_frame;
  inside := typed_frame
|}.

Lemma tag_ok_parts h t o :
  well_typed h -> h !! t = Some o ->
  (forall c, c ∈ childs o -> child_ok h c = true) /\ (forall k p, (k, p) ∈ params o -> in_heap h p = true) /\
  (forall p, parent o = Some p -> in_heap h p = true) /\ (forall u, user_tag o = Some u -> has_class h tag_tag u = true).
Proof.
  intros Hh E. pose proof (Hh _ _ E) as Ho. unfold tag_ok in Ho. rewrite !andb_true_iff, !forallb_forall in Ho.
  destruct Ho as [[[Hc Hp] Hpar] Hu]. split_and!.
  - intros c. rewrite list_elem_of_In. apply Hc.
  - intros k p. rewrite list_elem_of_In. apply (Hp (k, p)).
  - intros p Ep. by rewrite Ep in Hpar.
  - intros u Eu. by rewrite Eu in Hu.
Qed.

#[export] Instance types_laws : PolicyLaws types.
Proof.
  split; cbn; try done.
  - exact _.
  - exact _.
  - intros h w w' ->. unfold stacks_part. reflexivity.
  - intros h nm v. apply execs_ctx, set_value_execs.
  - intros h nm v type. apply execs_ctx, add_value_execs.
  - intros h. apply brackets_same; [apply enter_execs|apply leave_execs| |]; intros [|c ch] o ch' s; try done.
    + by intros [= <- <- <-].
    + cbn. destruct (stack c); [done|by intros [= <- <- <-]].
  - intros h w Hw. constructor; [by constructor|done].
  - intros h t Ht. by left.
  - intros h t o c Hh E Hc. destruct (tag_ok_parts h t o Hh E) as (Ho & _). specialize (Ho c Hc). unfold child_ok in Ho.
    by destruct (h !! c).
  - intros h t o k p Hh E Hp. destruct (tag_ok_parts h t o Hh E) as (_ & Ho & _). by apply in_heap_spec, (Ho k).
  - intros h t o p Hh E Hp. destruct (tag_ok_parts h t o Hh E) as (_ & _ & Ho & _). by apply in_heap_spec, Ho.
  - intros h t o u Hh E Hu. destruct (tag_ok_parts h t o Hh E) as (_ & _ & _ & Ho). by apply Ho.
  - intros h t o c co nm Hh E Hc Ec Hn. destruct (tag_ok_parts h t o Hh E) as (Ho & _). specialize (Ho c Hc).
    unfold child_ok in Ho. rewrite Ec in Ho. unfold has_class. rewrite Ec. apply andb_true_iff in Ho as [Ho _].
    rewrite Hn, starts_with_app in Ho. done.
  - intros h t o c co Hh E Hc Ec Hn. left. destruct (tag_ok_parts h t o Hh E) as (Ho & _). specialize (Ho c Hc).
    unfold child_ok in Ho. rewrite Ec, Hn in Ho. apply andb_true_iff in Ho as [_ Ho]. by apply bool_decide_eq_true in Ho.
  - intros h self so nm o args f h' Hh Es Hf Hfh.
    destruct (function_heap_typed h self so nm o args f h' Hh Es Hf Hfh) as (Hw & Hv & Hs). split_and!; [done..|].
    split; [|done|done]. intros w Hst. cbn in *. unfold typed_stacks, typed_context in *.
    eapply Forall_impl; [exact Hst|]. intros c Hc. eapply Forall_impl; [exact Hc|]. intros t. by apply is_usr_mono.
Qed.

#[local] Instance types_outside_laws h : FrameLaws (outside types h) := outside_laws h.

Lemma callable_execute exec h t self :
  (forall h t c, good types h -> valid types h t -> keeps (outside types h) (exec h t c)) ->
  well_typed h -> has_class h tag_tag t = true -> keeps (typed_frame h) (execute_as_tag_tag exec h t self).
Proof.
  intros Hexec Hh Ht. unfold execute_as_tag_tag, with_tag. unfold has_class in Ht. destruct (h !! t) as [o|] eqn:E; [|done].
  rewrite Ht. apply Hexec; [done|by exists o].
Qed.

Lemma types_operations exec :
  (forall h t c, good types h -> valid types h t -> keeps (outside types h) (exec h t c)) ->
  forall h self so, good types h -> h !! self = Some so ->
    (forall t, is_usr h (Some self) = true -> callable types h t -> keeps (outside types h) (call_tag exec h self t)) /\
    keeps (outside types h) (tag_execute_execute exec h self so) /\
    (forall c, cls so = tag_split -> keeps (outside types h) (tag_split_execute exec h self so c)).
Proof.
  intros Hexec h self so Hh Es. split_and!.
  - intros t Hu Ht. unfold call_tag. apply keeps_scoped with (typed_frame h); [done|by apply push_pop_brackets|].
    by apply callable_execute.
  - unfold tag_execute_execute. apply keeps_pop; [by apply keeps_ret; apply typed_frame_laws|]. intros t Hu.
    apply restores_bind; [by apply (param_kept types exec Hexec h Hh self so)|]. intros nm. unfold with_tag.
    destruct (h !! t) as [co|] eqn:Ec; [|unfold is_usr in Hu; by rewrite Ec in Hu].
    destruct (negb (is_empty nm)).
    + pose proof (get_child_ok types h Hh t co ("@" +:+ nm) Ec) as Hc. apply restores_bind_lift.
      * apply (lift_kept types h); [by split|]. intros f E. by rewrite E in Hc.
      * intros [u|] E; (apply restores_bind; [|intros _; apply restores_push]);
          [|apply keeps_ret; apply typed_frame_laws].
        rewrite E in Hc. destruct Hc as (Hu' & uo & Eu & Hn).
        apply callable_execute; [done..|]. by apply (child_callable (P := types) h t co u uo nm).
    + rewrite Hu. apply restores_bind; [|intros _; apply restores_push].
      by apply (children_kept types exec Hexec h Hh t co).
  - intros c _. unfold tag_split_execute, param, children.
    assert (keeps (outside types h) (ctx enter)) as He by (apply execs_ctx, enter_execs).
    assert (keeps (outside types h) (ctx leave)) as Hl by (apply execs_ctx, leave_execs).
    assert (forall nm, keeps (outside types h) (get_parameter exec h self so nm)) as Hp
      by (intros; by apply (param_kept types exec Hexec h Hh self so)).
    assert (forall c, keeps (outside types h) (tag_impl_execute exec h so c)) as Hc
      by (intros; by apply (children_kept types exec Hexec h Hh self so)).
    assert (forall nm v, keeps (outside types h) (ctx (set_value nm v))) as Hs by (intros; apply execs_ctx, set_value_execs).
    assert (forall nm v ty, keeps (outside types h) (ctx (add_value nm v ty))) as Ha
      by (intros; apply execs_ctx, add_value_execs).
    assert (forall nm, keeps (outside types h) (ctx_get nm)) as Hg by (intros nm w _; cbn; reflexivity).
    unfold split_one, split_many, finally. keeps.
    apply (lift_kept types h); [by split|]. intros f E. by apply split_pieces_ok in E.
Qed.

(** C5: the tags of a program: executing any tag of a well-typed program, with call stacks of its user tags,
    never follows a pointer to a tag that does not exist ([Dangling]) and never casts a tag to a class
    that is not its own ([BadCast]); when it ends, it leaves call stacks that are parts of those it was
    started with.  It may stop with another fault: the pointers to lists and maps are text in variables
    ([WildPointer]), a service may be missing ([NullDeref]), data may change under an iterator
    ([MemFault]). *)
Theorem execute_type_safe n h t c w :
  well_typed h -> is_Some (h !! t) -> typed_stacks h (chain w) ->
  match execute n h t c w with
  | Ok (_, w', _) => stacks_part (chain w) (chain w')
  | Crash f => f <> Dangling /\ f <> BadCast
  | NoFuel => True
  end.
Proof. intros Hh Ht Hw. exact (execute_kept types types_operations n h t c Hh Ht w Hw). Qed.
End types.
