(* ===== verification/DbProgram.v ===== *)
(** * From the document to its execution: programs that the parser builds are well typed

    The parser gives the invariant that the type safety of the interpreter (DbTypes.v) starts from: for a
    document whose elements have XML names, and in which only dbPager's own [dbp:catch] is called
    [catch], the tree is kept well typed by every node that is read ([read_nodes_step]), however the nodes
    are nested, and so is the program ([parse_well_typed]); no part of parsing and executing it casts a
    tag to a class that is not its own or follows a pointer to a tag that does not exist
    ([document_type_safe]).  Documents without [dbp:include]. *)

From S2P Require Import Prelude DbLang DbContext DbTag DbBuiltin DbStrings DbExecute DbParser DbFrame DbTypes.

(** ** Trees under construction *)

(** The name of an object agrees with its class, as [child_ok] asks of a child. *)
Definition name_ok (o : tag) : bool :=
  (negb (starts_with "@" (name o)) || bool_decide (cls o = tag_tag)) &&
  (negb (seqb (name o) "catch") || bool_decide (cls o = tag_catch)).

(** Well typed, and every child has a parent: an object without one can still change its name. *)
Definition tree_ok (h : heap) : Prop :=
  well_typed h /\ (forall t o c co, h !! t = Some o -> c ∈ childs o -> h !! c = Some co -> parent co <> None).

Definition grows (h g : heap) : Prop := forall t o, h !! t = Some o -> exists o', g !! t = Some o' /\ cls o' = cls o.

#[export] Instance grows_preorder : PreOrder grows.
Proof.
  split; [intros h t o E; by exists o|]. intros h1 h2 h3 H1 H2 t o E. destruct (H1 _ _ E) as (o2 & E2 & Hc).
  destruct (H2 _ _ E2) as (o3 & E3 & Hc3). exists o3. split; [done|congruence].
Qed.

(** An element that is being read and is no [dbp:include]. *)
Definition open_name (o : tag) : bool := name_ok o && negb (seqb (name o) "include").
Definition open_tag (t : positive) (h : heap) : Prop :=
  exists o, h !! t = Some o /\ parent o = None /\ childs o = [] /\ open_name o = true.

Definition valid_in (t : positive) (h : heap) : Prop := is_Some (h !! t).
Definition current_in (c : option positive) (h : heap) : Prop := forall t, c = Some t -> valid_in t h.

Lemma valid_grows t h g : grows h g -> valid_in t h -> valid_in t g.
Proof. intros Hg [o E]. destruct (Hg _ _ E) as (o' & E' & _). by exists o'. Qed.

Lemma current_grows c h g : grows h g -> current_in c h -> current_in c g.
Proof. intros Hg Hc t Ht. by apply (valid_grows t h), Hc. Qed.

Lemma grows_insert h t o : (forall o', h !! t = Some o' -> cls o = cls o') -> grows h (<[t := o]> h).
Proof.
  intros Ho u uo E. destruct (decide (t = u)) as [->|Hn].
  - rewrite lookup_insert_eq. exists o. split; [done|by apply Ho].
  - rewrite lookup_insert_ne by done. by exists uo.
Qed.

(** ** Steps of the parser *)

Section steps.
Context `{Dcl, !DclLaws, Platform, !PlatformLaws, Services, Documents}.

(** Objects are added and changed; the contexts are those of before. *)
Definition follows (s s' : parsing) : Prop := grows (tree s) (tree s') /\ chain (state s) = chain (state s').

#[export] Instance follows_preorder : PreOrder follows.
Proof. split; [by intros s|]. intros s1 s2 s3 [Hg1 Hc1] [Hg2 Hc2]. split; [by etrans|congruence]. Qed.

(** From a tree that satisfies [P], a step gives a larger tree and a result that satisfy [Q], or throws;
    it has no fault of types. *)
Definition step {A} (P : heap -> Prop) (m : X parsing A) (Q : A -> heap -> Prop) : Prop := forall s,
  tree_ok (tree s) -> P (tree s) ->
  match m s with
  | Ok (Val a, s', _) => tree_ok (tree s') /\ follows s s' /\ Q a (tree s')
  | Ok (Exc _, _, _) => True
  | Crash f => no_type_error f
  | NoFuel => True
  end.

Lemma step_bind {A B} P (m : X parsing A) R (k : A -> X parsing B) Q :
  step P m R -> (forall a, step (R a) (k a) Q) -> step P (xbind m k) Q.
Proof.
  intros Hm Hk s Hs HP. specialize (Hm s Hs HP). unfold xbind. destruct (m s) as [[[[a|e] s1] o1]| |]; try done.
  destruct Hm as (Hs1 & Hg & HR). specialize (Hk a s1 Hs1 HR). unfold after.
  destruct (k a s1) as [[[[b|e] s2] o2]| |]; try done. destruct Hk as (Hs2 & Hg2 & HQ). split_and!; [done|by etrans|done].
Qed.

(** What growing trees keep is kept. *)
Lemma step_frame {A} (I : heap -> Prop) P (m : X parsing A) Q :
  (forall h g, grows h g -> I h -> I g) -> step P m Q -> step (fun h => P h /\ I h) m (fun a h => Q a h /\ I h).
Proof.
  intros HI Hm s Hs [HP Hi]. specialize (Hm s Hs HP). destruct (m s) as [[[[a|e] s1] o1]| |]; try done.
  destruct Hm as (? & [Hg ?] & ?). split_and!; try done. by eapply HI.
Qed.

Lemma step_weaken {A} (P P' : heap -> Prop) (m : X parsing A) (Q Q' : A -> heap -> Prop) :
  (forall h, P' h -> P h) -> (forall a h, Q a h -> Q' a h) -> step P m Q -> step P' m Q'.
Proof.
  intros HP HQ Hm s Hs Hp. specialize (Hm s Hs (HP _ Hp)). destruct (m s) as [[[[a|e] s1] o1]| |]; try done.
  destruct Hm as (? & ? & ?). split_and!; try done. by apply HQ.
Qed.

Lemma step_ret {A} (a : A) (P : heap -> Prop) (Q : A -> heap -> Prop) : (forall h, P h -> Q a h) -> step P (xret a) Q.
Proof. intros HQ s Hs HP. cbn. split_and!; [done|reflexivity|by apply HQ]. Qed.
Lemma step_throw {A} e P (Q : A -> heap -> Prop) : step P (throw e) Q.
Proof. by intros s. Qed.
Lemma step_crash {A} f P (Q : A -> heap -> Prop) : no_type_error f -> step P (xcrash f) Q.
Proof. by intros Hf s. Qed.

(** Reading an object. *)
Lemma step_deref {A} t P (k : tag -> X parsing A) Q :
  (forall h, P h -> valid_in t h) -> (forall o, step (fun h => P h /\ h !! t = Some o) (k o) Q) ->
  step P (xbind (on_tree (deref t)) k) Q.
Proof.
  intros Hv Hk s Hs HP. destruct (Hv _ HP) as [o Eo]. unfold xbind, on_tree, xzoom, deref. rewrite Eo.
  rewrite after_nil. cbn. destruct s as [h w]. by apply (Hk o (Parsing h w)).
Qed.

(** Writing an object. *)
Lemma step_put t (P : heap -> Prop) (Q : heap -> Prop) (f : tag -> tag) :
  (forall h, tree_ok h -> P h -> exists o, h !! t = Some o /\ cls (f o) = cls o /\
     tree_ok (<[t := f o]> h) /\ Q (<[t := f o]> h)) ->
  step P (on_tree (update t f)) (fun _ h => Q h).
Proof.
  intros Hf s Hs HP. destruct (Hf _ Hs HP) as (o & Eo & Hc & Ht & HQ).
  unfold on_tree, xzoom, update, deref, xbind, xmodify. rewrite Eo. cbn. split_and!; [done| |done].
  split; [|done]. apply grows_insert. intros o'. rewrite Eo. by intros [= <-].
Qed.

(** ** Trees *)

Lemma name_child_ok h c co : h !! c = Some co -> child_ok h c = name_ok co.
Proof. unfold child_ok. by intros ->. Qed.

(** An object changes, but not its class, and only without a parent its name. *)
Lemma tree_ok_update h t o o' :
  tree_ok h -> h !! t = Some o -> cls o' = cls o ->
  (name o' = name o \/ parent o = None) -> (parent o <> None -> parent o' <> None) ->
  (forall c, c ∈ childs o' -> exists co, (<[t := o']> h) !! c = Some co /\ name_ok co = true /\ parent co <> None) ->
  (forall k p, (k, p) ∈ params o' -> valid_in p h) -> (forall p, parent o' = Some p -> valid_in p h) ->
  (forall u, user_tag o' = Some u -> has_class h tag_tag u = true) ->
  tree_ok (<[t := o']> h).
Proof.
  intros [Hw Hp] Et Hc Hn Hpar Hch Hpm Hpt Hu.
  assert (forall u, valid_in u h -> valid_in u (<[t := o']> h)) as Hv.
  { intros u. apply valid_grows, grows_insert. intros o2. rewrite Et. by intros [= <-]. }
  assert (forall u, has_class h tag_tag u = true -> has_class (<[t := o']> h) tag_tag u = true) as Hcl.
  { unfold has_class. intros u. destruct (decide (t = u)) as [->|Hne].
    - by rewrite lookup_insert_eq, Et, Hc.
    - by rewrite lookup_insert_ne. }
  assert (forall c co, h !! c = Some co -> c = t -> parent co <> None -> name o' = name o) as Hnm.
  { intros c co Ec -> Hco. rewrite Et in Ec. injection Ec as <-. by destruct Hn. }
  split.
  - intros u uo. rewrite lookup_insert_Some. intros [[<- <-]|[Hne Eu]].
    + unfold tag_ok. rewrite !andb_true_iff, !forallb_forall. split_and!.
      * intros c Hin. apply list_elem_of_In in Hin. destruct (Hch c Hin) as (co & Ec & Hco & _).
        by rewrite (name_child_ok _ _ _ Ec).
      * intros [k p] Hin. apply list_elem_of_In in Hin. by apply in_heap_spec, Hv, (Hpm k).
      * destruct (parent o') as [p|] eqn:E; [|done]. by apply in_heap_spec, Hv, Hpt.
      * destruct (user_tag o') as [v|] eqn:E; [|done]. by apply Hcl, Hu.
    + destruct (tag_ok_parts h u uo Hw Eu) as (Hk1 & Hk2 & Hk3 & Hk4).
      unfold tag_ok. rewrite !andb_true_iff, !forallb_forall. split_and!.
      * intros c Hin. apply list_elem_of_In in Hin. pose proof (Hk1 c Hin) as Hok. unfold child_ok in *.
        destruct (decide (t = c)) as [<-|Hne2]; [|by rewrite lookup_insert_ne].
        rewrite Et in Hok. rewrite lookup_insert_eq, Hc, (Hnm t o Et eq_refl (Hp _ _ _ _ Eu Hin Et)). done.
      * intros [k p] Hin. apply list_elem_of_In in Hin. by apply in_heap_spec, Hv, in_heap_spec, (Hk2 k).
      * destruct (parent uo) as [p|] eqn:E; [|done]. by apply in_heap_spec, Hv, in_heap_spec, Hk3.
      * destruct (user_tag uo) as [v|] eqn:E; [|done]. by apply Hcl, Hk4.
  - intros u uo c co. rewrite lookup_insert_Some. intros [[<- <-]|[Hne Eu]] Hin Ec.
    + destruct (Hch c Hin) as (co' & Ec' & _ & Hpc). congruence.
    + destruct (decide (t = c)) as [<-|Hne2].
      * rewrite lookup_insert_eq in Ec. injection Ec as <-. apply Hpar. by apply (Hp _ _ _ _ Eu Hin Et).
      * rewrite lookup_insert_ne in Ec by done. by apply (Hp _ _ _ _ Eu Hin Ec).
Qed.

(** A new object is nobody's child. *)
Lemma tree_ok_fresh h o :
  tree_ok h -> childs o = [] -> params o = [] -> user_tag o = None -> (forall p, parent o = Some p -> valid_in p h) ->
  tree_ok (<[fresh (dom h) := o]> h).
Proof.
  intros [Hw Hp] Hc Hpm Hu Hpt. set (t := fresh (dom h)).
  assert (h !! t = None) as Et by (apply not_elem_of_dom, is_fresh).
  pose proof (fresh_types h o) as Hs. split.
  - apply well_typed_insert; [done..|]. unfold tag_ok. rewrite Hc, Hpm, Hu. cbn. rewrite andb_true_r.
    destruct (parent o) as [p|]; [|done]. apply (in_heap_mono h); [done|]. by apply in_heap_spec, Hpt.
  - intros u uo c co. rewrite lookup_insert_Some. intros [[<- <-]|[Hne Eu]] Hin.
    + rewrite Hc in Hin. by apply not_elem_of_nil in Hin.
    + rewrite lookup_insert_ne; [by apply (Hp _ _ _ _ Eu Hin)|]. intros <-.
      destruct (tag_ok_parts h u uo Hw Eu) as (Hk & _). specialize (Hk t Hin). unfold child_ok in Hk. by rewrite Et in Hk.
Qed.

Lemma new_object_step (P : heap -> Prop) o (Q : positive -> heap -> Prop) :
  childs o = [] -> params o = [] -> user_tag o = None -> parent o = None ->
  (forall h, P h -> Q (fresh (dom h)) (<[fresh (dom h) := o]> h)) -> step P (new_object o) Q.
Proof.
  intros Hc Hpm Hu Hpt HQ s Hs Hh. unfold new_object, alloc. cbn. split_and!; [| |by apply HQ].
  - apply tree_ok_fresh; try done. intros p. by rewrite Hpt.
  - split; [|done]. apply grows_insert. intros o' E. apply elem_of_dom_2 in E. by destruct (is_fresh (dom (tree s))).
Qed.

(** A method that works on the tree alone. *)
Lemma step_tree {A} (P : heap -> Prop) (m : X heap A) (Q : A -> heap -> Prop) :
  (forall h, tree_ok h -> P h -> exists a h', m h = Ok (Val a, h', "") /\ tree_ok h' /\ grows h h' /\ Q a h') ->
  step P (on_tree m) Q.
Proof.
  intros Hm s Hs HP. destruct (Hm _ Hs HP) as (a & h' & E & Ht & Hg & HQ). unfold on_tree, xzoom. by rewrite E.
Qed.

Lemma fresh_other (h : heap) o t uo : h !! t = Some uo -> fresh (dom h) <> t /\ <[fresh (dom h) := o]> h !! t = Some uo.
Proof.
  intros E. assert (fresh (dom h) <> t) as Hn.
  { intros <-. apply elem_of_dom_2 in E. by destruct (is_fresh (dom h)). }
  split; [done|]. by rewrite lookup_insert_ne.
Qed.

(** ** Attributes *)

Context (exec : exec_fn).
Context (exec_kept : forall h t c, well_typed h -> valid_in t h -> keeps (typed_frame h) (exec h t c)).

Lemma evaluate_step P p self :
  (forall h, P h -> valid_in p h) -> step P (evaluate exec p self) (fun _ h => P h).
Proof.
  intros Hv s [Hs Hp] HP. unfold evaluate, capture.
  assert (f_inv (typed_frame (tree s)) ((state s) <| chain := new_context "" [] |>)) as Hi
    by (constructor; [by constructor|done]).
  pose proof (exec_kept (tree s) p (Some self) Hs (Hv _ HP) _ Hi) as Hk.
  destruct (exec _ _ _ _) as [[[[a|e] w] o]| |]; try done.
Qed.

(** Updates of the tag that is being read. *)
Lemma open_update h t o o' :
  tree_ok h -> h !! t = Some o -> parent o = None -> childs o = [] -> cls o' = cls o ->
  parent o' = None -> childs o' = [] -> user_tag o' = user_tag o ->
  (forall k p, (k, p) ∈ params o' -> valid_in p h) -> tree_ok (<[t := o']> h).
Proof.
  intros Hh Et Hpo Hco Hc Hpo' Hco' Hu Hpm. apply (tree_ok_update h t o); [done..|by right|by intros []| |done| |].
  - rewrite Hco'. intros c Hin. by apply not_elem_of_nil in Hin.
  - by rewrite Hpo'.
  - rewrite Hu. destruct Hh as [Hw _]. by destruct (tag_ok_parts h t o Hw Et) as (_ & _ & _ & Hk).
Qed.

(** The object of an attribute or of a text, before anything refers to it. *)
Definition loose (p : positive) (h : heap) : Prop :=
  exists po, h !! p = Some po /\ childs po = [] /\ params po = [] /\ user_tag po = None /\ name po = "".

Lemma loose_update h p po po' :
  tree_ok h -> h !! p = Some po -> childs po' = [] -> params po' = [] -> user_tag po' = None ->
  name po' = name po -> cls po' = cls po -> (parent po <> None -> parent po' <> None) ->
  (forall t, parent po' = Some t -> valid_in t h) ->
  tree_ok (<[p := po']> h) /\ grows h (<[p := po']> h).
Proof.
  intros Hh Ep Hc Hpm Hu Hn Hcl Hpp Hv. split.
  - apply (tree_ok_update h p po); [done..|by left|done| | |done|by rewrite Hu].
    + rewrite Hc. intros c Hin. by apply not_elem_of_nil in Hin.
    + rewrite Hpm. intros k q Hin. by apply not_elem_of_nil in Hin.
  - apply grows_insert. intros o'. rewrite Ep. by intros [= <-].
Qed.

Lemma open_other t h p po : p <> t -> open_tag t h -> open_tag t (<[p := po]> h).
Proof. intros Hn (o & Et & Ho). exists o. by rewrite lookup_insert_ne. Qed.

Lemma set_parent_step p t :
  step (fun h => loose p h /\ open_tag t h /\ p <> t) (on_tree (set_parent p t))
    (fun _ h => loose p h /\ open_tag t h /\ p <> t).
Proof.
  apply step_tree. intros h Hh ((po & Ep & Hc & Hpm & Hu & Hn) & Ht & Hpt).
  destruct Ht as (o & Et & Ho). unfold set_parent, update, deref, xbind, xmodify. rewrite Et. cbn. rewrite Ep. cbn.
  eexists _, _. split; [done|].
  destruct (loose_update h p po (po <| parent := Some t |> <| depth := depth o + 1 |>)) as [Ht Hg]; try done.
  { intros u [= <-]. by exists o. }
  split_and!; [done|done| |by apply open_other; [|exists o]|done].
  exists (po <| parent := Some t |> <| depth := depth o + 1 |>). by rewrite lookup_insert_eq.
Qed.

Lemma set_text_step p (value : string) (P : heap -> Prop) :
  (forall h po', P h -> P (<[p := po']> h)) ->
  step (fun h => loose p h /\ P h) (on_tree (set_text p value)) (fun _ h => loose p h /\ P h).
Proof.
  intros HP. apply step_tree. intros h Hh ((po & Ep & Hc & Hpm & Hu & Hn) & Hp).
  unfold set_text, update, deref, xbind, xmodify. rewrite Ep. cbn. eexists _, _. split; [done|].
  destruct (loose_update h p po (po <| text := collapse false value |>)) as [Ht Hg]; try done.
  { intros t Et. destruct Hh as [Hw _]. destruct (tag_ok_parts h p po Hw Ep) as (_ & _ & Hk & _).
    by apply in_heap_spec, Hk. }
  split_and!; [done|done| |by apply HP]. exists (po <| text := collapse false value |>). by rewrite lookup_insert_eq.
Qed.

Lemma add_parameter_step t nm p :
  step (fun h => valid_in p h /\ open_tag t h) (add_parameter exec t nm p) (fun _ h => open_tag t h).
Proof.
  unfold add_parameter. apply step_bind with (fun _ h => open_tag t h /\ valid_in p h).
  - apply step_tree. intros h Hh [Hv (o & Et & Hpo & Hco & Hno)].
    unfold tag_impl_add_parameter, update, deref, xbind, xmodify. rewrite Et. cbn. eexists _, _. split; [done|].
    set (o' := o <| params := map_insert nm p (params o) |>).
    assert (tree_ok (<[t := o']> h)) as Ht.
    { apply (open_update h t o); try done. cbn. intros k q Hin. unfold map_insert in Hin.
      destruct (existsb _ _).
      - destruct Hh as [Hw _]. destruct (tag_ok_parts h t o Hw Et) as (_ & Hk & _). by apply in_heap_spec, (Hk k).
      - apply elem_of_app in Hin as [Hin|Hin]; [|apply list_elem_of_singleton in Hin; by injection Hin as -> ->].
        destruct Hh as [Hw _]. destruct (tag_ok_parts h t o Hw Et) as (_ & Hk & _). by apply in_heap_spec, (Hk k). }
    assert (grows h (<[t := o']> h)) as Hg by (apply grows_insert; intros o2; rewrite Et; by intros [= <-]).
    split_and!; [done|done| |by eapply valid_grows]. exists o'. by rewrite lookup_insert_eq.
  - intros _. apply step_deref; [by intros h [(o & Et & _) _]; exists o|]. intros o.
    destruct (bool_decide (cls o = tag_tag) && seqb nm "name") eqn:Hb.
    + apply andb_true_iff in Hb as [Hcls _]. apply bool_decide_eq_true in Hcls.
      apply step_bind with (fun _ h => (open_tag t h /\ valid_in p h) /\ h !! t = Some o).
      * apply evaluate_step. tauto.
      * intros s. apply step_tree. intros h Hh [[(o2 & Et2 & Hpo & Hco & Hno) _] Et].
        rewrite Et in Et2. injection Et2 as <-. unfold update, deref, xbind, xmodify. rewrite Et. cbn.
        eexists _, _. split; [done|]. set (o' := o <| name := "@" +:+ s |>).
        split_and!.
        -- apply (open_update h t o); try done. destruct Hh as [Hw _].
           destruct (tag_ok_parts h t o Hw Et) as (_ & Hk & _). intros k q Hin. by apply in_heap_spec, (Hk k).
        -- apply grows_insert. intros o2. rewrite Et. by intros [= <-].
        -- exists o'. rewrite lookup_insert_eq. split_and!; try done. unfold open_name, name_ok. cbn -[starts_with]. rewrite Hcls.
           by rewrite orb_true_r.
    + apply step_ret. tauto.
Qed.

Lemma add_attribute_step t nm value :
  step (open_tag t) (add_attribute exec t nm value) (fun _ h => open_tag t h).
Proof.
  unfold add_attribute. apply step_bind with (fun p h => loose p h /\ open_tag t h /\ p <> t).
  - apply new_object_step; [done..|]. intros h (o & Et & Ho).
    destruct (fresh_other h (new_tag tag_expression "") t o Et) as [Hn El]. split_and!; [| |done].
    + eexists. rewrite lookup_insert_eq. split; [done|]. by cbn.
    + by exists o.
  - intros p. apply step_bind with (fun _ h => loose p h /\ open_tag t h /\ p <> t); [apply set_parent_step|].
    intros _. apply step_bind with (fun _ h => loose p h /\ open_tag t h /\ p <> t).
    + apply (set_text_step p value (fun h => open_tag t h /\ p <> t)). intros h po' [Ho Hn]. split; [by apply open_other|done].
    + intros _. apply (step_weaken (fun h => valid_in p h /\ open_tag t h) _ _ (fun _ h => open_tag t h)); [|done|apply add_parameter_step].
      intros h ((po & Ep & _) & Ho & _). split; [by exists po|done].
Qed.

Lemma attributes_step t attrs :
  step (open_tag t) (process_attributes exec t attrs) (fun _ h => open_tag t h).
Proof.
  unfold process_attributes. induction attrs as [|a attrs IH]; cbn [for_each].
  - by apply step_ret.
  - apply step_bind with (fun _ h => open_tag t h); [|by intros _].
    destruct (a_prefix a); [|apply add_attribute_step]. destruct (starts_with _ _); [apply add_attribute_step|].
    by apply step_ret.
Qed.

(** ** Relations *)

Lemma tree_child_ok h t o c :
  tree_ok h -> h !! t = Some o -> c ∈ childs o ->
  exists co, h !! c = Some co /\ name_ok co = true /\ parent co <> None.
Proof.
  intros [Hw Hp] Et Hc. destruct (tag_ok_parts h t o Hw Et) as (Hk & _). specialize (Hk c Hc).
  unfold child_ok in Hk. destruct (h !! c) as [co|] eqn:Ec; [|done]. exists co. split; [done|split; [done|by apply (Hp t o c co)]].
Qed.

Lemma add_child_step p t :
  step (fun h => open_tag t h /\ valid_in p h) (on_tree (add_child p t)) (fun _ h => valid_in t h).
Proof.
  apply step_tree. intros h Hh ((o & Et & Hpo & Hco & Hno) & [po Ep]).
  set (o1 := o <| parent := Some p |> <| depth := depth po + 1 |>). set (h1 := <[t := o1]> h).
  assert (tree_ok h1 /\ grows h h1) as [Hh1 Hg1].
  { split; [|apply grows_insert; intros o2; rewrite Et; by intros [= <-]].
    apply (tree_ok_update h t o); [done..|by left|done| | | |].
    - cbn. rewrite Hco. intros c Hin. by apply not_elem_of_nil in Hin.
    - destruct Hh as [Hw _]. destruct (tag_ok_parts h t o Hw Et) as (_ & Hk & _). intros k q Hin. by apply in_heap_spec, (Hk k).
    - intros q [= <-]. by exists po.
    - destruct Hh as [Hw _]. by destruct (tag_ok_parts h t o Hw Et) as (_ & _ & _ & Hk). }
  destruct (Hg1 p po Ep) as (po1 & Ep1 & _). set (po2 := po1 <| childs := childs po1 ++ [t] |>).
  assert (h1 !! t = Some o1) as Et1 by (by unfold h1; rewrite lookup_insert_eq).
  assert (add_child p t h = Ok (Val tt, <[p := po2]> h1, "")) as E.
  { unfold add_child, set_parent, update, deref, xbind, xmodify. rewrite Ep. cbn. rewrite Et. cbn.
    unfold h1, o1 in Ep1. cbn in Ep1. by rewrite Ep1. }
  assert (grows h1 (<[p := po2]> h1)) as Hg2 by (apply grows_insert; intros o2; rewrite Ep1; by intros [= <-]).
  eexists _, _. split; [exact E|]. split_and!; [|by etrans|apply (valid_grows t h1); [done|by exists o1]].
  destruct (tag_ok_parts h1 p po1 (proj1 Hh1) Ep1) as (_ & Hk2 & Hk3 & Hk4).
  apply (tree_ok_update h1 p po1); [done..|by left|done| | | |exact Hk4].
  - intros c Hin. assert (exists co, h1 !! c = Some co /\ name_ok co = true /\ parent co <> None) as (co & Ec & Hn & Hpc).
    { cbn in Hin. apply elem_of_app in Hin as [Hin|Hin]; [by apply (tree_child_ok h1 p po1)|].
      apply list_elem_of_singleton in Hin as ->. exists o1. apply andb_true_iff in Hno as [Hno _]. by cbn. }
    destruct (decide (p = c)) as [<-|Hne]; [|exists co; by rewrite lookup_insert_ne].
    rewrite Ep1 in Ec. injection Ec as <-. exists po2. by rewrite lookup_insert_eq.
  - intros k q Hin. by apply in_heap_spec, (Hk2 k).
  - intros q Hq. by apply in_heap_spec, Hk3.
Qed.

Lemma climb_ok n nm p s :
  tree_ok (tree s) -> (forall t, p = Some t -> valid_in t (tree s)) ->
  match climb n nm p s with
  | Ok (Val t, s', _) => s' = s /\ valid_in t (tree s)
  | Ok (Exc _, _, _) => True
  | Crash f => no_type_error f
  | NoFuel => True
  end.
Proof.
  intros Hs. revert p. induction n as [|n IH]; intros [t|] Hp; cbn [climb]; try done.
  - split; [done|by apply Hp].
  - destruct (Hp t eq_refl) as [o Et]. rewrite (xbind_Val _ _ s o s ""); [|by unfold on_tree, xzoom, deref; rewrite Et; destruct s].
    rewrite after_nil. destruct (parent o) as [q|] eqn:Eq; [|done]. apply IH. intros u [= <-].
    destruct (tag_ok_parts (tree s) t o (proj1 Hs) Et) as (_ & _ & Hk & _). by apply in_heap_spec, Hk.
Qed.

Lemma climb_step (P : heap -> Prop) n nm p :
  (forall h, tree_ok h -> P h -> forall t, p = Some t -> valid_in t h) ->
  step P (climb n nm p) (fun t h => P h /\ valid_in t h).
Proof.
  intros Hp s Hs HP. pose proof (climb_ok n nm p s Hs (Hp _ Hs HP)) as Hc.
  destruct (climb n nm p s) as [[[[t|e] s'] o]| |]; try done. destruct Hc as [-> Hv]. done.
Qed.

Lemma relationship_step nm cur t :
  step (fun h => open_tag t h /\ current_in cur h) (make_relationship nm cur t) (fun _ h => valid_in t h).
Proof.
  unfold make_relationship. destruct cur as [cur|]; [|apply step_ret; by intros h [(o & Et & _) _]; exists o].
  apply step_deref; [by intros h [(o & Et & _) _]; exists o|]. intros r.
  apply step_deref; [by intros h [[_ Hc] _]; apply Hc|]. intros c.
  assert (forall p, step (fun h => (((open_tag t h /\ current_in (Some cur) h) /\ h !! t = Some r) /\ h !! cur = Some c) /\ valid_in p h)
    (on_tree (add_child p t)) (fun _ h => valid_in t h)) as Hadd.
  { intros p. apply (step_weaken (fun h => open_tag t h /\ valid_in p h) _ _ (fun _ h => valid_in t h)); [|done|apply add_child_step]. tauto. }
  assert (forall h, tree_ok h -> ((open_tag t h /\ current_in (Some cur) h) /\ h !! t = Some r) /\ h !! cur = Some c ->
    forall p, parent c = Some p -> valid_in p h) as Hpar.
  { intros h Hh [_ Ec] p Ep. destruct (tag_ok_parts h cur c (proj1 Hh) Ec) as (_ & _ & Hk & _). by apply in_heap_spec, Hk. }
  destruct (depth r =? depth c); [|destruct (depth r >? depth c)].
  - destruct (parent c) as [p|] eqn:Ep; [|apply step_throw]. intros s Hs HP. apply (Hadd p s Hs). split; [done|].
    by eapply Hpar.
  - intros s Hs HP. apply (Hadd cur s Hs). split; [done|]. destruct HP as [_ Ec]. by exists c.
  - eapply step_bind; [by apply climb_step, Hpar|]. intros p. apply Hadd.
Qed.

Lemma link_step t : step (valid_in t) (link_user_tag t) (fun _ h => valid_in t h).
Proof.
  intros s Hs [o Et]. unfold link_user_tag, link.
  pose proof (search_up_ok types (tree s) (proj1 Hs) (name o) (S (size (tree s))) (parent o)) as Hsu.
  destruct (tag_ok_parts (tree s) t o (proj1 Hs) Et) as (_ & Hk2 & Hk3 & _).
  specialize (Hsu (fun p Ep => proj1 (in_heap_spec _ _) (Hk3 p Ep))).
  rewrite (xbind_Val _ _ s (tree s) s ""); [|by destruct s]. rewrite after_nil. unfold on_tree, xzoom.
  unfold xbind at 1, deref at 1. rewrite Et, after_nil. unfold xbind at 1. cbn [xget]. rewrite after_nil.
  unfold xbind at 1, xlift. cbn [types f_fault outside] in Hsu.
  destruct (search_up (S (size (tree s))) (tree s) ("@" +:+ name o) (parent o)) as [c|f|]; [|exact Hsu|done].
  rewrite after_nil. unfold update, deref, xbind, xmodify. rewrite Et. cbn. set (o' := o <| user_tag := c |>).
  assert (grows (tree s) (<[t := o']> (tree s))) as Hg by (apply grows_insert; intros o2; rewrite Et; by intros [= <-]).
  split_and!; [|done|by apply (valid_grows t (tree s)); [|exists o]].
  apply (tree_ok_update (tree s) t o); [done..|by left|done| | | |].
  - intros u Hin. destruct (tree_child_ok (tree s) t o u Hs Et Hin) as (uo & Eu & Hn & Hp).
    destruct (decide (t = u)) as [<-|Hne]; [|exists uo; by rewrite lookup_insert_ne].
    rewrite Et in Eu. injection Eu as <-. exists o'. by rewrite lookup_insert_eq.
  - intros k q Hin. by apply in_heap_spec, (Hk2 k).
  - intros q Hq. by apply in_heap_spec, Hk3.
  - intros u Hu. cbn in Hu. subst c. exact Hsu.
Qed.
(** ** Elements *)

(** No element is called like a function, only dbPager's own [dbp:catch] is called [catch], and nothing
    is called [include]. *)
Definition plain_name (nm : string) : bool :=
  negb (starts_with "@" nm) && negb (seqb nm "catch") && negb (seqb nm "include").

Definition event_ok (e : event) : bool :=
  match e with
  | XML_READER_TYPE_ELEMENT _ namespace_uri object qname _ =>
      if seqb namespace_uri dbpager_uri then negb (starts_with "@" object) && negb (seqb object "include")
      else plain_name object && plain_name qname
  | _ => true
  end.

Definition new_node (o : tag) : Prop :=
  childs o = [] /\ params o = [] /\ user_tag o = None /\ parent o = None.

Lemma plain_open c nm : plain_name nm = true -> open_name (new_tag c nm) = true.
Proof.
  unfold plain_name, open_name, name_ok. intros Hn. apply andb_true_iff in Hn as [[Ha Hc]%andb_true_iff Hi].
  change (name (new_tag c nm)) with nm. by rewrite Ha, Hc, Hi.
Qed.

Lemma created_open object o :
  negb (starts_with "@" object) = true -> negb (seqb object "include") = true ->
  create object = Val o -> new_node o /\ open_name o = true.
Proof.
  intros Ha Hi E. assert (o = new_tag (cls o) object /\ (object = "catch" -> cls o = tag_catch)) as [-> Hc].
  { unfold create in E. destruct (map_find object factories) as [c|] eqn:Ef; [|done]. injection E as <-.
    split; [done|]. intros ->. vm_compute in Ef. by injection Ef as <-. }
  split; [done|]. unfold open_name, name_ok. change (name (new_tag (cls o) object)) with object. rewrite Ha, Hi, !andb_true_r.
  destruct (seqb object "catch") eqn:Es; [|done]. apply seqb_spec in Es. by rewrite (Hc Es).
Qed.

Lemma element_tag_step P nsuri object qname d attrs :
  event_ok (XML_READER_TYPE_ELEMENT d nsuri object qname attrs) = true ->
  step P (element_tag nsuri object qname)
    (fun oo h => P h /\ forall o, oo = Some o -> new_node o /\ open_name o = true).
Proof.
  intros He. cbn [event_ok] in He.
  assert (forall c nm (h : heap), plain_name nm = true -> P h ->
    P h /\ forall o, Some (new_tag c nm) = Some o -> new_node o /\ open_name o = true) as Hnew.
  { intros c nm h Hp HP. split; [done|]. intros o [= <-]. split; [done|by apply plain_open]. }
  unfold element_tag, factory_create. destruct (seqb nsuri dbpager_uri) eqn:Es.
  - apply seqb_spec in Es as ->. apply andb_true_iff in He as [Ha Hi].
    change (starts_with dbpager_custom_uri dbpager_uri) with false.
    change (starts_with dbpager_uri dbpager_uri) with true. cbv iota.
    destruct (create object) as [o|e] eqn:Eo; [|apply step_throw].
    apply step_ret. intros h HP. split; [done|]. intros o' [= <-]. by apply (created_open object).
  - apply andb_true_iff in He as [Ho Hq]. destruct (starts_with dbpager_custom_uri nsuri); [apply step_ret; intros h; by apply Hnew|].
    destruct (starts_with dbpager_uri nsuri); [by apply step_crash|].
    destruct (seqb nsuri its_uri); apply step_ret; intros h; [by split|by apply Hnew].
Qed.

(** ** Nodes *)

(** A node is read: what it gives, if anything, is a tag. *)
Definition node_step (cur : option positive) (m : X parsing (option positive)) : Prop :=
  step (current_in cur) m (fun r h => current_in cur h /\ current_in r h).

Lemma process_element_step parse_url url cur d nsuri object qname attrs :
  event_ok (XML_READER_TYPE_ELEMENT d nsuri object qname attrs) = true ->
  node_step cur (process_element exec parse_url url cur d nsuri object qname attrs).
Proof.
  intros He. unfold node_step, process_element. eapply step_bind; [by apply (element_tag_step _ _ _ _ d attrs)|].
  intros [o|]; [|by apply step_ret; intros h [Hc _]].
  apply step_bind with (fun t h => open_tag t h /\ current_in cur h).
  { intros s Hs [Hc Ho]. destruct (Ho o eq_refl) as [(Hk1 & Hk2 & Hk3 & Hk4) Hn].
    revert s Hs Hc. apply (new_object_step (current_in cur) (o <| depth := d |>)
      (fun t h => open_tag t h /\ current_in cur h)); [exact Hk1|exact Hk2|exact Hk3|exact Hk4|].
    intros h Hc. split.
    - exists (o <| depth := d |>). by rewrite lookup_insert_eq.
    - intros t Et. destruct (Hc t Et) as [to Eto]. exists to. by apply fresh_other. }
  intros t. apply step_bind with (fun _ h => open_tag t h /\ current_in cur h).
  { apply step_frame; [apply current_grows|apply attributes_step]. }
  intros _. apply step_deref; [by intros h [(to & Et & _) _]; exists to|]. intros to.
  destruct (seqb (name to) "include") eqn:Ei.
  { intros s Hs [[(to' & Et' & _ & _ & Hn) _] Et]. rewrite Et in Et'. injection Et' as <-.
    unfold open_name in Hn. rewrite Ei, andb_false_r in Hn. done. }
  apply step_bind with (fun _ h => valid_in t h /\ current_in cur h).
  { apply (step_weaken (fun h => (open_tag t h /\ current_in cur h) /\ current_in cur h) _ _
      (fun _ h => valid_in t h /\ current_in cur h)); [tauto|done|].
    apply step_frame; [apply current_grows|apply relationship_step]. }
  intros _. apply step_bind with (fun _ h => valid_in t h /\ current_in cur h).
  { destruct (bool_decide (cls to = tag_usr)); [|by apply step_ret].
    apply step_frame; [apply current_grows|apply link_step]. }
  intros _. apply step_ret. intros h [Ht Hc]. split; [done|]. by intros u [= <-].
Qed.

(** The text and the depth of an object that is being read. *)
Lemma open_put t (f : tag -> tag) :
  (forall o, cls (f o) = cls o /\ name (f o) = name o /\ parent (f o) = parent o /\ childs (f o) = childs o /\
     params (f o) = params o /\ user_tag (f o) = user_tag o) ->
  step (open_tag t) (on_tree (update t f)) (fun _ h => open_tag t h).
Proof.
  intros Hf. apply step_put. intros h Hh (o & Et & Hpo & Hco & Hno).
  destruct (Hf o) as (Hk1 & Hk2 & Hk3 & Hk4 & Hk5 & Hk6). exists o. split_and!; [done|done| |].
  - apply (open_update h t o); try done; [by rewrite Hk3|by rewrite Hk4|]. rewrite Hk5.
    destruct Hh as [Hw _]. destruct (tag_ok_parts h t o Hw Et) as (_ & Hk & _). intros k q Hin. by apply in_heap_spec, (Hk k).
  - exists (f o). rewrite lookup_insert_eq, Hk3, Hk4. unfold open_name, name_ok in *. by rewrite Hk1, Hk2.
Qed.

Lemma process_text_step c nm cur d value : node_step cur (process_text c nm cur d value).
Proof.
  unfold node_step, process_text. apply step_bind with (fun t h => open_tag t h /\ current_in cur h).
  { apply new_object_step; [done..|]. intros h Hc. split.
    - eexists. rewrite lookup_insert_eq. split; [done|]. by cbn.
    - intros t Et. destruct (Hc t Et) as [to Eto]. exists to. by apply fresh_other. }
  intros t. apply step_bind with (fun _ h => open_tag t h /\ current_in cur h).
  { apply step_frame; [apply current_grows|by apply open_put]. }
  intros _. apply step_bind with (fun _ h => open_tag t h /\ current_in cur h).
  { apply step_frame; [apply current_grows|by apply open_put]. }
  intros _. apply step_bind with (fun _ h => valid_in t h /\ current_in cur h).
  { apply (step_weaken (fun h => (open_tag t h /\ current_in cur h) /\ current_in cur h) _ _
      (fun _ h => valid_in t h /\ current_in cur h)); [tauto|done|].
    apply step_frame; [apply current_grows|apply relationship_step]. }
  intros _. apply step_ret. by intros h [_ Hc].
Qed.

Lemma process_node_step parse_url url e cur :
  event_ok e = true -> node_step cur (process_node exec parse_url url e cur).
Proof.
  destruct e; intros He; cbn [process_node]; [by apply process_element_step| |apply process_text_step..|by apply step_ret].
  destruct cur as [t|]; [|by apply step_crash]. apply step_deref; [by intros h Hc; apply Hc|]. intros o.
  destruct (seqb (name o) "module"); [by apply step_ret; intros h [Hc _]|].
  intros s Hs [Hc Et]. cbn. split_and!; [done|reflexivity|done|]. intros p Ep.
  destruct (tag_ok_parts (tree s) t o (proj1 Hs) Et) as (_ & _ & Hk & _). by apply in_heap_spec, Hk.
Qed.

Lemma read_nodes_step parse_url url l : forallb event_ok l = true -> forall root cur,
  step (fun h => current_in root h /\ current_in cur h) (read_nodes exec parse_url url l root cur)
    (fun r h => current_in r h).
Proof.
  induction l as [|e l IH]; intros Hl root cur; cbn [read_nodes]; [by apply step_ret; intros h []|].
  cbn in Hl. apply andb_true_iff in Hl as [He Hl].
  apply step_bind with (fun r h => (current_in cur h /\ current_in r h) /\ current_in root h).
  { apply (step_weaken (fun h => current_in cur h /\ current_in root h) _ _
      (fun r h => (current_in cur h /\ current_in r h) /\ current_in root h)); [tauto|done|].
    apply (step_frame (fun h => current_in root h)); [apply current_grows|by apply process_node_step]. }
  intros [t|].
  - destruct root as [r|]; (eapply step_weaken; [|intros ? ?; exact id|by apply IH]); tauto.
  - eapply step_weaken; [|intros ? ?; exact id|by apply IH]; tauto.
Qed.
(** ** Documents *)

Definition documents_ok : Prop := forall url events finished,
  read_document url = Some (events, finished) -> forallb event_ok events = true.

Lemma parse_step n url : documents_ok -> step (fun _ => True) (parse exec n url) (fun r h => current_in r h).
Proof.
  intros Hd. destruct n as [|n]; cbn [parse]; [done|].
  destruct (read_document url) as [[events finished]|] eqn:E; [|apply step_throw].
  apply step_bind with (fun r h => current_in r h).
  - apply (step_weaken (fun h => current_in None h /\ current_in None h) _ _ (fun r h => current_in r h)); [by intros|done|].
    apply read_nodes_step. by eapply Hd.
  - intros r. destruct finished; [by apply step_ret|apply step_throw].
Qed.

Lemma application_step n url :
  documents_ok -> step (fun _ => True) (dbpager_application exec n url) (fun t h => valid_in t h).
Proof.
  intros Hd. unfold dbpager_application. eapply step_bind; [by apply parse_step|]. intros [t|].
  - apply step_ret. intros h Hc. by apply Hc.
  - apply step_throw.
Qed.
End steps.

Lemma tree_ok_empty : tree_ok ∅.
Proof. split; intros t o; by rewrite lookup_empty. Qed.

Section documents.
Context `{Dcl, !DclLaws, Platform, !PlatformLaws, Services, Documents}.

(** An application is made from a document and executed, as [interpreter::get_app] and its caller do. *)
Definition run_application (m n : nat) (url : string) : X parsing unit :=
  t <- dbpager_application (execute m) n url ;;
  s <- xget ;;
  xzoom state (fun w s => Parsing (tree s) w) (dbpager_application_execute m (tree s) t).

Lemma execute_exec_kept m h t c : well_typed h -> valid_in t h -> keeps (typed_frame h) (execute m h t c).
Proof. intros Hh Ht. by apply (execute_kept types types_operations m h t c). Qed.

(** C11: the parser builds well-typed programs: for documents as [documents_ok] asks, in which elements have
    XML names, no element but dbPager's own is called catch and nothing is included, the application that
    is made from a document is a tag of a well-typed tree, or the parser throws; and while it parses (and
    executes the parameters that it needs) it neither casts a tag to a class that is not its own nor
    follows a pointer to a tag that does not exist, however the elements are nested. *)
Theorem parse_well_typed m n url w :
  documents_ok ->
  match dbpager_application (execute m) n url (Parsing ∅ w) with
  | Ok (Val t, s, _) => well_typed (tree s) /\ is_Some (tree s !! t)
  | Ok (Exc _, _, _) => True
  | Crash f => f <> Dangling /\ f <> BadCast
  | NoFuel => True
  end.
Proof.
  intros Hd. pose proof (application_step (execute m) (execute_exec_kept m) n url Hd (Parsing ∅ w) tree_ok_empty I) as Hs.
  destruct (dbpager_application _ _ _ _) as [[[[t|e] s] o]| |]; try done. by destruct Hs as ([Hw _] & _ & Hv).
Qed.

(** C9: from the text to the page: parsing a document as [documents_ok] asks (XML names, no element but
    dbPager's own called catch, no dbp:include) and executing it, in an environment whose contexts call
    no tag, never casts a tag to a class that is not its own ([BadCast]) and never follows a pointer to a
    tag that does not exist ([Dangling]).  Other faults remain possible, as in [execute_type_safe]:
    pointers to lists and maps made of text, missing services, invalid iterators. *)
Theorem document_type_safe m n url w :
  documents_ok -> Forall (fun c => DbContext.exec c = []) (chain w) ->
  match run_application m n url (Parsing ∅ w) with
  | Ok _ => True
  | Crash f => f <> Dangling /\ f <> BadCast
  | NoFuel => True
  end.
Proof.
  intros Hd Hw.
  pose proof (application_step (execute m) (execute_exec_kept m) n url Hd (Parsing ∅ w) tree_ok_empty I) as Hs.
  unfold run_application, xbind. destruct (dbpager_application _ _ _ _) as [[[[t|e] [h w1]] o]| |]; [|done|exact Hs|done].
  destruct Hs as ([Hh _] & [_ Hc] & Hv). cbn in Hh, Hc, Hv. unfold after. cbn [xget tree state]. unfold xzoom, dbpager_application_execute. cbn [state].
  assert (typed_stacks h (chain (w1 <| chain := program_context (chain w1) |>))) as Hst.
  { constructor; [by constructor|]. rewrite <- Hc. apply (Forall_impl _ _ _ Hw). intros c Ec. unfold typed_context. by rewrite Ec. }
  pose proof (execute_exec_kept m h t None Hh Hv _ Hst) as He. by destruct (execute m h t None _) as [[[? ?] ?]|f|].
Qed.
End documents.
