(* ===== verification/DbHttp.v ===== *)
(** * Requests, responses and sessions: what the server takes from outside of the interpreter

    - [Http]: DCL's classes [http_request] and [http_response] with the methods that the code calls, and
      the other DCL functions of the servers; [HttpLaws]: a field that was set is what is got, and
      setting one leaves the others alone.
    - [Mime]: what [parse_data] reads of a parsed MIME entity.
    - [Sessions]: the interface [session_factory] and [session_holder] of [dbpager/session.h]; its
      implementation that needs no plugin is in DbSession.v.
    - [parse_variables]: names with lists of values, as two methods of the environment collect them. *)

From Stdlib Require Import OrderedTypeEx Sorted.
From S2P Require Import Prelude DbLang DbContext DbTag DbServices.

(** ** DCL *)

Inductive http_field :=
  | AUTH_TYPE | CONTENT_TYPE | GATEWAY_INTERFACE | PATH_INFO | PATH_TRANSLATED | QUERY_STRING | REMOTE_ADDR
  | REMOTE_HOST | REMOTE_IDENT | REMOTE_USER | REQUEST_METHOD | SCRIPT_NAME | SERVER_NAME | SERVER_PROTOCOL
  | SERVER_SOFTWARE.

#[export] Instance http_field_eq_dec : EqDecision http_field.
Proof. solve_decision. Defined.

Inductive http_method := HTTP_GET | HTTP_HEAD | HTTP_POST | HTTP_PUT | HTTP_DEL | HTTP_OTHER.

#[export] Instance http_method_eq_dec : EqDecision http_method.
Proof. solve_decision. Defined.

(** What the code assigns of a cookie; [expires] is in the past. *)
Record http_cookie := Cookie {
  c_name : string;
  c_value : string;
  c_path : string;
  http_only : bool;
  same_site : string;
  secure : bool;
  partitioned : bool;
  expires : bool
}.

(** An entity of a multipart body: the type and the parameters of its disposition, the text of its
    content type, its body and its parts. *)
Inductive mime_entity := Mime (disposition : string) (dparams : string -> string) (ctype body : string)
  (parts : list mime_entity).

Class Http := {
  http_request : Type;
  new_request : http_request;
  set_field : http_field -> string -> http_request -> http_request;
  get_field : http_field -> http_request -> string;
  set_server_port : Z -> http_request -> http_request;
  get_server_port : http_request -> Z;
  set_https : bool -> http_request -> http_request;
  get_https : http_request -> bool;
  set_header : string -> string -> http_request -> http_request;
  all_headers : http_request -> list (string * string);
  set_content : string -> http_request -> http_request;
  get_content : http_request -> option string;
  get_method : http_request -> http_method;
  get_cookies : http_request -> list (string * string);
  http_response : Type;
  new_response : http_response;
  resp_header : string -> string -> http_response -> http_response;
  set_status : Z -> http_response -> http_response;
  get_status : http_response -> string;
  resp_content : string -> http_response -> http_response;
  set_content_type : string -> http_response -> http_response;
  get_content_type : http_response -> string;
  set_cookies : list http_cookie -> http_response -> http_response;
  set_cookie : http_cookie -> http_response -> http_response;
  response_text : http_response -> string;
  url_of : string -> string;
  split_pair : string -> string -> string * string;
  xml_root : string -> option string;
  mime_parse : string -> mime_entity
}.

(** The content of a request begins its life as absent and is what was set. *)
Class HttpLaws `{Http} := {
  get_set_field f v r : get_field f (set_field f v r) = v;
  get_set_other f g v r : f <> g -> get_field f (set_field g v r) = get_field f r;
  get_field_header f k v r : get_field f (set_header k v r) = get_field f r;
  get_field_port f z r : get_field f (set_server_port z r) = get_field f r;
  get_field_https f b r : get_field f (set_https b r) = get_field f r;
  get_field_content f s r : get_field f (set_content s r) = get_field f r;
  content_new : get_content new_request = None;
  content_set s r : get_content (set_content s r) = Some s;
  content_field f v r : get_content (set_field f v r) = get_content r;
  content_header k v r : get_content (set_header k v r) = get_content r;
  content_port z r : get_content (set_server_port z r) = get_content r;
  content_https b r : get_content (set_https b r) = get_content r
}.

(** A buffer of characters read as a C string. *)
Fixpoint c_str (s : string) : string :=
  match s with
  | "" => ""
  | String c s' => if is_char c (chr 0) then "" else String c (c_str s')
  end.

(** [dbp::exception] and the classes that derive from it. *)
Definition is_dbp_exception (e : exn) : bool := match e with std_exception _ => false | _ => true end.

(** ** Sessions *)

(** The state of the methods of a session: the holder, the response, the program. *)
Class Sessions `{Services, Http} := {
  session_holder : Type;
  session_id : session_holder -> string;
  create_session : http_request -> X world session_holder;
  session_load : X (session_holder * world) unit;
  session_save : X (session_holder * http_response * world) unit
}.

(** ** Names with several values *)

(** [params[param].push_back(value)], on the elements of a [std::map] in its order. *)
Fixpoint params_push (k v : string) (l : list (string * list string)) : list (string * list string) :=
  match l with
  | [] => [(k, [v])]
  | (k', vs) :: l' =>
      if seqb k k' then (k', vs ++ [v]) :: l'
      else if slt k k' then (k, [v]) :: l
      else (k', vs) :: params_push k v l'
  end.

(** The values separated by commas, of which none is written in front of the first that is not empty. *)
Definition concatenated (values : list string) : string :=
  foldl (fun acc v => (if is_empty acc then acc else acc +:+ ",") +:+ v) "" values.

(** The value of a name: its only one, or all of them. *)
Definition value_of (values : list string) : string :=
  match values with [v] => v | _ => concatenated values end.

Section variables.
Context `{Dcl, Services, Http}.

(** [param=value] decoded. *)
Definition decode_pair (p : string) : string * string :=
  let '(param, value) := split_pair p "=" in (url_decode param, url_decode value).

Definition collect (ps : list (string * string)) : list (string * list string) :=
  foldl (fun l kv => params_push (fst kv) (snd kv) l) [] ps.

(** The loops that [parse_urlencoded] and [init_custom_params] share. *)
Definition parse_variables (text : string) : X world unit :=
  for_each (fun p => ctx (add_value (fst p) (value_of (snd p)) ""))
    (collect (decode_pair <$> tokenize_by text "&")).
End variables.

(** ** What is collected *)

(** The values of a name, in the order of their occurrence. *)
Definition values_of (n : string) (ps : list (string * string)) : list string :=
  snd <$> filter (fun kv => kv.1 = n) ps.

Definition key_lt {A} (x y : string * A) : Prop := slt x.1 y.1 = true.

Lemma slt_spec s t : slt s t = true <-> String_as_OT.lt s t.
Proof. rewrite <- String_as_OT.cmp_lt. unfold slt, String.ltb, String_as_OT.cmp. by destruct (String.compare s t). Qed.

Lemma slt_trans s t u : slt s t = true -> slt t u = true -> slt s u = true.
Proof. rewrite !slt_spec. apply String_as_OT.lt_trans. Qed.

Lemma slt_ne s t : slt s t = true -> seqb s t = false.
Proof.
  rewrite slt_spec. intros H%String_as_OT.lt_not_eq. apply bool_decide_false. intros ->. by apply H.
Qed.

Lemma slt_total s t : seqb s t = false -> slt s t = false -> slt t s = true.
Proof.
  unfold seqb, slt, String.ltb. intros Hn%bool_decide_eq_false. rewrite String.compare_antisym.
  destruct (String.compare t s) eqn:E; [|done..]. by apply String.compare_eq_iff in E.
Qed.

Lemma find_above {A} k (l : list (string * A)) x : Forall (key_lt x) l -> seqb k x.1 || slt k x.1 = true -> map_find k l = None.
Proof.
  intros Hl Hk. induction Hl as [|y l Hy Hl IH]; [done|]. destruct y as [k' v]. cbn. unfold key_lt in Hy. cbn in Hy.
  assert (slt k k' = true) as Hs.
  { apply orb_true_iff in Hk as [Hk|Hk]; [apply seqb_spec in Hk as ->; done|by eapply slt_trans]. }
  assert (seqb k' k = false) as ->; [|done]. apply bool_decide_false. intros ->. apply slt_ne in Hs. unfold seqb in Hs.
  by rewrite bool_decide_true in Hs.
Qed.

(** Pushing keeps the order of the map and adds to the values of one name. *)
Lemma params_push_spec n v l : StronglySorted key_lt l ->
  StronglySorted key_lt (params_push n v l) /\
  (forall x : string * list string, key_lt x (n, []) -> Forall (key_lt x) l -> Forall (key_lt x) (params_push n v l)) /\
  forall k, map_find k (params_push n v l) = if seqb n k then Some (default [] (map_find n l) ++ [v]) else map_find k l.
Proof.
  induction 1 as [|[k' vs] l Hs IH Hl]; cbn [params_push].
  { split_and!; [by repeat constructor|by repeat constructor|]. intros k. cbn. by destruct (seqb n k). }
  destruct IH as (IHs & IHf & IHk). destruct (seqb n k') eqn:E.
  { apply seqb_spec in E as ->. split_and!.
    - by constructor.
    - intros x Hx Hf. inversion Hf; subst. by constructor.
    - intros k. cbn. rewrite seqb_refl. by destruct (seqb k' k). }
  destruct (slt n k') eqn:El.
  { split_and!.
    - constructor; [by constructor|]. constructor; [done|]. eapply Forall_impl; [exact Hl|]. intros y. by apply slt_trans.
    - intros x Hx Hf. by constructor.
    - intros k. cbn. assert (map_find n ((k', vs) :: l) = None) as Hn; [|by cbn in Hn; rewrite Hn].
      cbn. rewrite (find_above n l (k', vs)) by (done || by cbn; rewrite El, orb_true_r).
      assert (seqb k' n = false) as ->; [|done]. apply bool_decide_false. intros ->. by rewrite seqb_refl in E. }
  assert (slt k' n = true) as Hkn by (by apply slt_total).
  split_and!.
  - constructor; [done|]. by apply IHf.
  - intros x Hx Hf. inversion Hf; subst. constructor; [done|]. by apply IHf.
  - intros k. cbn. rewrite IHk. apply slt_ne in Hkn. rewrite Hkn. destruct (seqb k' k) eqn:E1, (seqb n k) eqn:E2; [|done..].
    apply seqb_spec in E1 as ->. apply seqb_spec in E2 as ->. by rewrite seqb_refl in E.
Qed.

Lemma values_of_app n ps qs : values_of n (ps ++ qs) = values_of n ps ++ values_of n qs.
Proof. unfold values_of. by rewrite filter_app, fmap_app. Qed.

Lemma values_of_one n k v : values_of n [(k, v)] = if seqb k n then [v] else [].
Proof. unfold values_of, seqb. rewrite filter_cons. cbn. by repeat case_decide; repeat case_bool_decide. Qed.

Lemma collect_spec ps : StronglySorted key_lt (collect ps) /\
  forall n, map_find n (collect ps) = match values_of n ps with [] => None | vs => Some vs end.
Proof.
  unfold collect. induction ps as [|[k v] ps [IHs IHn]] using rev_ind; [by split; [constructor|]|].
  rewrite foldl_app. cbn. destruct (params_push_spec k v _ IHs) as (Hs & _ & Hk). split; [done|]. intros n.
  rewrite Hk, values_of_app, values_of_one. destruct (seqb k n) eqn:E.
  - apply seqb_spec in E as ->. rewrite IHn. by destruct (values_of n ps) as [|x xs].
  - rewrite app_nil_r. apply IHn.
Qed.
