(* ===== verification/DbSession.v ===== *)
(** * The built-in session: [dbpager/services/session_int.h]

    [session_int] makes a holder for each request; the variables of the user's context are written to
    and read from a buffer.  The buffer belongs to the holder ([session_forgets]): what [save] puts there
    is gone with the request. *)

From S2P Require Import Prelude DbLang DbContext DbTag DbServices DbHttp.

Section session.
Context `{Dcl, Platform, Services, Http}.

(** [session_holder_int]. *)
Record holder_int := HolderInt {
  hi_id : string;
  is_new : bool;
  is_https : bool;
  buffer : gmap string string
}.

Definition holder_get_value (key : string) (h : holder_int) : string := default "" (buffer h !! key).
Definition holder_put_value (key value : string) (h : holder_int) : holder_int :=
  HolderInt (hi_id h) (is_new h) (is_https h) (<[key := value]> (buffer h)).

(** The two constructors. *)
Definition holder_new (https : bool) : X world holder_int :=
  id <- on_os sys_uuid ;; xret (HolderInt id true https ∅).
Definition holder_of (session_id : string) (https : bool) : X world holder_int :=
  if is_empty session_id then holder_new https else xret (HolderInt session_id false https ∅).

(** [session_int::create_session]. *)
Definition session_int_create (req : http_request) : X world holder_int :=
  match map_find "session" (get_cookies req) with
  | Some value => holder_of value (get_https req)
  | None => holder_new (get_https req)
  end.

Definition session_int_load : X (holder_int * world) unit :=
  s <- xget ;;
  for_each (fun i =>
    let '(k, v) := split_pair i "=" in
    if is_empty k then xret tt else xzoom snd (fun w s => (s.1, w)) (ctx (add_value k v "")))
    (tokenize_by (holder_get_value (hi_id s.1) s.1) ";").

(** The variables as [k=v], separated by semicolons. *)
Fixpoint joined (c : list (string * string)) : string :=
  match c with
  | [] => ""
  | [(k, v)] => k +:+ "=" +:+ v
  | (k, v) :: c' => k +:+ "=" +:+ v +:+ ";" +:+ joined c'
  end.

Definition session_cookie (value : string) (https expired : bool) : http_cookie :=
  Cookie "session" value "/" true (if https then "none" else "") https https expired.

Definition session_int_save : X (holder_int * http_response * world) unit :=
  s <- xget ;;
  let '(h, resp, w) := s in
  match chain w with
  | [] => xcrash NullDeref
  | c :: _ =>
      let h' := if empty c then h else holder_put_value (hi_id h) (joined (map_order (map_to_list (get_values c)))) h in
      let resp1 := if is_new h && negb (empty c) then set_cookies [session_cookie (hi_id h) (is_https h) false] resp else resp in
      let resp2 := if is_empty (hi_id h) then set_cookie (session_cookie "" (is_https h) true) resp1 else resp1 in
      xmodify (fun _ => (h', resp2, w))
  end.

Definition session_int : Sessions := {|
  session_holder := holder_int;
  session_id := hi_id;
  create_session := session_int_create;
  session_load := session_int_load;
  session_save := session_int_save
|}.

(** A holder that was created has nothing to load, whatever was saved before. *)
Theorem session_forgets req w h w' s :
  tokenize_by "" ";" = [] ->
  session_int_create req w = Ok (Val h, w', s) ->
  session_int_load (h, w') = Ok (Val tt, (h, w'), "").
Proof.
  intros Ht E. assert (buffer h = ∅) as Hb.
  { unfold session_int_create, holder_of, holder_new, on_os, xbind in E.
    destruct (map_find _ _) as [v|]; [destruct (is_empty v)|]; cbn in E.
    - destruct (sys_uuid (os w)) as [id o]. by injection E as <- _ _.
    - by injection E as <- _ _.
    - destruct (sys_uuid (os w)) as [id o]. by injection E as <- _ _. }
  unfold session_int_load, holder_get_value. unfold xbind, xget. cbn. rewrite Hb, lookup_empty. cbn. by rewrite Ht.
Qed.
End session.
