(* ===== verification/DbEnvironment.v ===== *)
(** * The environment of a request: [dbpager/interpreter/environment.cpp]

    An environment is a chain of four contexts (the session's local one, user, global, system) and, for
    HTTP, the session of the request.  A page finds its request in variables of the session's context.
    - [new_environment], [http_environment]: the constructors; [init_response].
    - [get_path]: the document of a request, and the parts of its path as variables [argN].
    - [init_custom_params]: headers, the query string, the body by its content type ([parse_urlencoded],
      [parse_data], [parse_json], [parse_plain]) and the variables of CGI; [fastcgi_init_custom_params] is
      the method of the FastCGI server, which adds the other variables of its environment.
    - [query_variables]: the variables that a query string or a form gives to a page. *)

From Stdlib Require Import Sorted.
From S2P Require Import Prelude DbLang DbStrings DbContext DbTag DbServices DbHttp DbControl.

Section environment.
Context `{Dcl, Platform, Services, Http, !Sessions}.

(** The session of an [http_environment], possibly null, the response and the program. *)
Record environment := Environment {
  _session_holder : option session_holder;
  response : http_response;
  program : world
}.

Definition on_program {A} (m : X world A) : X environment A :=
  xzoom program (fun w e => Environment (_session_holder e) (response e) w) m.
Definition on_response (f : http_response -> http_response) : X environment unit :=
  xmodify (fun e => Environment (_session_holder e) (f (response e)) (program e)).

(** [session->add_value]. *)
Definition session_add (name value : string) : X world unit := ctx (add_value name value "").
Definition session_get (name : string) : X world string := ctx_get name.

(** The contexts from the user's on, as [*user] is passed to a session. *)
Definition user_part (w : world) : world := w <| chain := tl (chain w) |>.
Definition put_user_part (w' w : world) : world :=
  w' <| chain := match chain w with s :: _ => s :: chain w' | [] => chain w' end |>.

(** ** Construction *)

Definition environment_contexts : list context :=
  local_context (user_context (global_context (system_context []))).

Definition new_environment : X world unit :=
  xmodify (fun w => w <| chain := environment_contexts |>) ;;;
  session_add "CONTENT_TYPE" "text/plain".

(** [catch (dbp::exception &e)]. *)
Definition session_error (e : exn) : X environment unit :=
  if is_dbp_exception e then on_program (session_add "SESSION_ERROR" (what e)) else throw e.

(** A method of the session, which there is. *)
Definition on_session {A} (m : X (session_holder * world) A) : X environment A :=
  e <- xget ;;
  match _session_holder e with
  | None => xcrash NullDeref
  | Some h =>
      xzoom (fun e => (h, user_part (program e)))
        (fun hw e => Environment (Some hw.1) (response e) (put_user_part hw.2 (program e))) m
  end.

Definition http_environment (req : http_request) : X environment unit :=
  on_program new_environment ;;;
  catch
    (h <- on_program (create_session req) ;;
     xmodify (fun e => Environment (Some h) (response e) (program e)) ;;;
     on_session session_load ;;;
     e <- xget ;;
     match _session_holder e with
     | None => xcrash NullDeref
     | Some h => on_program (session_add "SESSION" (session_id h))
     end)
    session_error ;;;
  on_program (session_add "SESSION_PERSISTENT" "0").

(** ** The response *)

Definition system_values (w : world) : list (string * string) :=
  match last (chain w) with Some c => map_order (map_to_list (get_values c)) | None => [] end.

Definition save_session : X environment unit :=
  e <- xget ;;
  match _session_holder e with
  | None => xcrash NullDeref
  | Some h =>
      xzoom (fun e => (h, response e, user_part (program e)))
        (fun s e => Environment (Some s.1.1) s.1.2 (put_user_part s.2 (program e))) session_save
  end.

Definition init_response (req : http_request) : X environment unit :=
  w <- on_program xget ;;
  on_response (fun r => foldl (fun r v => resp_header (smap to_lower v.1) v.2 r) r (system_values w)) ;;;
  ct <- on_program (session_get "CONTENT_TYPE") ;;
  on_response (set_content_type ct) ;;;
  if bool_decide (get_method req = HTTP_HEAD) then xret tt else save_session.

(** ** The body *)

Definition parse_urlencoded (req : http_request) : X world unit :=
  match get_content req with
  | Some value => parse_variables (c_str value)
  | None => xret tt
  end.

(** [parse_mime]: an entity and its parts. *)
Fixpoint parse_mime (me : mime_entity) : X world unit :=
  match me with
  | Mime disposition dparams ctype body parts =>
      (if seqb disposition "form-data" then
         session_add (dparams "name") body ;;;
         session_add (dparams "name" +:+ "_size") (to_string_int (Z.of_nat (slen body))) ;;;
         session_add (dparams "name" +:+ "_filename") (dparams "filename") ;;;
         session_add (dparams "name" +:+ "_content_type") ctype
       else xret tt) ;;;
      (fix go (l : list mime_entity) : X world unit :=
        match l with [] => xret tt | p :: l' => parse_mime p ;;; go l' end) parts
  end.

Definition crlf : string := String (chr 13) (str1 (chr 10)).

(** A missing content is written as a null pointer of size 0. *)
Definition parse_data (req : http_request) : X world unit :=
  parse_mime (mime_parse ("Content-Type: " +:+ get_field CONTENT_TYPE req +:+ crlf +:+ crlf +:+ default "" (get_content req))).

Definition parse_plain (req : http_request) : X world unit :=
  match get_content req with
  | Some value => session_add "content" value
  | None => xret tt
  end.

Definition parse_json (req : http_request) : X world unit :=
  match get_content req with
  | None => xret tt
  | Some value =>
      match json_parse (c_str value) with
      | None => throw (dbp_exception "invalid JSON structure of the request")
      | Some root =>
          session_add "content" (json_write root) ;;;
          for_each (fun i => session_add i.1
            (if json_is_null i.2 then "" else match json_as_string i.2 with Some v => v | None => json_write i.2 end))
            (default [] (json_members root))
      end
  end.

(** ** Variables *)

Definition underscores : string -> string := smap (fun c => if is_char c "-" then "_"%char else c).

Definition parse_body (req : http_request) : X world unit :=
  match get_method req with
  | HTTP_HEAD => session_add "HTTP_METHOD" "GET"
  | HTTP_GET | HTTP_DEL => xret tt
  | HTTP_PUT | HTTP_POST =>
      let ct := trim (fst (split_pair (get_field CONTENT_TYPE req) ";")) in
      if compare ct "application/x-www-form-urlencoded" then parse_urlencoded req
      else if compare ct "multipart/form-data" then parse_data req
      else if compare ct "application/json" then parse_json req
      else parse_plain req
  | HTTP_OTHER => parse_plain req
  end.

Definition init_custom_params (req : http_request) : X world unit :=
  for_each (fun i => session_add ("HTTP_" +:+ underscores i.1) i.2) (all_headers req) ;;;
  parse_variables (get_field QUERY_STRING req) ;;;
  parse_body req ;;;
  session_add "PATH_INFO" (get_field PATH_INFO req) ;;;
  session_add "HTTP_METHOD" (get_field REQUEST_METHOD req) ;;;
  session_add "HTTP_REMOTE_ADDR" (get_field REMOTE_ADDR req) ;;;
  session_add "SERVER_NAME" (get_field SERVER_NAME req) ;;;
  session_add "SERVER_PORT" (to_string_int (get_server_port req)) ;;;
  session_add "HTTPS" (if get_https req then "on" else "").

(** [fastcgi_environment::init_custom_params] of the FastCGI server. *)
Definition fastcgi_init_custom_params (req : http_request) (env : list (string * string)) : X world unit :=
  init_custom_params req ;;;
  for_each (fun i => session_add i.1 i.2) env.

(** ** The document *)

Fixpoint path_args (cnt : Z) (path : list string) : X world unit :=
  match path with
  | [] => xret tt
  | i :: path' =>
      (if cnt >? 0 then session_add ("arg" +:+ to_string_int cnt) i else xret tt) ;;;
      path_args (cnt + 1) path'
  end.

(** For a POST of XML the root element is freed and then the document with it: a document with another
    root than those of XML-RPC and SOAP is freed twice. *)
Definition get_path (req : http_request) : X world string :=
  let translated := get_field PATH_TRANSLATED req in
  let plain := path_args 0 (tokenize_by (get_field PATH_INFO req) "/") ;;; xret translated in
  if bool_decide (get_method req = HTTP_POST) && seqb (get_field CONTENT_TYPE req) "text/xml" then
    match xml_root (default "" (get_content req)) with
    | None => plain
    | Some root => if seqb root "methodCall" || seqb root "Envelope" then xret translated else xcrash MemFault
    end
  else plain.
End environment.

(** ** The variables of a query string *)

Section variables.
Context `{Dcl, !DclLaws, Services, Http}.

(** Assignments to the innermost layer. *)
Lemma add_all_run L w c ps vs st :
  chain w = c :: ps -> stack c = vs :: st ->
  for_each (fun p => ctx (add_value p.1 p.2 "")) L w =
    Ok (Val tt, w <| chain := c <| stack := declared L vs :: st |> :: ps |>, "").
Proof.
  revert w c vs. induction L as [|[k v] L IH]; intros w c vs Hw Hc; cbn [for_each].
  - cbn. rewrite <- Hc. destruct c, w. cbn in *. by subst.
  - unfold ctx at 1. unfold xbind, xzoom. rewrite Hw. cbn [fst snd]. rewrite (add_value_own _ _ _ vs st) by done.
    rewrite after_nil. rewrite (IH _ (c <| stack := <[upname k := v]> vs :: st |>) (<[upname k := v]> vs)) by done. done.
Qed.

(** A name that no other one equals up to case has its value; one that does not occur keeps what it had. *)
Lemma declared_lookup n L vs :
  StronglySorted key_lt L -> (forall k v, (k, v) ∈ L -> upname k = upname n -> k = n) ->
  declared L vs !! upname n = match map_find n L with Some v => Some v | None => vs !! upname n end.
Proof.
  intros Hs Hn. revert vs. induction Hs as [|[k v] L Hs IH Hl]; intros vs; [done|]. cbn [declared foldl map_find fst snd].
  change (foldl _ ?x L) with (declared L x). rewrite IH by (intros k' v' Hin; apply (Hn k' v'); by right).
  destruct (seqb k n) eqn:E.
  - apply seqb_spec in E as ->. rewrite (find_above n L (n, v) Hl); [by rewrite lookup_insert_eq|]. cbn. by rewrite seqb_refl.
  - destruct (map_find n L); [done|]. rewrite lookup_insert_ne; [done|]. intros Hk. apply (Hn k v) in Hk; [|by left].
    subst. by rewrite seqb_refl in E.
Qed.

Lemma map_find_fmap {A B} (f : A -> B) n l : map_find n (prod_map id f <$> l) = f <$> map_find n l.
Proof. induction l as [|[k v] l IH]; [done|]. cbn. by destruct (seqb k n). Qed.

Lemma sorted_fmap {A B} (f : A -> B) l : StronglySorted key_lt l -> StronglySorted key_lt (prod_map id f <$> l).
Proof. induction 1 as [|x l Hs IH Hl]; cbn; constructor; [done|]. by apply Forall_fmap. Qed.

Lemma map_find_in {A} k (v : A) l : (k, v) ∈ l -> map_find k l <> None.
Proof.
  induction l as [|[k' v'] l IH]; [by intros ?%elem_of_nil|]. rewrite elem_of_cons. cbn. intros [[= <- <-]|Hin].
  - by rewrite seqb_refl.
  - destruct (seqb k' k); [done|by apply IH].
Qed.

Lemma values_of_in n ps : values_of n ps <> [] -> exists v, (n, v) ∈ ps.
Proof.
  unfold values_of. destruct (filter _ ps) as [|[k v] l] eqn:E; [done|]. intros _. exists v.
  assert ((k, v) ∈ filter (fun kv : string * string => kv.1 = n) ps) as Hin by (rewrite E; by left).
  apply list_elem_of_filter in Hin as [<- Hin]. done.
Qed.

(** The values from the first that is not empty. *)
Fixpoint from_nonempty (vs : list string) : list string :=
  match vs with "" :: vs' => from_nonempty vs' | _ => vs end.

Lemma concatenated_more acc vs : acc <> "" ->
  foldl (fun acc v => (if is_empty acc then acc else acc +:+ ",") +:+ v) acc vs = join "," (acc :: vs).
Proof.
  revert acc. induction vs as [|v vs IH]; intros acc Ha; [done|]. cbn [foldl]. destruct acc as [|c acc]; [done|].
  cbn [is_empty]. rewrite IH by done. change (join "," (String c acc :: v :: vs)) with (String c acc +:+ "," +:+ join "," (v :: vs)).
  destruct vs as [|v' vs]; cbn [join]; by rewrite <- !sapp_assoc.
Qed.

Lemma value_of_joined vs : value_of vs = join "," (from_nonempty vs).
Proof.
  assert (concatenated vs = join "," (from_nonempty vs)) as E.
  { unfold concatenated. induction vs as [|[|c v] vs IH]; [done| |].
    - cbn [foldl is_empty]. rewrite sapp_nil_l. exact IH.
    - cbn [foldl is_empty]. rewrite sapp_nil_l. by apply concatenated_more. }
  destruct vs as [|v [|]]; [done| |exact E]. by destruct v.
Qed.

(** C24: what a page sees of a query string or a form, which is cut at the ampersands, its pieces cut in
    two at the equals sign and both parts decoded: a name that occurs has its values, in the order in
    which they came, joined by commas, where the empty values in front of the first that is not empty
    are left out; a name that does not occur keeps the value it had.  This is for a name [n] of which no
    other spelling in upper and lower case occurs. *)
Theorem query_variables text n w c ps vs st :
  let params := (fun p => (url_decode (split_pair p "=").1, url_decode (split_pair p "=").2)) <$> tokenize_by text "&" in
  chain w = c :: ps -> stack c = vs :: st ->
  (forall k v, (k, v) ∈ params -> upname k = upname n -> k = n) ->
  exists w', parse_variables text w = Ok (Val tt, w', "") /\
    get_value (chain w') n =
      match (filter (fun kv => kv.1 = n) params).*2 with
      | [] => get_value (chain w) n
      | values => join "," (from_nonempty values)
      end.
Proof.
  intros params Hw Hc Hn. destruct (collect_spec params) as [Hs Hf]. set (L := prod_map id value_of <$> collect params).
  assert (decode_pair <$> tokenize_by text "&" = params) as Hp.
  { apply list_fmap_ext. intros _ p _. unfold decode_pair. by destruct (split_pair p "="). }
  assert (parse_variables text w = for_each (fun p => ctx (add_value p.1 p.2 "")) L w) as E.
  { unfold parse_variables, L. rewrite Hp. clear. revert w. induction (collect params) as [|[k v] l IH]; intros w; [done|].
    cbn [fmap list_fmap for_each]. apply xbind_ext. intros _ w'. apply IH. }
  rewrite E, (add_all_run L w c ps vs st Hw Hc). eexists. split; [done|]. rewrite Hw. cbn. rewrite Hc. cbn.
  rewrite (declared_lookup n L vs) by (by apply sorted_fmap || (intros k v Hin; apply list_elem_of_fmap in Hin as ([k' v'] & [= -> ->] & Hin);
    assert (map_find k' (collect params) <> None) as Hk by (by eapply map_find_in); rewrite Hf in Hk;
    destruct (values_of_in k' params) as [v'' Hin2]; [by destruct (values_of k' params)|by apply (Hn k' v'')])).
  unfold L. rewrite map_find_fmap, Hf. change ((filter _ params).*2) with (values_of n params).
  destruct (values_of n params) as [|x xs]; [done|]. cbn [fmap option_fmap option_map]. by rewrite value_of_joined.
Qed.
End variables.
