(* ===== verification/DbServer.v ===== *)
(** * The server: [dbpager/interpreter/interpreter.cpp] and [dbpager/application/dbpagerd.cpp]

    - [load]: what the configuration file chooses; [reload].
    - [get_app]: the applications, parsed once when the cache is on (DbCache.v has the threads).
    - [process_cgi_request]: a request from its environment to the response, with every class of
      exception; [answer], what [process_request] makes of it; [answer_all], one request after another.
    - [on_handle_request], the same for the Apache module of [mod_dbp.cpp]; [on_execute], the
      interpreter of the command line of [dbpager.cpp].

    Plugins and the file of configuration are parameters ([Plugins], [Config]); the logger, whichever
    was chosen, is [sys_log].  Proofs about the server are in DbSafety.v. *)

From S2P Require Import Prelude DbLang DbContext DbTag DbServices DbFunctions DbExecute DbParser DbHttp DbSession DbControl DbEnvironment.

Class Config := {
  config : Type;
  load_from_file : string -> option config;
  config_value : config -> string -> string -> option string;
  section : config -> string -> list (string * string)
}.

(** A plugin is loaded and initialized, or that throws; the objects that it may create. *)
Class Plugins `{Config, Services, Http} := {
  plugin : Type;
  plugin_load : string -> config -> outcome plugin;
  plugin_logger : plugin -> string -> bool;
  plugin_session : plugin -> string -> option Sessions
}.

Section interpreter.
Context `{Dcl, Platform, Services, Http, Documents, Config, !Plugins}.

(** ** The configuration *)

(** What [load] sets; the pointers to the session's factory and to the logger may be null. *)
Record interpreter := Interpreter {
  use_cache : bool;
  loaded_logger : bool;
  session : option Sessions;
  modules : list (string * plugin)
}.

Definition value (options : config) (sect key dflt : string) : string := default dflt (config_value options sect key).

Definition load_plugin (module : string) (options : config) : X world plugin := of_outcome (plugin_load module options).

Definition load_logger (options : config) : X world bool :=
  let log_type := value options "services" "log" "internal" in
  let module := value options "services" ("logger.backend." +:+ log_type) "" in
  if seqb log_type "internal" || is_empty module then xret false
  else p <- load_plugin module options ;; xret (plugin_logger p log_type).

Definition load_session (options : config) : X world Sessions :=
  let session_type := value options "services" "session" "internal" in
  let module := value options "services" ("session.backend." +:+ session_type) "" in
  if seqb session_type "internal" || is_empty module then xret session_int
  else p <- load_plugin module options ;; xret (default session_int (plugin_session p session_type)).

Fixpoint load_modules (options : config) (l : list (string * string)) : X world (list (string * plugin)) :=
  match l with
  | [] => xret []
  | (k, file) :: l' => p <- load_plugin file options ;; ps <- load_modules options l' ;; xret ((k, p) :: ps)
  end.

Definition quote : string := str1 (chr 34).

(** [load] in the constructor: a file that cannot be loaded is an [app_config_exception], which is
    caught where everything else was to be set up. *)
Definition load (config_filename : string) : X world interpreter :=
  match load_from_file config_filename with
  | None =>
      on_os (fun o => (tt, sys_log (format ("Configuration file " +:+ quote +:+ "{0}" +:+ quote +:+
        " was not found; will use default values instead") [config_filename]) o)) ;;;
      xret (Interpreter false false None [])
  | Some options =>
      let cache := negb (seqb (value options "application" "pool" "unlimited") "0") in
      log <- load_logger options ;;
      s <- load_session options ;;
      ps <- load_modules options (section options "modules") ;;
      xret (Interpreter cache log (Some s) ps)
  end.

Definition reload : X world unit := on_os (fun o => (tt, sys_log "Configuration realoaded" o)).

(** ** Applications *)

Record application := Application { app_tree : heap; app_root : positive }.

(** The applications of the cache by their URLs, and the program's world. *)
Record server := Server { apps : gmap string application; machine : world }.

Context (m n : nat).

Definition new_application (u : string) : X world application := fun w =>
  match dbpager_application (execute m) n u (Parsing ∅ w) with
  | Ok (Val t, s, out) => Ok (Val (Application (tree s) t), state s, out)
  | Ok (Exc e, s, out) => Ok (Exc e, state s, out)
  | Crash f => Crash f
  | NoFuel => NoFuel
  end.

Definition on_machine {A} (x : X world A) : X server A := xzoom machine (fun w s => Server (apps s) w) x.

Definition get_app (i : interpreter) (u : string) : X server application :=
  if use_cache i then
    s <- xget ;;
    match apps s !! u with
    | Some app => xret app
    | None =>
        app <- on_machine (new_application u) ;;
        xmodify (fun s => Server (<[u := app]> (apps s)) (machine s)) ;;;
        xret app
    end
  else on_machine (new_application u).

(** ** A request *)

Section request.
Context (factory : Sessions).

(** The applications, and the environment that a request has for itself. *)
Record handling := Handling { cache : gmap string application; env : environment }.

Definition on_env {A} (x : X environment A) : X handling A := xzoom env (fun e h => Handling (cache h) e) x.
Definition on_server {A} (x : X server A) : X handling A :=
  xzoom (fun h => Server (cache h) (program (env h)))
    (fun s h => Handling (apps s) (Environment (_session_holder (env h)) (response (env h)) (machine s))) x.

(** [get_app(u)->execute(env, out)], where [init] is the environment's [init_custom_params]. *)
Definition run_page (i : interpreter) (u : string) (init : X world unit) : X handling unit :=
  app <- on_server (get_app i u) ;;
  on_env (on_program (init ;;; dbpager_application_execute m (app_tree app) (app_root app))).

Definition text_plain : string := "text/plain; charset=utf-8".

Definition error_response (status : Z) (message : string) (r : http_response) : http_response :=
  set_content_type text_plain (resp_content message (set_status status r)).

Definition is_redirect (code : Z) : bool := bool_decide (code ∈ [301; 302; 303; 307; 308]).

Definition page_failed (req : http_request) (e : exn) : X handling unit :=
  match e with
  | std_exception _ => throw e
  | parser_exception code message =>
      on_env (init_response req) ;;;
      on_env (on_response (error_response (if code =? 1 then 404 else 500) message))
  | app_exception message code =>
      on_env (init_response req) ;;;
      on_env (on_response (fun r =>
        let r := set_status code r in
        if is_redirect code then resp_header "Location" message r
        else
          let r := resp_content message r in
          if is_empty (get_content_type r) then set_content_type text_plain r else r))
  | _ =>
      on_env (init_response req) ;;;
      on_env (on_response (error_response 500 (what e))) ;;;
      on_env (on_program (on_os (fun o => (tt, sys_log (format "Internal error: {0}" [what e]) o))))
  end.

(** The body of [process_cgi_request] behind the first header, for an environment's constructor, the URL
    of a path, the environment's parameters and the handlers. *)
Definition handle (i : interpreter) (req : http_request) (url : string -> string) (init : X world unit)
    (failed : exn -> X handling unit) : X handling http_response :=
  on_env (http_environment req) ;;;
  catch
    (path <- on_env (on_program (get_path req)) ;;
     out <- capture (run_page i (url path) init) ;;
     on_env (init_response req) ;;;
     on_env (on_response (resp_content out)))
    failed ;;;
  h <- xget ;;
  xret (response (env h)).

(** A response with one header, and an environment of its own. *)
Definition with_environment (powered : string) (x : X handling http_response) : X server http_response :=
  xzoom (fun s => Handling (apps s) (Environment None (resp_header "X-Powered-By" powered new_response) (machine s)))
    (fun h _ => Server (cache h) (program (env h))) x.
End request.

(** The environment takes the session's factory by reference, from a pointer that may be null. *)
Definition process_cgi_request (i : interpreter) (req : http_request) (vars : list (string * string)) :
    X server http_response :=
  match session i with
  | None => xcrash NullDeref
  | Some factory =>
      with_environment factory (app_full_name +:+ " (FastCGI)")
        (handle factory i req (fun path => url_of ("file://" +:+ path)) (fastcgi_init_custom_params req vars)
          (page_failed factory req))
  end.

(** The handler of [process_request], for a response that was not given a header. *)
Definition answer (i : interpreter) (req : http_request) (vars : list (string * string)) : X server http_response :=
  catch (process_cgi_request i req vars) (fun e => xret (error_response 500 (what e) new_response)).

Fixpoint answer_all (i : interpreter) (reqs : list (http_request * list (string * string))) :
    X server (list http_response) :=
  match reqs with
  | [] => xret []
  | r :: reqs' => resp <- answer i r.1 r.2 ;; resps <- answer_all i reqs' ;; xret (resp :: resps)
  end.

(** ** The Apache module and the command line *)

(** [catch (...)] leaves the content and the content type of the response to [init_response]. *)
Definition module_failed (factory : Sessions) (req : http_request) (e : exn) : X (handling factory) unit :=
  match e with
  | parser_exception code message =>
      on_env factory (init_response req) ;;;
      on_env factory (on_response (error_response (if code =? 1 then 404 else 500) message))
  | app_exception message code =>
      on_env factory (init_response req) ;;;
      on_env factory (on_response (fun r =>
        let r := set_status code r in
        if is_redirect code then resp_header "Location" message r else set_content_type text_plain (resp_content message r)))
  | _ =>
      on_env factory (init_response req) ;;;
      on_env factory (on_response (set_status 500))
  end.

(** [file_url]: a path parsed as an URL, whose scheme is set to [file]. *)
Definition on_handle_request (file_url : string -> string) (i : interpreter) (req : http_request) :
    X server http_response :=
  match session i with
  | None => xcrash NullDeref
  | Some factory =>
      with_environment factory (app_full_name +:+ " (Apache module)")
        (handle factory i req file_url (init_custom_params req) (module_failed factory req))
  end.

(** [file] is the URL of the first name; the other arguments are variables of the page. *)
Definition on_execute (i : interpreter) (u : string) (vars : list string) : X server unit :=
  on_machine new_environment ;;;
  app <- get_app i u ;;
  on_machine (
    for_each (fun v => let '(p_name, p_value) := split_pair v "=" in session_add p_name p_value) vars ;;;
    dbpager_application_execute m (app_tree app) (app_root app)).
End interpreter.
