(* ===== verification/DbSafety.v ===== *)
(** * The server and its tags, over any number of requests

    The environment of a request is new, so that its contexts call no tag ([quiet]), and stays so through
    the session, the parameters and the page; the cache holds applications that the parser made, which
    are well typed.  [SessionsLaws] is what the server asks of a session service: that it leaves the
    contexts and their calls alone; [session_int_laws] is DbSession.v's. *)

From S2P Require Import Prelude DbLang DbContext DbTag DbServices DbFunctions DbExecute DbParser DbControl DbFrame DbTypes DbProgram DbHttp DbSession DbEnvironment DbServer.

(** ** Parsing leaves the contexts alone *)

Section parser.
Context `{Dcl, Platform, Services, Documents} (exec : exec_fn).

Definition same_contexts : frame parsing := relates (fun s s' => chain (state s) = chain (state s')).

#[local] Instance same_contexts_preorder : PreOrder (fun s s' : parsing => chain (state s) = chain (state s')).
Proof. split; [by intros s|]. intros s1 s2 s3. apply eq_trans. Qed.

#[local] Instance same_contexts_laws : FrameLaws same_contexts.
Proof. apply relates_laws, _. Qed.

Lemma on_tree_contexts {A} (x : X heap A) : keeps same_contexts (on_tree x).
Proof. intros s _. unfold on_tree, xzoom. by destruct (x (tree s)) as [[[o h] t]| |]. Qed.

Lemma new_object_contexts o : keeps same_contexts (new_object o).
Proof. intros s _. unfold new_object. by destruct (alloc (tree s) o). Qed.

Lemma evaluate_contexts p self : keeps same_contexts (evaluate exec p self).
Proof. intros s _. unfold evaluate. by destruct (capture _ _) as [[[o w] t]| |]. Qed.

Lemma xcrash_contexts {A} f : keeps same_contexts (xcrash f : X parsing A).
Proof. by apply keeps_crash. Qed.
#[local] Hint Resolve on_tree_contexts new_object_contexts evaluate_contexts xcrash_contexts : keeps.

Lemma add_attribute_contexts node nm v : keeps same_contexts (add_attribute exec node nm v).
Proof. unfold add_attribute, add_parameter. keeps. Qed.

Lemma climb_contexts k nm p : keeps same_contexts (climb k nm p).
Proof. revert p. induction k as [|k IH]; intros [t|]; cbn [climb]; keeps. Qed.
#[local] Hint Resolve add_attribute_contexts climb_contexts : keeps.

Lemma make_relationship_contexts nm cur t : keeps same_contexts (make_relationship nm cur t).
Proof. unfold make_relationship. keeps. Qed.

Lemma move_included_contexts r cur : keeps same_contexts (move_included r cur).
Proof. unfold move_included, delete_tag. keeps. Qed.
#[local] Hint Resolve make_relationship_contexts move_included_contexts : keeps.

Lemma process_node_contexts parse_url url e cur :
  (forall u, keeps same_contexts (parse_url u)) -> keeps same_contexts (process_node exec parse_url url e cur).
Proof.
  intros Hp. unfold process_node, process_element, element_tag, factory_create, process_attributes, process_include,
    get_href, delete_tag, link_user_tag, process_text.
  keeps.
Qed.
#[local] Hint Resolve process_node_contexts : keeps.

Lemma parse_contexts n url : keeps same_contexts (parse exec n url).
Proof.
  revert url. induction n as [|n IH]; intros url; cbn [parse]; [keeps|]. destruct (read_document url) as [[events finished]|]; [|keeps].
  apply keeps_bind; [exact _| |keeps]. generalize (@None positive) at 1 as r. generalize (@None positive) as cur.
  induction events as [|e l IHl]; intros cur r; cbn [read_nodes]; keeps.
Qed.

Lemma application_contexts n url : keeps same_contexts (dbpager_application exec n url).
Proof. unfold dbpager_application. apply keeps_bind; [exact _|apply parse_contexts|keeps]. Qed.
End parser.

(** ** What a request keeps *)

Section quiet.
Context `{Dcl, !DclLaws, Platform, !PlatformLaws, Services, Http}.

(** No context of the chain calls a tag. *)
Definition quiet : frame world := typed_frame ∅.

#[export] Instance quiet_laws : FrameLaws quiet := typed_frame_laws ∅.

Lemma quiet_calls ch : typed_stacks ∅ ch <-> Forall (fun c => DbContext.exec c = []) ch.
Proof.
  apply Forall_iff. intros c. unfold typed_context. destruct (exec c) as [|t l]; [done|]. split; [|done].
  inversion 1 as [|? ? Ht]. unfold is_usr in Ht. by rewrite lookup_empty in Ht.
Qed.

Lemma quiet_typed h ch : typed_stacks ∅ ch -> typed_stacks h ch.
Proof.
  rewrite quiet_calls. intros Hch. eapply Forall_impl; [exact Hch|]. intros c Hc. unfold typed_context. by rewrite Hc.
Qed.

Lemma contexts_quiet {A} (x : X world A) :
  (forall w, match x w with Ok (_, w', _) => chain w = chain w' | Crash f => no_type_error f | NoFuel => True end) ->
  keeps quiet x.
Proof.
  intros Hx w _. specialize (Hx w). destruct (x w) as [[[o w'] s]| |]; [|done..]. cbn. rewrite Hx. unfold stacks_part. reflexivity.
Qed.

Lemma session_add_quiet nm v : keeps quiet (session_add nm v).
Proof. apply execs_ctx, add_value_execs. Qed.

Lemma ctx_add_quiet nm v type : keeps quiet (ctx (add_value nm v type)).
Proof. apply execs_ctx, add_value_execs. Qed.

Lemma session_get_quiet nm : keeps quiet (session_get nm).
Proof. by apply contexts_quiet. Qed.

Lemma on_os_quiet {A} (f : sys -> A * sys) : keeps quiet (on_os f).
Proof. apply contexts_quiet. intros w. unfold on_os. by destruct (f (os w)). Qed.

Lemma crash_quiet {A} f : no_type_error f -> keeps quiet (xcrash f : X world A).
Proof. intros Hf. by apply (keeps_crash quiet). Qed.

#[local] Hint Resolve session_add_quiet ctx_add_quiet session_get_quiet on_os_quiet : keeps.

(** What the server asks of a session service: its methods see the contexts from the user's on. *)
Definition on_contexts {S} (w : S -> world) : frame S :=
  Frame (fun s => f_inv quiet (w s)) (fun s s' => f_rel quiet (w s) (w s')) no_type_error.

#[export] Instance on_contexts_laws {S} (w : S -> world) : FrameLaws (on_contexts w).
Proof.
  split; [split|].
  - intros s. change (f_rel quiet (w s) (w s)). reflexivity.
  - intros s1 s2 s3 R1 R2. change (f_rel quiet (w s1) (w s3)). by transitivity (w s2).
  - intros s s'. apply (f_inv_rel (F := quiet)).
Qed.

Class SessionsLaws (S : Sessions) := {
  create_session_quiet req : keeps quiet (create_session req);
  session_load_quiet : keeps (on_contexts snd) session_load;
  session_save_quiet : keeps (on_contexts snd) session_save
}.

(** A computation on a part of the state that holds the contexts. *)
Lemma zoom_quiet {S T A} (ws : S -> world) (wt : T -> world) (view : S -> T) (upd : T -> S -> S) (x : X T A) :
  keeps (on_contexts wt) x -> (forall s, f_inv quiet (ws s) -> f_inv quiet (wt (view s))) ->
  (forall s t, f_rel quiet (wt (view s)) (wt t) -> f_rel quiet (ws s) (ws (upd t s))) ->
  keeps (on_contexts ws) (xzoom view upd x).
Proof.
  intros Hx Hi Hr s Hs. specialize (Hx _ (Hi s Hs)). unfold xzoom. destruct (x (view s)) as [[[o t] out]| |]; [|done..].
  by apply (Hr s t).
Qed.

#[export] Instance session_int_laws : SessionsLaws session_int.
Proof.
  split.
  - intros req. change (keeps quiet (session_int_create req)). unfold session_int_create, holder_of, holder_new.
    keeps.
  - change (keeps (on_contexts snd) session_int_load). unfold session_int_load. keeps.
    apply (zoom_quiet snd id); [apply ctx_add_quiet|done..].
  - change (keeps (on_contexts snd) session_int_save). unfold session_int_save.
    intros [[h r] w] Hw. cbn in *. unfold xbind, xget. cbn. destruct (chain w) eqn:E; [done|]. cbn. rewrite E. unfold stacks_part. reflexivity.
Qed.
End quiet.

#[export] Hint Resolve session_add_quiet ctx_add_quiet session_get_quiet on_os_quiet : keeps.
#[export] Hint Extern 2 (keeps quiet (xcrash _)) => apply crash_quiet; split; discriminate : keeps.

(** ** The environment *)

Section environment.
Context `{Dcl, !DclLaws, Platform, !PlatformLaws, Services, Http} (factory : Sessions) `{!SessionsLaws factory}.

(** Every result [b] of a computation has the property; its faults are not those of types. *)
Definition ends {W A} (P : W -> Prop) (r : res (outcome A * W * string)) : Prop :=
  match r with Ok (_, w, _) => P w | Crash f => no_type_error f | NoFuel => True end.

Lemma ends_keeps {S A} (w : S -> world) (x : X S A) s :
  keeps (on_contexts w) x -> f_inv quiet (w s) -> ends (fun s => f_inv quiet (w s)) (x s).
Proof.
  intros Hx Hs. specialize (Hx s Hs). unfold ends. destruct (x s) as [[[o s'] t]| |]; [|done..].
  by apply (f_inv_rel (F := quiet) (w s)).
Qed.

Lemma on_program_quiet {A} (x : X world A) : keeps quiet x -> keeps (on_contexts program) (on_program x).
Proof. intros Hx. by apply (zoom_quiet program id). Qed.

Lemma on_response_quiet f : keeps (on_contexts program) (on_response f).
Proof. intros e _. cbn. unfold stacks_part. reflexivity. Qed.
#[local] Hint Resolve on_response_quiet : keeps.
#[local] Hint Extern 2 (keeps (on_contexts program) (on_program _)) => apply on_program_quiet : keeps.

Lemma user_part_quiet (e : environment) : f_inv quiet (program e) -> f_inv quiet (user_part (program e)).
Proof. cbn. destruct (chain (program e)) as [|c l]; [done|]. by inversion 1. Qed.

Lemma put_user_part_quiet (e : environment) w : f_rel quiet (user_part (program e)) w ->
  f_rel quiet (program e) (put_user_part w (program e)).
Proof.
  cbn. destruct (chain (program e)) as [|c l]; cbn; [done|]. intros Hs. constructor; [unfold stack_part|]; done.
Qed.

Lemma on_session_load_quiet : keeps (on_contexts program) (on_session session_load).
Proof.
  unfold on_session. keeps; [|by apply (keeps_crash (on_contexts program))].
  apply (zoom_quiet program snd); [apply session_load_quiet|intros ?; apply user_part_quiet|intros ? ?; apply put_user_part_quiet].
Qed.

Lemma save_session_quiet : keeps (on_contexts program) save_session.
Proof.
  unfold save_session. keeps; [|by apply (keeps_crash (on_contexts program))].
  apply (zoom_quiet program snd); [apply session_save_quiet|intros ?; apply user_part_quiet|intros ? ?; apply put_user_part_quiet].
Qed.
#[local] Hint Resolve on_session_load_quiet save_session_quiet : keeps.

Lemma init_response_quiet req : keeps (on_contexts program) (init_response req).
Proof. unfold init_response. keeps. all: apply on_program_quiet; keeps. Qed.

(** The contexts of an environment are new: whatever was there before, they call nothing. *)
Lemma new_environment_quiet {A} (k : X environment A) e :
  keeps (on_contexts program) k ->
  ends (fun e => f_inv quiet (program e)) ((on_program new_environment ;;; k) e).
Proof.
  intros Hk. set (w1 := (program e) <| chain := environment_contexts |>).
  set (e1 := Environment (_session_holder e) (response e) w1).
  assert (on_program new_environment e = on_program (session_add "CONTENT_TYPE" "text/plain") e1) as E.
  { unfold on_program, xzoom, new_environment, xbind. cbn. unfold after. change (set_chain _ (program e)) with w1. by destruct (session_add _ _ w1) as [[[o w] t]| |]. }
  pose proof (ends_keeps program (on_program (session_add "CONTENT_TYPE" "text/plain") ;;; k) e1) as He.
  unfold xbind at 1 in He. unfold xbind at 1. rewrite E. apply He.
  - apply keeps_bind; [exact _|by apply on_program_quiet, session_add_quiet|done].
  - by repeat constructor.
Qed.

Lemma http_environment_quiet req e : ends (fun e => f_inv quiet (program e)) (http_environment req e).
Proof.
  apply new_environment_quiet. keeps.
  - by apply on_program_quiet, create_session_quiet.
  - intros w _. cbn. unfold stacks_part. reflexivity.
  - by apply (keeps_crash (on_contexts program)).
  - unfold session_error. destruct (is_dbp_exception _); keeps.
Qed.

(** ** The parameters of a request *)

Lemma parse_variables_quiet text : keeps quiet (parse_variables text).
Proof. unfold parse_variables. keeps. Qed.

(** The body of an entity, then its parts. *)
Lemma parse_mime_quiet : forall me, keeps quiet (parse_mime me).
Proof.
  fix IH 1. intros [disposition dparams ctype body parts]. cbn [parse_mime].
  apply keeps_bind; [exact _|destruct (seqb disposition "form-data"); keeps|]. intros _.
  induction parts as [|p l IHl]; [keeps|]. apply keeps_bind; [exact _|apply IH|]. intros _. apply IHl.
Qed.
#[local] Hint Resolve parse_variables_quiet parse_mime_quiet : keeps.

Lemma parse_body_quiet req : keeps quiet (parse_body req).
Proof. unfold parse_body, parse_urlencoded, parse_data, parse_json, parse_plain. keeps. Qed.
#[local] Hint Resolve parse_body_quiet : keeps.

Lemma init_custom_params_quiet req : keeps quiet (init_custom_params req).
Proof. unfold init_custom_params. keeps. Qed.
#[local] Hint Resolve init_custom_params_quiet : keeps.

Lemma fastcgi_init_custom_params_quiet req vars : keeps quiet (fastcgi_init_custom_params req vars).
Proof. unfold fastcgi_init_custom_params. keeps. Qed.

Lemma path_args_quiet cnt l : keeps quiet (path_args cnt l).
Proof. revert cnt. induction l as [|i l IH]; intros cnt; cbn [path_args]; keeps. Qed.
#[local] Hint Resolve path_args_quiet : keeps.

Lemma get_path_quiet req : keeps quiet (get_path req).
Proof. unfold get_path. keeps. Qed.
End environment.

(** ** Applications and requests *)

Section server.
Context `{Dcl, !DclLaws, Platform, !PlatformLaws, Services, Http, Documents, Config, !Plugins} (m n : nat) (i : interpreter).
Context (documents_are_ok : documents_ok).

(** An application that the parser may have made. *)
Definition application_ok (a : application) : Prop := well_typed (app_tree a) /\ is_Some (app_tree a !! app_root a).

Definition cache_ok (c : gmap string application) : Prop := map_Forall (fun _ => application_ok) c.

Lemma new_application_ok u w : f_inv quiet w ->
  match new_application m n u w with
  | Ok (o, w', _) => f_rel quiet w w' /\ match o with Val a => application_ok a | Exc _ => True end
  | Crash f => no_type_error f
  | NoFuel => True
  end.
Proof.
  intros Hw. unfold new_application.
  pose proof (application_step (execute m) (execute_exec_kept m) n u documents_are_ok (Parsing ∅ w) tree_ok_empty I) as Hs.
  pose proof (application_contexts (execute m) n u (Parsing ∅ w) I) as Hc.
  destruct (dbpager_application _ _ _ _) as [[[[t|e] s] o]| |]; [| |done..]; cbn in Hc |- *; rewrite <- Hc;
    (split; [unfold stacks_part; reflexivity|]); [|done].
  destruct Hs as ([Hw1 _] & _ & Hv). by split.
Qed.

Lemma execute_quiet a : application_ok a -> keeps quiet (dbpager_application_execute m (app_tree a) (app_root a)).
Proof.
  intros [Hh Hr] w Hw. unfold dbpager_application_execute.
  pose proof (execute_exec_kept m (app_tree a) (app_root a) None Hh Hr (w <| chain := program_context (chain w) |>)) as He.
  destruct (execute _ _ _ _ _) as [[[o w'] t]| |]; [| |done].
  - assert (typed_stacks (app_tree a) (program_context (chain w))) as Ht by (constructor; [by constructor|by apply quiet_typed]).
    specialize (He Ht). cbn in He |- *. by inversion He.
  - apply He. constructor; [by constructor|by apply quiet_typed].
Qed.

(** States with a cache and the contexts of a program. *)
Definition serving {S} (c : S -> gmap string application) (w : S -> world) : frame S :=
  Frame (fun s => cache_ok (c s) /\ f_inv quiet (w s))
    (fun s s' => (cache_ok (c s) -> cache_ok (c s')) /\ f_rel quiet (w s) (w s')) no_type_error.

#[local] Instance serving_laws {S} c (w : S -> world) : FrameLaws (serving c w).
Proof.
  split; [split|].
  - intros s. split; [done|reflexivity].
  - intros s1 s2 s3 [C1 R1] [C2 R2]. split; [auto|]. by etrans.
  - intros s s' [Hc Hi] [C R]. split; [auto|]. by eapply f_inv_rel.
Qed.

Lemma get_app_ok u s : f_inv (serving apps machine) s ->
  match get_app m n i u s with
  | Ok (o, s', _) => f_rel (serving apps machine) s s' /\ match o with Val a => application_ok a | Exc _ => True end
  | Crash f => no_type_error f
  | NoFuel => True
  end.
Proof.
  intros [Hc Hw]. pose proof (new_application_ok u (machine s) Hw) as Hn.
  assert (f_rel (serving apps machine) s s) as Hrefl by reflexivity.
  unfold get_app, on_machine, xzoom. destruct (use_cache i).
  - unfold xbind, xget. cbn. destruct (apps s !! u) as [a|] eqn:E; cbn; [split; [done|by apply (Hc u)]|].
    destruct (new_application m n u (machine s)) as [[[[a|e] w'] o]| |]; cbn; try done; destruct Hn as [Hr Ha]; [|by split].
    split; [|done]. split; [|done]. intros Hk. by apply map_Forall_insert_2.
  - destruct (new_application m n u (machine s)) as [[[o w'] t]| |]; cbn; try done. destruct Hn as [Hr Ha].
    split; [by split|done].
Qed.

Section request.
Context (factory : Sessions) `{!SessionsLaws factory}.

Notation handling_frame := (serving (cache factory) (fun h => program (env factory h))).

Lemma on_env_kept {A} (x : X environment A) : keeps (on_contexts program) x -> keeps handling_frame (on_env factory x).
Proof.
  intros Hx h [Hc Hw]. specialize (Hx _ Hw). unfold on_env, xzoom. destruct (x (env factory h)) as [[[o e] t]| |]; [|done..].
  by split.
Qed.

Lemma run_page_kept u init : keeps quiet init -> keeps handling_frame (run_page m n factory i u init).
Proof.
  intros Hi h [Hc Hw]. unfold run_page. set (page := fun app : application => on_env factory _).
  assert (forall app, application_ok app -> keeps handling_frame (page app)) as Hp.
  { intros app Ha. apply on_env_kept, (on_program_quiet factory).
    apply keeps_bind; [exact _|done|]. intros _. by apply execute_quiet. }
  clearbody page. unfold on_server, xzoom, xbind.
  pose proof (get_app_ok u (Server (cache factory h) (program (env factory h))) (conj Hc Hw)) as Hg.
  destruct (get_app _ _ _ _ _) as [[[[a|e] s] t]| |]; [| |done..]; destruct Hg as [Hr Ha]; [|done]. cbn in Hr.
  set (h1 := Handling factory _ _). apply (keeps_after handling_frame h h1); [done|].
  apply Hp; [done|]. split; [by apply Hr|]. exact (f_inv_rel (F := quiet) _ (machine s) Hw (proj2 Hr)).
Qed.

#[local] Hint Resolve run_page_kept : keeps.
#[local] Hint Extern 2 (keeps _ (on_env _ _)) => apply on_env_kept : keeps.
#[local] Hint Extern 2 (keeps _ (on_program _)) => apply on_program_quiet : keeps.
#[local] Hint Resolve init_response_quiet on_response_quiet get_path_quiet : keeps.

Lemma page_failed_kept req e : keeps handling_frame (page_failed factory req e).
Proof. unfold page_failed. keeps. Qed.

(** The environment's constructor makes the contexts; the rest keeps them. *)
Lemma handle_ok req url init failed h :
  keeps quiet init -> (forall e, keeps handling_frame (failed e)) -> cache_ok (cache factory h) ->
  ends (fun h => cache_ok (cache factory h)) (handle m n factory i req url init failed h).
Proof.
  intros Hi Hf Hc. unfold handle. unfold xbind at 1, on_env at 1, xzoom at 1.
  pose proof (http_environment_quiet factory req (env factory h)) as He.
  destruct (http_environment req (env factory h)) as [[[[a|e] e1] t]| |]; [|done..]. cbn in He.
  set (h1 := Handling factory _ _). set (k := xbind _ _).
  assert (keeps handling_frame k) as Hk by (unfold k; keeps).
  assert (f_inv handling_frame h1) as Hh by done. specialize (Hk h1 Hh).
  unfold after. destruct (k h1) as [[[o h2] t2]| |]; [|done..]. by apply Hk.
Qed.

Lemma with_environment_ok powered x s :
  (forall h, cache_ok (cache factory h) -> ends (fun h => cache_ok (cache factory h)) (x h)) -> cache_ok (apps s) ->
  ends (fun s => cache_ok (apps s)) (with_environment factory powered x s).
Proof.
  intros Hx Hc. unfold with_environment, xzoom. set (h := Handling factory _ _). specialize (Hx h Hc).
  by destruct (x h) as [[[o h'] t]| |].
Qed.
End request.

(** ** The theorem *)

Context (session_laws : forall factory, session i = Some factory -> SessionsLaws factory).

Lemma process_cgi_request_ok req vars s : cache_ok (apps s) ->
  ends (fun s => cache_ok (apps s)) (process_cgi_request m n i req vars s).
Proof.
  intros Hc. unfold process_cgi_request. destruct (session i) as [factory|] eqn:E; [|by split].
  pose proof (session_laws factory eq_refl) as Hl. apply with_environment_ok; [|done].
  intros h Hh. apply handle_ok; [exact Hl|by apply fastcgi_init_custom_params_quiet|intros e; by apply page_failed_kept|done].
Qed.

(** C1: the server over any sequence of requests, with or without a cache, whatever their variables and
    bodies are and which exceptions their pages throw, for documents as [documents_ok] asks (XML names,
    no element but dbPager's own called catch, no dbp:include) and a session service with
    [SessionsLaws] (it leaves the call stacks of the contexts alone): when the sequence ends, every
    request has its response and the cache holds well-typed applications, as it did at the start; and
    when it stops with a fault, that is no cast of a tag to a class that is not its own ([BadCast]) and no
    use of a pointer to a tag that does not exist ([Dangling]).  Other faults remain possible: pages can
    make pointers to lists and maps out of text ([WildPointer]), a session service may be missing
    ([NullDeref]), and data may change under an iterator ([MemFault]). *)
Theorem server_type_safe reqs s :
  cache_ok (apps s) ->
  match answer_all m n i reqs s with
  | Ok (Val resps, s', _) => length resps = length reqs /\ cache_ok (apps s')
  | Ok (Exc _, _, _) => False
  | Crash f => f <> Dangling /\ f <> BadCast
  | NoFuel => True
  end.
Proof.
  revert s. induction reqs as [|[req vars] reqs IH]; intros s Hc; [done|]. cbn [answer_all fst snd].
  pose proof (process_cgi_request_ok req vars s Hc) as Hp. unfold answer, xbind, catch.
  destruct (process_cgi_request _ _ _ _ _ _) as [[[o s1] t]| |]; [|done..].
  cbn in Hp. specialize (IH s1 Hp).
  destruct o; unfold after, xret;
    (destruct (answer_all _ _ _ _ s1) as [[[[rs|?] s2] t2]| |]; [|done..]; cbn; destruct IH as [Hl Hc2];
     split; [by rewrite Hl|done]).
Qed.
End server.
