(* ===== verification/DbStore.v ===== *)
(** * Sessions in Redis and memcached: [modules/mod_session_redis], [modules/mod_session_memcached]

    Both modules keep the variables of the user's context under the id of the session, as the text that
    the built-in session uses ([joined]), in a service that they reach through a pool of connections.
    - [kv_load], [kv_save], [kv_create]: what the two modules share, over the methods [get_value] and
      [put_value] of a module.
    - Section [redis]: [redis_connection.h], [get_value] and [put_value] with their three attempts.
    - Section [memcached]: the connection and the methods of mod_session_memcached.cpp.
    - [redis_sessions], [memcached_sessions] are session services ([Sessions]), and they have the
      [SessionsLaws] that the server asks for, so that [server_type_safe] holds with them.
    What they promise is in DbStored.v.

    hiredis, libmemcached and the pool of DCL are parameters ([Hiredis], [RedisPool], [Memcached]). *)

From S2P Require Import Prelude DbLang DbContext DbTag DbServices DbTypes DbHttp DbSession DbSafety.

(** ** What the modules share *)

Record kv_holder := KvHolder { kv_id : string; kv_new : bool; kv_https : bool }.

Section shared.
Context `{Dcl, Platform, Services, Http}.
Context (get_value_of : string -> X world string) (put_value_of : string -> string -> X world unit).

(** The variables in a text. *)
Definition load_text (value : string) : X world unit :=
  for_each (fun i =>
    let '(k, v) := split_pair i "=" in
    if is_empty k then xret tt else ctx (add_value k v ""))
    (tokenize_by value ";").

Definition kv_load : X (kv_holder * world) unit :=
  s <- xget ;; xzoom snd (fun w s => (s.1, w)) (value <- get_value_of (kv_id s.1) ;; load_text value).

(** The cookies that [save] sets. *)
Definition kv_cookies (h : kv_holder) (c : context) (resp : http_response) : http_response :=
  let resp1 := if kv_new h && negb (empty c) then set_cookies [session_cookie (kv_id h) (kv_https h) false] resp else resp in
  if is_empty (kv_id h) then set_cookie (session_cookie "" (kv_https h) true) resp1 else resp1.

Definition kv_save : X (kv_holder * http_response * world) unit :=
  s <- xget ;;
  let '(h, _, w) := s in
  match chain w with
  | [] => xcrash NullDeref
  | c :: _ =>
      (if empty c then xret tt
       else xzoom snd (fun w s => (s.1, w)) (put_value_of (kv_id h) (joined (map_order (map_to_list (get_values c)))))) ;;;
      xmodify (fun s => (s.1.1, kv_cookies h c s.1.2, s.2))
  end.

(** The constructors. *)
Definition kv_holder_new (https : bool) : X world kv_holder := id <- on_os sys_uuid ;; xret (KvHolder id true https).
Definition kv_holder_of (session_id : string) (https : bool) : X world kv_holder :=
  if is_empty session_id then kv_holder_new https else xret (KvHolder session_id false https).

Definition kv_create (req : http_request) : X world kv_holder :=
  match map_find "session" (get_cookies req) with
  | Some value => kv_holder_of value (get_https req)
  | None => kv_holder_new (get_https req)
  end.

Definition kv_sessions : Sessions := {|
  session_holder := kv_holder;
  session_id := kv_id;
  create_session := kv_create;
  session_load := kv_load;
  session_save := kv_save
|}.
End shared.

(** ** Redis *)

(** A reply, by its [type]. *)
Inductive redisReply :=
  | REDIS_REPLY_STRING (str : string)
  | REDIS_REPLY_STATUS (str : string)
  | REDIS_REPLY_ERROR (str : string)
  | REDIS_REPLY_INTEGER (z : Z)
  | REDIS_REPLY_NIL
  | REDIS_REPLY_ARRAY (elements : list string).

(** hiredis: a connection that cannot be made has its error set; a command without a reply is [NULL]. *)
Class Hiredis `{Services} := {
  redisContext : Type;
  redisConnect : string -> Z -> sys -> option redisContext * sys;
  redis_err : redisContext -> bool;
  redis_errstr : redisContext -> string;
  redisCommand : redisContext -> list string -> sys -> option redisReply * redisContext * sys;
  redisFree : redisContext -> sys -> sys
}.

Record redis_connection `{Hiredis} := RedisConnection { rc : option redisContext; rc_configured : bool }.
Arguments RedisConnection {_ _} _ _.

(** The pool, which takes a connection back when the pointer to it goes out of scope. *)
Class RedisPool `{Hiredis} := {
  redis_acquire : string -> sys -> outcome redis_connection * sys;
  redis_release : string -> redis_connection -> sys -> sys
}.

Section redis.
Context `{Dcl, Platform, Services, Http, !Hiredis, !RedisPool}.

Notation RC := (X (redis_connection * world)).

Definition on_system {A} (f : sys -> A * sys) : RC A := xzoom snd (fun w s => (s.1, w)) (on_os f).
Definition put_connection (c : redis_connection) : RC unit := xmodify (fun s => (c, s.2)).

Definition redis_connect_to (i : string) : RC unit :=
  let hp := tokenize_by i ":" in
  p <- match hp with _ :: port :: _ => int_of (trim port) | _ => xret 6379 end ;;
  match hp with
  | [] => xcrash MemFault
  | host :: _ =>
      c <- on_system (redisConnect (c_str (trim host)) p) ;;
      s <- xget ;;
      put_connection (RedisConnection c (rc_configured s.1)) ;;;
      match c with
      | None => xcrash NullDeref
      | Some x => if redis_err x then throw (dbp_exception (redis_errstr x)) else put_connection (RedisConnection c true)
      end
  end.

Definition redis_configure (host_and_port : string) : RC unit := for_each redis_connect_to (tokenize (trim host_and_port)).

(** [redisCommand(c, ...)]. *)
Definition redis_command (args : list string) : RC (option redisReply) :=
  s <- xget ;;
  match rc s.1 with
  | None => xcrash NullDeref
  | Some x =>
      a <- on_system (fun o => let '(r, x', o') := redisCommand x args o in ((r, x'), o')) ;;
      put_connection (RedisConnection (Some a.2) (rc_configured s.1)) ;;;
      xret a.1
  end.

(** [c->errstr]. *)
Definition redis_error : RC string :=
  s <- xget ;;
  match rc s.1 with None => xcrash NullDeref | Some x => xret (redis_errstr x) end.

Definition redis_must (args : list string) : RC unit :=
  s <- xget ;;
  if rc_configured s.1 then
    r <- redis_command args ;;
    match r with Some _ => xret tt | None => m <- redis_error ;; throw (dbp_exception m) end
  else xret tt.

Definition redis_login (password : string) : RC unit := redis_must ["AUTH"; c_str password].
Definition redis_select_database (database : Z) : RC unit := redis_must ["SELECT"; pretty database].

Definition redis_reset : RC unit :=
  s <- xget ;;
  match rc s.1 with None => xret tt | Some x => on_system (fun o => (tt, redisFree x o)) end ;;;
  put_connection (RedisConnection None false).

(** What the factory gives to a session. *)
Record redis_config := RedisConfig { ttl : Z; database_number : Z; server : string; password : string }.

Context (cfg : redis_config).

Definition redis_prepare : RC unit :=
  s <- xget ;;
  if rc_configured s.1 then xret tt
  else
    redis_configure (server cfg) ;;;
    (if is_empty (password cfg) then xret tt else redis_login (password cfg)) ;;;
    if database_number cfg >? 0 then redis_select_database (database_number cfg) else xret tt.

(** [pool_ptr<redis_connection> c = ...acquire(server)] and its scope. *)
Definition with_redis {A} (m : RC A) : X world A :=
  r <- on_os (redis_acquire (server cfg)) ;;
  match r with
  | Exc e => throw e
  | Val c => fun w =>
      match m (c, w) with
      | Ok (o, (c', w'), s) => Ok (o, w' <| os := redis_release (server cfg) c' (os w') |>, s)
      | Crash f => Crash f
      | NoFuel => NoFuel
      end
  end.

(** A command without a reply: the text of the error, and the connection is given up. *)
Definition redis_failed {A} : RC (A + string) := m <- redis_error ;; redis_reset ;;; xret (inr m).

Definition get_attempt (key : string) : RC (string + string) :=
  redis_prepare ;;;
  r <- redis_command ["GET"; c_str key] ;;
  match r with
  | Some (REDIS_REPLY_STRING str) => xret (inl (c_str str))
  | Some _ => xret (inl "")
  | None => redis_failed
  end.

Definition put_attempt (key value : string) : RC (unit + string) :=
  redis_prepare ;;;
  r <- redis_command ["SET"; c_str key; c_str value] ;;
  match r with
  | None => redis_failed
  | Some _ =>
      if ttl cfg >? 0 then
        r <- redis_command ["EXPIRE"; c_str key; pretty (ttl cfg)] ;;
        match r with Some _ => xret (inl tt) | None => redis_failed end
      else xret (inl tt)
  end.

(** [while (attempts)]. *)
Fixpoint retry {A} (attempts : nat) (msg : string) (m : RC (A + string)) : X world A :=
  match attempts with
  | O => throw (dbp_exception msg)
  | S n => r <- with_redis m ;; match r with inl a => xret a | inr msg => retry n msg m end
  end.

Definition redis_get_value (key : string) : X world string := retry 3 "Unknown error" (get_attempt key).
Definition redis_put_value (key value : string) : X world unit := retry 3 "Unknown error" (put_attempt key value).

Definition redis_sessions : Sessions := kv_sessions redis_get_value redis_put_value.
End redis.

(** ** memcached *)

Inductive memcached_return := MEMCACHED_SUCCESS | MEMCACHED_NOTFOUND | MEMCACHED_ERROR (code : Z).

(** libmemcached, whose functions also take a null pointer. *)
Class Memcached `{Services} := {
  memcached_st : Type;
  memcached_server_add : option memcached_st -> string -> Z -> sys -> option memcached_st * sys;
  memcached_get : option memcached_st -> string -> sys -> option string * memcached_return * option memcached_st * sys;
  memcached_set : option memcached_st -> string -> string -> Z -> sys -> memcached_return * option memcached_st * sys;
  memcached_strerror : option memcached_st -> memcached_return -> string;
  memcached_free : memcached_st -> sys -> sys
}.

Record memcached_connection `{Memcached} := MemcachedConnection { mc : option memcached_st; mc_configured : bool }.
Arguments MemcachedConnection {_ _} _ _.

Class MemcachedPool `{Memcached} := {
  mc_acquire : string -> sys -> outcome memcached_connection * sys;
  mc_release : string -> memcached_connection -> sys -> sys
}.

Section memcached.
Context `{Dcl, Platform, Services, Http, !Memcached, !MemcachedPool}.

Notation MC := (X (memcached_connection * world)).

(** A function on the [memcached_st] that the connection points to. *)
Definition on_mc {A} (f : option memcached_st -> sys -> A * option memcached_st * sys) : MC A := fun s =>
  let '(a, m, o) := f (mc s.1) (os s.2) in
  Ok (Val a, (MemcachedConnection m (mc_configured s.1), s.2 <| os := o |>), "").

Definition mc_configure (host : string) (port : Z) : MC unit :=
  on_mc (fun m o => let '(m', o') := memcached_server_add m (c_str host) port o in (tt, m', o')) ;;;
  xmodify (fun s => (MemcachedConnection (mc s.1) true, s.2)).

Definition mc_reset : MC unit :=
  on_mc (fun m o => (tt, None, match m with Some x => memcached_free x o | None => o end)) ;;;
  xmodify (fun s => (MemcachedConnection (mc s.1) false, s.2)).

Record memcached_config := MemcachedConfig { mc_ttl : Z; mc_servers : string }.
Context (cfg : memcached_config).

Definition mc_add_server (i : string) : MC unit :=
  let hp := tokenize_by i ":" in
  port <- match hp with _ :: p :: _ => int_of (trim p) | _ => xret 11211 end ;;
  match hp with [] => xcrash MemFault | host :: _ => mc_configure (trim host) port end.

Definition mc_prepare : MC unit :=
  s <- xget ;;
  if mc_configured s.1 then xret tt else for_each mc_add_server (tokenize (mc_servers cfg)).

(** [throw mod_session_memcached_exception(memcached_strerror(...))]. *)
Definition mc_failed {A} (error : memcached_return) : MC A :=
  s <- xget ;; throw (dbp_exception (memcached_strerror (mc s.1) error)).

(** [catch (...) { c->reset(); throw; }]. *)
Definition mc_guarded {A} (m : MC A) : MC A := catch m (fun e => mc_reset ;;; throw e).

Definition mc_get (key : string) : MC string :=
  mc_guarded (
    mc_prepare ;;;
    r <- on_mc (fun m o => let '(v, e, m', o') := memcached_get m key o in ((v, e), m', o')) ;;
    match r with
    | (Some value, _) => xret (c_str value)
    | (None, MEMCACHED_SUCCESS) | (None, MEMCACHED_NOTFOUND) => xret ""
    | (None, error) => mc_failed error
    end).

Definition mc_put (key value : string) : MC unit :=
  mc_guarded (
    mc_prepare ;;;
    r <- on_mc (fun m o => memcached_set m key value (mc_ttl cfg) o) ;;
    match r with MEMCACHED_SUCCESS => xret tt | error => mc_failed error end).

Definition with_memcached {A} (m : MC A) : X world A :=
  r <- on_os (mc_acquire (mc_servers cfg)) ;;
  match r with
  | Exc e => throw e
  | Val c => fun w =>
      match m (c, w) with
      | Ok (o, (c', w'), s) => Ok (o, w' <| os := mc_release (mc_servers cfg) c' (os w') |>, s)
      | Crash f => Crash f
      | NoFuel => NoFuel
      end
  end.

Definition memcached_get_value (key : string) : X world string := with_memcached (mc_get key).
Definition memcached_put_value (key value : string) : X world unit := with_memcached (mc_put key value).

Definition memcached_sessions : Sessions := kv_sessions memcached_get_value memcached_put_value.
End memcached.

(** ** Both are session services of the server *)

Section laws.
Context `{Dcl, !DclLaws, Platform, !PlatformLaws, Services, Http}.

Lemma keeps_snd {S A} (m : X world A) : keeps quiet m -> keeps (on_contexts snd) (xzoom snd (fun w (s : S * world) => (s.1, w)) m).
Proof. intros Hm. by apply (zoom_quiet snd id). Qed.

(** A computation on a larger state that leaves the contexts as they are. *)
Lemma same_contexts_quiet {S A} (m : X (S * world) A) :
  (forall s, match m s with Ok (_, s', _) => chain s.2 = chain s'.2 | Crash f => no_type_error f | NoFuel => True end) ->
  keeps (on_contexts snd) m.
Proof.
  intros Hm s _. specialize (Hm s). destruct (m s) as [[[o s'] t]| |]; [|done..]. cbn. rewrite Hm. unfold stacks_part. reflexivity.
Qed.

Lemma crash_contexts_quiet {S A} f : no_type_error f -> keeps (on_contexts snd) (xcrash f : X (S * world) A).
Proof. intros. by apply same_contexts_quiet. Qed.

Section kv.
Context (get_value_of : string -> X world string) (put_value_of : string -> string -> X world unit).
Context (Hget : forall k, keeps quiet (get_value_of k)) (Hput : forall k v, keeps quiet (put_value_of k v)).

Lemma kv_sessions_laws : SessionsLaws (kv_sessions get_value_of put_value_of).
Proof.
  split.
  - intros req. change (keeps quiet (kv_create req)). unfold kv_create, kv_holder_of, kv_holder_new. keeps.
  - change (keeps (on_contexts snd) (kv_load get_value_of)). unfold kv_load, load_text. keeps.
    apply keeps_snd. keeps.
  - change (keeps (on_contexts snd) (kv_save put_value_of)). unfold kv_save.
    apply keeps_bind; [exact _|keeps|]. intros [[h r] w]. destruct (chain w) as [|c ps].
    + apply crash_contexts_quiet. split; discriminate.
    + apply keeps_bind; [exact _| |intros []; by apply same_contexts_quiet].
      destruct (empty c); [keeps|apply keeps_snd, Hput].
Qed.
End kv.

(** The connection of a pool is part of the state while it is used. *)
Lemma with_connection_quiet {C A} (m : X (C * world) A) (rel : C -> sys -> sys) (c : C) :
  keeps (on_contexts snd) m ->
  keeps quiet (fun w => match m (c, w) with
    | Ok (o, (c', w'), s) => Ok (o, w' <| os := rel c' (os w') |>, s)
    | Crash f => Crash f
    | NoFuel => NoFuel
    end).
Proof. intros Hm w Hw. specialize (Hm (c, w) Hw). by destruct (m (c, w)) as [[[o [c' w']] s]| |]. Qed.

Section redis.
Context `{!Hiredis, !RedisPool} (cfg : redis_config).

Notation quiet_rc := (keeps (on_contexts (snd : redis_connection * world -> world))).

Lemma on_system_quiet {A} (f : sys -> A * sys) : quiet_rc (on_system f).
Proof. apply keeps_snd, on_os_quiet. Qed.
Lemma put_connection_quiet c : quiet_rc (put_connection c).
Proof. by apply same_contexts_quiet. Qed.
#[local] Hint Resolve on_system_quiet put_connection_quiet : keeps.
#[local] Hint Extern 2 (keeps (on_contexts snd) (xcrash _)) => apply crash_contexts_quiet; split; discriminate : keeps.

Lemma redis_command_quiet args : quiet_rc (redis_command args).
Proof. unfold redis_command. keeps. Qed.
Lemma redis_error_quiet : quiet_rc redis_error.
Proof. unfold redis_error. keeps. Qed.
#[local] Hint Resolve redis_command_quiet redis_error_quiet : keeps.

Lemma redis_prepare_quiet : quiet_rc (redis_prepare cfg).
Proof. unfold redis_prepare, redis_configure, redis_connect_to, redis_login, redis_select_database, redis_must, int_of. keeps. Qed.
Lemma redis_failed_quiet {A} : quiet_rc (@redis_failed _ _ A).
Proof. unfold redis_failed, redis_reset. keeps. Qed.
#[local] Hint Resolve redis_prepare_quiet redis_failed_quiet : keeps.

Lemma retry_quiet {A} n msg (m : X (redis_connection * world) (A + string)) : quiet_rc m -> keeps quiet (retry cfg n msg m).
Proof.
  intros Hm. revert msg. induction n as [|n IH]; intros msg; cbn [retry]; [keeps|].
  apply keeps_bind; [exact _| |intros [a|m']; [keeps|apply IH]].
  unfold with_redis. apply keeps_bind; [exact _|keeps|]. intros [c|e]; [by apply with_connection_quiet|keeps].
Qed.

#[export] Instance redis_sessions_laws : SessionsLaws (redis_sessions cfg).
Proof.
  apply kv_sessions_laws; intros; apply retry_quiet; unfold get_attempt, put_attempt; keeps.
Qed.
End redis.

Section memcached.
Context `{!Memcached, !MemcachedPool} (cfg : memcached_config).

Notation quiet_mc := (keeps (on_contexts (snd : memcached_connection * world -> world))).

Lemma on_mc_quiet {A} (f : option memcached_st -> sys -> A * option memcached_st * sys) : quiet_mc (on_mc f).
Proof. apply same_contexts_quiet. intros [c w]. unfold on_mc. by destruct (f _ _) as [[a m] o]. Qed.
Lemma set_mc_quiet f : quiet_mc (xmodify (fun s => (f s, s.2))).
Proof. by apply same_contexts_quiet. Qed.
#[local] Hint Resolve on_mc_quiet set_mc_quiet : keeps.
#[local] Hint Extern 2 (keeps (on_contexts snd) (xcrash _)) => apply crash_contexts_quiet; split; discriminate : keeps.
#[local] Hint Extern 2 (keeps (on_contexts snd) (xmodify _)) => apply set_mc_quiet : keeps.

Lemma mc_guarded_quiet {A} (m : X (memcached_connection * world) A) : quiet_mc m -> quiet_mc (mc_guarded m).
Proof. intros. unfold mc_guarded, mc_reset. keeps. Qed.

Lemma with_memcached_quiet {A} (m : X (memcached_connection * world) A) : quiet_mc m -> keeps quiet (with_memcached cfg m).
Proof.
  intros Hm. unfold with_memcached. apply keeps_bind; [exact _|keeps|].
  intros [c|e]; [by apply with_connection_quiet|keeps].
Qed.

#[export] Instance memcached_sessions_laws : SessionsLaws (memcached_sessions cfg).
Proof.
  apply kv_sessions_laws; intros; apply with_memcached_quiet, mc_guarded_quiet;
    unfold mc_prepare, mc_add_server, mc_configure, mc_failed, int_of; keeps.
Qed.
End memcached.
End laws.
