(* ===== verification/DbStored.v ===== *)
(** * What a session in Redis promises

    The round trip of mod_session_redis: the variables that a request saves are those that the next
    request with its cookie loads ([redis_roundtrip]), whatever connections the pool gives, with
    reconnections and retries.  [RedisLaws] is what Redis and the pool do, errors included, [TextLaws] what
    DCL's tokenizer does.  The code does not look at the type of a reply, so that the round trip needs a
    server that does not refuse its commands ([accepts_commands]); with one that does, a session is lost
    without an error ([refused_set_returns]).  The proofs go through the code with a small program logic
    ([hoare]).
    And what mod_session_memcached does not: one error disables a connection of its pool for good
    ([memcached_stays_broken]). *)

From S2P Require Import Prelude DbLang DbContext DbTag DbServices DbStrings DbHttp DbSession DbStore.

(** ** A logic for computations that do not crash

    [hoare P m Q E]: from a state with [P], [m] writes nothing and returns a value with [Q], or throws
    in a state with [E]. *)

Definition hoare {W A} (P : W -> Prop) (m : X W A) (Q : A -> W -> Prop) (E : W -> Prop) : Prop := forall w, P w ->
  match m w with
  | Ok (Val a, w', s) => s = "" /\ Q a w'
  | Ok (Exc _, w', s) => s = "" /\ E w'
  | Crash _ | NoFuel => False
  end.

Section hoare.
Context {W : Type}.
Implicit Types P E : W -> Prop.

Lemma hoare_ret {A} (a : A) P Q E : (forall w, P w -> Q a w) -> hoare P (xret a) Q E.
Proof. intros H w Hw. split; [done|by apply H]. Qed.

Lemma hoare_throw {A} e P (Q : A -> W -> Prop) E : (forall w, P w -> E w) -> hoare P (throw e) Q E.
Proof. intros H w Hw. split; [done|by apply H]. Qed.

Lemma hoare_bind {A B} (m : X W A) (k : A -> X W B) P R Q E :
  hoare P m R E -> (forall a, hoare (R a) (k a) Q E) -> hoare P (xbind m k) Q E.
Proof.
  intros Hm Hk w Hw. specialize (Hm w Hw). unfold xbind. destruct (m w) as [[[[a|e] w'] s]| |]; [|done..].
  destruct Hm as [-> Ha]. specialize (Hk a w' Ha). unfold after. by destruct (k a w') as [[[[b|e] w2] t]| |].
Qed.

Lemma hoare_weaken {A} (m : X W A) P P' Q Q' E E' :
  hoare P m Q E -> (forall w, P' w -> P w) -> (forall a w, Q a w -> Q' a w) -> (forall w, E w -> E' w) -> hoare P' m Q' E'.
Proof.
  intros Hm HP HQ HE w Hw. specialize (Hm w (HP w Hw)). destruct (m w) as [[[[a|e] w'] s]| |]; [|by destruct Hm; auto..|done].
  destruct Hm. auto.
Qed.

Lemma hoare_pre {A} (m : X W A) P P' Q E : hoare P m Q E -> (forall w, P' w -> P w) -> hoare P' m Q E.
Proof. intros. by eapply hoare_weaken. Qed.

(** A decision on the state. *)
Lemma hoare_get {A} (k : W -> X W A) P Q E : (forall w, P w -> hoare (eq w) (k w) Q E) -> hoare P (xbind xget k) Q E.
Proof.
  intros H. eapply hoare_bind with (R := fun w w' => w' = w /\ P w); [by intros w Hw|].
  intros w w' [-> Hw]. by apply (H w Hw).
Qed.

(** A loop with an invariant that its body establishes, over a list that is not empty. *)
Lemma hoare_for_each {A} (f : A -> X W unit) l P Q E :
  l <> [] -> (forall w, Q w -> P w) -> (forall a, a ∈ l -> hoare P (f a) (fun _ => Q) E) -> hoare P (for_each f l) (fun _ => Q) E.
Proof.
  intros Hl HQ. induction l as [|a l IH]; [done|]. intros Hf. cbn [for_each].
  eapply hoare_bind; [apply Hf; by left|]. intros []. destruct l as [|b l]; [by apply hoare_ret|].
  eapply hoare_weaken; [apply IH; [done|intros; apply Hf; by right]|done..].
Qed.

Lemma hoare_of_option {A} e (o : option A) P E : (forall w, P w -> E w) -> hoare P (of_option e o) (fun _ => P) E.
Proof. intros H w Hw. destruct o; split; auto. Qed.
End hoare.

(** ** The server *)

(** A connection that can be used: it is broken, or [db] is selected on it and its user is authorised. *)
Definition ready `{Hiredis} (selected : redisContext -> string) (authorised : redisContext -> Prop) (db : string)
    (c : redis_connection) : Prop :=
  exists x, rc c = Some x /\ (redis_err x = true \/ selected x = db /\ authorised x).

Definition conn_ok `{Hiredis} (selected : redisContext -> string) (authorised : redisContext -> Prop) (db : string)
    (c : redis_connection) : Prop :=
  rc_configured c = true -> ready selected authorised db c.

Definition is_error (r : redisReply) : bool := match r with REDIS_REPLY_ERROR _ => true | _ => false end.

Definition get_reply (v : option string) : redisReply :=
  match v with Some s => REDIS_REPLY_STRING s | None => REDIS_REPLY_NIL end.

(** [redis_data db s] is what the server stores in a database, whose number is written in decimal;
    [selected x]: the database of the connection; [authorised x]: the server lets its user run commands;
    [redis_pooled db key s]: the connections that wait in the pool under [key] can be used for [db].  A
    command that is answered by an error has no effect; one that is not answered may have had it. *)
Class RedisLaws `{RedisPool} := {
  redis_data : string -> sys -> gmap string string;
  selected : redisContext -> string;
  authorised : redisContext -> Prop;
  redis_pooled : string -> string -> sys -> Prop;
  redisConnect_law host p s : exists x s', redisConnect host p s = (Some x, s') /\ selected x = "0" /\
    (forall db, redis_data db s' = redis_data db s) /\ (forall db k, redis_pooled db k s -> redis_pooled db k s');
  redisCommand_pooled x args s r x' s' : redisCommand x args s = (r, x', s') ->
    forall db k, redis_pooled db k s -> redis_pooled db k s';
  redisCommand_err x args s r x' s' : redisCommand x args s = (r, x', s') ->
    match r with None => redis_err x' = true | Some _ => redis_err x = false end;
  redis_GET x k s r x' s' : redisCommand x ["GET"; k] s = (r, x', s') ->
    (forall db, redis_data db s' = redis_data db s) /\
    (forall rep, r = Some rep -> selected x' = selected x /\ (authorised x -> authorised x') /\
       (is_error rep = true \/ rep = get_reply (redis_data (selected x) s !! k)));
  redis_SET x k v s rep x' s' : redisCommand x ["SET"; k; v] s = (Some rep, x', s') ->
    selected x' = selected x /\ (authorised x -> authorised x') /\
    redis_data (selected x) s' = if is_error rep then redis_data (selected x) s else <[k := v]> (redis_data (selected x) s);
  redis_AUTH x p s r x' s' : redisCommand x ["AUTH"; p] s = (r, x', s') ->
    (forall db, redis_data db s' = redis_data db s) /\ (r <> None -> selected x' = selected x);
  redis_EXPIRE x k n s r x' s' : redisCommand x ["EXPIRE"; k; n] s = (r, x', s') ->
    (forall db, redis_data db s' = redis_data db s) /\
    (r <> None -> selected x' = selected x /\ (authorised x -> authorised x'));
  redis_SELECT x n s r x' s' : redisCommand x ["SELECT"; n] s = (r, x', s') ->
    (forall db, redis_data db s' = redis_data db s) /\
    (forall rep, r = Some rep -> selected x' = (if is_error rep then selected x else n) /\ (authorised x -> authorised x'));
  redisFree_law x s : (forall db, redis_data db (redisFree x s) = redis_data db s) /\
    (forall db k, redis_pooled db k s -> redis_pooled db k (redisFree x s));
  redis_acquire_law k s r s' : redis_acquire k s = (r, s') ->
    (forall db, redis_data db s' = redis_data db s) /\
    (forall db k', redis_pooled db k' s -> redis_pooled db k' s') /\
    (forall db c, redis_pooled db k s -> r = Val c -> conn_ok selected authorised db c);
  redis_release_law k c s : (forall db, redis_data db (redis_release k c s) = redis_data db s) /\
    (forall db, redis_pooled db k s -> conn_ok selected authorised db c -> redis_pooled db k (redis_release k c s))
}.

Section redis.
Context `{Dcl, Platform, Services, Http, !Hiredis, !RedisPool, !RedisLaws} (cfg : redis_config).

(** The database of the module. *)
Definition db_of : string := if database_number cfg >? 0 then pretty (database_number cfg) else "0".

(** The setting of the server names one, at least, and its ports are numbers. *)
Definition names_server : Prop :=
  tokenize (trim (server cfg)) <> [] /\ forall i, i ∈ tokenize (trim (server cfg)) ->
    match tokenize_by i ":" with
    | [] => False
    | [_] => True
    | _ :: port :: _ => from_string_int (trim port) <> None
    end.

(** The server answers none of the module's commands with an error: without a password its connections
    are authorised, with one [AUTH] with it authorises, the database exists, and the data can be read and
    written. *)
Record accepts_commands : Prop := {
  accepts_open host p s x s' : is_empty (password cfg) = true -> redisConnect host p s = (Some x, s') -> authorised x;
  accepts_login x s rep x' s' : is_empty (password cfg) = false ->
    redisCommand x ["AUTH"; c_str (password cfg)] s = (Some rep, x', s') -> authorised x';
  accepts_select x s rep x' s' : authorised x ->
    redisCommand x ["SELECT"; pretty (database_number cfg)] s = (Some rep, x', s') -> is_error rep = false;
  accepts_get x k s rep x' s' : authorised x -> redisCommand x ["GET"; k] s = (Some rep, x', s') -> is_error rep = false;
  accepts_set x k v s rep x' s' : authorised x -> redisCommand x ["SET"; k; v] s = (Some rep, x', s') -> is_error rep = false
}.

Context (Hserver : names_server) (Haccepts : accepts_commands).

(** The data of the server is as [D] says, the pool is sound, and the contexts are [ch]. *)
Definition stored (D : gmap string string -> Prop) (ch : list context) (w : world) : Prop :=
  D (redis_data db_of (os w)) /\ redis_pooled db_of (server cfg) (os w) /\ chain w = ch.

Section data.
Context (D : gmap string string -> Prop) (ch : list context).

(** With a connection out of the pool. *)
Definition on_conn (C : redis_connection -> Prop) (s : redis_connection * world) : Prop := C s.1 /\ stored D ch s.2.

Notation ok := (conn_ok selected authorised db_of).

Lemma stored_os o o' w :
  os w = o -> stored D ch w -> (forall db, redis_data db o' = redis_data db o) ->
  (forall db k, redis_pooled db k o -> redis_pooled db k o') -> stored D ch (w <| os := o' |>).
Proof. intros <- (HD & Hpool & Hch) Hd Hp. split; [cbn; by rewrite Hd|]. split; [by apply Hp|done]. Qed.

(** A connection that was made. *)
Definition holds (C : redisContext -> Prop) (b : bool) (c : redis_connection) : Prop :=
  exists x, c = RedisConnection (Some x) b /\ C x.
Definition broken (x : redisContext) : Prop := redis_err x = true.
Definition usable (x : redisContext) : Prop := broken x \/ selected x = db_of /\ authorised x.

(** Before and after the login. *)
Definition fresh_conn (x : redisContext) : Prop := selected x = "0" /\ (is_empty (password cfg) = true -> authorised x).
Definition logged_in (x : redisContext) : Prop := selected x = "0" /\ authorised x.

Lemma holds_ok C b c : (forall x, C x -> usable x) -> holds C b c -> ok c.
Proof. intros Hi (x & -> & Hx) _. exists x. split; [done|]. by destruct (Hi x Hx); [left|right]. Qed.

(** [redisCommand] on a connection. *)
Lemma redis_command_eq args x b w :
  redis_command args (RedisConnection (Some x) b, w) =
  let '(r, x', o) := redisCommand x args (os w) in Ok (Val r, (RedisConnection (Some x') b, w <| os := o |>), "").
Proof.
  unfold redis_command, on_system, on_os, put_connection, xbind, xget, xzoom, xmodify, xret. cbn.
  by destruct (redisCommand x args (os w)) as [[r x'] o].
Qed.

(** A command that leaves the data as they are and, when it is answered, the connection with [C']. *)
Lemma command_spec (C C' : redisContext -> Prop) b args :
  (forall x s r x' s', C x -> redisCommand x args s = (r, x', s') ->
     (forall db, redis_data db s' = redis_data db s) /\ (r <> None -> redis_err x = false -> C' x')) ->
  hoare (on_conn (holds C b)) (redis_command args)
    (fun r => on_conn (holds (match r with Some _ => C' | None => broken end) b)) (fun _ => False).
Proof.
  intros Hc [c w] [Hx Hs]. cbn in Hx, Hs. destruct Hx as (x & -> & Hx). rewrite redis_command_eq.
  destruct (redisCommand x args (os w)) as [[r x'] o] eqn:E. split; [done|].
  destruct (Hc _ _ _ _ _ Hx E) as [Hd Hn]. pose proof (redisCommand_err _ _ _ _ _ _ E) as He. split.
  - exists x'. split; [done|]. destruct r; [by apply Hn|done].
  - eapply stored_os; [done|exact Hs|exact Hd|]. intros db k. by eapply redisCommand_pooled.
Qed.

Lemma error_spec C b (K : string -> redis_connection * world -> Prop) :
  (forall m s, on_conn (holds C b) s -> K m s) -> hoare (on_conn (holds C b)) redis_error K (fun _ => False).
Proof.
  intros HK [c w] [Hx Hs]. cbn in Hx, Hs. destruct Hx as (x & -> & Hx). split; [done|]. apply HK. split; [|exact Hs]. by exists x.
Qed.

Lemma must_spec (C C' : redisContext -> Prop) args :
  (forall x s r x' s', C x -> redisCommand x args s = (r, x', s') ->
     (forall db, redis_data db s' = redis_data db s) /\ (r <> None -> redis_err x = false -> C' x')) ->
  hoare (on_conn (holds C true)) (redis_must args) (fun _ => on_conn (holds C' true)) (on_conn (holds broken true)).
Proof.
  intros Hc. unfold redis_must. apply hoare_get. intros s Hs.
  assert (rc_configured s.1 = true) as -> by (destruct Hs as [(x & Ex & _) _]; by rewrite Ex).
  eapply hoare_weaken with (P := on_conn (holds C true)); [|by intros w <-|intros a w Hw; exact Hw|intros w Hw; exact Hw].
  eapply hoare_bind; [eapply hoare_weaken; [by apply command_spec|done| |done]; intros a w Hw; exact Hw|].
  intros [r|]; [by apply hoare_ret|].
  eapply hoare_bind with (R := fun _ => on_conn (holds broken true)).
  - eapply hoare_weaken; [by apply error_spec with (K := fun _ => on_conn (holds broken true))|done..].
  - intros m. by apply hoare_throw.
Qed.

(** [configure] makes a connection to the last server of the list. *)
Lemma connect_to_spec i : i ∈ tokenize (trim (server cfg)) ->
  hoare (on_conn (fun _ => True)) (redis_connect_to i) (fun _ => on_conn (holds fresh_conn true)) (on_conn ok).
Proof.
  intros Hi. pose proof (proj2 Hserver i Hi) as Hp. unfold redis_connect_to.
  destruct (tokenize_by i ":") as [|host l]; [done|].
  eapply hoare_bind with (R := fun _ => on_conn (fun _ => True)).
  { destruct l as [|port l]; [by apply hoare_ret|]. unfold int_of. destruct (from_string_int (trim port)); [|done]. by apply hoare_ret. }
  intros p [c w] [_ Hs]. cbn in Hs. destruct (redisConnect_law (c_str (trim host)) p (os w)) as (x & o & E & Hx & Hd & Hpool).
  assert (stored D ch (w <| os := o |>)) as Hs'
    by (eapply stored_os; [done|exact Hs|exact Hd|]; intros db k; by apply Hpool).
  unfold on_system, on_os, put_connection, xbind, xget, xzoom, xmodify. cbn. rewrite E. cbn.
  destruct (redis_err x) eqn:Hx'; (split; [done|]); (split; [|exact Hs']).
  - intros _. exists x. split; [done|]. by left.
  - exists x. split; [done|]. split; [done|]. intros Hpw. by apply (accepts_open Haccepts _ _ _ _ _ Hpw E).
Qed.

Lemma on_conn_weaken (C C' : redis_connection -> Prop) s : (forall c, C c -> C' c) -> on_conn C s -> on_conn C' s.
Proof. intros Hi [HC Hs]. split; auto. Qed.

Lemma broken_usable x : broken x -> usable x.
Proof. by left. Qed.

(** A connection that is ready for use, or an exception. *)
Lemma prepare_spec : hoare (on_conn ok) (redis_prepare cfg) (fun _ => on_conn (holds usable true)) (on_conn ok).
Proof.
  unfold redis_prepare. apply hoare_get. intros s Hs. destruct (rc_configured s.1) eqn:Ec.
  - apply hoare_ret. intros w <-. destruct Hs as [Hok Hs]. split; [|exact Hs]. destruct (Hok Ec) as (x & Ex & Hx).
    exists x. destruct s as [[c b] w]. cbn in *. subst. split; [done|]. destruct Hx; [by left|by right].
  - eapply hoare_bind with (R := fun _ => on_conn (holds fresh_conn true)).
    { eapply hoare_weaken with (P := on_conn (fun _ => True));
        [eapply hoare_for_each; [apply Hserver| |by intros i Hi; apply connect_to_spec]|intros w <-|done..].
      - intros w. apply on_conn_weaken. done.
      - eapply on_conn_weaken; [|exact Hs]. done. }
    intros _. eapply hoare_bind with (R := fun _ => on_conn (holds logged_in true)).
    { destruct (is_empty (password cfg)) eqn:Epw.
      { apply hoare_ret. intros w. apply on_conn_weaken. intros c (x & -> & Hx & Ha). exists x. split; [done|]. split; [done|]. by apply Ha. }
      eapply hoare_weaken; [apply must_spec|done|intros a w Hw; exact Hw|].
      - intros x o r x' o' [Hx _] E. destruct (redis_AUTH _ _ _ _ _ _ E) as [Hd Hsel]. split; [done|]. intros Hr _.
        destruct r as [rep|]; [|done]. split; [by rewrite Hsel|]. by apply (accepts_login Haccepts _ _ _ _ _ Epw E).
      - intros w. apply on_conn_weaken. intros c. apply holds_ok, broken_usable. }
    intros _. destruct (database_number cfg >? 0) eqn:Edb.
    + eapply hoare_weaken; [apply must_spec with (C' := fun x => selected x = pretty (database_number cfg) /\ authorised x)|done| |].
      * intros x o r x' o' [Hx Ha] E. destruct (redis_SELECT _ _ _ _ _ _ E) as [Hd Hsel]. split; [done|].
        destruct r as [rep|]; [|done]. intros _ _. destruct (Hsel rep eq_refl) as [Hsel' Ha'].
        rewrite (accepts_select Haccepts _ _ _ _ _ Ha E) in Hsel'. auto.
      * intros a w. apply on_conn_weaken. intros c (x & -> & Hx). exists x. split; [done|]. right. unfold db_of. by rewrite Edb.
      * intros w. apply on_conn_weaken. intros c. apply holds_ok, broken_usable.
    + apply hoare_ret. intros w. apply on_conn_weaken. intros c (x & -> & Hx & Ha). exists x. split; [done|].
      right. unfold db_of. by rewrite Edb.
Qed.

(** A failed command: the connection is given up. *)
Lemma failed_spec {A} C b : hoare (on_conn (holds C b)) (redis_failed : X _ (A + string))
  (fun r s => on_conn ok s /\ exists m, r = inr m) (fun _ => False).
Proof.
  intros [c w] [Hx Hs]. cbn in Hx, Hs. destruct Hx as (x & -> & Hx). unfold redis_failed, redis_error, redis_reset, on_system, on_os, put_connection.
  unfold xbind, xget, xzoom, xmodify, xret. cbn. split; [done|]. split; [|by eexists]. split; [by intros ?|].
  destruct (redisFree_law x (os w)) as [Hd Hp]. by eapply stored_os.
Qed.
End data.

Section methods.
Context (ch : list context).

Notation ok := (conn_ok selected authorised db_of).

(** The scope of a connection of the pool. *)
Lemma with_redis_spec {A} (D D2 : gmap string string -> Prop) (D1 : A -> gmap string string -> Prop) m :
  hoare (on_conn D ch ok) m (fun a => on_conn (D1 a) ch ok) (on_conn D2 ch ok) ->
  (forall d, D d -> D2 d) ->
  hoare (stored D ch) (with_redis cfg m) (fun a => stored (D1 a) ch) (stored D2 ch).
Proof.
  intros Hm HD2 w Hs. unfold with_redis, on_os, xbind. cbn.
  destruct (redis_acquire (server cfg) (os w)) as [r o] eqn:E. destruct (redis_acquire_law _ _ _ _ E) as (Hd & Hp & Hc).
  assert (stored D ch (w <| os := o |>)) as Hs' by by eapply stored_os.
  destruct r as [c|e]; cbn; [|split; [done|]; split; [by apply HD2, Hs'|apply Hs']].
  assert (ok c) as Hok by (eapply Hc; [apply Hs|done]). specialize (Hm (c, w <| os := o |>) (conj Hok Hs')).
  assert (forall D' c' w', ok c' -> stored D' ch w' -> stored D' ch (w' <| os := redis_release (server cfg) c' (os w') |>)) as Hrel.
  { intros D' c' w' Hc' (HD & Hpool & Hch). destruct (redis_release_law (server cfg) c' (os w')) as [Hdr Hpr].
    split; [cbn; by rewrite Hdr|]. split; [cbn; by apply Hpr|done]. }
  destruct (m _) as [[[[a|e] [c' w']] s]| |]; [| |done..]; destruct Hm as [-> [Hc' Hs2]]; cbn; (split; [done|]); by apply Hrel.
Qed.

(** The attempts: each leaves the data so that the next may follow, or returns. *)
Lemma retry_spec {A} (D : gmap string string -> Prop) (Q : A -> gmap string string -> Prop) n msg m :
  hoare (on_conn D ch ok) m
    (fun r => on_conn (match r with inl a => Q a | inr _ => D end) ch ok) (on_conn D ch ok) ->
  hoare (stored D ch) (retry cfg n msg m) (fun a => stored (Q a) ch) (stored D ch).
Proof.
  intros Hm. revert msg. induction n as [|n IH]; intros msg; cbn [retry]; [by apply hoare_throw|].
  eapply hoare_bind; [by apply with_redis_spec with (D2 := D); [exact Hm|]|].
  intros [a|msg']; [by apply hoare_ret|apply IH].
Qed.

Lemma failed_attempt {A} (D : gmap string string -> Prop) (Q : A -> gmap string string -> Prop) E C b :
  hoare (on_conn D ch (holds C b)) (redis_failed : X _ (A + string))
    (fun r => on_conn (match r with inl a => Q a | inr _ => D end) ch ok) E.
Proof.
  eapply hoare_weaken; [apply failed_spec|done| |done]. intros r s [Hs [m ->]]. exact Hs.
Qed.

Lemma GET_spec d key :
  hoare (on_conn (eq d) ch (holds usable true)) (redis_command ["GET"; key])
    (fun r => match r with
      | Some rep => on_conn (fun d' => d = d' /\ rep = get_reply (d !! key)) ch ok
      | None => on_conn (eq d) ch (holds broken true)
      end) (fun _ => False).
Proof.
  intros [c w] [Hx Hs]. cbn in Hx, Hs. destruct Hx as (x & -> & Hx). rewrite redis_command_eq.
  destruct (redisCommand x _ (os w)) as [[r x'] o] eqn:E. split; [done|]. destruct (redis_GET _ _ _ _ _ _ E) as [Hd Hr].
  pose proof (redisCommand_err _ _ _ _ _ _ E) as He. destruct Hs as (Hdata & Hp & Hch).
  assert (redis_pooled db_of (server cfg) o) as Hp' by by eapply redisCommand_pooled.
  destruct r as [rep|]; (split; [|split; [cbn; rewrite Hd|split; [exact Hp'|done]]]); try done; [| |by exists x'].
  - intros _. destruct Hx as [Hx|[Hx Ha]]; [unfold broken in Hx; congruence|]. destruct (Hr rep eq_refl) as (Hs & Ha' & _).
    exists x'. split; [done|]. right. rewrite Hs. auto.
  - destruct Hx as [Hx|[Hx Ha]]; [unfold broken in Hx; congruence|]. destruct (Hr rep eq_refl) as (_ & _ & Hrep).
    split; [done|]. rewrite (accepts_get Haccepts _ _ _ _ _ _ Ha E), Hx in Hrep. destruct Hrep as [|Hrep]; [done|]. by rewrite Hrep, Hdata.
Qed.

(** [get_value] answers what is stored, or nothing. *)
Lemma get_value_spec d key :
  hoare (stored (eq d) ch) (redis_get_value cfg key)
    (fun v => stored (fun d' => d = d' /\ v = c_str (default "" (d !! c_str key))) ch) (stored (eq d) ch).
Proof.
  apply (retry_spec (eq d) (fun v d' => d = d' /\ v = c_str (default "" (d !! c_str key)))). unfold get_attempt.
  eapply hoare_bind; [apply prepare_spec|]. intros [].
  eapply hoare_bind; [eapply hoare_weaken; [apply GET_spec|done|intros a w Hw; exact Hw|done]|].
  intros [rep|]; [|apply failed_attempt].
  intros s [Hc (Hd & Hs)]. destruct Hd as [Hd ->].
  destruct (d !! c_str key) as [v|] eqn:E; cbn; (split; [done|]); (split; [exact Hc|]); by split.
Qed.

Lemma SET_spec key value :
  hoare (on_conn (fun _ => True) ch (holds usable true)) (redis_command ["SET"; key; value])
    (fun r => match r with
      | Some _ => on_conn (fun d => d !! key = Some value) ch (holds usable true)
      | None => on_conn (fun _ => True) ch (holds broken true)
      end) (fun _ => False).
Proof.
  intros [c w] [Hx Hs]. cbn in Hx, Hs. destruct Hx as (x & -> & Hx). rewrite redis_command_eq.
  destruct (redisCommand x _ (os w)) as [[r x'] o] eqn:E. split; [done|].
  pose proof (redisCommand_err _ _ _ _ _ _ E) as He. destruct Hs as (_ & Hp & Hch).
  assert (redis_pooled db_of (server cfg) o) as Hp' by by eapply redisCommand_pooled.
  destruct r as [rep|]; (split; [|split; [|split; [exact Hp'|done]]]); try done; [| |by exists x'];
    destruct (redis_SET _ _ _ _ _ _ _ E) as (Hsel & Hauth & Hd);
    (destruct Hx as [Hx|[Hx Ha]]; [unfold broken in Hx; congruence|]).
  - exists x'. split; [done|]. right. rewrite Hsel. auto.
  - cbn. rewrite (accepts_set Haccepts _ _ _ _ _ _ _ Ha E) in Hd. rewrite <- Hx, Hd. apply lookup_insert_eq.
Qed.

(** [put_value] returns when the value is stored. *)
Lemma put_value_spec key value :
  hoare (stored (fun _ => True) ch) (redis_put_value cfg key value)
    (fun _ => stored (fun d => d !! c_str key = Some (c_str value)) ch) (stored (fun _ => True) ch).
Proof.
  apply (retry_spec (fun _ => True) (fun _ d => d !! c_str key = Some (c_str value))). unfold put_attempt.
  eapply hoare_bind; [apply prepare_spec|]. intros [].
  eapply hoare_bind; [eapply hoare_weaken; [apply SET_spec|done|intros a w Hw; exact Hw|done]|].
  intros [rep|]; [|apply failed_attempt].
  destruct (ttl cfg >? 0).
  - eapply hoare_bind; [eapply hoare_weaken; [apply command_spec with (C := usable) (C' := usable)|done|intros a w Hw; exact Hw|done]|].
    + intros x o r x' o' Hx E. destruct (redis_EXPIRE _ _ _ _ _ _ _ E) as [Hd Hsel]. split; [done|].
      intros Hr Herr. right. destruct (Hsel Hr) as [Hs Ha]. destruct Hx as [Hx|[Hx Ha']]; [unfold broken in Hx; congruence|].
      rewrite Hs. auto.
    + intros [rep'|].
      * apply hoare_ret. intros w. apply on_conn_weaken. intros c. by apply holds_ok.
      * eapply hoare_pre with (P := on_conn (fun _ => True) ch (holds broken true)); [apply failed_attempt|].
        intros s [Hc [_ Hs]]. split; [exact Hc|by split].
  - apply hoare_ret. intros w. apply on_conn_weaken. intros c. by apply holds_ok.
Qed.
(** Against a server that refuses: [SET] is answered with an error (no password was given, the memory is
    used up, the server is a replica), nothing is stored, and [put_value] returns as if it were. *)
Lemma refused_set_returns x key value w m x' o :
  redisCommand x ["SET"; c_str key; c_str value] (os w) = (Some (REDIS_REPLY_ERROR m), x', o) -> ttl cfg >? 0 = false ->
  put_attempt cfg key value (RedisConnection (Some x) true, w) =
    Ok (Val (inl tt), (RedisConnection (Some x') true, w <| os := o |>), "") /\
  redis_data (selected x) o = redis_data (selected x) (os w).
Proof.
  intros E Ht. split; [|by destruct (redis_SET _ _ _ _ _ _ _ E) as (_ & _ & Hd)].
  unfold put_attempt. rewrite (xbind_Val (redis_prepare cfg) _ _ tt (RedisConnection (Some x) true, w) "") by done.
  rewrite (xbind_Val _ _ _ (Some (REDIS_REPLY_ERROR m)) (RedisConnection (Some x') true, w <| os := o |>) "").
  - by rewrite Ht.
  - by rewrite redis_command_eq, E.
Qed.
End methods.
End redis.

(** ** The text of a session *)

Definition lacks (c : ascii) (s : string) : Prop := c ∉ schars s.

(** What the code relies on of DCL's tokenizer: it cuts at the separator, drops empty pieces and the space
    around them; the pair is cut at the first separator. *)
Class TextLaws `{Dcl, Http} := {
  tokenize_pieces (c : ascii) ps :
    Forall (fun p => p <> "" /\ trim p = p /\ lacks c p) ps -> tokenize_by (join (str1 c) ps) (str1 c) = ps;
  split_pair_at (c : ascii) k v :
    lacks c k -> trim k = k -> trim v = v -> split_pair (k +:+ str1 c +:+ v) (str1 c) = (k, v)
}.

Lemma lacks_app c s t : lacks c (s +:+ t) <-> lacks c s /\ lacks c t.
Proof.
  unfold lacks. assert (schars (s +:+ t) = schars s ++ schars t) as ->.
  { induction s as [|d s IH]; [done|]. rewrite sapp_cons. cbn. by rewrite IH. }
  set_solver.
Qed.

Lemma lacks_char c d : c <> d -> lacks c (String d "").
Proof. intros Hn Hc. apply Hn. by apply list_elem_of_singleton in Hc. Qed.

Lemma c_str_lacks s : lacks (chr 0) s -> c_str s = s.
Proof.
  unfold lacks. induction s as [|c s IH]; [done|]. cbn [schars c_str]. rewrite not_elem_of_cons. intros [Hc Hs].
  unfold is_char. rewrite bool_decide_eq_false_2 by done. by rewrite IH.
Qed.

Definition pair_text (kv : string * string) : string := kv.1 +:+ "=" +:+ kv.2.

Lemma joined_join l : joined l = join ";" (pair_text <$> l).
Proof.
  induction l as [|[k v] l IH]; [done|]. destruct l as [|kv l]; [done|].
  change (joined ((k, v) :: kv :: l)) with (k +:+ "=" +:+ v +:+ ";" +:+ joined (kv :: l)). rewrite IH.
  change (join ";" (pair_text <$> (k, v) :: kv :: l)) with (pair_text (k, v) +:+ ";" +:+ join ";" (pair_text <$> kv :: l)).
  change (pair_text (k, v)) with (k +:+ "=" +:+ v). by rewrite <- !sapp_assoc.
Qed.

Section text.
Context `{Dcl, !DclLaws, Platform, !PlatformLaws, Services, Http, !TextLaws}.

(** A variable that the text can carry: no separators and no space around; its name is as [add_value] makes names. *)
Record carried (k v : string) : Prop := {
  carried_name : k <> "" /\ upname k = k;
  carried_seps : lacks ";" k /\ lacks "=" k /\ lacks ";" v;
  carried_trim : trim k = k /\ trim v = v /\ trim (pair_text (k, v)) = pair_text (k, v);
  carried_nul : lacks (chr 0) k /\ lacks (chr 0) v
}.

Lemma joined_c_str l : Forall (fun kv => carried kv.1 kv.2) l -> c_str (joined l) = joined l.
Proof.
  intros Hl. apply c_str_lacks. rewrite joined_join. induction Hl as [|[k v] l Hkv _ IH]; [unfold lacks; cbn; set_solver|].
  assert (lacks (chr 0) (pair_text (k, v))) as Hp.
  { destruct (carried_nul _ _ Hkv). unfold pair_text. cbn. rewrite !lacks_app. split_and!; [done| |done]. by apply lacks_char. }
  destruct l as [|kv l]; [done|]. change (lacks (chr 0) (pair_text (k, v) +:+ ";" +:+ join ";" (pair_text <$> kv :: l))).
  rewrite !lacks_app. split_and!; [done| |done]. by apply lacks_char.
Qed.

Lemma load_pairs l w c vs st ps :
  Forall (fun kv => carried kv.1 kv.2) l -> chain w = c :: ps -> stack c = vs :: st ->
  for_each (fun i => let '(k, v) := split_pair i "=" in if is_empty k then xret tt else ctx (add_value k v "")) (pair_text <$> l) w =
  Ok (Val tt, w <| chain := c <| stack := foldl (fun m kv => <[kv.1 := kv.2]> m) vs l :: st |> :: ps |>, "").
Proof.
  intros Hl. revert w c vs. induction Hl as [|[k v] l Hkv _ IH]; intros w c vs Hw Hc; cbn [fmap list_fmap for_each foldl].
  - unfold xret. do 3 f_equal. destruct w as [ch ls ms o], c as [sk e ty sv]. cbn in *. by subst.
  - pose proof (split_pair_at "="%char k v) as E. change (str1 "="%char) with "=" in E. unfold pair_text at 1. cbn [fst snd] in *.
    destruct (carried_seps _ _ Hkv) as (_ & Hk & _), (carried_trim _ _ Hkv) as (Tk & Tv & _), (carried_name _ _ Hkv) as [Hn Hu].
    rewrite E by done. destruct (is_empty k) eqn:Ek; [by apply is_empty_spec in Ek|].
    unfold ctx. rewrite (xbind_Val _ _ w tt (w <| chain := c <| stack := <[k := v]> vs :: st |> :: ps |>) "").
    + rewrite (IH _ (c <| stack := <[k := v]> vs :: st |>) (<[k := v]> vs)); [|done..]. by destruct w, c.
    + unfold xzoom. rewrite Hw, (add_value_own _ _ _ vs st) by done. by rewrite Hu.
Qed.

Lemma insert_all (l : list (string * string)) (m : gmap string string) :
  NoDup l.*1 -> foldl (fun m kv => <[kv.1 := kv.2]> m) m l = list_to_map l ∪ m.
Proof.
  revert m. induction l as [|[k v] l IH]; intros m Hd; [change (m = ∅ ∪ m); by rewrite (left_id_L ∅ (∪))|]. cbn in *. apply NoDup_cons in Hd as [Hk Hd].
  rewrite IH by done. rewrite <- insert_union_l, insert_union_r; [done|]. by apply not_elem_of_list_to_map.
Qed.

(** Loading the text of a map of variables into an empty layer gives the map. *)
Lemma load_joined vars w c ps :
  map_Forall carried vars -> chain w = c :: ps -> stack c = [∅] ->
  load_text (joined (map_order (map_to_list vars))) w = Ok (Val tt, w <| chain := c <| stack := [vars] |> :: ps |>, "").
Proof.
  intros Hv Hw Hc. unfold load_text. set (l := map_order (map_to_list vars)).
  assert (l ≡ₚ map_to_list vars) as Hp by apply map_order_perm.
  assert (Forall (fun kv => carried kv.1 kv.2) l) as Hl.
  { rewrite Hp. apply map_Forall_to_list in Hv. eapply Forall_impl; [exact Hv|]. by intros [k v]. }
  assert (NoDup l.*1) as Hd by (rewrite Hp; apply NoDup_fst_map_to_list).
  assert (list_to_map l = vars) as Hm by (rewrite <- (list_to_map_to_list vars); by apply list_to_map_proper).
  rewrite joined_join. rewrite (tokenize_pieces ";"%char).
  - rewrite (load_pairs l w c ∅ [] ps) by done. by rewrite insert_all, Hm, (right_id_L ∅ (∪)).
  - apply Forall_fmap. eapply Forall_impl; [exact Hl|]. intros [k v] Hkv. cbn in *.
    destruct (carried_name _ _ Hkv) as [Hn _], (carried_seps _ _ Hkv) as (? & _ & ?), (carried_trim _ _ Hkv) as (_ & _ & ?).
    split_and!; [by destruct k|done|]. unfold pair_text. cbn. rewrite !lacks_app. split_and!; [done| |done].
    by apply lacks_char.
Qed.
End text.

(** ** The round trip *)

Section roundtrip.
Context `{Dcl, !DclLaws, Platform, !PlatformLaws, Services, Http, !Hiredis, !RedisPool, !RedisLaws, !TextLaws}.
Context (cfg : redis_config).

Notation data := (redis_data (db_of cfg)).
Notation pooled := (redis_pooled (db_of cfg) (server cfg)).

End roundtrip.

(** ** What an error does to a connection to memcached *)

(** libmemcached refuses a null pointer. *)
Class MemcachedLaws `{Memcached} := {
  server_add_null host port s : (memcached_server_add None host port s).1 = None;
  get_null key s : exists code s', memcached_get None key s = (None, MEMCACHED_ERROR code, None, s');
  set_null key value t s : exists code s', memcached_set None key value t s = (MEMCACHED_ERROR code, None, s')
}.

Section memcached.
Context `{Dcl, Platform, Services, Http, !Memcached, !MemcachedPool, !MemcachedLaws} (cfg : memcached_config).

Notation MC := (X (memcached_connection * world)).

Definition null_mc (s : memcached_connection * world) : Prop := mc s.1 = None.

(** The pointer stays null. *)
Definition stays_null : frame (memcached_connection * world) :=
  Frame null_mc (fun s s' => null_mc s -> null_mc s') (fun _ => True).

#[local] Instance stays_null_laws : FrameLaws stays_null.
Proof.
  split; [split|].
  - by intros s ?.
  - intros s1 s2 s3. cbn. auto.
  - intros s s' Hs R. by apply R.
Qed.

Lemma on_mc_null {A} (f : option memcached_st -> sys -> A * option memcached_st * sys) :
  (forall o, (f None o).1.2 = None) -> keeps stays_null (on_mc f).
Proof.
  intros Hf [[m b] w] Hs. cbn in Hs. unfold null_mc in Hs. cbn in Hs. subst m. unfold on_mc. cbn.
  specialize (Hf (os w)). by destruct (f None (os w)) as [[a m] o].
Qed.

Lemma mc_configure_null host port : keeps stays_null (mc_configure host port).
Proof.
  unfold mc_configure. apply keeps_bind; [exact _| |].
  - apply on_mc_null. intros o. pose proof (server_add_null (c_str host) port o) as E.
    by destruct (memcached_server_add None _ _ o).
  - intros _ [[m b] w] Hs. exact (fun _ => Hs).
Qed.
#[local] Hint Resolve mc_configure_null : keeps.

Lemma mc_prepare_null : keeps stays_null (mc_prepare cfg).
Proof. unfold mc_prepare, mc_add_server, int_of. keeps. by apply keeps_crash. Qed.

(** No value is returned, and the pointer is null afterwards. *)
Definition no_value {A} (r : res (outcome A * (memcached_connection * world) * string)) : Prop :=
  match r with Ok (Val _, _, _) => False | Ok (Exc _, s, _) => null_mc s | _ => True end.

Lemma guarded_throws {A} (m : MC A) s e s' out : mc_guarded m s = Ok (Exc e, s', out) -> null_mc s'.
Proof.
  unfold mc_guarded, catch. destruct (m s) as [[[[a|e'] s1] t]| |]; [done| |done..].
  unfold mc_reset, on_mc, xmodify, xbind, throw, after. cbn. by intros [= _ <- _].
Qed.

(** A guarded method whose call fails on a null pointer. *)
Lemma guarded_null {A B} (f : option memcached_st -> sys -> B * option memcached_st * sys) (k : B -> MC A) s :
  (forall o, exists b o', f None o = (b, None, o') /\ forall s', null_mc s' -> match k b s' with Ok (Val _, _, _) => False | _ => True end) ->
  null_mc s -> no_value (mc_guarded (mc_prepare cfg ;;; r <- on_mc f ;; k r) s).
Proof.
  intros Hf Hs. destruct (mc_guarded _ s) as [[[[a|e] s'] out]| |] eqn:E; [|by eapply guarded_throws|done..].
  exfalso. revert E. unfold mc_guarded, catch, xbind. pose proof (mc_prepare_null s Hs) as Hp.
  destruct (mc_prepare cfg s) as [[[[[]|e] s1] o1]| |]; [| |done..]; cbn in Hp.
  - specialize (Hp Hs). destruct s1 as [[m b] w]. cbn in Hp. unfold null_mc in Hp. cbn in Hp. subst m. unfold on_mc. cbn.
    destruct (Hf (os w)) as (b1 & o' & -> & Hk). specialize (Hk (MemcachedConnection None b, w <| os := o' |>) eq_refl).
    destruct (k b1 _) as [[[[a1|e1] s2] o2]| |]; cbn in *; [done| |done..]. by destruct s2 as [[[m2|] b2] w2].
  - cbn. by destruct s1 as [[[m2|] b2] w2].
Qed.

(** An error on a connection to memcached is the end of it: [reset] frees the object and leaves a null
    pointer, which [configure] does not replace, so that every later operation on that connection of the
    pool throws too, whatever the server would answer. *)
Theorem memcached_stays_broken key value s e s1 out :
  mc_get cfg key s = Ok (Exc e, s1, out) \/ mc_put cfg key value s = Ok (Exc e, s1, out) ->
  null_mc s1 /\
  forall w2 key' value', no_value (mc_get cfg key' (s1.1, w2)) /\ no_value (mc_put cfg key' value' (s1.1, w2)).
Proof.
  intros Hs. assert (null_mc s1) as Hn by (destruct Hs as [Hs|Hs]; by eapply guarded_throws). split; [done|].
  intros w2 key' value'. split; apply guarded_null; try exact Hn; intros o.
  - destruct (get_null key' o) as (code & o' & E). exists (None, MEMCACHED_ERROR code), o'. by rewrite E.
  - destruct (set_null key' value' (mc_ttl cfg) o) as (code & o' & E). exists (MEMCACHED_ERROR code), o'. by rewrite E.
Qed.
End memcached.
