(* ===== verification/DbJwt.v ===== *)
(** * Sessions in a signed token: [modules/mod_session_jwt]

    The variables of the user's context whose names begin with the prefix are claims of a JSON Web Token,
    and the token is the cookie: nothing is kept on the server.
    - [jwt_load], [jwt_save], [jwt_create]: the methods of mod_session_jwt.cpp and its factory;
      [jwt_sessions] is a session service of the server ([jwt_sessions_laws]).
    - [jwt_roundtrip]: the variables with the prefix come back, when their names go on with an underscore
      and are ASCII, and their values are UTF-8.
    - [jwt_prefix_alone]: a variable whose name is the prefix makes [save] throw.

    jwt-cpp is a parameter ([Jwt], [JwtLaws]), as is the JSON of its payloads. *)

From S2P Require Import Prelude DbLang DbContext DbTag DbServices DbStrings DbTypes DbHttp DbSession DbSafety DbStore DbStored.

(** What [jwt::create()] builds. *)
Record jwt_token := JwtToken { iat : Z; expires_at : option Z; iss : option string; claims : gmap string string }.

(** jwt-cpp: the issuer is checked if one is given; times have a leeway of 60 seconds. *)
Class Jwt `{Services} := {
  jwt_decoded : Type;
  jwt_decode : string -> outcome jwt_decoded;
  jwt_payload : jwt_decoded -> json;
  jwt_verify : string -> option string -> jwt_decoded -> sys -> outcome unit;
  jwt_sign : string -> jwt_token -> string
}.

Definition of_outcome {W A} (o : outcome A) : X W A := match o with Val a => xret a | Exc e => throw e end.

Section jwt.
Context `{Dcl, Platform, Services, Http, !Jwt}.

Record jwt_config := JwtConfig { jwt_ttl : Z; jwt_secret : string; jwt_prefix : string; jwt_issuer : string }.
Record jwt_holder := JwtHolder { jwt_id : string; jwt_new : bool; jwt_https : bool }.

Context (cfg : jwt_config).

Definition issuer_of : option string := if is_empty (jwt_issuer cfg) then None else Some (jwt_issuer cfg).

Definition not_a_string : exn := std_exception "Type is not convertible to string".

Definition underscored (k : string) : bool := match k with String c _ => is_char c "_" | "" => false end.

Definition jwt_add (kv : string * json) : X world unit :=
  if underscored kv.1 then
    v <- of_option not_a_string (json_as_string kv.2) ;;
    ctx (add_value (jwt_prefix cfg +:+ kv.1) v "")
  else xret tt.

Definition jwt_members (d : jwt_decoded) : list (string * json) := default [] (json_members (jwt_payload d)).

(** [load]; [decode] is outside of the [try]. *)
Definition jwt_load_token (id : string) : X world unit :=
  if is_empty id then xret tt
  else
    d <- of_outcome (jwt_decode id) ;;
    catch
      (r <- on_os (fun o => (jwt_verify (jwt_secret cfg) issuer_of d o, o)) ;;
       of_outcome r ;;;
       for_each jwt_add (jwt_members d))
      (fun e => throw (dbp_exception ("JWT verification failed: " +:+ what e))).

Definition jwt_load : X (jwt_holder * world) unit :=
  s <- xget ;; xzoom snd (fun w s => (s.1, w)) (jwt_load_token (jwt_id s.1)).

Definition jwt_PREFIX : string := smap to_upper (jwt_prefix cfg).

Definition out_of_range : exn := std_exception "basic_string::substr".

(** The loop that makes claims of the variables. *)
Fixpoint jwt_claims (l : list (string * string)) (t : jwt_token) : outcome jwt_token :=
  match l with
  | [] => Val t
  | (k, v) :: l' =>
      if starts_with jwt_PREFIX k then
        if Nat.ltb (slen k) (slen jwt_PREFIX + 1) then Exc out_of_range
        else
          let key := smap to_lower (sdrop k (slen jwt_PREFIX + 1)) in
          jwt_claims l' (JwtToken (iat t) (expires_at t) (iss t) (<["_" +:+ key := v]> (claims t)))
      else jwt_claims l' t
  end.

(** The loop that compares them with the current token. *)
Fixpoint jwt_identical (payload : list (string * json)) (l : list (string * string)) : outcome bool :=
  match l with
  | [] => Val true
  | (k, v) :: l' =>
      if starts_with jwt_PREFIX k then
        match map_find (smap to_lower (sdrop k (slen jwt_PREFIX))) payload with
        | None => Val false
        | Some j =>
            match json_as_string j with
            | None => Exc not_a_string
            | Some s => if seqb s v then jwt_identical payload l' else Val false
            end
        end
      else jwt_identical payload l'
  end.

(** The token with the times and the issuer, at a time. *)
Definition jwt_fresh (now : Z) : jwt_token :=
  JwtToken now (if jwt_ttl cfg >? 0 then Some (now + jwt_ttl cfg) else None) issuer_of ∅.

Definition token_cookie (value : string) (https expired : bool) : http_cookie :=
  Cookie "session-token" value "/" true (if https then "none" else "") https https expired.

Definition jwt_save : X (jwt_holder * http_response * world) unit :=
  s <- xget ;;
  let '(h, resp, w) := s in
  match chain w with
  | [] => xcrash NullDeref
  | c :: _ =>
      if empty c then
        if is_empty (jwt_id h) then xret tt
        else xmodify (fun s => (JwtHolder "" (jwt_new h) (jwt_https h), set_cookie (token_cookie "" (jwt_https h) true) resp, s.2))
      else
        let l := map_order (map_to_list (get_values c)) in
        t <- of_outcome (jwt_claims l (jwt_fresh (sys_time (os w)))) ;;
        new <- (if is_empty (jwt_id h) then xret true
                else
                  d <- of_outcome (jwt_decode (jwt_id h)) ;;
                  same <- of_outcome (jwt_identical (jwt_members d) l) ;;
                  xret (negb same)) ;;
        xmodify (fun s =>
          if new : bool then
            let id := jwt_sign (jwt_secret cfg) t in
            (JwtHolder id true (jwt_https h), set_cookie (token_cookie id (jwt_https h) false) resp, s.2)
          else (JwtHolder (jwt_id h) false (jwt_https h), resp, s.2))
  end.

Definition jwt_create (req : http_request) : X world jwt_holder :=
  match map_find "session-token" (get_cookies req) with
  | Some value => xret (JwtHolder value false (get_https req))
  | None => xret (JwtHolder "" true (get_https req))
  end.

Definition jwt_sessions : Sessions := {|
  session_holder := jwt_holder;
  session_id := jwt_id;
  create_session := jwt_create;
  session_load := jwt_load;
  session_save := jwt_save
|}.
End jwt.

(** ** A session service of the server *)

Section laws.
Context `{Dcl, !DclLaws, Platform, !PlatformLaws, Services, Http, !Jwt} (cfg : jwt_config).

Lemma of_outcome_quiet {W A} (F : frame W) `{!FrameLaws F} (o : outcome A) : keeps F (of_outcome o).
Proof. destruct o; unfold of_outcome; keeps. Qed.

#[export] Instance jwt_sessions_laws : SessionsLaws (jwt_sessions cfg).
Proof.
  split.
  - intros req. change (keeps quiet (jwt_create req)). unfold jwt_create. keeps.
  - change (keeps (on_contexts snd) (jwt_load cfg)). unfold jwt_load. apply keeps_bind; [exact _|keeps|]. intros s.
    apply keeps_snd. unfold jwt_load_token, jwt_add. keeps; apply of_outcome_quiet, _.
  - change (keeps (on_contexts snd) (jwt_save cfg)). unfold jwt_save. apply keeps_bind; [exact _|keeps|].
    intros [[h r] w]. destruct (chain w) as [|c ps]; [apply crash_contexts_quiet; split; discriminate|].
    destruct (empty c); [destruct (is_empty _); [keeps|by apply same_contexts_quiet]|].
    apply keeps_bind; [exact _|apply of_outcome_quiet, _|]. intros t. apply keeps_bind; [exact _| |].
    + keeps; apply of_outcome_quiet, _.
    + intros [|]; by apply same_contexts_quiet.
Qed.
End laws.

(** ** The round trip *)

(** Not before it was issued and not after it expires, give or take the leeway. *)
Definition jwt_valid (t : jwt_token) (now : Z) : Prop :=
  iat t <= now + 60 /\ match expires_at t with Some e => now <= e + 60 | None => True end.

(** The claims of a payload that begin with an underscore, as strings. *)
Definition own_members `{Services} (l : list (string * json)) : list (string * option string) :=
  (fun kj => (kj.1, json_as_string kj.2)) <$> filter (fun kj => underscored kj.1 = true) l.

(** Well-formed UTF-8 (table 3-7 of the Unicode standard), without the NUL character. *)
Definition continues : ascii -> bool := in_range 128 191.
Definition utf8_two (a b : ascii) : bool := in_range 194 223 a && continues b.
Definition utf8_three (a b c : ascii) : bool :=
  (in_range 224 224 a && in_range 160 191 b || in_range 225 236 a && continues b ||
   in_range 237 237 a && in_range 128 159 b || in_range 238 239 a && continues b) && continues c.
Definition utf8_four (a b c d : ascii) : bool :=
  (in_range 240 240 a && in_range 144 191 b || in_range 241 243 a && continues b || in_range 244 244 a && in_range 128 143 b) &&
  continues c && continues d.

Fixpoint utf8 (s : string) : bool :=
  match s with
  | "" => true
  | String a s1 =>
      in_range 1 127 a && utf8 s1 ||
      match s1 with
      | "" => false
      | String b s2 =>
          utf8_two a b && utf8 s2 ||
          match s2 with
          | "" => false
          | String c s3 =>
              utf8_three a b c && utf8 s3 ||
              match s3 with "" => false | String d s4 => utf8_four a b c d && utf8 s4 end
          end
      end
  end.

Definition is_ascii (s : string) : bool := forallb (in_range 1 127) (schars s).

Example utf8_euro : utf8 (String (chr 226) (String (chr 130) (str1 (chr 172)))) = true /\ utf8 (str1 (chr 226)) = false.
Proof. by vm_compute. Qed.

(** A signed token of text in UTF-8 is decoded to its claims, next to others of the standard, and verified
    with its secret while it is valid.  (JSON cannot carry other bytes.) *)
Definition utf8_token (t : jwt_token) : Prop :=
  (forall k v, claims t !! k = Some v -> utf8 k = true /\ utf8 v = true) /\ utf8 (default "" (iss t)) = true.

Class JwtLaws `{Jwt} := {
  jwt_sign_nonempty secret t : jwt_sign secret t <> "";
  jwt_sign_decode secret t : utf8_token t -> (forall k v, claims t !! k = Some v -> underscored k = true) ->
    exists d l, jwt_decode (jwt_sign secret t) = Val d /\ json_members (jwt_payload d) = Some l /\
      Permutation (own_members l) ((fun kv => (kv.1, Some kv.2)) <$> map_to_list (claims t)) /\
      forall s, jwt_valid t (sys_time s) -> jwt_verify secret (iss t) d s = Val tt
}.

Lemma to_upper_lower c : to_upper (to_lower c) = to_upper c.
Proof. apply (bool_decide_eq_true_1 (to_upper (to_lower c) = to_upper c)). revert c. apply ascii_all. by vm_compute. Qed.

Lemma upname_lower s : upname s = s -> upname (smap to_lower s) = s.
Proof.
  unfold upname. intros Hs. rewrite <- Hs at 2. clear Hs. induction s as [|c s IH]; [done|]. cbn. by rewrite to_upper_lower, IH.
Qed.

Lemma ascii_utf8 s : is_ascii s = true -> utf8 s = true.
Proof.
  unfold is_ascii. induction s as [|c s IH]; [done|]. cbn [schars forallb utf8]. intros [Hc Hs]%andb_true_iff. by rewrite Hc, IH.
Qed.

Lemma ascii_lower s : is_ascii s = true -> is_ascii (smap to_lower s) = true.
Proof.
  unfold is_ascii. induction s as [|c s IH]; [done|]. cbn [smap schars forallb]. intros [Hc Hs]%andb_true_iff. rewrite IH, andb_true_r by done.
  assert (negb (in_range 1 127 c) || in_range 1 127 (to_lower c) = true) as Hl; [|by rewrite Hc in Hl].
  clear. revert c. apply ascii_all. by vm_compute.
Qed.

Lemma ascii_drop n s : is_ascii s = true -> is_ascii (sdrop s n) = true.
Proof.
  unfold sdrop. generalize (slen s - n)%nat as m. revert n. unfold is_ascii.
  induction s as [|c s IH]; intros n m; [by destruct n, m|]. cbn [schars forallb]. intros [Hc Hs]%andb_true_iff.
  destruct n as [|n]; cbn [String.substring]; [|by apply IH]. destruct m as [|m]; [done|]. cbn [schars forallb]. by rewrite Hc, (IH 0%nat).
Qed.

Section roundtrip.
Context `{Dcl, !DclLaws, Platform, !PlatformLaws, Services, Http, !Jwt, !JwtLaws} (cfg : jwt_config).

Notation P := (jwt_PREFIX cfg).

(** A name as [add_value] makes them that, if it begins with the prefix, goes on with an underscore. *)
Definition named (k : string) : Prop :=
  upname k = k /\ (starts_with P k = true -> exists r, k = P +:+ "_" +:+ r).

Definition prefixed (kv : string * string) : Prop := starts_with P kv.1 = true.
#[export] Instance prefixed_dec kv : Decision (prefixed kv).
Proof. unfold prefixed. apply _. Defined.

Definition claim_of (kv : string * string) : string * string := ("_" +:+ smap to_lower (sdrop kv.1 (slen P + 1)), kv.2).
Definition loaded (kv : string * string) : string * string := (upname (jwt_prefix cfg +:+ kv.1), kv.2).

Lemma named_cut r : sdrop (P +:+ "_" +:+ r) (slen P + 1) = r.
Proof. rewrite sapp_assoc. replace (slen P + 1)%nat with (slen (P +:+ "_")) by (rewrite slen_app; done). apply sdrop_app. Qed.

Lemma loaded_claim kv : named kv.1 -> prefixed kv -> loaded (claim_of kv) = kv.
Proof.
  destruct kv as [k v]. intros [Hu Hn] Hp. destruct (Hn Hp) as [r Hr]. cbn in *. unfold loaded, claim_of. cbn [fst snd]. f_equal.
  rewrite Hr, named_cut, <- Hr.
  assert (upname r = r) as Hur.
  { rewrite Hr in Hu. unfold upname in Hu. rewrite !smap_app in Hu. apply (f_equal (fun s => sdrop s (slen P + 1))) in Hu.
    rewrite named_cut in Hu. rewrite <- (smap_slen to_upper P) in Hu. rewrite sapp_assoc in Hu.
    replace (slen (smap to_upper P) + 1)%nat with (slen (smap to_upper P +:+ smap to_upper "_")) in Hu by (rewrite slen_app; done).
    by rewrite sdrop_app in Hu. }
  unfold upname. rewrite !smap_app. fold (upname (smap to_lower r)). rewrite upname_lower by done. by rewrite Hr.
Qed.

Lemma jwt_claims_spec l t : Forall (fun kv => named kv.1) l ->
  jwt_claims cfg l t =
  Val (JwtToken (iat t) (expires_at t) (iss t) (foldl (fun m kv => <[kv.1 := kv.2]> m) (claims t) (claim_of <$> filter prefixed l))).
Proof.
  intros Hl. revert t. induction Hl as [|[k v] l [Hu Hn] _ IH]; intros t; [by destruct t|]. cbn [jwt_claims].
  destruct (starts_with P k) eqn:E.
  - rewrite filter_cons_True by done. destruct (Hn E) as [r Hr]. cbn in Hr. destruct (Nat.ltb_spec (slen k) (slen P + 1)) as [Hlt|_].
    + rewrite Hr in Hlt. rewrite !slen_app in Hlt. change (slen "_") with 1%nat in Hlt. lia.
    + by rewrite IH.
  - rewrite filter_cons_False by (unfold prefixed; cbn [fst]; congruence). apply IH.
Qed.

Lemma jwt_add_all l q w c vs st ps :
  own_members l = (fun kv => (kv.1, Some kv.2)) <$> q -> chain w = c :: ps -> stack c = vs :: st ->
  for_each (jwt_add cfg) l w =
  Ok (Val tt, w <| chain := c <| stack := foldl (fun m kv => <[kv.1 := kv.2]> m) vs (loaded <$> q) :: st |> :: ps |>, "").
Proof.
  revert q w c vs. induction l as [|[k j] l IH]; intros q w c vs E Hw Hc.
  - destruct q; [|done]. cbn. unfold xret. do 3 f_equal. destruct w as [ch ls ms o], c as [sk e ty sv]. cbn in *. by subst.
  - unfold own_members in E. cbn [for_each]. unfold jwt_add at 1. cbn [fst snd]. destruct (underscored k) eqn:Eu.
    + rewrite filter_cons_True in E by done. destruct q as [|[k' v] q]; [done|]. cbn in E. injection E as <- Ej E.
      rewrite Ej. rewrite (xbind_Val _ _ w tt (w <| chain := c <| stack := <[upname (jwt_prefix cfg +:+ k) := v]> vs :: st |> :: ps |>) "").
      * rewrite (IH q _ (c <| stack := <[upname (jwt_prefix cfg +:+ k) := v]> vs :: st |>) (<[upname (jwt_prefix cfg +:+ k) := v]> vs)); [|done..].
        by destruct w, c.
      * unfold of_option, ctx. rewrite xbind_ret. unfold xzoom. by rewrite Hw, (add_value_own _ _ _ vs st) by done.
    + rewrite filter_cons_False in E by (cbn; congruence). rewrite xbind_ret. by apply IH.
Qed.

Section token.
Context (vars : gmap string string) (l : list (string * string)).
Context (Hvars : map_Forall (fun k _ => named k) vars) (Hl : Permutation l (map_to_list vars)).

Definition selected_vars : list (string * string) := filter prefixed l.

Lemma selected_named kv : kv ∈ selected_vars -> named kv.1 /\ prefixed kv.
Proof.
  unfold selected_vars. rewrite list_elem_of_filter. intros [Hp Hkv]. split; [|done].
  rewrite Hl in Hkv. destruct kv as [k v]. apply elem_of_map_to_list in Hkv. by apply (Hvars k v).
Qed.

Lemma selected_keys : NoDup selected_vars.*1.
Proof.
  assert (NoDup l.*1) as Hd by (rewrite Hl; apply NoDup_fst_map_to_list).
  unfold selected_vars. clear Hl Hvars. induction l as [|[k v] l' IH]; [constructor|]. cbn in Hd. apply NoDup_cons in Hd as [Hk Hd].
  destruct (decide (prefixed (k, v))).
  - rewrite filter_cons_True by done. cbn. constructor; [|by apply IH]. intros Hin. apply Hk.
    apply list_elem_of_fmap in Hin as ([k' v'] & -> & Hin). apply list_elem_of_filter in Hin as [_ Hin].
    apply list_elem_of_fmap. by exists (k', v').
  - rewrite filter_cons_False by done. by apply IH.
Qed.

Lemma claim_keys : NoDup (claim_of <$> selected_vars).*1.
Proof.
  rewrite <- list_fmap_compose. pose proof selected_keys as Hd.
  assert (forall a b, a ∈ selected_vars -> b ∈ selected_vars -> (claim_of a).1 = (claim_of b).1 -> a.1 = b.1) as Hi.
  { intros a b Ha Hb E. destruct (selected_named a Ha), (selected_named b Hb).
    rewrite <- (loaded_claim a), <- (loaded_claim b) by done. unfold loaded. cbn [fst]. by rewrite E. }
  revert Hd Hi. generalize selected_vars as s. induction s as [|a s IH]; intros Hd Hi; [constructor|]. cbn in *.
  apply NoDup_cons in Hd as [Ha Hd]. constructor.
  - intros Hin. apply list_elem_of_fmap in Hin as (b & E & Hb). apply Ha. rewrite (Hi a b); [|by left|by right|done].
    apply list_elem_of_fmap. by exists b.
  - apply IH; [done|]. intros a' b' ??. apply Hi; by right.
Qed.

(** The claims of the token, as they are loaded. *)
Lemma token_loads q : Permutation q (map_to_list (list_to_map (claim_of <$> selected_vars) : gmap string string)) ->
  foldl (fun m kv => <[kv.1 := kv.2]> m) ∅ (loaded <$> q) = filter prefixed vars.
Proof.
  intros Hq. rewrite map_to_list_to_map in Hq by apply claim_keys.
  assert (Permutation (loaded <$> q) selected_vars) as Hp.
  { rewrite Hq, <- list_fmap_compose. assert (Forall (fun kv => loaded (claim_of kv) = kv) selected_vars) as Hf.
    { apply Forall_forall. intros kv Hkv. apply loaded_claim; by apply selected_named. }
    clear Hq. induction Hf as [|kv s E _ IH]; [done|]. cbn. by rewrite E, IH. }
  assert (NoDup (loaded <$> q).*1) as Hd by (rewrite Hp; apply selected_keys).
  rewrite insert_all by done. rewrite (right_id_L ∅ (∪)).
  rewrite (list_to_map_proper _ _ Hd Hp). unfold selected_vars. rewrite map_filter_alt.
  apply list_to_map_proper; [apply selected_keys|]. by rewrite Hl.
Qed.
End token.

Lemma claims_underscored s k v : (list_to_map (claim_of <$> s) : gmap string string) !! k = Some v -> underscored k = true.
Proof.
  intros Hk. apply elem_of_list_to_map_2 in Hk. apply list_elem_of_fmap in Hk as (kv & E & _). unfold claim_of in E. by injection E as -> _.
Qed.

(** A variable that goes into the token, if it has the prefix, as text. *)
Definition texted (k v : string) : Prop := starts_with P k = true -> is_ascii k = true /\ utf8 v = true.

Lemma claims_utf8 vars l k v : map_Forall texted vars -> Permutation l (map_to_list vars) ->
  (list_to_map (claim_of <$> selected_vars l) : gmap string string) !! k = Some v -> utf8 k = true /\ utf8 v = true.
Proof.
  intros Hv Hl Hk. apply elem_of_list_to_map_2 in Hk. apply list_elem_of_fmap in Hk as ([k' v'] & [= -> ->] & Hkv).
  apply list_elem_of_filter in Hkv as [Hp Hkv]. rewrite Hl in Hkv. apply elem_of_map_to_list in Hkv.
  destruct (Hv k' v' Hkv Hp) as [Hk' Hv']. split; [|done]. cbn [fst]. change ("_" +:+ ?s) with (String "_" s). cbn [utf8].
  change (in_range 1 127 "_") with true. cbn [andb orb]. by rewrite (ascii_utf8 _ (ascii_lower _ (ascii_drop _ _ Hk'))).
Qed.

(** Loading a token that was signed with the claims of [vars]. *)
Lemma load_signed vars l now w2 c2 ps2 :
  map_Forall (fun k _ => named k) vars -> map_Forall texted vars -> utf8 (jwt_issuer cfg) = true -> Permutation l (map_to_list vars) ->
  let t := JwtToken (iat (jwt_fresh cfg now)) (expires_at (jwt_fresh cfg now)) (issuer_of cfg) (list_to_map (claim_of <$> selected_vars l)) in
  jwt_valid (jwt_fresh cfg now) (sys_time (os w2)) -> chain w2 = c2 :: ps2 -> stack c2 = [∅] ->
  jwt_load_token cfg (jwt_sign (jwt_secret cfg) t) w2 =
  Ok (Val tt, w2 <| chain := c2 <| stack := [filter prefixed vars] |> :: ps2 |>, "").
Proof.
  intros Hv Htext Hiss Hl t Ht Hw Hst. unfold jwt_load_token.
  destruct (is_empty (jwt_sign _ _)) eqn:E; [by apply is_empty_spec, jwt_sign_nonempty in E|].
  destruct (jwt_sign_decode (jwt_secret cfg) t) as (d & m & Ed & Em & Hm & Hver).
  { split; [intros k v; by apply (claims_utf8 vars)|]. cbn. unfold issuer_of. by destruct (jwt_issuer cfg). }
  { apply claims_underscored. }
  rewrite Ed. unfold of_outcome at 1. rewrite xbind_ret. unfold catch, on_os. unfold xbind at 1. rewrite Hver by exact Ht.
  assert (w2 <| os := os w2 |> = w2) as -> by by destruct w2. unfold of_outcome. rewrite xbind_ret.
  unfold jwt_members. rewrite Em. cbn [default].
  apply Permutation_map_inv in Hm as (q & Hq & Hp). change (own_members m = (fun kv => (kv.1, Some kv.2)) <$> q) in Hq.
  change (id m) with m. rewrite (jwt_add_all m q w2 c2 ∅ [] ps2) by done. rewrite (token_loads vars l) by done. done.
Qed.

(** A variable whose name is the prefix: the name has nothing to cut off, and [substr] throws. *)
Lemma jwt_prefix_alone l v t : (P, v) ∈ l -> jwt_claims cfg l t = Exc out_of_range.
Proof.
  intros Hin. revert t. induction l as [|[k u] l IH]; intros t; [by apply not_elem_of_nil in Hin|]. cbn [jwt_claims].
  apply elem_of_cons in Hin as [E|Hin].
  - injection E as <- <-. rewrite <- (sapp_nil_r P) at 2. rewrite starts_with_app.
    destruct (Nat.ltb_spec (slen P) (slen P + 1)); [done|lia].
  - destruct (starts_with _ k); [|by apply IH]. destruct (Nat.ltb _ _); [done|by apply IH].
Qed.

(** The comparison throws for a claim that is no string, next to a variable of its name. *)
Lemma jwt_identical_throws payload l e : jwt_identical cfg payload l = Exc e ->
  e = not_a_string /\ exists k v j, (k, v) ∈ l /\ starts_with P k = true /\
    map_find (smap to_lower (sdrop k (slen P))) payload = Some j /\ json_as_string j = None.
Proof.
  induction l as [|[k v] l IH]; [done|]. cbn [jwt_identical]. intros E.
  assert (jwt_identical cfg payload l = Exc e -> e = not_a_string /\ exists k' v' j, (k', v') ∈ (k, v) :: l /\ starts_with P k' = true /\
    map_find (smap to_lower (sdrop k' (slen P))) payload = Some j /\ json_as_string j = None) as Hk.
  { intros El. destruct (IH El) as (-> & k' & v' & j & Hin & Hr). split; [done|]. exists k', v', j. split; [by right|done]. }
  destruct (starts_with P k) eqn:Ep; [|by apply Hk]. destruct (map_find _ payload) as [j|] eqn:Ej; [|done].
  destruct (json_as_string j) as [s|] eqn:Es; [destruct (seqb s v); [by apply Hk|done]|].
  injection E as <-. split; [done|]. exists k, v, j. split; [by left|done].
Qed.

(** C8: a session in a token: [save] changes no context; when it makes a new token it sets it as the cookie,
    and while that token is valid the next request with this cookie loads, into an empty user's context,
    exactly the variables whose names begin with the prefix, with their values.  It does so for every
    session that begins.  It throws only for a cookie that cannot be decoded as a token, and for a token
    with a claim that is no string and has the name of a variable; nothing is changed then.  The names are
    in upper case, and those that begin with the prefix go on with an underscore and are ASCII, their
    values, and the issuer, are UTF-8 without NUL characters. *)
Theorem jwt_roundtrip h resp w c ps :
  chain w = c :: ps -> empty c = false -> map_Forall (fun k _ => named k) (get_values c) ->
  map_Forall texted (get_values c) -> utf8 (jwt_issuer cfg) = true ->
  match jwt_save cfg (h, resp, w) with
  | Ok (Val _, (h1, resp1, w1), _) =>
      w1 = w /\ (jwt_id h = "" -> jwt_new h1 = true) /\
      if jwt_new h1 then
        resp1 = set_cookie (token_cookie (jwt_id h1) (jwt_https h) false) resp /\
        forall req w2 c2 ps2,
        map_find "session-token" (get_cookies req) = Some (jwt_id h1) ->
        jwt_valid (jwt_fresh cfg (sys_time (os w))) (sys_time (os w2)) -> chain w2 = c2 :: ps2 -> stack c2 = [∅] ->
        exists h2 w3 c3, jwt_create req w2 = Ok (Val h2, w2, "") /\ jwt_load cfg (h2, w2) = Ok (Val tt, (h2, w3), "") /\
          chain w3 = c3 :: ps2 /\ get_values c3 = filter prefixed (get_values c)
      else jwt_id h1 = jwt_id h /\ resp1 = resp
  | Ok (Exc e, s, _) =>
      s = (h, resp, w) /\ jwt_id h <> "" /\
      (jwt_decode (jwt_id h) = Exc e \/
       exists d k v j, jwt_decode (jwt_id h) = Val d /\ e = not_a_string /\ get_values c !! k = Some v /\
         starts_with P k = true /\ map_find (smap to_lower (sdrop k (slen P))) (jwt_members d) = Some j /\ json_as_string j = None)
  | _ => False
  end.
Proof.
  intros Hw He Hv Htext Hiss. set (l := map_order (map_to_list (get_values c))).
  assert (Permutation l (map_to_list (get_values c))) as Hl by apply map_order_perm.
  unfold jwt_save. unfold xbind at 1, xget at 1. rewrite Hw, He. fold l. rewrite jwt_claims_spec.
  2: { rewrite Hl. apply map_Forall_to_list in Hv. eapply Forall_impl; [exact Hv|]. by intros [k v]. }
  unfold of_outcome at 1. rewrite xbind_ret. fold (selected_vars l).
  change (claims (jwt_fresh cfg (sys_time (os w)))) with (∅ : gmap string string).
  rewrite insert_all by (by eapply claim_keys). rewrite (right_id_L ∅ (∪)).
  set (now := sys_time (os w)). set (t := JwtToken _ _ _ _).
  assert (forall req w2 c2 ps2,
    map_find "session-token" (get_cookies req) = Some (jwt_sign (jwt_secret cfg) t) ->
    jwt_valid (jwt_fresh cfg now) (sys_time (os w2)) -> chain w2 = c2 :: ps2 -> stack c2 = [∅] ->
    exists h2 w3 c3, jwt_create req w2 = Ok (Val h2, w2, "") /\ jwt_load cfg (h2, w2) = Ok (Val tt, (h2, w3), "") /\
      chain w3 = c3 :: ps2 /\ get_values c3 = filter prefixed (get_values c)) as Hload.
  { intros req w2 c2 ps2 Hreq Ht Hw2 Hst. eexists (JwtHolder _ false (get_https req)), _, _. split; [unfold jwt_create; by rewrite Hreq|].
    split; [|split].
    - unfold jwt_load, xzoom, xbind, xget. cbn [fst snd jwt_id].
      pose proof (load_signed (get_values c) l now w2 c2 ps2 Hv Htext Hiss Hl Ht Hw2 Hst) as E.
      change (JwtToken _ _ (issuer_of cfg) _) with t in E. rewrite E. done.
    - done.
    - cbn. by rewrite (right_id_L ∅ (∪)). }
  destruct (is_empty (jwt_id h)) eqn:Ei.
  - rewrite xbind_ret. cbn. split; [done|]. split; [done|]. split; [done|]. exact Hload.
  - assert (jwt_id h <> "") as Hne by (intros E; by rewrite E in Ei).
    unfold of_outcome. destruct (jwt_decode (jwt_id h)) as [d|e] eqn:Ed; [|by split_and!; [| |left]].
    rewrite !xbind_assoc, xbind_ret.
    destruct (jwt_identical cfg (jwt_members d) l) as [same|e] eqn:Es.
    2: { apply jwt_identical_throws in Es as (-> & k & v & j & Hin & Hp & Hj). split_and!; [done..|]. right.
      exists d, k, v, j. rewrite Hl in Hin. apply elem_of_map_to_list in Hin. done. }
    unfold xbind, xret, xmodify. cbn.
    destruct same; cbn; by (split; [done|]); (split; [done|]); split.
Qed.
End roundtrip.
