(* ===== verification/DbCache.v ===== *)
(** * The cache of applications under threads: [get_app] of [dbpager/interpreter/interpreter.cpp]

    The worker threads of the server share one [interpreter].  [get_app] looks for the application without
    the mutex, takes the mutex, looks again, parses and inserts.  Here every thread is at one of these
    places ([place]) and [thread_step] is what one thread may do next.  (With [use_cache] off, threads share
    nothing here.)

    Operations on the map take time, so they are places of their own.  The first search is not under the
    mutex, and the insertion of another thread may overlap it: in C++ that is a data race on an [unordered_map],
    and the language says nothing about its outcome.  Here a search that an insertion overlapped, at any
    moment, is [Torn], and what comes out of it is arbitrary: any application at all ([Misread]), or a
    miss.  What the race is not taken to do is harm the map itself, or the other threads: the search only
    reads.  A search that no insertion overlapped, and every search under the mutex, takes effect in one
    step.
    - [get_app_shared]: in every interleaving, the threads whose search of the map did not race get the
      same application of an URL, and a document is parsed to an application at most once.
    - [get_app_progress]: while a thread is in [get_app], some thread in it can go on.
    - [get_app_races]: the race is reachable, and the thread that raced may go on with any application.
    - [get_app_alone]: a thread that is alone does what [DbServer.get_app] does. *)

From S2P Require Import Prelude DbLang DbContext DbTag DbServices DbExecute DbParser DbTypes DbProgram DbHttp DbServer DbSafety.

Section cache.
Context `{Dcl, Platform, Services, Http, Documents, Config, !Plugins} (m n : nat).

(** Where a thread is, for an URL: outside of [get_app]; in the first [find]; in the first [find], which
    an insertion has overlapped; after that, with whatever it returned; before the mutex; in the second
    [find]; in the constructor of the application; in [insert]; after [get_app], with an application or
    an exception. *)
Inductive place :=
  | Outside
  | Finding (u : string)
  | Torn (u : string)
  | Misread (u : string) (a : application)
  | Waiting (u : string)
  | Finding_again (u : string)
  | Constructing (u : string)
  | Inserting (u : string) (a : application)
  | Returned (u : string) (a : option application).

(** The map, the thread that has the mutex, the threads' places, and the URLs of the applications that
    were constructed so far. *)
Record shared := Shared {
  cached : gmap string application;
  mutex : option nat;
  threads : nat -> place;
  constructed : list string
}.

Definition put (t : nat) (p : place) (f : nat -> place) : nat -> place := fun t' => if decide (t' = t) then p else f t'.

(** [apps.insert] keeps the element that is there. *)
Definition map_insert (u : string) (a : application) (c : gmap string application) : gmap string application :=
  match c !! u with Some _ => c | None => <[u := a]> c end.

Definition in_insert (p : place) : bool := match p with Inserting _ _ => true | _ => false end.

(** An insertion begins: the searches under way without the mutex race with it. *)
Definition tear (f : nat -> place) : nat -> place := fun t => match f t with Finding u => Torn u | p => p end.

(** What thread [t] does next; the destructor of [mutex_guard] releases on every way out. *)
Inductive thread_step (t : nat) : shared -> shared -> Prop :=
  | step_call c x f l u : f t = Outside -> (forall t', in_insert (f t') = false) ->
      thread_step t (Shared c x f l) (Shared c x (put t (Finding u) f) l)
  | step_call_torn c x f l u t' : f t = Outside -> in_insert (f t') = true ->
      thread_step t (Shared c x f l) (Shared c x (put t (Torn u) f) l)
  | step_torn_hit c x f l u a : f t = Torn u ->
      thread_step t (Shared c x f l) (Shared c x (put t (Misread u a) f) l)
  | step_torn_miss c x f l u : f t = Torn u ->
      thread_step t (Shared c x f l) (Shared c x (put t (Waiting u) f) l)
  | step_leave_torn c x f l u a : f t = Misread u a ->
      thread_step t (Shared c x f l) (Shared c x (put t Outside f) l)
  | step_hit c x f l u a : f t = Finding u -> c !! u = Some a ->
      thread_step t (Shared c x f l) (Shared c x (put t (Returned u (Some a)) f) l)
  | step_miss c x f l u : f t = Finding u -> c !! u = None ->
      thread_step t (Shared c x f l) (Shared c x (put t (Waiting u) f) l)
  | step_lock c f l u : f t = Waiting u ->
      thread_step t (Shared c None f l) (Shared c (Some t) (put t (Finding_again u) f) l)
  | step_hit_again c x f l u a : f t = Finding_again u -> c !! u = Some a ->
      thread_step t (Shared c x f l) (Shared c None (put t (Returned u (Some a)) f) l)
  | step_miss_again c x f l u : f t = Finding_again u -> c !! u = None ->
      thread_step t (Shared c x f l) (Shared c x (put t (Constructing u) f) l)
  | step_construct c x f l u a w w' out : f t = Constructing u ->
      new_application m n u w = Ok (Val a, w', out) ->
      thread_step t (Shared c x f l) (Shared c x (put t (Inserting u a) (tear f)) (u :: l))
  | step_throw c x f l u e w w' out : f t = Constructing u ->
      new_application m n u w = Ok (Exc e, w', out) ->
      thread_step t (Shared c x f l) (Shared c None (put t (Returned u None) f) l)
  | step_insert c x f l u a : f t = Inserting u a ->
      thread_step t (Shared c x f l) (Shared (map_insert u a c) None (put t (Returned u (Some a)) f) l)
  | step_leave c x f l u r : f t = Returned u r ->
      thread_step t (Shared c x f l) (Shared c x (put t Outside f) l).

Definition step (s s' : shared) : Prop := exists t, thread_step t s s'.

Definition start : shared := Shared ∅ None (fun _ => Outside) [].

Definition reachable (s : shared) : Prop := rtc step start s.

(** Between the constructor and the destructor of [mutex_guard]. *)
Definition in_guard (p : place) : bool :=
  match p with Finding_again _ | Constructing _ | Inserting _ _ => true | _ => false end.

(** ** The invariant *)

Record cache_inv (s : shared) : Prop := {
  inv_mutex t : in_guard (threads s t) = true <-> mutex s = Some t;
  inv_miss t u : threads s t = Constructing u -> cached s !! u = None;
  inv_insert t u a : threads s t = Inserting u a -> cached s !! u = None;
  inv_got t u a : threads s t = Returned u (Some a) -> cached s !! u = Some a;
  inv_once : NoDup (constructed s);
  inv_made u : u ∈ constructed s -> is_Some (cached s !! u) \/ exists t a, threads s t = Inserting u a
}.

Lemma put_spec t p f t' : put t p f t' = p /\ t' = t \/ put t p f t' = f t' /\ t' <> t.
Proof. unfold put. destruct (decide (t' = t)); [by left|by right]. Qed.

Lemma map_insert_lookup u a c v b : map_insert u a c !! v = Some b <->
  c !! v = Some b \/ u = v /\ a = b /\ c !! u = None.
Proof.
  unfold map_insert. destruct (c !! u) eqn:E; [naive_solver|]. rewrite lookup_insert_Some.
  split; [naive_solver|]. intros [Hc|(-> & -> & _)]; [|by left]. right. split; [|done]. intros ->. congruence.
Qed.

Lemma start_inv : cache_inv start.
Proof. split; try done; [by constructor|]. cbn. by intros u ?%elem_of_nil. Qed.

(** What a move of one thread from one place to another has to respect. *)
Record move (t : nat) (s : shared) (q : place) (c' : gmap string application) (y : option nat) (l' : list string) : Prop := {
  move_mutex : if in_guard q then y = Some t /\ (mutex s = Some t \/ mutex s = None)
    else if in_guard (threads s t) then y = None else y = mutex s;
  move_grows : cached s ⊆ c';
  move_alone : c' = cached s \/ in_guard (threads s t) = true;
  move_place : match q with
    | Constructing u | Inserting u _ => c' !! u = None
    | Returned u (Some a) => c' !! u = Some a
    | _ => True
    end;
  move_list : l' = constructed s /\ (forall u a, threads s t = Inserting u a -> is_Some (c' !! u)) \/
    exists u a, l' = u :: constructed s /\ q = Inserting u a /\ threads s t = Constructing u
}.

Lemma move_inv t s q c' y l' : cache_inv s -> move t s q c' y l' -> cache_inv (Shared c' y (put t q (threads s)) l').
Proof.
  intros [Hm Hmiss Hins Hgot Honce Hmade] [Mm Mg Ma Mp Ml].
  assert (forall t', t' <> t -> in_guard (threads s t') = true -> c' = cached s) as Hothers.
  { intros t' Hn Hg. destruct Ma as [|Hg']; [done|]. apply Hm in Hg, Hg'. congruence. }
  split; cbn.
  - intros t'. destruct (put_spec t q (threads s) t') as [[-> ->]|[-> Hn]].
    + specialize (Hm t). destruct (in_guard q); [by destruct Mm as [-> _]|]. destruct (in_guard (threads s t)); [by subst|].
      subst. split; [done|]. intros E. by apply Hm in E.
    + rewrite Hm. destruct (in_guard q); [by destruct Mm as [-> [-> | ->]]; split; congruence|].
      destruct (in_guard (threads s t)) eqn:E; subst; [|done]. apply Hm in E. rewrite E. split; congruence.
  - intros t' u. destruct (put_spec t q (threads s) t') as [[-> ->]|[-> Hn]]; [by intros ->|].
    intros E. rewrite (Hothers t'); [by eapply Hmiss|done|by rewrite E].
  - intros t' u a. destruct (put_spec t q (threads s) t') as [[-> ->]|[-> Hn]]; [by intros ->|].
    intros E. rewrite (Hothers t'); [by eapply Hins|done|by rewrite E].
  - intros t' u a. destruct (put_spec t q (threads s) t') as [[-> ->]|[-> Hn]]; [by intros ->|].
    intros E. eapply lookup_weaken; [by eapply Hgot|done].
  - destruct Ml as [[-> _]|(u & a & -> & -> & Ht)]; [done|]. constructor; [|done]. intros Hu.
    destruct (Hmade u Hu) as [[b Hb]|(t' & b & Hb)]; [by rewrite (Hmiss t u Ht) in Hb|].
    assert (t' = t) as -> by (assert (in_guard (threads s t') = true) as Hg by (by rewrite Hb);
      assert (in_guard (threads s t) = true) as Hg' by (by rewrite Ht); apply Hm in Hg, Hg'; congruence).
    congruence.
  - intros u Hu. destruct Ml as [[-> Hl]|(v & a & -> & -> & Ht)].
    + destruct (Hmade u Hu) as [[b Hb]|(t' & b & Hb)]; [left; exists b; by eapply lookup_weaken|].
      destruct (decide (t' = t)) as [->|Hn]; [left; by eapply Hl|]. right. exists t', b. unfold put. by rewrite decide_False.
    + apply elem_of_cons in Hu as [->|Hu]; [right; exists t, a; unfold put; by rewrite decide_True|].
      destruct (Hmade u Hu) as [[b Hb]|(t' & b & Hb)]; [left; exists b; by eapply lookup_weaken|].
      destruct (decide (t' = t)) as [->|Hn]; [congruence|]. right. exists t', b. unfold put. by rewrite decide_False.
Qed.

(** The invariant does not look at the searches without the mutex. *)
Lemma tear_eq f t p : (forall u, p <> Finding u) -> (forall u, p <> Torn u) -> tear f t = p <-> f t = p.
Proof. intros HF HT. unfold tear. destruct (f t) eqn:E; naive_solver. Qed.

Lemma tear_guard f t : in_guard (tear f t) = in_guard (f t).
Proof. unfold tear. by destruct (f t). Qed.

Lemma tear_inv c x f l : cache_inv (Shared c x f l) -> cache_inv (Shared c x (tear f) l).
Proof.
  intros [Hm Hmiss Hins Hgot Honce Hmade]. cbn in *. split; cbn.
  - intros t. by rewrite tear_guard.
  - intros t u. rewrite tear_eq by done. apply Hmiss.
  - intros t u a. rewrite tear_eq by done. apply Hins.
  - intros t u a. rewrite tear_eq by done. apply Hgot.
  - done.
  - intros u Hu. destruct (Hmade u Hu) as [Hc|(t & a & Ht)]; [by left|]. right. exists t, a. by apply tear_eq.
Qed.

Lemma step_inv s s' : step s s' -> cache_inv s -> cache_inv s'.
Proof.
  intros [t Hs] I. pose proof (inv_mutex s I t) as Hm. pose proof (inv_miss s I t) as Hmiss. pose proof (inv_insert s I t) as Hins.
  destruct Hs as [c x f l u E _|c x f l u t' E _|c x f l u a E|c x f l u E|c x f l u a E|c x f l u a E Ec|c x f l u E Ec|c f l u E|c x f l u a E Ec|c x f l u E Ec
    |c x f l u a w w' out E En|c x f l u e w w' out E En|c x f l u a E|c x f l u r E]; cbn in Hm, Hmiss, Hins;
    rewrite E in Hm; cbn in Hm.
  11: { assert (tear f t = Constructing u) as Et by (by apply tear_eq).
    apply (move_inv t (Shared c x (tear f) l)); [by apply tear_inv|]. split; cbn; rewrite ?Et; try done.
    - tauto.
    - by left.
    - by eapply Hmiss.
    - right. by exists u, a. }
  all: match type of I with cache_inv (Shared ?c ?x ?f ?l) => apply (move_inv t (Shared c x f l)) end; [done|].
  all: split; cbn; rewrite ?E; cbn; try done; try (by left); try (by right); try (left; split; [done|]; by intros ? ? [=]).
  all: try (split; [by tauto|by tauto]).
  - unfold map_insert. destruct (c !! u) eqn:Ec; [done|by apply insert_subseteq].
  - apply map_insert_lookup. right. split_and!; [done|done|by eapply Hins].
  - left. split; [done|]. intros v b [= <- <-]. exists a. apply map_insert_lookup. right. split_and!; [done|done|by eapply Hins].
Qed.

Lemma reachable_inv s : reachable s -> cache_inv s.
Proof.
  intros Hr. assert (forall a b, rtc step a b -> cache_inv a -> cache_inv b) as Hk; [|eapply Hk; [exact Hr|apply start_inv]].
  induction 1 as [|a b c Hs _ IH]; [done|]. intros I. by apply IH, (step_inv a).
Qed.

(** ** The theorems *)

(** C6: the application cache under threads: in every interleaving of any number of threads in
    [get_app], at most one is behind the mutex; the threads that were given an application of an URL by a
    search that did not race with an insertion (the searches under the mutex never do), or by their own
    insertion, were all given the same one, which is in the cache; and no document was made into an
    application twice.  This holds whatever the searches that did race returned (any application). *)
Theorem get_app_shared s :
  reachable s ->
  (forall t t', in_guard (threads s t) = true -> in_guard (threads s t') = true -> t = t') /\
  (forall t t' u a a', threads s t = Returned u (Some a) -> threads s t' = Returned u (Some a') ->
     a = a' /\ cached s !! u = Some a) /\
  NoDup (constructed s).
Proof.
  intros Hr. destruct (reachable_inv s Hr) as [Hm _ _ Hgot Honce _]. split_and!; [| |done].
  - intros t t' Ht%Hm Ht'%Hm. congruence.
  - intros t t' u a a' Ht%Hgot Ht'%Hgot. split; [congruence|done].
Qed.

Definition in_get_app (p : place) : bool :=
  match p with Outside | Returned _ _ | Misread _ _ => false | _ => true end.

(** C40: nobody waits for ever: while some thread is in [get_app], some thread in it can take a step (if
    the constructor of an application ends, with the application or an exception). *)
Theorem get_app_progress s t :
  (forall u, exists w o w' out, new_application m n u w = Ok (o, w', out)) ->
  reachable s -> in_get_app (threads s t) = true ->
  exists t' s', in_get_app (threads s t') = true /\ thread_step t' s s'.
Proof.
  intros Hn Hr Ht. assert (forall t', in_guard (threads s t') = true ->
    exists s', in_get_app (threads s t') = true /\ thread_step t' s s') as Hg.
  { intros t' E. destruct s as [c x f l]. cbn in *. destruct (f t') as [|u|u|u a|u|u|u|u a|u r] eqn:Ef; try done.
    - destruct (c !! u) as [a|] eqn:Ec; eexists; (split; [done|]); by econstructor.
    - destruct (Hn u) as (w & [a|e] & w' & out & Ew); eexists; (split; [done|]); by econstructor.
    - eexists. split; [done|]. by econstructor. }
  destruct (in_guard (threads s t)) eqn:E; [destruct (Hg t E) as [s' Hs]; by exists t, s'|].
  destruct s as [c x f l]. cbn in *. destruct (f t) as [|u|u|u a|u|u|u|u a|u r] eqn:Ef; try done.
  - exists t. destruct (c !! u) as [a|] eqn:Ec; eexists; (split; [by rewrite Ef|]); by econstructor.
  - exists t. eexists. split; [by rewrite Ef|]. by apply step_torn_miss.
  - destruct x as [t0|].
    + destruct (reachable_inv _ Hr) as [Hm _ _ _ _ _]. destruct (Hg t0) as [s' Hs]; [by apply Hm|]. by exists t0, s'.
    + exists t. eexists. split; [by rewrite Ef|]. by econstructor.
Qed.

(** One step more. *)
Lemma reach_more s s' t : reachable s -> thread_step t s s' -> reachable s'.
Proof. intros Hr Ht. eapply rtc_r; [exact Hr|]. by exists t. Qed.

(** All the threads outside, or where it is known. *)
Ltac nobody_inserts := let t := fresh "t" in intros t; unfold put, tear; repeat case_decide; try done.

(** The race: the first search of [get_app] is not under the mutex, a thread may be in it while another
    inserts, and it may go on with any application [b], one that was never made included.  (For any
    document that can be parsed.) *)
Lemma get_app_races u v w a b w' out :
  new_application m n u w = Ok (Val a, w', out) ->
  exists s s', reachable s /\ threads s 0%nat = Torn v /\ threads s 1%nat = Inserting u a /\ mutex s = Some 1%nat /\
    step s s' /\ threads s' 0%nat = Misread v b.
Proof.
  intros Hn. pose proof (rtc_refl step start) as R. change (reachable (Shared ∅ None (fun _ => Outside) [])) in R.
  apply (fun R K => reach_more _ _ _ R (step_call 0 _ _ _ _ v eq_refl K)) in R; [|nobody_inserts].
  apply (fun R K => reach_more _ _ _ R (step_call 1 _ _ _ _ u eq_refl K)) in R; [|nobody_inserts].
  apply (fun R => reach_more _ _ _ R (step_miss 1 _ _ _ _ u eq_refl (lookup_empty u))) in R.
  apply (fun R => reach_more _ _ _ R (step_lock 1 _ _ _ u eq_refl)) in R.
  apply (fun R => reach_more _ _ _ R (step_miss_again 1 _ _ _ _ u eq_refl (lookup_empty u))) in R.
  apply (fun R => reach_more _ _ _ R (step_construct 1 _ _ _ _ u a w w' out eq_refl Hn)) in R.
  eexists _, _. split; [exact R|]. split_and!; [done..| |].
  - exists 0%nat. by apply (step_torn_hit 0 _ _ _ _ v b).
  - done.
Qed.

(** Two threads that ask for the same document at the same time. *)
Lemma get_app_twice u w a w' out :
  new_application m n u w = Ok (Val a, w', out) ->
  exists s, reachable s /\ threads s 0%nat = Returned u (Some a) /\ threads s 1%nat = Returned u (Some a).
Proof.
  intros Hn. pose proof (rtc_refl step start) as R. change (reachable (Shared ∅ None (fun _ => Outside) [])) in R.
  apply (fun R K => reach_more _ _ _ R (step_call 0 _ _ _ _ u eq_refl K)) in R; [|nobody_inserts].
  apply (fun R => reach_more _ _ _ R (step_miss 0 _ _ _ _ u eq_refl (lookup_empty _))) in R.
  apply (fun R => reach_more _ _ _ R (step_lock 0 _ _ _ u eq_refl)) in R.
  apply (fun R K => reach_more _ _ _ R (step_call 1 _ _ _ _ u eq_refl K)) in R; [|nobody_inserts].
  apply (fun R => reach_more _ _ _ R (step_miss_again 0 _ _ _ _ u eq_refl (lookup_empty _))) in R.
  apply (fun R => reach_more _ _ _ R (step_miss 1 _ _ _ _ u eq_refl (lookup_empty _))) in R.
  apply (fun R => reach_more _ _ _ R (step_construct 0 _ _ _ _ u a _ _ _ eq_refl Hn)) in R.
  apply (fun R => reach_more _ _ _ R (step_insert 0 _ _ _ _ u a eq_refl)) in R.
  apply (fun R => reach_more _ _ _ R (step_lock 1 _ _ _ u eq_refl)) in R.
  apply (fun R => reach_more _ _ _ R (step_hit_again 1 _ _ _ _ u a eq_refl (lookup_insert_eq _ _ _))) in R.
  eexists. split; [exact R|done].
Qed.

(** ** A thread alone *)

Lemma put_eq t p f : put t p f t = p.
Proof. unfold put. by rewrite decide_True. Qed.

Lemma put_ne t p f t' : t' <> t -> put t p f t' = f t'.
Proof. intros Hn. unfold put. by rewrite decide_False. Qed.

(** A step, then more. *)
Lemma steps_then t s s1 s' : thread_step t s s1 -> rtc (thread_step t) s1 s' -> rtc (thread_step t) s s'.
Proof. intros Hs Hr. by eapply rtc_l. Qed.

(** Nobody else is on the way to an insertion, or searches without the mutex. *)
Definition alone (t : nat) (f : nat -> place) : Prop := forall t', t' <> t -> in_get_app (f t') = false.

Lemma alone_call t u f c l : alone t f -> f t = Outside ->
  thread_step t (Shared c None f l) (Shared c None (put t (Finding u) f) l).
Proof.
  intros Ha Ht. apply step_call; [done|]. intros t'. destruct (decide (t' = t)) as [->|Hn]; [by rewrite Ht|].
  specialize (Ha t' Hn). by destruct (f t').
Qed.

Lemma alone_tear t f t' : alone t f -> t' <> t -> tear f t' = f t'.
Proof. intros Ha Hn. specialize (Ha t' Hn). unfold tear. by destruct (f t'). Qed.

Lemma alone_constructs t u f l c : alone t f -> f t = Outside -> c !! u = None ->
  exists f', rtc (thread_step t) (Shared c None f l) (Shared c (Some t) f' l) /\
    f' t = Constructing u /\ forall t', t' <> t -> f' t' = f t'.
Proof.
  intros Ha Ht Hc. set (f1 := put t (Finding u) f). set (f2 := put t (Waiting u) f1).
  set (f3 := put t (Finding_again u) f2). set (f4 := put t (Constructing u) f3).
  exists f4. split; [|split; [apply put_eq|]].
  - eapply steps_then; [apply (alone_call t u f c l Ha Ht)|].
    eapply steps_then; [apply (step_miss t c None f1 l u (put_eq _ _ _) Hc)|].
    eapply steps_then; [apply (step_lock t c f2 l u (put_eq _ _ _))|].
    apply rtc_once, (step_miss_again t c (Some t) f3 l u (put_eq _ _ _) Hc).
  - intros t' Hn. unfold f4, f3, f2, f1. by rewrite !put_ne.
Qed.

(** A thread that is alone in [get_app] does what [DbServer.get_app] does: it returns the same
    application or throws, and leaves the same cache. *)
Lemma get_app_alone i t u f l c w o s' out :
  use_cache i = true -> alone t f -> f t = Outside -> get_app m n i u (Server c w) = Ok (o, s', out) ->
  exists f' l', rtc (thread_step t) (Shared c None f l) (Shared (apps s') None f' l') /\
    f' t = Returned u (match o with Val a => Some a | Exc _ => None end) /\ forall t', t' <> t -> f' t' = f t'.
Proof.
  intros Hi Ha Ht E. unfold get_app, xbind, xget in E. rewrite Hi in E. cbn in E. destruct (c !! u) as [a|] eqn:Ec.
  { injection E as <- <- _. set (f1 := put t (Finding u) f). exists (put t (Returned u (Some a)) f1), l.
    split; [|split; [apply put_eq|intros t' Hn; unfold f1; by rewrite !put_ne]].
    eapply steps_then; [apply (alone_call t u f c l Ha Ht)|]. apply rtc_once, (step_hit t c None f1 l u a (put_eq _ _ _) Ec). }
  destruct (alone_constructs t u f l c Ha Ht Ec) as (f1 & Hs & Hf1 & Hf). unfold on_machine, xzoom in E. cbn in E.
  assert (alone t f1) as Ha1 by (intros t' Hn; rewrite Hf by done; by apply Ha).
  destruct (new_application m n u w) as [[[[a|e] w1] o1]| |] eqn:En; [| |done..]; injection E as <- <- _.
  - set (f2 := put t (Inserting u a) (tear f1)). exists (put t (Returned u (Some a)) f2), (u :: l).
    split; [|split; [apply put_eq|intros t' Hn; unfold f2; rewrite !put_ne by done; rewrite (alone_tear t) by done; by apply Hf]].
    etrans; [exact Hs|]. eapply steps_then; [apply (step_construct t c (Some t) f1 l u a w w1 o1 Hf1 En)|].
    pose proof (step_insert t c (Some t) f2 (u :: l) u a (put_eq _ _ _)) as Hi2.
    unfold map_insert in Hi2. rewrite Ec in Hi2. by apply rtc_once.
  - exists (put t (Returned u None) f1), l.
    split; [|split; [apply put_eq|intros t' Hn; rewrite !put_ne by done; by apply Hf]].
    etrans; [exact Hs|]. apply rtc_once, (step_throw t c (Some t) f1 l u e w w1 o1 Hf1 En).
Qed.
End cache.
