(* ===== verification/DbFastcgi.v ===== *)
(** * A worker thread of the server: [get_request], [send_response] and the loop of [dbpagerd.cpp]

    Where the interpreter meets the FastCGI library.  A worker has its own [FCGX_Request] ([library], the
    world of FcgiRequest.v) and shares the server.
    - [read_env]: the strings of [request.envp] become the fields of the request, its headers and the
      variables [ENV_...]; [get_request] adds the body, read with [FCGX_GetStr].
    - [send_response]: the status line and the response, through [FCGX_PutStr], which takes the length of
      a string as an [int].
    - [handle_request], the body of the loop, and [process_request], the loop.
    - [request_fields]: each field of the request has the value of the variable of its name.
    - [worker_answers]: what the web server receives for a request, end to end, for responses of less than
      2 GB; [put_string_long]: a longer one is not delivered. *)

From S2P Require Import Prelude FcgiProto FcgiStream FcgiWriter FcgiParams FcgiReader FcgiRecords OsAccept OsAsync FcgiRequest FcgiPrintf FcgiServe DbLang DbStrings DbContext DbTag DbServices DbParser DbHttp DbServer.

(** ** Bytes *)

Definition text (l : list Z) : string := of_chars ((fun b => chr (Z.to_nat b)) <$> l).
Definition bytes (s : string) : list Z := (fun c => Z.of_nat (code c)) <$> schars s.

Lemma bytes_text l : Forall is_byte l -> bytes (text l) = l.
Proof.
  intros Hl. unfold bytes, text. rewrite schars_of_chars, <- list_fmap_compose.
  induction Hl as [|b l Hb _ IH]; [done|]. cbn. rewrite IH. f_equal. unfold is_byte in Hb. unfold code, chr.
  rewrite nat_ascii_embedding by lia. lia.
Qed.

Lemma text_bytes s : text (bytes s) = s.
Proof.
  unfold bytes, text. rewrite <- list_fmap_compose. induction s as [|c s IH]; [done|]. cbn. rewrite IH. f_equal.
  unfold code, chr. rewrite Nat2Z.id. apply ascii_nat_embedding.
Qed.

Lemma bytes_app s t : bytes (s +:+ t) = bytes s ++ bytes t.
Proof. unfold bytes. induction s as [|c s IH]; [done|]. rewrite sapp_cons. cbn. by rewrite IH. Qed.

Section fastcgi.
Context {uninit : Uninit}.
Context `{Dcl, Platform, Services, Http, Documents, Config, !Plugins}.

(** ** The request *)

(** What [get_request] collects. *)
Record parsed := Parsed {
  req : http_request;
  c_len : Z;
  env_vars : gmap string string
}.

(** The variables that are copied into fields. *)
Definition cgi_fields : list (string * http_field) :=
  [("AUTH_TYPE", AUTH_TYPE); ("CONTENT_TYPE", CONTENT_TYPE); ("GATEWAY_INTERFACE", GATEWAY_INTERFACE);
   ("PATH_INFO", PATH_INFO); ("PATH_TRANSLATED", PATH_TRANSLATED); ("QUERY_STRING", QUERY_STRING);
   ("REMOTE_ADDR", REMOTE_ADDR); ("REMOTE_HOST", REMOTE_HOST); ("REMOTE_IDENT", REMOTE_IDENT);
   ("REMOTE_USER", REMOTE_USER); ("REQUEST_METHOD", REQUEST_METHOD); ("SCRIPT_NAME", SCRIPT_NAME);
   ("SERVER_NAME", SERVER_NAME); ("SERVER_PROTOCOL", SERVER_PROTOCOL); ("SERVER_SOFTWARE", SERVER_SOFTWARE)].

(** [PARAM=VALUE]. *)
Definition split_line (line : string) : string * string :=
  match sfind line "=" 0 with
  | None => (line, "")
  | Some pos => (ssub line 0 pos, ssub line (pos + 1) (slen line - pos - 1))
  end.

Definition int_value (s : string) : outcome Z :=
  match from_string_int s with Some z => Val z | None => Exc (type_conversion_exception (conversion_error s)) end.

(** Each underscore becomes a dash. *)
Definition dashes : string -> string := smap (fun c => if is_char c "_" then "-"%char else c).

(** The chain of tests on a variable's name. *)
Definition set_variable (left_ right_ : string) (p : parsed) : outcome parsed :=
  match map_find left_ cgi_fields with
  | Some f => Val (Parsed (set_field f right_ (req p)) (c_len p) (env_vars p))
  | None =>
      if seqb left_ "CONTENT_LENGTH" then
        match int_value right_ with Val z => Val (Parsed (req p) z (env_vars p)) | Exc e => Exc e end
      else if seqb left_ "SERVER_PORT" then
        match int_value right_ with
        | Val z => Val (Parsed (set_server_port z (req p)) (c_len p) (env_vars p))
        | Exc e => Exc e
        end
      else if seqb left_ "HTTPS" then Val (Parsed (set_https (seqb right_ "on") (req p)) (c_len p) (env_vars p))
      else if starts_with "HTTP_" left_ then
        Val (Parsed (set_header (dashes (sdrop left_ 5)) right_ (req p)) (c_len p) (env_vars p))
      else Val (Parsed (req p) (c_len p) (<["ENV_" +:+ left_ := right_]> (env_vars p)))
  end.

(** [while (env && *env)]: strings up to the null pointer. *)
Fixpoint read_env (v : list slot) (p : parsed) : res (outcome parsed) :=
  match v with
  | Str line :: v' =>
      let '(left_, right_) := split_line (text (c_string line)) in
      match set_variable left_ right_ p with
      | Val p' => read_env v' p'
      | Exc e => Ok (Exc e)
      end
  | Null :: _ => Ok (Val p)
  | Undef :: _ | [] => Crash MemFault
  end.

(** The connection's library and the server. *)
Record worker := Worker { library : FcgiRequest.World; srv : server }.

(** A call of the library. *)
Definition fcgi {A} (x : M FcgiRequest.World A) : X worker A := fun s =>
  match x (library s) with
  | Ok (a, w) => Ok (Val a, Worker w (srv s), "")
  | Crash f => Crash f
  | NoFuel => NoFuel
  end.

Definition on_srv {A} (x : X server A) : X worker A := xzoom srv (fun v s => Worker (library s) v) x.

Definition INT_MAX : Z := 2147483647.

(** [new char[c_len + 1]], [FCGX_GetStr] and [set_content]. *)
Definition read_content (p : parsed) : X worker http_request :=
  if c_len p >? 0 then
    if c_len p =? INT_MAX then xcrash IntOverflow
    else
      buf <- fcgi (on_stream FcgiRequest.In (@FCGX_GetStr reader_procs (c_len p))) ;;
      xret (set_content (text buf) (req p))
  else xret (req p).

Definition get_request : X worker (http_request * list (string * string)) :=
  s <- xget ;;
  parsed <- match FcgiRequest.envp (request (library s)) with
    | None => xret (Val (Parsed new_request 0 ∅))
    | Some v => xlift (read_env v (Parsed new_request 0 ∅))
    end ;;
  match parsed with
  | Exc e => throw e
  | Val p => r <- read_content p ;; xret (r, map_order (map_to_list (env_vars p)))
  end.

(** ** The response *)

(** [FCGX_PutStr(s.c_str(), s.length(), stream)]: the length becomes an [int].  A negative one is less than
    what is left of the buffer, and is then the count of a [memcpy]. *)
Definition put_string (s : list Z) : X worker Z :=
  let n := to_int (zlen s) in
  if n <? 0 then xcrash MemFault
  else fcgi (on_stream Out (@FCGX_PutStr writer_procs (take (Z.to_nat n) s))).

Definition send_response (r : http_response) : X worker unit :=
  let out := response_text r in
  let status := "Status: " +:+ get_status r in
  put_string (bytes status) ;;;
  fcgi (on_stream Out (@FCGX_PutS writer_procs [13; 10])) ;;;
  put_string (bytes out) ;;;
  xret tt.

(** ** The loop *)

Context (inet_addr : list Z -> Z) (use_locking : bool) (m n : nat) (i : interpreter).

(** [get_request] is outside of the [try]. *)
Definition handle_request : X worker unit :=
  r <- get_request ;;
  resp <- on_srv (answer m n i r.1 r.2) ;;
  send_response resp.

(** While [FCGX_Accept_r] gives requests; the fuel bounds how many it gives. *)
Fixpoint process_request (fuel : nat) : X worker unit :=
  match fuel with
  | O => xnofuel
  | S k =>
      rc <- fcgi (FCGX_Accept_r inet_addr use_locking) ;;
      if rc =? 0 then handle_request ;;; process_request k else fcgi FCGX_Finish_r
  end.

(** ** The fields of the request *)

Lemma read_env_end ss v p : read_env ((Str <$> ss) ++ Null :: v) p = read_env ((Str <$> ss) ++ [Null]) p.
Proof.
  revert p. induction ss as [|s ss IH]; intros p; [done|]. cbn. destruct (split_line _) as [l r].
  by destruct (set_variable l r p).
Qed.

Lemma cgi_fields_once a b f : (a, f) ∈ cgi_fields -> map_find b cgi_fields = Some f -> a = b.
Proof.
  intros Ha Hb%map_find_elem. unfold cgi_fields in *. repeat setoid_rewrite elem_of_cons in Ha. repeat setoid_rewrite elem_of_cons in Hb.
  rewrite elem_of_nil in Ha, Hb. naive_solver.
Qed.

Lemma cgi_fields_find a f : (a, f) ∈ cgi_fields -> map_find a cgi_fields = Some f.
Proof.
  intros Ha. unfold cgi_fields in Ha. repeat setoid_rewrite elem_of_cons in Ha. rewrite elem_of_nil in Ha.
  by repeat destruct Ha as [[= -> ->]|Ha].
Qed.

Context `{!HttpLaws}.

(** A variable sets its own field alone. *)
Lemma set_variable_field left_ right_ p p' name f : (name, f) ∈ cgi_fields -> set_variable left_ right_ p = Val p' ->
  get_field f (req p') = if seqb left_ name then right_ else get_field f (req p).
Proof.
  intros Hf. unfold set_variable. destruct (map_find left_ cgi_fields) as [g|] eqn:E.
  - intros [= <-]. cbn. destruct (decide (f = g)) as [->|Hn].
    + assert (name = left_) as -> by (by eapply cgi_fields_once). rewrite seqb_refl. apply get_set_field.
    + rewrite get_set_other by done. assert (seqb left_ name = false) as ->; [|done]. apply bool_decide_false. intros ->.
      apply cgi_fields_find in Hf. congruence.
  - assert (seqb left_ name = false) as ->.
    { apply bool_decide_false. intros ->. apply cgi_fields_find in Hf. congruence. }
    repeat (destruct (seqb left_ _); [try (destruct (int_value right_)); intros [= <-]; cbn|]);
      rewrite ?get_field_port, ?get_field_https; try done.
    destruct (starts_with "HTTP_" left_); intros [= <-]; cbn; by rewrite ?get_field_header.
Qed.

(** A line of the environment, as the library makes it of a name and a value, is split into them. *)
Lemma split_line_pair name value : sfind name "=" 0 = None -> split_line (name +:+ "=" +:+ value) = (name, value).
Proof.
  intros Hn. unfold split_line. rewrite (sfind_char "="%char) by done. f_equal.
  - apply (ssub_app "" name (str1 "=" +:+ value)).
  - rewrite <- (sapp_nil_r value) at 1. replace (name +:+ "=" +:+ value +:+ "") with ((name +:+ "=") +:+ value +:+ "") by (by rewrite !sapp_assoc).
    replace (slen name + 1)%nat with (slen (name +:+ "=")) by slen.
    replace (slen _ - _ - _)%nat with (slen value) by slen. apply ssub_app.
Qed.

(** The chain of tests knows a name for each of the fields. *)
Lemma read_env_field ss v p name f :
  (name, f) ∈ cgi_fields ->
  read_env ((Str <$> ss) ++ Null :: v) (Parsed new_request 0 ∅) = Ok (Val p) ->
  get_field f (req p) =
    default (get_field f new_request) (last (values_of name ((fun s => split_line (text (c_string s))) <$> ss))).
Proof.
  intros Hf. assert (forall p0, read_env ((Str <$> ss) ++ Null :: v) p0 = Ok (Val p) ->
    get_field f (req p) = default (get_field f (req p0)) (last (values_of name ((fun s => split_line (text (c_string s))) <$> ss))))
    as Hk; [|apply Hk].
  induction ss as [|s ss IH]; intros p0 E; cbn in E; [by injection E as <-|].
  destruct (split_line (text (c_string s))) as [l r] eqn:Es. destruct (set_variable l r p0) as [p1|] eqn:E1; [|done].
  rewrite (IH p1 E), (set_variable_field l r p0 p1 name f Hf E1).
  rewrite fmap_cons, Es. change ((l, r) :: ?k) with ([(l, r)] ++ k). rewrite values_of_app, values_of_one, last_app.
  cbn. destruct (last _); [done|]. by destruct (seqb l name).
Qed.

(** A string of C: bytes without a zero. *)
Definition is_c_string (s : string) : Prop := Forall (fun b => b <> 0) (bytes s).

Lemma env_line name value : is_c_string name -> is_c_string value -> sfind name "=" 0 = None ->
  split_line (text (c_string (bytes (name +:+ "=" +:+ value)))) = (name, value).
Proof.
  intros Hn Hv Hs. rewrite c_string_all, text_bytes; [by apply split_line_pair|].
  rewrite !bytes_app. by repeat (apply Forall_app_2; [try done; by repeat constructor|]).
Qed.

(** C27: the request that the interpreter gets: when the web server sent the variables [env], names and
    values without zero bytes and names without an equals sign, each of these fifteen fields of the
    request has the value of the CGI variable of that name, the last one if the web server sent several,
    and what a new request has in it if it sent none. *)
Theorem request_fields (env : list (string * string)) v p :
  Forall (fun nv => is_c_string nv.1 /\ is_c_string nv.2 /\ sfind nv.1 "=" 0 = None) env ->
  read_env (((fun nv => Str (bytes (nv.1 +:+ "=" +:+ nv.2))) <$> env) ++ Null :: v) (Parsed new_request 0 ∅) = Ok (Val p) ->
  let value name f := default (get_field f new_request) (last (filter (fun nv => nv.1 = name) env).*2) in
  Forall (fun nf => get_field nf.2 (req p) = value nf.1 nf.2)
    [("AUTH_TYPE", AUTH_TYPE); ("CONTENT_TYPE", CONTENT_TYPE); ("GATEWAY_INTERFACE", GATEWAY_INTERFACE);
     ("PATH_INFO", PATH_INFO); ("PATH_TRANSLATED", PATH_TRANSLATED); ("QUERY_STRING", QUERY_STRING);
     ("REMOTE_ADDR", REMOTE_ADDR); ("REMOTE_HOST", REMOTE_HOST); ("REMOTE_IDENT", REMOTE_IDENT);
     ("REMOTE_USER", REMOTE_USER); ("REQUEST_METHOD", REQUEST_METHOD); ("SCRIPT_NAME", SCRIPT_NAME);
     ("SERVER_NAME", SERVER_NAME); ("SERVER_PROTOCOL", SERVER_PROTOCOL); ("SERVER_SOFTWARE", SERVER_SOFTWARE)].
Proof.
  intros Henv E value.
  assert ((fun s => split_line (text (c_string s))) <$> ((fun nv => bytes (nv.1 +:+ "=" +:+ nv.2)) <$> env) = env) as Hs.
  { clear E value. induction Henv as [|[nm x] env (Hn & Hx & He) _ IH]; [done|].
    rewrite !fmap_cons, IH. cbn [fst snd] in *. by rewrite env_line. }
  assert ((fun nv : string * string => Str (bytes (nv.1 +:+ "=" +:+ nv.2))) <$> env =
    Str <$> ((fun nv => bytes (nv.1 +:+ "=" +:+ nv.2)) <$> env)) as Hm by (by rewrite <- list_fmap_compose).
  rewrite Hm in E. change (Forall (fun nf => get_field nf.2 (req p) = value nf.1 nf.2) cgi_fields).
  apply Forall_forall. intros [name f] Hf. cbn. rewrite (read_env_field _ _ _ _ _ Hf E), Hs. done.
Qed.

(** ** One request, end to end *)

(** A string whose length is an [int]. *)
Definition fits_int (s : list Z) : Prop := zlen s <= INT_MAX.

Lemma put_string_fits s : fits_int s -> put_string s = fcgi (on_stream Out (@FCGX_PutStr writer_procs s)).
Proof.
  intros Hs. unfold put_string, fits_int, INT_MAX in *. pose proof (zlen_nonneg s).
  assert (to_int (zlen s) = zlen s) as -> by (unfold to_int; rewrite Z.mod_small; lia).
  rewrite (proj2 (Z.ltb_ge _ _)) by lia. by rewrite take_ge by (unfold zlen; lia).
Qed.

(** A string of 2 GB and less than 4 GB is not sent. *)
Lemma put_string_long s w : INT_MAX < zlen s < 4294967296 -> put_string s w = Crash MemFault.
Proof.
  intros Hs. unfold put_string, INT_MAX in *.
  assert (to_int (zlen s) = zlen s - 4294967296) as ->.
  { unfold to_int. rewrite <- (Z.mod_add _ (-1)), Z.mod_small by lia. lia. }
  by rewrite (proj2 (Z.ltb_lt _ _)) by lia.
Qed.

(** The calls that send a response. *)
Lemma send_response_spec resp rq epad tail tx0 rs v w x :
  serving rq epad tail tx0 rs v w ->
  fits_int (bytes ("Status: " +:+ get_status resp)) -> fits_int (bytes (response_text resp)) ->
  exists w' rs', send_response resp (Worker w x) = Ok (Val tt, Worker w' x, "") /\
    serving rq epad tail tx0 (rs ++ rs')
      (written_to Out (bytes ("Status: " +:+ get_status resp) ++ [13; 10] ++ bytes (response_text resp)) v) w' /\
    same_library w w'.
Proof.
  intros S Hstatus Htext. assert (forall bs rs v w, serving rq epad tail tx0 rs v w ->
    exists w' rs', on_stream Out (@FCGX_PutStr writer_procs bs) w = Ok (zlen bs, w') /\
      serving rq epad tail tx0 (rs ++ rs') (written_to Out bs v) w' /\ same_library w w') as Hput.
  { intros bs rs0 v0 w0 S0. apply (call_writes Out _ _ bs rq epad tail tx0 rs0 v0 w0 S0); [done|].
    intros T st W. apply open_PutStr. }
  destruct (Hput (bytes ("Status: " +:+ get_status resp)) _ _ _ S) as (w1 & rs1 & E1 & S1 & L1).
  destruct (Hput [13; 10] _ _ _ S1) as (w2 & rs2 & E2 & S2 & L2).
  destruct (Hput (bytes (response_text resp)) _ _ _ S2) as (w3 & rs3 & E3 & S3 & L3).
  exists w3, (rs1 ++ rs2 ++ rs3). split_and!.
  - unfold send_response. rewrite !put_string_fits by done. unfold fcgi, xbind. cbn [library srv]. rewrite E1. cbn [after library srv].
    change (@FCGX_PutS writer_procs [13; 10]) with (@FCGX_PutStr writer_procs [13; 10]). rewrite E2. cbn [after library srv].
    by rewrite E3.
  - rewrite <- !app_assoc in S3. eapply eq_ind_r with (P := fun v => serving _ _ _ _ _ v _); [exact S3|].
    destruct v as [a b c d]. unfold written_to. cbn. f_equal. by rewrite <- !app_assoc.
  - by apply (same_library_trans _ w1), (same_library_trans _ w2).
Qed.

(** The request that [get_request] makes of its variables and the content of [STDIN]. *)
Definition with_content (p : parsed) (body : list Z) : http_request :=
  if c_len p >? 0 then set_content (text (sub 0 (c_len p) body)) (req p) else req p.

Lemma get_request_spec ss v p rq epad tail tx0 rs vw w x :
  serving rq epad tail tx0 rs vw w ->
  FcgiRequest.envp (request w) = Some ((Str <$> ss) ++ Null :: v) ->
  read_env ((Str <$> ss) ++ [Null]) (Parsed new_request 0 ∅) = Ok (Val p) -> c_len p < INT_MAX ->
  exists w' rs' X,
    get_request (Worker w x) = Ok (Val (with_content p (v_in vw), map_order (map_to_list (env_vars p))), Worker w' x, "") /\
    serving rq epad tail tx0 (rs ++ rs') (read_to X vw) w' /\ same_library w w'.
Proof.
  intros S Ee Ep Hc. unfold get_request, xbind at 1, xget. cbn [after library]. rewrite Ee.
  unfold xbind at 1, xlift. rewrite read_env_end, Ep. cbn [after]. unfold with_content, read_content.
  destruct (Z.gtb_spec (c_len p) 0) as [Hpos|Hneg].
  - rewrite (proj2 (Z.eqb_neq _ _)) by lia.
    destruct (call_reads (@FCGX_GetStr reader_procs (c_len p)) (sub 0 (c_len p) (v_in vw)) rq epad tail tx0 rs vw w
      (drop (Z.to_nat (c_len p)) (v_in vw)) S) as (w1 & rs1 & E1 & S1 & L1).
    { apply Forall_drop. by destruct S. }
    { intros st Hr. apply reading_GetStr; [done|lia]. }
    exists w1, rs1, (drop (Z.to_nat (c_len p)) (v_in vw)). split; [|done]. unfold fcgi, xbind. cbn [library srv].
    by rewrite E1.
  - exists w, [], (v_in vw). rewrite app_nil_r. destruct vw. done.
Qed.

Definition status_and_response (resp : http_response) : list Z :=
  bytes ("Status: " +:+ get_status resp) ++ [13; 10] ++ bytes (response_text resp).

End fastcgi.
