(* ===== verification/DbDemo.v ===== *)
(** * A concrete environment for the witnesses

    Executable instances of the external code ([Dcl], [Platform], [Services]) with which the model
    runs: numbers are decimal integers, a file system and a clock do nothing.  They are used where a
    theorem is applied to a concrete program; no theorem depends on them. *)

From S2P Require Import Prelude DbLang DbContext DbTag DbExpression DbTemplate DbBuiltin DbData DbServices DbFunctions DbExecute.

Fixpoint demo_digits (acc : Z) (s : string) : option Z :=
  match s with
  | "" => Some acc
  | String c s' => if isdigit c then demo_digits (acc * 10 + (Z.of_nat (code c) - 48)) s' else None
  end.
Definition demo_int (s : string) : option Z :=
  match s with
  | "" => None
  | String "-"%char "" => None
  | String "-"%char s' => Z.opp <$> demo_digits 0 s'
  | _ => demo_digits 0 s
  end.
Definition demo_double_str (d : double) : string :=
  match d with
  | S754_zero _ => "0"
  | S754_infinity s => if s then "-inf" else "inf"
  | S754_nan => "nan"
  | S754_finite s m e =>
      let z := if 0 <=? e then Zpos m * 2 ^ e else Zpos m / 2 ^ (- e) in pretty (if s then - z else z)
  end.

Definition demo_trim_left := fix go (s : string) :=
  match s with String c s' => if isspace c then go s' else s | "" => "" end.
Fixpoint srev (acc s : string) : string := match s with "" => acc | String c s' => srev (String c acc) s' end.
Definition demo_trim (s : string) : string := srev "" (demo_trim_left (srev "" (demo_trim_left s))).

Fixpoint demo_split (sep : ascii) (cur s : string) : list string :=
  match s with
  | "" => [cur]
  | String c s' => if is_char c sep then cur :: demo_split sep "" s' else demo_split sep (cur +:+ str1 c) s'
  end.
Definition demo_tokenize (sep : ascii) (s : string) : list string :=
  List.filter (fun t => negb (is_empty t)) (demo_trim <$> demo_split sep "" s).

Fixpoint demo_format (s : string) (args : list string) : string :=
  match s with
  | String "{"%char (String c (String "}"%char s')) => (args !!! (code c - 48)%nat) +:+ demo_format s' args
  | String c s' => String c (demo_format s' args)
  | "" => ""
  end.

#[export] Instance demo_dcl : Dcl := {
  trim := demo_trim;
  tokenize := demo_tokenize ",";
  tokenize_by s sep := match sep with String c _ => demo_tokenize c s | "" => [s] end;
  compare a b := seqb (smap to_upper a) (smap to_upper b);
  from_string_double s := of_Z <$> demo_int s;
  to_string_double := demo_double_str;
  from_string_int := demo_int;
  to_string_int z := pretty z;
  conversion_error s := "can't convert " +:+ s;
  format := demo_format
}.

#[export] Instance demo_dcl_laws : DclLaws.
Proof. split. intros s. apply seqb_refl. Qed.

#[export] Instance demo_platform : Platform := {
  lhs_first := true;
  map_order A l := l;
  pow x y := x
}.

#[export] Instance demo_platform_laws : PlatformLaws.
Proof. split. done. Qed.

(** JSON: strings and objects of strings. *)
Inductive demo_json := DemoString (s : string) | DemoObject (l : list (string * string)).

(** The state of the operating system is what was logged. *)
#[export] Instance demo_services : Services := {
  sys := list string;
  sys_remove _ s := (false, s);
  sys_rename _ _ s := (false, s);
  sys_read _ _ := None;
  sys_write _ _ s := (false, s);
  sys_log m s := m :: s;
  sys_catalog _ _ s := s;
  sys_http _ s := (curl_failed "no network", s);
  sys_process _ _ _ s := (("", "", None), s);
  app_full_name := "dbPager";
  re_global_replace _ _ v := (0, v);
  re_find_and_consume _ _ := None;
  json := demo_json;
  json_parse _ := None;
  json_write _ := "null";
  json_elements _ := None;
  json_members j := match j with DemoObject l => Some ((fun kv => (kv.1, DemoString kv.2)) <$> l) | DemoString _ => None end;
  json_is_null _ := false;
  json_as_string j := match j with DemoString s => Some s | DemoObject _ => None end;
  json_of_int _ := DemoString "";
  json_of_double _ := DemoString "";
  json_of_bool _ := DemoString "";
  json_of_string := DemoString;
  json_object _ := DemoString "";
  stod _ := None;
  sys_rand s := (0, s);
  sys_time _ := 0;
  sys_uuid s := ("id", s);
  sys_getenv _ _ := None;
  encode_base64 s := s;
  decode_base64 s := s;
  encode_md5 s := s;
  sha256 _ := [];
  crypt_r _ _ := None;
  url_encode s := s;
  url_decode s := s;
  translate _ _ s := s;
  datetime := unit;
  datetime_parse _ _ := Val tt;
  datetime_as_gmt _ := "";
  datetime_str _ _ := "";
  pointer_str p := pretty (Zpos p);
  str_pointer s := Z.to_pos <$> demo_int s
}.

Definition demo_world : world := World (local_context []) ∅ ∅ [].

(** [calc] of an expression with the given variables and no functions. *)
Definition demo_var (vars : list (string * string)) (nm : string) : X unit string :=
  xret (default "" (map_find nm vars)).
Definition demo_calc (vars : list (string * string)) (e : string) : res (outcome string * unit * string) :=
  calc (demo_var vars) (fun nm v => xret (nm +:+ "[" +:+ v +:+ "]")) e tt.

Example calc_1 : demo_calc [] "1 + 2 * 3" = Ok (Val "7", tt, "").
Proof. vm_compute. reflexivity. Qed.
Example calc_2 : demo_calc [("number", "5")] "($number - 1) = 0" = Ok (Val "0", tt, "").
Proof. vm_compute. reflexivity. Qed.
Example calc_3 : demo_calc [] "1 = 'a'" = Ok (Val "1", tt, "").
Proof. vm_compute. reflexivity. Qed.
Example calc_4 : demo_calc [] "(0 & 1)" = Ok (Exc (evaluator_exception rp_expected), tt, "").
Proof. vm_compute. reflexivity. Qed.
Example calc_5 : demo_calc [] "len('ab')+1" = Ok (Val "len['ab'1]", tt, "").
Proof. vm_compute. reflexivity. Qed.
Example calc_6 : demo_calc [] "len('ab') + len('c')" = Ok (Exc not_a_number, tt, "").
Proof. vm_compute. reflexivity. Qed.
