(* ===== verification/DbWitness.v ===== *)
(** * Witnesses: the theorems of the interpreter at concrete programs

    The programs are small documents: a page, one with a handler, one with a switch, one with a user tag.
    [demo_document] holds the first of them as the nodes that the XML reader gives. *)

From S2P Require Import Prelude DbLang DbContext DbTag DbExpression DbTemplate DbGrammar DbBuiltin DbStrings DbData DbServices DbFunctions DbExecute DbParser DbControl DbMarkup DbFrame DbScope DbTypes DbProgram DbDemo.

(** ** A document *)

Definition demo_element (d : Z) (nm : string) : event := XML_READER_TYPE_ELEMENT d "" nm nm [].
Definition demo_dbp (d : Z) (nm : string) (attrs : list attribute) : event :=
  XML_READER_TYPE_ELEMENT d dbpager_uri nm ("dbp:" +:+ nm) attrs.
Definition demo_attribute (nm v : string) : attribute := Attribute None "" nm nm v.

(** A page with a user tag, a call of it and a block whose expression fails. *)
Definition demo_document : list event :=
  [ demo_element 0 "html";
    demo_dbp 1 "tag" [demo_attribute "name" "greet"];
    XML_READER_TYPE_TEXT 2 "Hello {$who}";
    XML_READER_TYPE_END_ELEMENT;
    XML_READER_TYPE_ELEMENT 1 dbpager_custom_uri "greet" "my:greet" [demo_attribute "who" "world"];
    XML_READER_TYPE_END_ELEMENT;
    demo_dbp 1 "try" [];
    XML_READER_TYPE_TEXT 2 "{1 + 'x'}";
    demo_dbp 2 "catch" [];
    XML_READER_TYPE_TEXT 3 "failed: {$error_message}";
    XML_READER_TYPE_END_ELEMENT;
    XML_READER_TYPE_END_ELEMENT;
    XML_READER_TYPE_END_ELEMENT ].

#[export] Instance demo_documents : Documents := {
  read_document url := if seqb url "page.xml" then Some (demo_document, true) else None;
  resolve_url current href := href;
  error_message url := "no such file"
}.

Definition demo_page : res (outcome unit * parsing * string) := run_application 30 2 "page.xml" (Parsing ∅ demo_world).
Definition page_output {A W} (r : res (outcome A * W * string)) : option string :=
  match r with Ok (Val _, _, s) => Some s | _ => None end.

Example demo_page_output :
  page_output demo_page = Some "<html>Hello worldfailed: can&apos;t convert the string to a number</html>".
Proof. vm_compute. reflexivity. Qed.

(** The tree of the document. *)
Definition demo_heap : heap :=
  match dbpager_application (execute 30) 2 "page.xml" (Parsing ∅ demo_world) with
  | Ok (_, s, _) => tree s
  | _ => ∅
  end.

(** ** The parser and the interpreter *)

Definition returns {A} (r : res A) : bool := match r with Ok _ => true | _ => false end.

Lemma returns_spec {A B C} (r : res (A * B * C)) : returns r = true -> exists a b c, r = Ok (a, b, c).
Proof. destruct r as [[[a b] c]|f|]; [by exists a, b, c|done..]. Qed.

Lemma returns_result {A} (r : res A) : returns r = true -> r <> NoFuel.
Proof. by destruct r. Qed.

Lemma parse_well_typed_witness :
  documents_ok /\
  match dbpager_application (execute 30) 2 "page.xml" (Parsing ∅ demo_world) with
  | Ok (Val t, s, _) => well_typed (tree s) /\ is_Some (tree s !! t)
  | Ok (Exc _, _, _) => True
  | Crash f => f <> Dangling /\ f <> BadCast
  | NoFuel => True
  end.
Proof.
  assert (documents_ok) as Hd.
  { intros url events finished. cbn. destruct (seqb url "page.xml"); [|done]. intros [= <- <-]. vm_compute. reflexivity. }
  split; [exact Hd|]. pose proof (parse_well_typed 30 2 "page.xml" demo_world Hd) as Hr. exact Hr.
Defined.

Lemma document_type_safe_witness :
  documents_ok /\ Forall (fun c => DbContext.exec c = []) (chain demo_world) /\
  match run_application 30 2 "page.xml" (Parsing ∅ demo_world) with
  | Ok _ => True
  | Crash f => f <> Dangling /\ f <> BadCast
  | NoFuel => True
  end.
Proof.
  assert (documents_ok) as Hd.
  { intros url events finished. cbn. destruct (seqb url "page.xml"); [|done]. intros [= <- <-]. vm_compute. reflexivity. }
  assert (Forall (fun c => DbContext.exec c = []) (chain demo_world)) as Hw by (repeat constructor).
  split; [exact Hd|split; [exact Hw|]]. pose proof (document_type_safe 30 2 "page.xml" demo_world Hd Hw) as Hr. exact Hr.
Defined.

Lemma execute_type_safe_witness :
  well_typed demo_heap /\ is_Some (demo_heap !! 1%positive) /\ typed_stacks demo_heap (chain demo_world) /\
  match execute 30 demo_heap 1%positive None demo_world with
  | Ok (_, w', _) => stacks_part (chain demo_world) (chain w')
  | Crash f => f <> Dangling /\ f <> BadCast
  | NoFuel => True
  end.
Proof.
  assert (well_typed demo_heap) as Hh by (apply (bool_decide_unpack _); vm_compute; exact I).
  assert (is_Some (demo_heap !! 1%positive)) as Ht by (apply (bool_decide_unpack _); vm_compute; exact I).
  assert (typed_stacks demo_heap (chain demo_world)) as Hs by (repeat constructor).
  split; [exact Hh|split; [exact Ht|split; [exact Hs|]]]. pose proof (execute_type_safe 30 demo_heap 1%positive None demo_world Hh Ht Hs) as Hr. exact Hr.
Defined.

Lemma execute_layers_witness :
  no_split demo_heap /\
  exists o w' s, execute 30 demo_heap 1%positive None demo_world = Ok (o, w', s) /\ scoped (chain demo_world) (chain w').
Proof.
  assert (no_split demo_heap) as Hh.
  { assert (map_Forall (fun _ o => cls o <> tag_split) demo_heap) as Hf by (apply (bool_decide_unpack _); vm_compute; exact I).
    exact Hf. }
  assert (returns (execute 30 demo_heap 1%positive None demo_world) = true) as Ho by (vm_compute; reflexivity).
  split; [exact Hh|]. destruct (returns_spec _ Ho) as (o & w' & s & E).
  exists o, w', s. split; [exact E|]. pose proof (execute_layers 30 demo_heap 1%positive None demo_world o w' s Hh E) as Hr. exact Hr.
Defined.

Lemma execute_fuel_witness :
  exists r, execute 30 demo_heap 1%positive None demo_world = r /\ r <> NoFuel /\ execute 40 demo_heap 1%positive None demo_world = r.
Proof.
  exists (execute 30 demo_heap 1%positive None demo_world). split; [reflexivity|].
  assert (returns (execute 30 demo_heap 1%positive None demo_world) = true) as Ho by (vm_compute; reflexivity).
  pose proof (returns_result _ Ho) as Hn.
  split; [exact Hn|]. pose proof (execute_fuel 30 40 demo_heap 1%positive None demo_world _ eq_refl Hn ltac:(lia)) as Hr. exact Hr.
Defined.

(** ** Expressions *)

Definition demo_cf : string -> string -> X unit string := fun nm v => xret (nm +:+ "[" +:+ v +:+ "]").

Lemma eval_total_witness :
  (forall nm w, demo_var [("a", "2")] nm w <> NoFuel) /\ (forall nm v w, demo_cf nm v w <> NoFuel) /\
  eval (demo_var [("a", "2")]) demo_cf "x{$a + 1}" tt <> NoFuel /\ calc (demo_var [("a", "2")]) demo_cf "x{$a + 1}" tt <> NoFuel.
Proof.
  assert (forall nm w, demo_var [("a", "2")] nm w <> NoFuel) as Hv by (intros nm w; discriminate).
  assert (forall nm v w, demo_cf nm v w <> NoFuel) as Hc by (intros nm v w; discriminate).
  split; [exact Hv|split; [exact Hc|]]. exact (eval_total _ _ "x{$a + 1}" tt Hv Hc).
Defined.

(** [a\{{1+{$a}}b]. *)
Definition demo_template : template :=
  TChar "a" (TQuoted "{" (TCode (TChar "1" (TChar "+" (TCode (TChar "$" (TChar "a" TNil)) TNil))) (TChar "b" TNil))).

Lemma eval_renders_witness :
  well_formed true demo_template = true /\
  eval (demo_var [("a", "2")]) demo_cf (print demo_template) tt = DbTemplate.render (demo_var [("a", "2")]) demo_cf demo_template tt /\
  DbTemplate.render (demo_var [("a", "2")]) demo_cf demo_template tt = Ok (Val "a{3b", tt, "").
Proof.
  assert (well_formed true demo_template = true) as Hw by reflexivity.
  split; [exact Hw|]. split; [|vm_compute; reflexivity].
  exact (eval_renders (demo_var [("a", "2")]) demo_cf demo_template tt Hw).
Defined.

(** [($a + 2 * 3 = 10) & !($a < 4)]. *)
Definition demo_text : string := "($a + 2*3 = 10) & !($a <4)".
Definition demo_sum : add_e := AOp (AMul (MPrim (PVar "a"))) PLUS (MOp (MPrim (PNum "2")) MUL (PNum "3")).
Definition demo_expr : top_e :=
  EAnd (AMul (MPrim (PParen (ROp demo_sum EQ (AMul (MPrim (PNum "10")))))))
       (AMul (MPrim (PNot (PParen (ROp (AMul (MPrim (PVar "a"))) LT (AMul (MPrim (PNum "4")))))))).
Definition demo_vars (nm : string) : string := default "" (map_find nm [("a", "4")]).

(** The next token [t] of a text, written [txt] after the blanks [b]. *)
Ltac lex b t txt rest :=
  refine (lexes_token b t txt rest _ _ _ _ _);
  [reflexivity|first [by left | by split_and!]|reflexivity|].

Lemma demo_lexes : lexes demo_text (top_toks demo_expr).
Proof.
  lex "" (TOp LP) "(" "$a + 2*3 = 10) & !($a <4)". lex "" (TVar "a") "$a" " + 2*3 = 10) & !($a <4)".
  lex " " (TOp PLUS) "+" " 2*3 = 10) & !($a <4)". lex " " (TNum "2") "2" "*3 = 10) & !($a <4)".
  lex "" (TOp MUL) "*" "3 = 10) & !($a <4)". lex "" (TNum "3") "3" " = 10) & !($a <4)".
  lex " " (TOp EQ) "=" " 10) & !($a <4)". lex " " (TNum "10") "10" ") & !($a <4)".
  lex "" (TOp RP) ")" " & !($a <4)". lex " " (TOp AND) "&" " !($a <4)". lex " " (TOp NOT) "!" "($a <4)".
  lex "" (TOp LP) "(" "$a <4)". lex "" (TVar "a") "$a" " <4)". lex " " (TOp LT) "<" "4)".
  lex "" (TNum "4") "4" ")". lex "" (TOp RP) ")" "". by constructor.
Qed.


(** Where the evaluator departs from the documentation: NOT of a number that is not zero, and a number that
    is equal to one in another spelling. *)
Example not_five :
  calc (demo_var []) demo_cf "!5" tt = Ok (Val "1", tt, "") /\ documented demo_vars (ERel (RAdd (AMul (MPrim (PNot (PNum "5")))))) = Unspecified.
Proof. by vm_compute. Qed.
Example one_spelled :
  calc (demo_var []) demo_cf "01 & 1" tt = Ok (Val "0", tt, "") /\
  documented demo_vars (EAnd (AMul (MPrim (PNum "01"))) (AMul (MPrim (PNum "1")))) = Unspecified.
Proof. by vm_compute. Qed.

(** ** Texts *)

Lemma tag_split_join_witness :
  ", " <> "" /\
  exists l, pieces 8 "a, b, c" ", " 0 = Ok l /\ splits ", " "a, b, c" l /\ join ", " l = "a, b, c" /\
    Forall (fun p => sfind p ", " 0 = None) l.
Proof.
  assert (", " <> "") as Hs by discriminate. split; [exact Hs|]. exact (tag_split_join "a, b, c" ", " Hs).
Defined.

Lemma replace_with_join_witness :
  ", " <> "" /\
  exists l, pieces 8 "a, b, c" ", " 0 = Ok l /\ replace_with "a, b, c" ", " "; " = Ok (join "; " l).
Proof.
  assert (", " <> "") as Hs by discriminate. split; [exact Hs|]. exact (replace_with_join "a, b, c" ", " "; " Hs).
Defined.

(** ** Control structures *)

Definition demo_object (h : heap) (t : positive) : tag := default (new_tag tag_unknown "") (h !! t).
Definition demo_try : tag := demo_object demo_heap 7.

(** The body throws after nothing was written, and there is a handler. *)
Lemma try_catches_witness :
  exists r w1 s, tag_impl_execute (execute 20) demo_heap demo_try None demo_world = Ok (r, w1, s) /\ chain w1 <> [] /\
    match r with
    | Val _ => tag_try_execute (execute 20) demo_heap 7 demo_try None demo_world = Ok (Val tt, w1, s)
    | Exc e =>
        match get_child demo_heap demo_try "catch" with
        | Ok None => tag_try_execute (execute 20) demo_heap 7 demo_try None demo_world = Ok (Exc e, w1, "")
        | Ok (Some c) => forall co, demo_heap !! c = Some co -> cls co = tag_catch ->
            tag_try_execute (execute 20) demo_heap 7 demo_try None demo_world =
              finally (tag_impl_execute (execute 20) demo_heap co None) (ctx leave)
                (w1 <| chain := with_layer (error_variables e) (chain w1) |>)
        | _ => True
        end
    end.
Proof.
  assert (returns (tag_impl_execute (execute 20) demo_heap demo_try None demo_world) = true) as Ho by (vm_compute; reflexivity).
  destruct (returns_spec _ Ho) as (r & w1 & s & E). exists r, w1, s. split; [exact E|].
  assert (match tag_impl_execute (execute 20) demo_heap demo_try None demo_world with
          | Ok (_, w, _) => chain w <> [] | _ => False end) as Hw by (vm_compute; discriminate).
  rewrite E in Hw. split; [exact Hw|].
  pose proof (try_catches (execute 20) demo_heap 7 demo_try None demo_world w1 r s E Hw) as Hr. exact Hr.
Defined.

(** [<dbp:switch test="b">] with the cases [a] and [b]. *)
Definition demo_expression (p : positive) (s : string) : tag :=
  (new_tag tag_expression "") <| parent := Some p |> <| text := s |>.
Definition demo_switch : tag :=
  (new_tag tag_switch "switch") <| childs := [3%positive; 5%positive] |> <| params := [("test", 2%positive)] |>.
Definition demo_case (p : positive) (ch : list positive) : tag :=
  (new_tag tag_case "case") <| parent := Some 1%positive |> <| childs := ch |> <| params := [("match", p)] |>.
Definition switch_heap : heap := list_to_map
  [ (1%positive, demo_switch); (2%positive, demo_expression 1 "b");
    (3%positive, demo_case 4 []); (4%positive, demo_expression 3 "a");
    (5%positive, demo_case 6 [7%positive]); (6%positive, demo_expression 5 "b");
    (7%positive, demo_expression 5 "chosen") ].

Lemma switch_first_case_witness :
  constant (execute 5) switch_heap 1 demo_switch "test" "b" /\
  Forall (no_match (execute 4) switch_heap "b") [3%positive] /\
  constant (execute 4) switch_heap 5 (demo_case 6 [7%positive]) "match" "b" /\
  tag_switch_execute (execute 5) switch_heap 1 demo_switch None demo_world =
    finally (catch (tag_impl_execute (execute 4) switch_heap (demo_case 6 [7%positive]) None ;;; throw (tag_case_exception ""))
      end_of_case) (ctx leave) (demo_world <| chain := with_layer [(switch_variable, "b")] (chain demo_world) |>).
Proof.
  assert (constant (execute 5) switch_heap 1 demo_switch "test" "b") as Ht
    by (apply (constant_parameter 4 switch_heap 1 demo_switch "test" 2 (demo_expression 1 "b")); reflexivity).
  assert (Forall (no_match (execute 4) switch_heap "b") [3%positive]) as Hp.
  { repeat constructor. exists (demo_case 4 []), "a". split_and!; [reflexivity|reflexivity| |discriminate|discriminate].
    apply (constant_parameter 3 switch_heap 3 (demo_case 4 []) "match" 4 (demo_expression 3 "a")); reflexivity. }
  assert (constant (execute 4) switch_heap 5 (demo_case 6 [7%positive]) "match" "b") as Hm
    by (apply (constant_parameter 3 switch_heap 5 (demo_case 6 [7%positive]) "match" 6 (demo_expression 5 "b")); reflexivity).
  split; [exact Ht|split; [exact Hp|split; [exact Hm|]]].
  pose proof (switch_first_case 4 switch_heap 1 demo_switch None demo_world "b" [3%positive] 5 (demo_case 6 [7%positive])
    "b" [] ltac:(discriminate) eq_refl Ht Hp eq_refl eq_refl Hm (or_intror eq_refl)) as Hr. exact Hr.
Defined.

(** The call of the user tag of the document. *)
Definition demo_usr : tag := demo_object demo_heap 5.

Lemma usr_call_witness :
  constants (execute 20) demo_heap 5 (map_order (params demo_usr)) [("who", "world")] /\
  let w1 := demo_world <| chain := with_call 5 (with_layer [("who", "world")] (chain demo_world)) |> in
  tag_usr_execute (execute 20) 20 demo_heap 5 demo_usr demo_world =
    finally (finally (execute 20 demo_heap 2%positive (Some 5%positive)) (ctx pop ;;; xret tt)) (ctx leave) w1 /\
  (forall up, binding (chain w1) up =
     match declared [("who", "world")] ∅ !! up with Some v => Some v | None => binding (chain demo_world) up end).
Proof.
  assert (params demo_usr = [("who", 6%positive)]) as Hp by (vm_compute; reflexivity).
  assert (constants (execute 20) demo_heap 5 (map_order (params demo_usr)) [("who", "world")]) as Hc.
  { rewrite Hp. constructor; [|constructor]. split; [reflexivity|]. intros w.
    assert (demo_heap !! 6%positive = Some (demo_object demo_heap 6)) as E by (vm_compute; reflexivity).
    apply (expression_run 19 demo_heap 6 (demo_object demo_heap 6) (Some 5%positive) w E); vm_compute; reflexivity. }
  split; [exact Hc|].
  assert (demo_heap !! 2%positive = Some (demo_object demo_heap 2)) as E by (vm_compute; reflexivity).
  assert (cls (demo_object demo_heap 2) = tag_tag) as Hk by (vm_compute; reflexivity).
  assert (user_tag demo_usr = Some 2%positive) as Hu by (vm_compute; reflexivity).
  pose proof (usr_call (execute 20) 20 demo_heap 5 demo_usr 2 (demo_object demo_heap 2) [("who", "world")] demo_world
    ltac:(discriminate) Hc (or_introl Hu) E Hk) as Hr. exact Hr.
Defined.

(** ** Markup: [<p class="x">a <b></p>]. *)

Definition markup_heap : heap := list_to_map
  [ (1%positive, (new_tag tag_unknown "p") <| childs := [3%positive] |> <| params := [("class", 2%positive)] |>);
    (2%positive, demo_expression 1 "x"); (3%positive, demo_expression 1 "a <b>") ].

