(* ===== verification/DbServerWitness.v ===== *)
(** * Witnesses: the theorems of the server at concrete requests

    A demo of DCL's requests and responses ([demo_http]), of a configuration and of plugins, and a
    request for the document of DbWitness.v, from the records of the web server to the response. *)

From S2P Require Import Prelude FcgiProto FcgiStream FcgiWriter FcgiParams FcgiReader FcgiRecords OsAccept OsAsync FcgiRequest FcgiPrintf FcgiServe DbLang DbContext DbTag DbServices DbExecute DbParser DbTypes DbProgram DbHttp DbSession DbEnvironment DbServer DbSafety DbCache DbFastcgi DbDemo DbWitness.

(** ** Requests and responses *)

Record demo_request := DemoRequest {
  dr_field : http_field -> string;
  dr_port : Z;
  dr_https : bool;
  dr_headers : list (string * string);
  dr_content : option string
}.

Record demo_response := DemoResponse {
  rs_status : Z;
  rs_headers : list (string * string);
  rs_type : string;
  rs_content : string
}.

Definition newline : string := str1 (chr 10).

Definition demo_split_pair (s sep : string) : string * string :=
  match sfind s sep 0 with
  | None => (s, "")
  | Some p => (ssub s 0 p, sdrop s (p + 1))
  end.

#[export] Instance demo_http : Http := {
  http_request := demo_request;
  new_request := DemoRequest (fun _ => "") 80 false [] None;
  set_field f v r := DemoRequest (fun g => if decide (g = f) then v else dr_field r g) (dr_port r) (dr_https r) (dr_headers r) (dr_content r);
  get_field f r := dr_field r f;
  set_server_port z r := DemoRequest (dr_field r) z (dr_https r) (dr_headers r) (dr_content r);
  get_server_port := dr_port;
  set_https b r := DemoRequest (dr_field r) (dr_port r) b (dr_headers r) (dr_content r);
  get_https := dr_https;
  set_header k v r := DemoRequest (dr_field r) (dr_port r) (dr_https r) ((k, v) :: dr_headers r) (dr_content r);
  all_headers := dr_headers;
  set_content s r := DemoRequest (dr_field r) (dr_port r) (dr_https r) (dr_headers r) (Some s);
  get_content := dr_content;
  get_method r := if seqb (dr_field r REQUEST_METHOD) "POST" then HTTP_POST else HTTP_GET;
  get_cookies r := match map_find "Cookie" (dr_headers r) with Some v => [demo_split_pair v "="] | None => [] end;
  http_response := demo_response;
  new_response := DemoResponse 200 [] "" "";
  resp_header k v r := DemoResponse (rs_status r) (rs_headers r ++ [(k, v)]) (rs_type r) (rs_content r);
  set_status z r := DemoResponse z (rs_headers r) (rs_type r) (rs_content r);
  get_status r := pretty (rs_status r);
  resp_content s r := DemoResponse (rs_status r) (rs_headers r) (rs_type r) s;
  set_content_type s r := DemoResponse (rs_status r) (rs_headers r) s (rs_content r);
  get_content_type := rs_type;
  set_cookies _ r := r;
  set_cookie _ r := r;
  response_text r := "Content-Type: " +:+ rs_type r +:+ newline +:+ newline +:+ rs_content r;
  url_of s := sdrop s 7;
  split_pair := demo_split_pair;
  xml_root _ := None;
  mime_parse s := Mime "" (fun _ => "") "" s []
}.

#[export] Instance demo_http_laws : HttpLaws.
Proof.
  split; try done.
  - intros f v r. cbn. by rewrite decide_True.
  - intros f g v r Hn. cbn. by rewrite decide_False.
Qed.

#[export] Instance demo_config : Config := {
  config := unit;
  load_from_file _ := Some tt;
  config_value _ _ _ := None;
  section _ _ := []
}.

#[export] Instance demo_plugins : Plugins := {
  plugin := unit;
  plugin_load _ _ := Exc (dbp_exception "no plugins");
  plugin_logger _ _ := false;
  plugin_session _ _ := None
}.

(** The built-in session, with the cache. *)
Definition demo_interpreter : interpreter := Interpreter true false (Some session_int) [].

Example demo_load : load "dbpager.conf" demo_world = Ok (Val demo_interpreter, demo_world, "").
Proof. reflexivity. Qed.

Definition demo_get (path : string) : http_request := set_field PATH_TRANSLATED path new_request.
Definition demo_requests : list (http_request * list (string * string)) :=
  [(demo_get "page.xml", []); (demo_get "missing.xml", []); (demo_get "page.xml", [("ENV_X", "y")])].
Definition demo_server : server := Server ∅ demo_world.

Definition demo_answers : option (list (string * string)) :=
  match answer_all 30 2 demo_interpreter demo_requests demo_server with
  | Ok (Val rs, _, _) => Some ((fun r => (get_status r, rs_content r)) <$> rs)
  | _ => None
  end.

Example demo_answers_are : demo_answers =
  Some [("200", "<html>Hello worldfailed: can&apos;t convert the string to a number</html>");
        ("404", "unable to open file 'missing.xml'. no such file");
        ("200", "<html>Hello worldfailed: can&apos;t convert the string to a number</html>")].
Proof. vm_compute. reflexivity. Qed.

Lemma demo_documents_ok : documents_ok.
Proof. intros url events finished. cbn. destruct (seqb url "page.xml"); [|done]. intros [= <- <-]. vm_compute. reflexivity. Qed.

Lemma demo_sessions factory : session demo_interpreter = Some factory -> SessionsLaws factory.
Proof. intros [= <-]. apply session_int_laws. Qed.

(** ** The server *)

Lemma server_type_safe_witness :
  documents_ok /\ cache_ok (apps demo_server) /\
  match answer_all 30 2 demo_interpreter demo_requests demo_server with
  | Ok (Val resps, s', _) => length resps = length demo_requests /\ cache_ok (apps s')
  | Ok (Exc _, _, _) => False
  | Crash f => f <> Dangling /\ f <> BadCast
  | NoFuel => True
  end.
Proof.
  assert (cache_ok (apps demo_server)) as Hc by apply map_Forall_empty.
  split; [exact demo_documents_ok|split; [exact Hc|]].
  pose proof (server_type_safe 30 2 demo_interpreter demo_documents_ok demo_sessions demo_requests demo_server Hc) as Hr.
  exact Hr.
Defined.

(** Two threads that ask for the same document one after the other. *)
Lemma demo_application : exists a w o, new_application 30 2 "page.xml" demo_world = Ok (Val a, w, o).
Proof.
  destruct (returns_spec (new_application 30 2 "page.xml" demo_world)) as (r & w & o & E); [vm_compute; reflexivity|].
  destruct r as [a|e]; [by exists a, w, o|]. exfalso.
  assert (match new_application 30 2 "page.xml" demo_world with Ok (Val _, _, _) => true | _ => false end = true) as Hv
    by (vm_compute; reflexivity).
  rewrite E in Hv. discriminate.
Qed.

Lemma demo_reachable : exists s a, reachable 30 2 s /\
  threads s 0%nat = Returned "page.xml" (Some a) /\ threads s 1%nat = Returned "page.xml" (Some a).
Proof.
  destruct demo_application as (a & w & o & E). destruct (get_app_twice 30 2 _ _ _ _ _ E) as (s & R & E0 & E1).
  exists s, a. split; [exact R|split; [exact E0|exact E1]].
Qed.

Lemma get_app_shared_witness : exists s a, reachable 30 2 s /\ threads s 0%nat = Returned "page.xml" (Some a) /\
  threads s 1%nat = Returned "page.xml" (Some a) /\ cached s !! "page.xml" = Some a /\ NoDup (constructed s).
Proof.
  destruct demo_reachable as (s & a & R & E0 & E1). exists s, a.
  destruct (get_app_shared 30 2 s R) as (_ & Hg & Hn). split; [exact R|split; [exact E0|split; [exact E1|]]].
  split; [apply (Hg 0%nat 1%nat "page.xml" a a E0 E1)|exact Hn].
Defined.

(** ** Variables *)

Lemma query_variables_witness :
  exists w', parse_variables "a=&b=2&a=1&a=&a=3" demo_world = Ok (Val tt, w', "") /\ get_value (chain w') "a" = "1,,3".
Proof.
  assert (forall k v, (k, v) ∈ (fun p => (url_decode (split_pair p "=").1, url_decode (split_pair p "=").2)) <$>
    tokenize_by "a=&b=2&a=1&a=&a=3" "&" -> upname k = upname "a" -> k = "a") as Hn.
  { intros k v Hin. assert ((fun p => (url_decode (split_pair p "=").1, url_decode (split_pair p "=").2)) <$>
      tokenize_by "a=&b=2&a=1&a=&a=3" "&" = [("a", ""); ("b", "2"); ("a", "1"); ("a", ""); ("a", "3")]) as E
      by (vm_compute; reflexivity). rewrite E in Hin. rewrite !elem_of_cons, elem_of_nil in Hin.
    destruct Hin as [[= -> _]|[[= -> _]|[[= -> _]|[[= -> _]|[[= -> _]|[]]]]]]; by vm_compute. }
  destruct (query_variables "a=&b=2&a=1&a=&a=3" "a" demo_world _ _ _ _ eq_refl eq_refl Hn) as (w' & E & Hv).
  exists w'. split; [exact E|]. rewrite Hv. vm_compute. reflexivity.
Defined.

Lemma demo_construct_ends u : exists w o w' out, new_application 30 2 u w = Ok (o, w', out).
Proof.
  destruct (seqb u "page.xml") eqn:E.
  - apply seqb_spec in E as ->. destruct demo_application as (a & w & o & E). by exists demo_world, (Val a), w, o.
  - exists demo_world. unfold new_application, dbpager_application. cbn [parse]. unfold read_document, demo_documents. rewrite E.
    eexists _, _, _. reflexivity.
Qed.

Lemma demo_waiting : exists s, reachable 30 2 s /\ in_get_app (threads s 0%nat) = true.
Proof.
  destruct demo_application as (a & w & o & E). destruct (get_app_races 30 2 "page.xml" "page.xml" _ _ a _ _ E) as (s & _ & R & E0 & _).
  exists s. split; [exact R|]. by rewrite E0.
Qed.

Lemma get_app_progress_witness : exists s t' s', reachable 30 2 s /\ in_get_app (threads s t') = true /\ thread_step 30 2 t' s s'.
Proof.
  destruct demo_waiting as (s & R & E). destruct (get_app_progress 30 2 s 0 demo_construct_ends R E) as (t' & s' & Ht & Hs).
  exists s, t', s'. split; [exact R|split; [exact Ht|exact Hs]].
Defined.

(** ** A request over the wire *)

(** [GET] of the document, with two variables more; the body is not announced. *)
Module Wire.
Definition env : list (list Z * list Z) :=
  [(bytes "PATH_TRANSLATED", bytes "page.xml"); (bytes "REQUEST_METHOD", bytes "GET"); (bytes "HTTP_USER_AGENT", bytes "x");
   (bytes "REMOTE_USER", bytes "me")].
Definition params : list rec := [mkRec FCGI_PARAMS 1 (nv_encode env) []].
Definition wire_bytes : list Z := request_bytes Sample.begin params (stdin_bytes 1 Sample.body [] []).
Definition connection : Conn := mkConn [RdData (take 30 wire_bytes); RdData (drop 30 wire_bytes)] [] [] 0.
Definition world : FcgiRequest.World :=
  Sample.world <| FcgiRequest.os := mkOs false [mkAcc (AccConn (mkPeer 5 AF_INET 9 true connection)) false] [] false [] 0 |>.

Lemma wire_idle : idle world.
Proof. split; [done|]. split; [done|]. by left. Qed.

Lemma wire_next : next_connection first_byte world 5 connection.
Proof.
  split; [by repeat constructor|]. do 2 (split; [done|]). by exists (mkPeer 5 AF_INET 9 true connection), [], [], 0.
Qed.

Ltac all_bytes := apply (List.Forall_impl _ (fun b Hb => Hb)); vm_compute; repeat (constructor; [split; [discriminate|reflexivity]|]); constructor.

Lemma wire_sends : sends Sample.begin params env Sample.body [] [] connection.
Proof.
  split; [|split; [done|split; [|split; [by constructor|split; [by repeat constructor|]]]]].
  - split; try (by vm_compute).
    + split; [by vm_compute|]. all_bytes.
    + repeat (constructor; [repeat split; vm_compute; done|]). constructor.
    + all_bytes.
  - split; [|split; [done|all_bytes]]. repeat (constructor; [repeat split; vm_compute; done|]). constructor.
  - by vm_compute.
Qed.
End Wire.

Definition wire_role : list Z := FCGI_ROLE_eq ++ RESPONDER.
Definition wire_variables : list (list Z) := wire_role :: (nv_string <$> Wire.env).
Definition wire_parsed : parsed :=
  match read_env ((Str <$> wire_variables) ++ [Null]) (Parsed new_request 0 ∅) with
  | Ok (Val p) => p
  | _ => Parsed new_request 0 ∅
  end.

Lemma wire_read : read_env ((Str <$> wire_variables) ++ [Null]) (Parsed new_request 0 ∅) = Ok (Val wire_parsed).
Proof. vm_compute. reflexivity. Qed.

(** Variables as the web server sends them, one of them twice. *)
Definition sent_variables : list (string * string) :=
  [("PATH_TRANSLATED", "page.xml"); ("REQUEST_METHOD", "GET"); ("HTTP_USER_AGENT", "x=y"); ("REMOTE_USER", "me"); ("REMOTE_USER", "you")].
Definition sent_parsed : parsed :=
  match read_env (((fun nv => Str (bytes (nv.1 +:+ "=" +:+ nv.2))) <$> sent_variables) ++ [Null]) (Parsed new_request 0 ∅) with
  | Ok (Val p) => p
  | _ => Parsed new_request 0 ∅
  end.

Lemma sent_ok : Forall (fun nv => is_c_string nv.1 /\ is_c_string nv.2 /\ sfind nv.1 "=" 0 = None) sent_variables.
Proof. by repeat (constructor; [split; [|split; [|vm_compute; reflexivity]]; by apply (bool_decide_unpack _); vm_compute|]). Qed.

Lemma request_fields_witness :
  get_field PATH_TRANSLATED (req sent_parsed) = "page.xml" /\ get_field REMOTE_USER (req sent_parsed) = "you" /\
  get_field SERVER_NAME (req sent_parsed) = get_field SERVER_NAME new_request.
Proof.
  assert (read_env (((fun nv => Str (bytes (nv.1 +:+ "=" +:+ nv.2))) <$> sent_variables) ++ [Null]) (Parsed new_request 0 ∅) =
    Ok (Val sent_parsed)) as E by (vm_compute; reflexivity).
  pose proof (request_fields sent_variables [] sent_parsed sent_ok E) as Hf. rewrite List.Forall_forall in Hf.
  split; [|split].
  - etrans; [apply (Hf ("PATH_TRANSLATED", PATH_TRANSLATED)); cbn; tauto|vm_compute; reflexivity].
  - etrans; [apply (Hf ("REMOTE_USER", REMOTE_USER)); cbn; tauto|vm_compute; reflexivity].
  - etrans; [apply (Hf ("SERVER_NAME", SERVER_NAME)); cbn; tauto|vm_compute; reflexivity].
Defined.

(** The answer to the request, as the interpreter computes it. *)
Definition wire_answer : res (outcome http_response * server * string) :=
  answer 30 2 demo_interpreter (with_content wire_parsed (rd_content FCGI_STDIN 1 Sample.body))
    (map_order (map_to_list (env_vars wire_parsed))) demo_server.

Definition wire_response : option string :=
  match wire_answer with Ok (Val r, _, _) => Some (response_text r) | _ => None end.

Example wire_response_is : wire_response =
  Some ("Content-Type: text/plain" +:+ newline +:+ newline +:+
        "<html>Hello worldfailed: can&apos;t convert the string to a number</html>").
Proof. vm_compute. reflexivity. Qed.

Definition wire_fits : bool :=
  match wire_answer with
  | Ok (Val r, _, _) =>
      (zlen (bytes ("Status: " +:+ get_status r)) <=? INT_MAX) && (zlen (bytes (response_text r)) <=? INT_MAX)
  | _ => false
  end.

Lemma wire_answered : exists r v o, wire_answer = Ok (Val r, v, o) /\
  fits_int (bytes ("Status: " +:+ get_status r)) /\ fits_int (bytes (response_text r)).
Proof.
  assert (wire_fits = true) as E by (vm_compute; reflexivity). unfold wire_fits in E.
  destruct wire_answer as [[[[r|e] v] o]| |]; [|discriminate..]. apply andb_true_iff in E as [E1 E2].
  exists r, v, o. split; [done|]. split; by apply Z.leb_le.
Qed.

