(* ===== verification/DbStoreWitness.v ===== *)
(** * Witnesses: sessions in Redis and in tokens

    A Redis server with a password, whose data are the list that is the state of the system, a pool that
    makes a new connection each time, and the theorems of DbStored.v applied to a session in it; a JSON Web Token that is the text of a number, and the
    theorem of DbJwt.v. *)

From S2P Require Import Prelude DbLang DbContext DbTag DbServices DbStrings DbHttp DbSession DbStore DbStored DbJwt DbDemo DbServerWitness.

(** ** The tokenizer of the demo *)

Lemma demo_split_last c cur p : lacks c p -> demo_split c cur p = [cur +:+ p].
Proof.
  revert cur. induction p as [|d p IH]; intros cur Hp; [by rewrite sapp_nil_r|]. unfold lacks in Hp. cbn in *.
  apply not_elem_of_cons in Hp as [Hc Hp]. unfold is_char. rewrite bool_decide_eq_false_2 by done. rewrite IH by done.
  by rewrite <- sapp_assoc.
Qed.

Lemma demo_split_cut c cur p s : lacks c p -> demo_split c cur (p +:+ String c s) = (cur +:+ p) :: demo_split c "" s.
Proof.
  revert cur. induction p as [|d p IH]; intros cur Hp.
  - rewrite sapp_nil_l, sapp_nil_r. cbn [demo_split]. unfold is_char. by rewrite bool_decide_eq_true_2.
  - unfold lacks in Hp. cbn in Hp. apply not_elem_of_cons in Hp as [Hc Hp]. rewrite sapp_cons. cbn [demo_split]. unfold is_char.
    rewrite bool_decide_eq_false_2 by done. change (String d p) with (str1 d +:+ p). rewrite (sapp_assoc cur). by apply IH.
Qed.

Lemma demo_split_join c ps : ps <> [] -> Forall (lacks c) ps -> demo_split c "" (join (str1 c) ps) = ps.
Proof.
  induction ps as [|p ps IH]; [done|]. intros _ Hps. inversion Hps as [|? ? Hp Hps']; subst.
  destruct ps as [|q ps]; [by apply demo_split_last|].
  change (join (str1 c) (p :: q :: ps)) with (p +:+ String c (join (str1 c) (q :: ps))).
  rewrite demo_split_cut by done. by rewrite IH.
Qed.

Lemma demo_find_char c k v : lacks c k -> sfind (k +:+ str1 c +:+ v) (str1 c) 0 = Some (slen k).
Proof.
  unfold sfind. induction k as [|d k IH]; intros Hk.
  - rewrite sapp_nil_l. change (str1 c +:+ v) with (String c v). cbn [String.index]. cbn.
    destruct (ascii_dec c c); [by destruct v|done].
  - unfold lacks in *. cbn in Hk. apply not_elem_of_cons in Hk as [Hc Hk]. rewrite sapp_cons. cbn [String.index String.prefix].
    unfold str1 at 1. cbn. destruct (ascii_dec c d); [done|]. by rewrite IH.
Qed.

Lemma demo_pair c k v : lacks c k -> demo_split_pair (k +:+ str1 c +:+ v) (str1 c) = (k, v).
Proof.
  intros Hk. unfold demo_split_pair. rewrite demo_find_char by done. f_equal.
  - pose proof (ssub_app "" k (str1 c +:+ v)) as E. rewrite sapp_nil_l in E. exact E.
  - rewrite (sapp_assoc k). replace (slen k + 1)%nat with (slen (k +:+ str1 c)) by (rewrite slen_app; done). apply sdrop_app.
Qed.

#[export] Instance demo_text_laws : TextLaws.
Proof.
  split.
  - intros c ps Hps. change (demo_tokenize c (join (str1 c) ps) = ps). unfold demo_tokenize.
    destruct ps as [|p ps]; [done|]. rewrite demo_split_join; [|done|by eapply Forall_impl; [exact Hps|]; intros ? (_ & _ & ?)].
    induction Hps as [|q l (Hne & Ht & _) _ IH]; [done|]. cbn in *. rewrite !Ht.
    destruct q; [done|]. cbn. by rewrite IH.
  - intros c k v Hk _ _. by apply demo_pair.
Qed.

(** ** The server of the demo *)

(** The data of all databases: number, key, value, the latest first. *)
Fixpoint demo_data (db : string) (s : list string) : gmap string string :=
  match s with
  | d :: k :: v :: s' => if seqb d db then <[k := v]> (demo_data db s') else demo_data db s'
  | _ => ∅
  end.

#[export] Instance demo_hiredis : Hiredis := {
  redisContext := string * bool;
  redisConnect _ _ s := (Some ("0", false), s);
  redis_err _ := false;
  redis_errstr _ := "";
  redisCommand x args s :=
    match args with
    | ["AUTH"; p] =>
        if seqb p "secret" then (Some (REDIS_REPLY_STATUS "OK"), (x.1, true), s)
        else (Some (REDIS_REPLY_ERROR "WRONGPASS invalid password"), x, s)
    | _ =>
        if negb x.2 then (Some (REDIS_REPLY_ERROR "NOAUTH Authentication required."), x, s)
        else match args with
        | ["GET"; k] => (Some (get_reply (demo_data x.1 s !! k)), x, s)
        | ["SET"; k; v] => (Some (REDIS_REPLY_STATUS "OK"), x, x.1 :: k :: v :: s)
        | ["SELECT"; n] => (Some (REDIS_REPLY_STATUS "OK"), (n, x.2), s)
        | _ => (Some (REDIS_REPLY_INTEGER 1), x, s)
        end
    end;
  redisFree _ s := s
}.

#[export] Instance demo_redis_pool : RedisPool := {
  redis_acquire _ s := (Val (RedisConnection None false), s);
  redis_release _ _ s := s
}.

#[export] Instance demo_redis_laws : RedisLaws.
Proof.
  refine {| redis_data := demo_data; selected (x : string * bool) := x.1; authorised x := x.2 = true; redis_pooled _ _ _ := True |}.
  - intros host p s. by exists ("0", false), s.
  - done.
  - intros x args s r x' s' E. destruct r as [rep|]; [done|]. exfalso. revert E. cbn. repeat case_match; congruence.
  - intros [db []] k s r x' s' [= <- <- <-]; (split; [done|]); intros rep [= <-]; (split; [done|]); (split; [done|]); (by right) || (by left).
  - intros [db []] k v s rep x' s' [= <- <- <-]; (split; [done|]); (split; [done|]); [|done]. cbn. by rewrite seqb_refl.
  - intros [db b] p s r x' s'. cbn. destruct (seqb p "secret"); by intros [= <- <- <-].
  - intros [db []] k n s r x' s' [= <- <- <-]; done.
  - intros [db []] n s r x' s' [= <- <- <-]; (split; [done|]); by intros rep [= <-].
  - done.
  - intros k r s' s [= <- <-]. split_and!; [done..|]. by intros db c _ [= <-].
  - done.
Defined.

(** ** The theorems *)

Definition demo_redis : redis_config := RedisConfig 60 2 "localhost:6379" "secret".
Definition demo_user : context := Context [{["LOGIN" := "wolf"; "LANG" := ""]}] [] "user" false.
Definition demo_saving : world := World (demo_user :: local_context []) ∅ ∅ [].
Definition demo_holder : kv_holder := KvHolder "id7" true true.
Definition demo_next : http_request := set_header "Cookie" "session=id7" new_request.

Definition demo_saved : option (world * demo_response) :=
  match kv_save (redis_put_value demo_redis) (demo_holder, new_response, demo_saving) with
  | Ok (Val _, (_, resp, w), _) => Some (w, resp)
  | _ => None
  end.

Example demo_saved_is : (fun wr => os wr.1) <$> demo_saved = Some ["2"; "id7"; "LOGIN=wolf;LANG="].
Proof. vm_compute. reflexivity. Qed.

Ltac lacking := first [apply (bool_decide_unpack _); vm_compute; exact I | done].

Lemma demo_carried : map_Forall carried (get_values demo_user).
Proof.
  unfold get_values. cbn [foldr stack demo_user]. rewrite (right_id_L ∅ (∪)).
  apply map_Forall_insert_2; [|apply map_Forall_insert_2; [|apply map_Forall_empty]].
  all: constructor; [split; done|split_and!; lacking|split_and!; vm_compute; reflexivity|split; lacking].
Qed.

Lemma demo_names_server : names_server demo_redis.
Proof.
  split; [by vm_compute|]. intros i Hi. assert (i = "localhost:6379") as -> by (vm_compute in Hi; by apply list_elem_of_singleton in Hi).
  by vm_compute.
Qed.

Lemma demo_accepts : accepts_commands demo_redis.
Proof.
  split.
  - done.
  - intros [db b] s rep x' s' _. cbn. by intros [= _ <- _].
  - intros [db []] s rep x' s' E; [|done]. by intros [= <- _ _].
  - intros [db []] k s rep x' s' E; [|done]. intros [= <- _ _]. by destruct (demo_data db s !! k).
  - intros [db []] k v s rep x' s' E; [|done]. by intros [= <- _ _].
Qed.

Definition demo_next_world (o : list string) : world := World (user_context (local_context [])) ∅ ∅ o.


(** ** Tokens *)

Definition token_data : Type := string * Z * option Z * option string * list (string * string).

Fixpoint bits (p : positive) : string :=
  match p with xH => "" | xO p => String "0" (bits p) | xI p => String "1" (bits p) end.
Fixpoint unbits (s : string) : positive :=
  match s with "" => xH | String c s' => if is_char c "1" then xI (unbits s') else xO (unbits s') end.

Lemma unbits_bits p : unbits (bits p) = p.
Proof. induction p as [p IH|p IH|]; cbn; by rewrite ?IH. Qed.

Definition data_of (secret : string) (t : jwt_token) : token_data :=
  (secret, iat t, expires_at t, iss t, map_to_list (claims t)).

Definition demo_verify (secret : string) (issuer : option string) (d : token_data) (now : Z) : bool :=
  let '(key, from, until, by_, _) := d in
  seqb key secret && (from <=? now + 60) && match until with Some e => now <=? e + 60 | None => true end &&
  match issuer with Some i => bool_decide (by_ = Some i) | None => true end.

#[export] Instance demo_jwt : Jwt := {
  jwt_decoded := token_data;
  jwt_decode s := match s with
    | String "J" s' => match decode (unbits s') with Some d => Val d | None => Exc (std_exception "invalid token supplied") end
    | _ => Exc (std_exception "invalid token supplied")
    end;
  jwt_payload d := DemoObject d.2;
  jwt_verify secret issuer d o :=
    if demo_verify secret issuer d (sys_time o) then Val tt else Exc (std_exception "token verification failed");
  jwt_sign secret t := String "J" (bits (encode (data_of secret t)))
}.

#[export] Instance demo_jwt_laws : JwtLaws.
Proof.
  split; [done|]. intros secret t _ Hc.
  exists (data_of secret t), ((fun kv => (kv.1, DemoString kv.2)) <$> map_to_list (claims t)).
  split; [cbn; by rewrite unbits_bits, decode_encode|]. split; [done|]. split.
  - unfold own_members. assert (Forall (fun kv => underscored kv.1 = true) (map_to_list (claims t))) as Hu.
    { apply Forall_forall. intros [k v] Hk. apply elem_of_map_to_list in Hk. by apply (Hc k v). }
    induction Hu as [|[k v] l Hk _ IH]; [done|]. cbn [fmap list_fmap]. rewrite filter_cons_True by done. cbn. by constructor.
  - intros s [Hi He]. unfold jwt_verify, demo_jwt, demo_verify, data_of. rewrite seqb_refl, (proj2 (Z.leb_le _ _)) by done.
    assert (match expires_at t with Some e => sys_time s <=? e + 60 | None => true end = true) as ->
      by (destruct (expires_at t); [by apply Z.leb_le|done]).
    destruct (iss t); [|done]. by rewrite bool_decide_eq_true_2.
Qed.

Definition demo_jwt_config : jwt_config := JwtConfig 3600 "secret" "token" "dbpager".
Definition demo_token_user : context := Context [{["TOKEN_LOGIN" := "wolf"; "LANG" := "en"; "TOKEN_A" := ""]}] [] "user" false.
Definition demo_token_world : world := World (demo_token_user :: local_context []) ∅ ∅ [].
Definition demo_token_next (token : string) : http_request := set_header "Cookie" ("session-token=" +:+ token) new_request.

Lemma demo_cookie token : map_find "session-token" (get_cookies (demo_token_next token)) = Some token.
Proof.
  change (map_find "session-token" [demo_split_pair (("session-token" +:+ "=") +:+ token) "="] = Some token).
  rewrite <- sapp_assoc. rewrite (demo_pair "="%char) by lacking. done.
Qed.

Lemma demo_named : map_Forall (fun k _ => named demo_jwt_config k) (get_values demo_token_user).
Proof.
  unfold get_values. cbn [foldr stack demo_token_user]. rewrite (right_id_L ∅ (∪)).
  repeat (apply map_Forall_insert_2); [..|apply map_Forall_empty]; (split; [by vm_compute|]); intros E;
    first [vm_compute in E; discriminate E|by exists "LOGIN"|by exists "A"].
Qed.

Lemma demo_texted : map_Forall (texted demo_jwt_config) (get_values demo_token_user).
Proof.
  unfold get_values. cbn [foldr stack demo_token_user]. rewrite (right_id_L ∅ (∪)).
  repeat (apply map_Forall_insert_2); [..|apply map_Forall_empty]; intros _; split; vm_compute; reflexivity.
Qed.

Lemma jwt_roundtrip_witness :
  match jwt_save demo_jwt_config (JwtHolder "" true false, new_response, demo_token_world) with
  | Ok (Val _, (h1, _, w1), _) =>
      w1 = demo_token_world /\
      exists h2 w3 c3, jwt_create (demo_token_next (jwt_id h1)) (demo_next_world []) = Ok (Val h2, demo_next_world [], "") /\
        jwt_load demo_jwt_config (h2, demo_next_world []) = Ok (Val tt, (h2, w3), "") /\
        chain w3 = c3 :: local_context [] /\ get_values c3 = filter (prefixed demo_jwt_config) (get_values demo_token_user)
  | _ => False
  end.
Proof.
  pose proof (jwt_roundtrip demo_jwt_config (JwtHolder "" true false) new_response demo_token_world demo_token_user (local_context [])
    eq_refl eq_refl demo_named demo_texted eq_refl) as Hr.
  destruct (jwt_save _ _) as [[[[u|e] [[h1 r1] w1]] s]| |]; [|by destruct Hr as (_ & Hr & _)|exact Hr..].
  destruct Hr as (Hw & Hn & Hr). split; [exact Hw|]. rewrite (Hn eq_refl) in Hr. destruct Hr as [_ Hr].
  apply (Hr (demo_token_next (jwt_id h1)) (demo_next_world []) (Context [∅] [] "user" false) (local_context [])).
  - apply demo_cookie.
  - split; vm_compute; discriminate.
  - reflexivity.
  - reflexivity.
Defined.
